(** * squashfs-tools-ng: the inode/directory serializer, the data-reader dump
      path and the tar header decoder, as Rocq functions.

    The embedding follows the C sources function by function:
    - [Meta]    : mkfs/meta.c   (hard_link_count, write_dir, write_inode,
                                 write_child_inodes, sqfs_write_inodes)
    - [Dump]    : lib/common/data_reader_dump.c (append_block)
    - [DumpReader] : lib/common/data_reader_dump.c (sqfs_data_reader_dump)
    - [WriteRetry] : lib/util/write_retry.c (write_retry)
    - [Tar]     : lib/tar/read_header.c (is_zero_block, check_version,
                                         decode_header)
    - [Pax]     : lib/tar/read_header.c (mkxattr, read_pax_header)

    Integers of a fixed width are values of [Z]; every place where the C
    code truncates (an assignment to a narrower field, an unsigned
    subtraction, htoleNN) is written out with [u16], [u32] or [u64].
    Bytes are values of [Z] in the range 0..255. *)

From Stdlib Require Import ZArith List Lia Bool.
Import ListNotations.
Local Open Scope Z_scope.
Set Warnings "-register-all".

(* ===================================================================== *)
(** ** Fixed-width integers and little-endian encodings                   *)
(* ===================================================================== *)

Module Bits.

Definition u16 (x : Z) : Z := x mod 2 ^ 16.
Definition u32 (x : Z) : Z := x mod 2 ^ 32.
Definition u64 (x : Z) : Z := x mod 2 ^ 64.

(** Reading a 16-bit pattern back as a two's complement number. *)
Definition s16 (x : Z) : Z := if u16 x <? 2 ^ 15 then u16 x else u16 x - 2 ^ 16.

(** The host is little endian: htoleNN only fixes the width. *)
Definition htole16 : Z -> Z := u16.
Definition htole32 : Z -> Z := u32.
Definition htole64 : Z -> Z := u64.
Definition le32toh : Z -> Z := u32.

Fixpoint le_bytes (n : nat) (x : Z) : list Z :=
  match n with
  | O => []
  | S n' => x mod 256 :: le_bytes n' (x / 256)
  end.

Definition le16 : Z -> list Z := le_bytes 2.
Definition le32 : Z -> list Z := le_bytes 4.
Definition le64 : Z -> list Z := le_bytes 8.

Definition len {A : Type} (l : list A) : Z := Z.of_nat (length l).

End Bits.
Import Bits.

(* ===================================================================== *)
(** ** The meta-writer                                                    *)
(* ===================================================================== *)

Module MetaWriter.

(** A block compressor: [None] is a codec error, [Some c] the compressed
    candidate for the block. *)
Definition compressor_t := list Z -> option (list Z).

Definition SQFS_META_BLOCK_SIZE : Z := 8192.

(** Modelled from the spec: the meta-writer object (meta_writer.h and
    meta_writer.c are missing from the sources at hand; only the fields
    [offset], [block_offset] and [data] are visible through their uses in
    meta.c).  [offset] is the fill level of the current block,
    [block_offset] the start of the current block relative to the first
    block, i.e. the number of bytes emitted so far.  A writer is the only
    one writing to its descriptor while it lives; the bytes it has emitted
    to [outfd] are kept in [written]. *)
Record meta_writer_t : Type := mk_meta_writer {
  offset : Z;
  block_offset : Z;
  data : list Z;
  outfd : Z;
  cmp : compressor_t;
  written : list Z
}.

(** Modelled from the spec: meta_writer_create (missing from the sources):
    a fresh writer on a descriptor, cursor at (0, 0). *)
Definition meta_writer_create (fd : Z) (c : compressor_t) : meta_writer_t :=
  mk_meta_writer 0 0 [] fd c [].

(** Modelled from the spec: meta_writer_flush (missing from the sources):
    "finalize the current block"; "each emitted block is framed with a
    16-bit little-endian length header whose top bit indicates
    UNCOMPRESSED"; the compressed form is kept when it is smaller than the
    original.  Nothing is emitted for an empty block. *)
Definition meta_writer_flush (m : meta_writer_t) : option meta_writer_t :=
  if offset m =? 0 then Some m
  else
    match cmp m (data m) with
    | None => None
    | Some c =>
        let blk :=
          if len c <? offset m
          then le16 (len c) ++ c
          else le16 (Z.lor (offset m) 0x8000) ++ data m in
        Some (mk_meta_writer 0 (block_offset m + len blk) [] (outfd m) (cmp m)
                             (written m ++ blk))
    end.

(** Modelled from the spec: meta_writer_append (missing from the sources):
    "copy into the current block, flushing automatically when full". *)
Fixpoint meta_writer_append (m : meta_writer_t) (bytes : list Z)
  : option meta_writer_t :=
  match bytes with
  | [] => Some m
  | b :: rest =>
      let m1 := mk_meta_writer (offset m + 1) (block_offset m) (data m ++ [b])
                               (outfd m) (cmp m) (written m) in
      if offset m1 =? SQFS_META_BLOCK_SIZE then
        match meta_writer_flush m1 with
        | None => None
        | Some m2 => meta_writer_append m2 rest
        end
      else meta_writer_append m1 rest
  end.

End MetaWriter.
Import MetaWriter.

(* ===================================================================== *)
(** ** The ID table                                                       *)
(* ===================================================================== *)

Module IdTable.

(** Modelled from the spec: the ID table (id_table.c is missing from the
    sources): it "deduplicates" uids and gids into one table; the index
    handed back to meta.c is 16 bits wide, so the table holds at most
    0x10000 entries. *)
Definition id_table_t := list Z.

Fixpoint id_table_find (tbl : id_table_t) (id : Z) (i : Z) : option Z :=
  match tbl with
  | [] => None
  | x :: tbl' => if x =? id then Some i else id_table_find tbl' id (i + 1)
  end.

(** Modelled from the spec: id_table_id_to_index (missing from the
    sources): the index of a known id, or the index of a new entry. *)
Definition id_table_id_to_index (tbl : id_table_t) (id : Z)
  : option (id_table_t * Z) :=
  match id_table_find tbl id 0 with
  | Some i => Some (tbl, i)
  | None =>
      if len tbl <? 0x10000 then Some (tbl ++ [id], len tbl) else None
  end.

End IdTable.
Import IdTable.

(* ===================================================================== *)
(** ** The filesystem tree                                                *)
(* ===================================================================== *)

Module Fstree.

(** Mode bits of <sys/stat.h>. *)
Definition S_IFMT   : Z := 0xF000.   (* 0170000 octal *)
Definition S_IFSOCK : Z := 0xC000.   (* 0140000 octal *)
Definition S_IFLNK  : Z := 0xA000.   (* 0120000 octal *)
Definition S_IFREG  : Z := 0x8000.   (* 0100000 octal *)
Definition S_IFBLK  : Z := 0x6000.   (* 0060000 octal *)
Definition S_IFDIR  : Z := 0x4000.   (* 0040000 octal *)
Definition S_IFCHR  : Z := 0x2000.   (* 0020000 octal *)
Definition S_IFIFO  : Z := 0x1000.   (* 0010000 octal *)

Definition S_ISDIR (m : Z) : bool := Z.land m S_IFMT =? S_IFDIR.
Definition S_ISREG (m : Z) : bool := Z.land m S_IFMT =? S_IFREG.

(** Inode type identifiers of the SquashFS format (squashfs.h is missing
    from the sources; the numbers are those of the on-disk format). *)
Definition SQFS_INODE_DIR      : Z := 1.
Definition SQFS_INODE_FILE     : Z := 2.
Definition SQFS_INODE_SLINK    : Z := 3.
Definition SQFS_INODE_BDEV     : Z := 4.
Definition SQFS_INODE_CDEV     : Z := 5.
Definition SQFS_INODE_FIFO     : Z := 6.
Definition SQFS_INODE_SOCKET   : Z := 7.
Definition SQFS_INODE_EXT_DIR  : Z := 8.
Definition SQFS_INODE_EXT_FILE : Z := 9.

(** file_info_t: [size] and [startblock] are 64 bits wide, the fragment
    fields 32 bits; [blocksizes] is the array behind the struct. *)
Record file_info_t : Type := mk_file_info {
  fi_size : Z;
  fi_startblock : Z;
  fi_fragment : Z;
  fi_fragment_offset : Z;
  fi_blocksizes : list Z
}.

(** dir_info_t: the [children] list (linked through [next] in C) and the
    place and size of the listing, filled in by write_dir. *)
Record dir_info_t (T : Type) : Type := mk_dir_info {
  di_children : list T;
  di_size : Z;
  di_start_block : Z;
  di_block_offset : Z
}.
Arguments mk_dir_info {T}.
Arguments di_children {T}.
Arguments di_size {T}.
Arguments di_start_block {T}.
Arguments di_block_offset {T}.

(** The [data] union of a node. *)
Inductive node_data_t (T : Type) : Type :=
| DataDir (dir : dir_info_t T)
| DataFile (file : file_info_t)
| DataSlink (slink_target : list Z)
| DataDev (devno : Z).
Arguments DataDir {T}.
Arguments DataFile {T}.
Arguments DataSlink {T}.
Arguments DataDev {T}.

(** Modelled from the spec: the common fields of a node (fstree.h is
    missing from the sources).  [name], [mode], [uid], [gid], [inode_ref],
    [inode_num] and [type] are the fields meta.c reads and writes; [mtime]
    and the optional [xattr] id are the two further common fields of the
    spec's data model ("mtime, optional xattr-id"). *)
Record node_attr : Type := mk_attr {
  a_name : list Z;
  a_mode : Z;
  a_uid : Z;
  a_gid : Z;
  a_mtime : Z;
  a_xattr : option Z;
  a_inode_ref : Z;
  a_inode_num : Z;
  a_type : Z
}.

Inductive tree_node_t : Type :=
| TreeNode (attr : node_attr) (data : node_data_t tree_node_t).

Definition attr (n : tree_node_t) : node_attr := let (a, _) := n in a.
Definition data (n : tree_node_t) : node_data_t tree_node_t := let (_, d) := n in d.

Definition name (n : tree_node_t) := a_name (attr n).
Definition mode (n : tree_node_t) := a_mode (attr n).
Definition uid (n : tree_node_t) := a_uid (attr n).
Definition gid (n : tree_node_t) := a_gid (attr n).
Definition mtime (n : tree_node_t) := a_mtime (attr n).
Definition xattr (n : tree_node_t) := a_xattr (attr n).
Definition inode_ref (n : tree_node_t) := a_inode_ref (attr n).
Definition inode_num (n : tree_node_t) := a_inode_num (attr n).
Definition type (n : tree_node_t) := a_type (attr n).

(** The children of a node: those of its directory record. *)
Definition children (n : tree_node_t) : list tree_node_t :=
  match data n with
  | DataDir di => di_children di
  | _ => []
  end.

(** Field assignments. *)
Definition set_inode_ref (n : tree_node_t) (v : Z) : tree_node_t :=
  let a := attr n in
  TreeNode (mk_attr (a_name a) (a_mode a) (a_uid a) (a_gid a) (a_mtime a)
                    (a_xattr a) v (a_inode_num a) (a_type a)) (data n).
Definition set_inode_num (n : tree_node_t) (v : Z) : tree_node_t :=
  let a := attr n in
  TreeNode (mk_attr (a_name a) (a_mode a) (a_uid a) (a_gid a) (a_mtime a)
                    (a_xattr a) (a_inode_ref a) v (a_type a)) (data n).
Definition set_type (n : tree_node_t) (v : Z) : tree_node_t :=
  let a := attr n in
  TreeNode (mk_attr (a_name a) (a_mode a) (a_uid a) (a_gid a) (a_mtime a)
                    (a_xattr a) (a_inode_ref a) (a_inode_num a) v) (data n).
Definition set_mtime (n : tree_node_t) (v : Z) : tree_node_t :=
  let a := attr n in
  TreeNode (mk_attr (a_name a) (a_mode a) (a_uid a) (a_gid a) v
                    (a_xattr a) (a_inode_ref a) (a_inode_num a) (a_type a)) (data n).
Definition set_xattr (n : tree_node_t) (v : option Z) : tree_node_t :=
  let a := attr n in
  TreeNode (mk_attr (a_name a) (a_mode a) (a_uid a) (a_gid a) (a_mtime a)
                    v (a_inode_ref a) (a_inode_num a) (a_type a)) (data n).
Definition set_data (n : tree_node_t) (d : node_data_t tree_node_t) : tree_node_t :=
  TreeNode (attr n) d.

(** The number of nodes of a tree. *)
Fixpoint node_count (n : tree_node_t) : nat :=
  match n with
  | TreeNode _ (DataDir di) =>
      S ((fix sum (l : list tree_node_t) : nat :=
            match l with
            | [] => O
            | c :: l' => (node_count c + sum l')%nat
            end) (di_children di))
  | TreeNode _ _ => 1%nat
  end.

Definition strlen (s : list Z) : Z := len s.

End Fstree.
Import Fstree.

(* ===================================================================== *)
(** ** On-disk records                                                    *)
(* ===================================================================== *)

Module Disk.

Definition SQFS_MAX_DIR_ENT : Z := 256.

(** struct sqfs_dir_header_t *)
Record sqfs_dir_header_t : Type := mk_dir_header {
  hdr_count : Z;
  hdr_start_block : Z;
  hdr_inode_number : Z
}.

(** struct sqfs_dir_entry_t; the 16-bit inode field is [inode_number] in
    meta.c and [inode_diff] in dir.h. *)
Record sqfs_dir_entry_t : Type := mk_dir_entry {
  ent_offset : Z;
  ent_inode_number : Z;
  ent_type : Z;
  ent_size : Z
}.

(** The inode records (squashfs.h is missing from the sources): the fields
    are those named by the initializers of write_inode, laid out as in the
    SquashFS on-disk format. *)
Record sqfs_inode_t : Type := mk_inode {
  base_type : Z;
  base_mode : Z;
  base_uid_idx : Z;
  base_gid_idx : Z;
  base_mod_time : Z;
  base_inode_number : Z
}.

Record sqfs_inode_ipc_t : Type := mk_ipc { ipc_nlink : Z }.

Record sqfs_inode_slink_t : Type := mk_slink {
  slink_nlink : Z;
  slink_target_size : Z
}.

Record sqfs_inode_dev_t : Type := mk_dev {
  dev_nlink : Z;
  dev_devno : Z
}.

Record sqfs_inode_file_t : Type := mk_file {
  reg_blocks_start : Z;
  reg_fragment_index : Z;
  reg_fragment_offset : Z;
  reg_file_size : Z
}.

Record sqfs_inode_file_ext_t : Type := mk_file_ext {
  fext_blocks_start : Z;
  fext_file_size : Z;
  fext_sparse : Z;
  fext_nlink : Z;
  fext_fragment_idx : Z;
  fext_fragment_offset : Z;
  fext_xattr_idx : Z
}.

Record sqfs_inode_dir_t : Type := mk_dir {
  dir_start_block : Z;
  dir_nlink : Z;
  dir_size : Z;
  dir_offset : Z;
  dir_parent_inode : Z
}.

Record sqfs_inode_dir_ext_t : Type := mk_dir_ext {
  dext_nlink : Z;
  dext_size : Z;
  dext_start_block : Z;
  dext_parent_inode : Z;
  dext_inodex_count : Z;
  dext_offset : Z;
  dext_xattr_idx : Z
}.

(** The bytes of each record, as handed to meta_writer_append together
    with sizeof. *)
Definition bytes_dir_header (h : sqfs_dir_header_t) : list Z :=
  le32 (hdr_count h) ++ le32 (hdr_start_block h) ++ le32 (hdr_inode_number h).

Definition bytes_dir_entry (e : sqfs_dir_entry_t) : list Z :=
  le16 (ent_offset e) ++ le16 (ent_inode_number e) ++ le16 (ent_type e)
  ++ le16 (ent_size e).

Definition bytes_inode (b : sqfs_inode_t) : list Z :=
  le16 (base_type b) ++ le16 (base_mode b) ++ le16 (base_uid_idx b)
  ++ le16 (base_gid_idx b) ++ le32 (base_mod_time b)
  ++ le32 (base_inode_number b).

Definition bytes_ipc (r : sqfs_inode_ipc_t) : list Z := le32 (ipc_nlink r).

Definition bytes_slink (r : sqfs_inode_slink_t) : list Z :=
  le32 (slink_nlink r) ++ le32 (slink_target_size r).

Definition bytes_dev (r : sqfs_inode_dev_t) : list Z :=
  le32 (dev_nlink r) ++ le32 (dev_devno r).

Definition bytes_file (r : sqfs_inode_file_t) : list Z :=
  le32 (reg_blocks_start r) ++ le32 (reg_fragment_index r)
  ++ le32 (reg_fragment_offset r) ++ le32 (reg_file_size r).

Definition bytes_file_ext (r : sqfs_inode_file_ext_t) : list Z :=
  le64 (fext_blocks_start r) ++ le64 (fext_file_size r) ++ le64 (fext_sparse r)
  ++ le32 (fext_nlink r) ++ le32 (fext_fragment_idx r)
  ++ le32 (fext_fragment_offset r) ++ le32 (fext_xattr_idx r).

Definition bytes_dir (r : sqfs_inode_dir_t) : list Z :=
  le32 (dir_start_block r) ++ le32 (dir_nlink r) ++ le16 (dir_size r)
  ++ le16 (dir_offset r) ++ le32 (dir_parent_inode r).

Definition bytes_dir_ext (r : sqfs_inode_dir_ext_t) : list Z :=
  le32 (dext_nlink r) ++ le32 (dext_size r) ++ le32 (dext_start_block r)
  ++ le32 (dext_parent_inode r) ++ le16 (dext_inodex_count r)
  ++ le16 (dext_offset r) ++ le32 (dext_xattr_idx r).

(** sizeof(hdr) and sizeof(ent) in write_dir. *)
Definition sizeof_dir_header : Z := 12.
Definition sizeof_dir_entry : Z := 8.

End Disk.
Import Disk.

(* ===================================================================== *)
(** ** mkfs/meta.c                                                        *)
(* ===================================================================== *)

Module Meta.

(** The fields of the super block that sqfs_write_inodes and write_inode
    touch (super.h is missing from the sources).  [inode_count] and
    [block_size] are 32 bits wide, the others 64 bits. *)
Record sqfs_super_t : Type := mk_super {
  inode_count : Z;
  block_size : Z;
  root_inode_ref : Z;
  bytes_used : Z;
  inode_table_start : Z;
  directory_table_start : Z
}.

Record options_t : Type := mk_options { def_mtime : Z }.

Record fstree_t : Type := mk_fstree { root : tree_node_t }.

(** The fields of sqfs_info_t used by meta.c (mksquashfs.h is missing from
    the sources). *)
Record sqfs_info_t : Type := mk_info {
  info_outfd : Z;
  opt : options_t;
  super : sqfs_super_t;
  fs : fstree_t;
  idtbl : id_table_t;
  inode_counter : Z;
  info_cmp : compressor_t
}.

Definition set_super (i : sqfs_info_t) (s : sqfs_super_t) : sqfs_info_t :=
  mk_info (info_outfd i) (opt i) s (fs i) (idtbl i) (inode_counter i) (info_cmp i).
Definition set_fs (i : sqfs_info_t) (f : fstree_t) : sqfs_info_t :=
  mk_info (info_outfd i) (opt i) (super i) f (idtbl i) (inode_counter i) (info_cmp i).
Definition set_idtbl (i : sqfs_info_t) (t : id_table_t) : sqfs_info_t :=
  mk_info (info_outfd i) (opt i) (super i) (fs i) t (inode_counter i) (info_cmp i).
Definition set_inode_counter (i : sqfs_info_t) (c : Z) : sqfs_info_t :=
  mk_info (info_outfd i) (opt i) (super i) (fs i) (idtbl i) c (info_cmp i).

Definition set_inode_count (s : sqfs_super_t) (v : Z) : sqfs_super_t :=
  mk_super v (block_size s) (root_inode_ref s) (bytes_used s)
           (inode_table_start s) (directory_table_start s).
Definition set_root_inode_ref (s : sqfs_super_t) (v : Z) : sqfs_super_t :=
  mk_super (inode_count s) (block_size s) v (bytes_used s)
           (inode_table_start s) (directory_table_start s).
Definition set_bytes_used (s : sqfs_super_t) (v : Z) : sqfs_super_t :=
  mk_super (inode_count s) (block_size s) (root_inode_ref s) v
           (inode_table_start s) (directory_table_start s).
Definition set_inode_table_start (s : sqfs_super_t) (v : Z) : sqfs_super_t :=
  mk_super (inode_count s) (block_size s) (root_inode_ref s) (bytes_used s)
           v (directory_table_start s).
Definition set_directory_table_start (s : sqfs_super_t) (v : Z) : sqfs_super_t :=
  mk_super (inode_count s) (block_size s) (root_inode_ref s) (bytes_used s)
           (inode_table_start s) v.

(** *** hard_link_count *)

Fixpoint count_next (n : list tree_node_t) (count : Z) : Z :=
  match n with
  | [] => count
  | _ :: next => count_next next (u64 (count + 1))
  end.

(** [None] stands for reading [data.dir] of a node whose union holds
    something else. *)
Definition hard_link_count (n : tree_node_t) : option Z :=
  if S_ISDIR (mode n) then
    match data n with
    | DataDir di => Some (count_next (di_children di) 2)
    | _ => None
    end
  else Some 1.

(** *** write_dir *)

(** The inner [for (d = c; d != NULL; d = d->next)] loop: the length of the
    run of nodes that fit under one header based at [c]. *)
Fixpoint count_entries (c : tree_node_t) (d : list tree_node_t) (count : Z) : Z :=
  match d with
  | [] => count
  | d0 :: next =>
      if negb (Z.shiftr (inode_ref d0) 16 =? Z.shiftr (inode_ref c) 16) then count
      else if u32 (inode_num d0 - inode_num c) >? 0xFFFF then count
      else count_entries c next (u64 (count + 1))
  end.

(** The [for (i = 0; i < count; ++i)] loop: [d] is the first node of the
    group, [c] walks the list.  The result is the writer, the listing size
    and the rest of the list. *)
Fixpoint write_dir_entries (n : nat) (d : tree_node_t) (c : list tree_node_t)
         (dm : meta_writer_t) (size : Z)
  : option (meta_writer_t * Z * list tree_node_t) :=
  match n with
  | O => Some (dm, size, c)
  | S n' =>
      match c with
      | [] => None
      | c0 :: next =>
          let ent := mk_dir_entry
                       (htole16 (Z.land (inode_ref c0) 0x0000FFFF))
                       (htole16 (u32 (inode_num c0 - inode_num d)))
                       (htole16 (type c0))
                       (htole16 (u64 (strlen (name c0) - 1))) in
          let size := u64 (size + (sizeof_dir_entry + strlen (name c0))) in
          match meta_writer_append dm (bytes_dir_entry ent) with
          | None => None
          | Some dm1 =>
              match meta_writer_append dm1 (name c0) with
              | None => None
              | Some dm2 => write_dir_entries n' d next dm2 size
              end
          end
      end
  end.

(** The [while (c != NULL)] loop.  Every round consumes [count] nodes; the
    fuel bounds the number of rounds. *)
Fixpoint write_dir_loop (fuel : nat) (c : list tree_node_t)
         (dm : meta_writer_t) (size : Z) : option (meta_writer_t * Z) :=
  match c with
  | [] => Some (dm, size)
  | c0 :: _ =>
      match fuel with
      | O => None
      | S fuel' =>
          let count := count_entries c0 c 0 in
          let count := if count >? SQFS_MAX_DIR_ENT then SQFS_MAX_DIR_ENT else count in
          let hdr := mk_dir_header
                       (htole32 (u64 (count - 1)))
                       (htole32 (Z.shiftr (inode_ref c0) 16))
                       (htole32 (inode_num c0)) in
          let size := u64 (size + sizeof_dir_header) in
          match meta_writer_append dm (bytes_dir_header hdr) with
          | None => None
          | Some dm1 =>
              match write_dir_entries (Z.to_nat count) c0 c dm1 size with
              | None => None
              | Some (dm2, size', c') => write_dir_loop fuel' c' dm2 size'
              end
          end
      end
  end.

Definition write_dir (dm : meta_writer_t) (dir : dir_info_t tree_node_t)
  : option (meta_writer_t * dir_info_t tree_node_t) :=
  let c := di_children dir in
  match write_dir_loop (length c) c dm 0 with
  | None => None
  | Some (dm', size) =>
      Some (dm', mk_dir_info c size (u64 (block_offset dm)) (u32 (offset dm)))
  end.

(** *** The serializer state: the objects behind [info], [im] and [dm] *)

Record ser_t : Type := mk_ser {
  s_info : sqfs_info_t;
  s_im : meta_writer_t;
  s_dm : meta_writer_t
}.

Definition M (A : Type) : Type := ser_t -> option (A * ser_t).

Definition ret {A : Type} (a : A) : M A := fun s => Some (a, s).
Definition bind {A B : Type} (c : M A) (k : A -> M B) : M B :=
  fun s => match c s with
           | None => None
           | Some (a, s') => k a s'
           end.
Definition fail {A : Type} : M A := fun _ => None.
Definition get : M ser_t := fun s => Some (s, s).
Definition lift {A : Type} (o : option A) : M A :=
  fun s => match o with None => None | Some a => Some (a, s) end.

Declare Scope ser_scope.
Delimit Scope ser_scope with ser.
Notation "x <- c ;; k" := (bind c (fun x => k))
  (at level 61, c at next level, right associativity) : ser_scope.
Notation "c ;;; k" := (bind c (fun _ => k))
  (at level 61, right associativity) : ser_scope.
Local Open Scope ser_scope.

Definition modify_info (f : sqfs_info_t -> sqfs_info_t) : M unit :=
  fun s => Some (tt, mk_ser (f (s_info s)) (s_im s) (s_dm s)).

(** meta_writer_append(im, ...) and meta_writer_flush on either writer. *)
Definition im_append (bytes : list Z) : M unit :=
  fun s => match meta_writer_append (s_im s) bytes with
           | None => None
           | Some m => Some (tt, mk_ser (s_info s) m (s_dm s))
           end.
Definition im_flush : M unit :=
  fun s => match meta_writer_flush (s_im s) with
           | None => None
           | Some m => Some (tt, mk_ser (s_info s) m (s_dm s))
           end.
Definition dm_flush : M unit :=
  fun s => match meta_writer_flush (s_dm s) with
           | None => None
           | Some m => Some (tt, mk_ser (s_info s) (s_im s) m)
           end.

(** write_dir(dm, di) *)
Definition dm_write_dir (di : dir_info_t tree_node_t) : M (dir_info_t tree_node_t) :=
  fun s => match write_dir (s_dm s) di with
           | None => None
           | Some (m, di') => Some (di', mk_ser (s_info s) (s_im s) m)
           end.

(** id_table_id_to_index(&info->idtbl, id, &idx) *)
Definition id_to_index (id : Z) : M Z :=
  fun s => match id_table_id_to_index (idtbl (s_info s)) id with
           | None => None
           | Some (tbl, idx) =>
               Some (idx, mk_ser (set_idtbl (s_info s) tbl) (s_im s) (s_dm s))
           end.

Section MapM.
Context {A B : Type} (f : A -> M B).

(** A loop over a [next]-linked list that updates every node in place. *)
Fixpoint mapM (l : list A) : M (list B) :=
  match l with
  | [] => ret []
  | x :: l' =>
      y <- f x ;;
      ys <- mapM l' ;;
      ret (y :: ys)
  end.
End MapM.

(** *** write_inode *)

(** The loop at [out_file_blocks]. *)
Fixpoint write_file_blocks (n : nat) (blocksizes : list Z) : M unit :=
  match n with
  | O => ret tt
  | S n' =>
      match blocksizes with
      | [] => fail
      | bs :: rest =>
          im_append (le32 (htole32 bs)) ;;;
          write_file_blocks n' rest
      end
  end.

Definition out_file_blocks (fi : file_info_t) : M unit :=
  s <- get ;;
  let bsz := block_size (super (s_info s)) in
  if bsz =? 0 then fail
  else write_file_blocks (Z.to_nat (fi_size fi / bsz)) (fi_blocksizes fi).

(** [parent] is [node->parent->inode_num] as it stands when the inode is
    written, [None] for a node without parent. *)
Definition parent_inode (parent : option Z) : Z :=
  match parent with
  | Some num => htole32 num
  | None => htole32 1
  end.

(** The first switch of write_inode, over [node->mode & S_IFMT]: it sets
    [node->type] and, for a directory, writes the listing. *)
Definition select_inode_type (node : tree_node_t) : M tree_node_t :=
  let fmt := Z.land (mode node) S_IFMT in
  if fmt =? S_IFSOCK then ret (set_type node SQFS_INODE_SOCKET)
  else if fmt =? S_IFIFO then ret (set_type node SQFS_INODE_FIFO)
  else if fmt =? S_IFLNK then ret (set_type node SQFS_INODE_SLINK)
  else if fmt =? S_IFBLK then ret (set_type node SQFS_INODE_BDEV)
  else if fmt =? S_IFCHR then ret (set_type node SQFS_INODE_CDEV)
  else if fmt =? S_IFDIR then
    match data node with
    | DataDir di =>
        let node := set_type node SQFS_INODE_DIR in
        di <- dm_write_dir di ;;
        let node := set_data node (DataDir di) in
        if (di_start_block di >? 0xFFFFFFFF) || (di_size di >? 0xFFFF)
        then ret (set_type node SQFS_INODE_EXT_DIR)
        else ret node
    | _ => fail
    end
  else if fmt =? S_IFREG then
    match data node with
    | DataFile fi =>
        let node := set_type node SQFS_INODE_FILE in
        nlink <- lift (hard_link_count node) ;;
        if (fi_startblock fi >? 0xFFFFFFFF) || (fi_size fi >? 0xFFFFFFFF)
           || (nlink >? 1)
        then ret (set_type node SQFS_INODE_EXT_FILE)
        else ret node
    | _ => fail
    end
  else fail.

(** The second switch of write_inode, over [node->type]: the record that
    follows the common part of the inode. *)
Definition write_inode_record (parent : option Z) (node : tree_node_t) : M tree_node_t :=
  let t := type node in
  if (t =? SQFS_INODE_FIFO) || (t =? SQFS_INODE_SOCKET) then
    nlink <- lift (hard_link_count node) ;;
    let ipc := mk_ipc (u32 nlink) in
    im_append (bytes_ipc ipc) ;;;
    ret node
  else if t =? SQFS_INODE_SLINK then
    match data node with
    | DataSlink target =>
        nlink <- lift (hard_link_count node) ;;
        let slink := mk_slink (htole32 nlink) (htole32 (strlen target)) in
        im_append (bytes_slink slink) ;;;
        im_append (firstn (Z.to_nat (le32toh (slink_target_size slink))) target) ;;;
        ret node
    | _ => fail
    end
  else if (t =? SQFS_INODE_BDEV) || (t =? SQFS_INODE_CDEV) then
    match data node with
    | DataDev devno =>
        nlink <- lift (hard_link_count node) ;;
        let dev := mk_dev (htole32 nlink) (htole32 devno) in
        im_append (bytes_dev dev) ;;;
        ret node
    | _ => fail
    end
  else if t =? SQFS_INODE_EXT_FILE then
    match data node with
    | DataFile fi =>
        nlink <- lift (hard_link_count node) ;;
        let ext := mk_file_ext (htole64 (fi_startblock fi)) (htole64 (fi_size fi))
                               (htole64 0xFFFFFFFFFFFFFFFF) (htole32 nlink)
                               (htole32 (fi_fragment fi))
                               (htole32 (fi_fragment_offset fi))
                               (htole32 0xFFFFFFFF) in
        im_append (bytes_file_ext ext) ;;;
        out_file_blocks fi ;;;
        ret node
    | _ => fail
    end
  else if t =? SQFS_INODE_FILE then
    match data node with
    | DataFile fi =>
        let reg := mk_file (htole32 (fi_startblock fi)) (htole32 (fi_fragment fi))
                           (htole32 (fi_fragment_offset fi)) (htole32 (fi_size fi)) in
        im_append (bytes_file reg) ;;;
        out_file_blocks fi ;;;
        ret node
    | _ => fail
    end
  else if t =? SQFS_INODE_DIR then
    match data node with
    | DataDir di =>
        nlink <- lift (hard_link_count node) ;;
        let dir := mk_dir (htole32 (di_start_block di)) (htole32 nlink)
                          (htole16 (di_size di)) (htole16 (di_block_offset di))
                          (parent_inode parent) in
        im_append (bytes_dir dir) ;;;
        ret node
    | _ => fail
    end
  else if t =? SQFS_INODE_EXT_DIR then
    match data node with
    | DataDir di =>
        nlink <- lift (hard_link_count node) ;;
        let ext := mk_dir_ext (htole32 nlink) (htole32 (di_size di))
                              (htole32 (di_start_block di)) (parent_inode parent)
                              (htole16 (htole32 0)) (htole16 (di_block_offset di))
                              (htole32 0xFFFFFFFF) in
        im_append (bytes_dir_ext ext) ;;;
        ret node
    | _ => fail
    end
  else fail.

(** write_inode: the id lookups, the inode reference and number, the type
    switch, the common part of the inode and the record behind it. *)
Definition write_inode (parent : option Z) (node : tree_node_t) : M tree_node_t :=
  uid_idx <- id_to_index (uid node) ;;
  gid_idx <- id_to_index (gid node) ;;
  s <- get ;;
  let node := set_inode_ref node
                (u64 (Z.lor (Z.shiftl (block_offset (s_im s)) 16) (offset (s_im s)))) in
  let node := set_inode_num node (u32 (inode_counter (s_info s))) in
  modify_info (fun i => set_inode_counter i (u64 (inode_counter i + 1))) ;;;
  modify_info (fun i => set_super i
                 (set_inode_count (super i) (u32 (inode_count (super i) + 1)))) ;;;
  node <- select_inode_type node ;;
  let base := mk_inode (htole16 (type node)) (htole16 (mode node))
                       (htole16 uid_idx) (htole16 gid_idx)
                       (htole32 (def_mtime (opt (s_info s))))
                       (htole32 (inode_num node)) in
  im_append (bytes_inode base) ;;;
  write_inode_record parent node.

(** *** write_child_inodes *)

Fixpoint write_child_inodes (root : tree_node_t) : M tree_node_t :=
  match root with
  | TreeNode a (DataDir di) =>
      let has_subdirs := existsb (fun it => S_ISDIR (mode it)) (di_children di) in
      children1 <- (if has_subdirs
                    then mapM (fun it => if S_ISDIR (mode it)
                                         then write_child_inodes it
                                         else ret it) (di_children di)
                    else ret (di_children di)) ;;
      children2 <- mapM (write_inode (Some (a_inode_num a))) children1 ;;
      ret (TreeNode a (DataDir (mk_dir_info children2 (di_size di)
                                            (di_start_block di) (di_block_offset di))))
  | TreeNode _ _ => fail
  end.

(** *** sqfs_write_inodes *)

(** sizeof(dm->data): a meta block and its 16-bit header. *)
Definition sizeof_data : Z := SQFS_META_BLOCK_SIZE + 2.

(** The [for (;;)] loop that copies the temporary file to the image:
    read_retry hands back up to sizeof(dm->data) bytes from the read
    position, write_retry appends them to the image. *)
Fixpoint copy_loop (fuel : nat) (tmp : list Z) (image : list Z) : option (list Z) :=
  match fuel with
  | O => None
  | S fuel' =>
      let chunk := firstn (Z.to_nat sizeof_data) tmp in
      if len chunk =? 0 then Some image
      else copy_loop fuel' (skipn (Z.to_nat sizeof_data) tmp) (image ++ chunk)
  end.

(** [image] is the content of the file behind info->outfd when the function
    is entered, [tmpfd] the descriptor of the temporary file.  The result is
    the updated [info] and the content of the image file.  The host's I/O
    and allocation errors are outside the model: the files are in memory. *)
Definition sqfs_write_inodes (tmpfd : Z) (info : sqfs_info_t) (image : list Z)
  : option (sqfs_info_t * list Z) :=
  let im := meta_writer_create (info_outfd info) (info_cmp info) in
  let dm := meta_writer_create tmpfd (info_cmp info) in
  let info := set_inode_counter info 2 in
  match (root1 <- write_child_inodes (root (fs info)) ;;
         root2 <- write_inode None root1 ;;
         im_flush ;;;
         dm_flush ;;;
         ret root2) (mk_ser info im dm) with
  | None => None
  | Some (root', s) =>
      let info := set_fs (s_info s) (mk_fstree root') in
      let im := s_im s in
      let dm := s_dm s in
      let sb := set_root_inode_ref (super info) (inode_ref root') in
      let sb := set_inode_table_start sb (bytes_used sb) in
      let sb := set_bytes_used sb (u64 (bytes_used sb + block_offset im)) in
      let sb := set_directory_table_start sb (bytes_used sb) in
      let sb := set_bytes_used sb (u64 (bytes_used sb + block_offset dm)) in
      let info := set_super info sb in
      let tmp := written dm in
      match copy_loop (S (length tmp)) tmp (image ++ written im) with
      | None => None
      | Some image' => Some (info, image')
      end
  end.

End Meta.
Import Meta.

(* ===================================================================== *)
(** ** lib/common/data_reader_dump.c                                      *)
(* ===================================================================== *)

Module Dump.

Definition EINTR : Z := 4.

(** What one call of write(2) answers: its return value and, for a
    negative one, errno. *)
Record write_result : Type := mk_write_result {
  wr_ret : Z;
  wr_errno : Z
}.

(** The two lines append_block can print on stderr. *)
Inductive message : Type :=
| perror_writing_data_block
| unexpected_end_of_file.

(** sqfs_block_t, as far as append_block reads it: [size], the bytes of
    the flexible array [data], and in [blk_head] the bytes of the same
    object that lie in memory in front of data[0].  The latter are what
    write(2) is handed once [ptr] has been moved back below blk->data. *)
Record sqfs_block_t : Type := mk_block {
  blk_size : Z;
  blk_data : list Z;
  blk_head : list Z
}.

(** The state of the [while (size > 0)] loop: the offset of [ptr] into
    blk->data, [size], the bytes that reached the file and the messages
    printed so far. *)
Record loop_state : Type := mk_loop_state {
  ptr : Z;
  size : Z;
  output : list Z;
  stderr : list message
}.

(** The bytes a call write(fd, ptr, size) that answers [ret] has put into
    the file: the [ret] bytes found at [ptr], which lies [p] bytes behind
    blk->data, or in front of it when [p] is negative.  A call that fails
    or answers 0 has put nothing; [None] stands for a call that has taken
    bytes from in front of the block object. *)
Definition written_by (blk : sqfs_block_t) (p ret : Z) : option (list Z) :=
  if ret <=? 0 then Some []
  else
    let start := len (blk_head blk) + p in
    if start <? 0 then None
    else Some (firstn (Z.to_nat ret)
                      (skipn (Z.to_nat start) (blk_head blk ++ blk_data blk))).

(** The loop of append_block against the answers [ws] of the successive
    write calls.  Every round consumes one answer; [None] means that the
    loop is still running when the answers are used up, or that a call has
    read in front of the block object.  After a call that failed with
    another error than EINTR the loop goes on with [ptr + ret] and
    [size - ret] like after any other call, so that the next call starts
    one byte in front of where the failed one started. *)
Fixpoint append_block_loop (ws : list write_result) (blk : sqfs_block_t)
         (st : loop_state) : option (Z * loop_state * list write_result) :=
  if size st >? 0 then
    match ws with
    | [] => None
    | w :: ws' =>
        let ret := wr_ret w in
        if (ret <? 0) && (wr_errno w =? EINTR) then
          append_block_loop ws' blk st
        else
          let err := if ret <? 0
                     then stderr st ++ [perror_writing_data_block]
                     else stderr st in
          let err := if ret =? 0
                     then err ++ [unexpected_end_of_file]
                     else err in
          match written_by blk (ptr st) ret with
          | None => None
          | Some bytes =>
              append_block_loop ws' blk
                (mk_loop_state (ptr st + ret) (u64 (size st - ret))
                               (output st ++ bytes) err)
          end
    end
  else Some (0, st, ws).

Definition append_block (ws : list write_result) (blk : sqfs_block_t)
  : option (Z * loop_state * list write_result) :=
  append_block_loop ws blk (mk_loop_state 0 (blk_size blk) [] []).

End Dump.

(* ===================================================================== *)
(** ** lib/util/write_retry.c                                             *)
(* ===================================================================== *)

Module WriteRetry.
Import Dump.

(** The two lines write_retry can print on stderr, behind [errstr]. *)
Inductive message : Type :=
| write_truncated
| perror_errstr.

(** The state of the [while (size > 0)] loop: the offset of [data] into the
    buffer, [size], the bytes that reached the file and the messages
    printed so far. *)
Record loop_state : Type := mk_loop_state {
  data_off : Z;
  size : Z;
  output : list Z;
  stderr : list message
}.

(** The loop of write_retry against the answers [ws] of the successive
    write calls; [None] means that the loop is still running when the
    answers are used up. *)
Fixpoint write_retry_loop (ws : list write_result) (buf : list Z)
         (st : loop_state) : option (Z * loop_state * list write_result) :=
  if size st >? 0 then
    match ws with
    | [] => None
    | w :: ws' =>
        let ret := wr_ret w in
        if ret =? 0 then
          Some (-1, mk_loop_state (data_off st) (size st) (output st)
                                  (stderr st ++ [write_truncated]), ws')
        else if ret <? 0 then
          if wr_errno w =? EINTR then write_retry_loop ws' buf st
          else Some (-1, mk_loop_state (data_off st) (size st) (output st)
                                       (stderr st ++ [perror_errstr]), ws')
        else
          write_retry_loop ws' buf
            (mk_loop_state (data_off st + ret) (u64 (size st - ret))
                           (output st
                            ++ firstn (Z.to_nat ret)
                                      (skipn (Z.to_nat (data_off st)) buf))
                           (stderr st))
    end
  else Some (0, st, ws).

Definition write_retry (ws : list write_result) (buf : list Z) (sz : Z)
  : option (Z * loop_state * list write_result) :=
  write_retry_loop ws buf (mk_loop_state 0 sz [] []).

End WriteRetry.

(* ===================================================================== *)
(** ** lib/tar/read_header.c                                              *)
(* ===================================================================== *)

Module Tar.

Definition TAR_TYPE_FILE       : Z := 48.  (* '0' *)
Definition TAR_TYPE_LINK       : Z := 49.  (* '1' *)
Definition TAR_TYPE_SLINK      : Z := 50.  (* '2' *)
Definition TAR_TYPE_CHARDEV    : Z := 51.  (* '3' *)
Definition TAR_TYPE_BLOCKDEV   : Z := 52.  (* '4' *)
Definition TAR_TYPE_DIR        : Z := 53.  (* '5' *)
Definition TAR_TYPE_FIFO       : Z := 54.  (* '6' *)
Definition TAR_TYPE_GNU_SPARSE : Z := 83.  (* 'S' *)

(** tar_header_t; [tail] is the union behind devminor, whose posix view
    starts with prefix[155]. *)
Record tar_header_t : Type := mk_tar_header {
  h_name : list Z;
  h_mode : list Z;
  h_uid : list Z;
  h_gid : list Z;
  h_size : list Z;
  h_mtime : list Z;
  h_chksum : list Z;
  h_typeflag : Z;
  h_linkname : list Z;
  h_magic : list Z;
  h_version : list Z;
  h_uname : list Z;
  h_gname : list Z;
  h_devmajor : list Z;
  h_devminor : list Z;
  h_tail : list Z
}.

Definition posix_prefix (h : tar_header_t) : list Z := firstn 155 (h_tail h).

(** The fields of struct stat that the decoder sets. *)
Record stat_t : Type := mk_stat {
  st_mode : Z;
  st_uid : Z;
  st_gid : Z;
  st_rdev : Z;
  st_size : Z;
  st_mtime : Z
}.

(** tar_header_decoded_t; a NULL string is [None]. *)
Record tar_header_decoded_t : Type := mk_decoded {
  sb : stat_t;
  d_name : option (list Z);
  link_target : option (list Z);
  actual_size : Z;
  record_size : Z;
  unknown_record : bool;
  d_mtime : Z
}.

Inductive tar_version : Type :=
| ETV_UNKNOWN | ETV_V7_UNIX | ETV_PRE_POSIX | ETV_POSIX.

Definition is_posix (v : tar_version) : bool :=
  match v with ETV_POSIX => true | _ => false end.

(** The bytes of a char array up to its first NUL. *)
Fixpoint until_nul (s : list Z) : list Z :=
  match s with
  | [] => []
  | c :: s' => if c =? 0 then [] else c :: until_nul s'
  end.

(** strnlen and strndup on a field of [n] bytes. *)
Definition strnlen (s : list Z) (n : nat) : nat := length (until_nul (firstn n s)).
Definition strndup (s : list Z) (n : nat) : list Z := until_nul (firstn n s).

(** strdup(hdr->linkname): the string starts in linkname[100] and, when
    that field holds no NUL, runs on into the fields behind it.  [None]
    stands for a read past the end of the header. *)
Definition behind_linkname (h : tar_header_t) : list Z :=
  h_linkname h ++ h_magic h ++ h_version h ++ h_uname h ++ h_gname h
  ++ h_devmajor h ++ h_devminor h ++ h_tail h.

Definition strdup_linkname (h : tar_header_t) : option (list Z) :=
  if existsb (Z.eqb 0) (behind_linkname h)
  then Some (until_nul (behind_linkname h))
  else None.

(** is_zero_block on the bytes of a header: the first byte is NUL and the
    first 511 bytes (the size of the header less one) equal the bytes one
    place further on. *)
Definition sizeof_header : nat := 512.

Fixpoint memcmp_eq (a b : list Z) (n : nat) {struct n} : bool :=
  match n with
  | O => true
  | S n' =>
      match a, b with
      | x :: a', y :: b' => (x =? y) && memcmp_eq a' b' n'
      | _, _ => false
      end
  end.

Definition is_zero_block (ptr : list Z) : bool :=
  match ptr with
  | [] => false
  | c :: rest => (c =? 0) && memcmp_eq ptr rest (sizeof_header - 1)
  end.

(** check_version: the magic and version fields against the three known
    pairs; the all-zero pair of a V7 header is tested first. *)
Definition TAR_MAGIC : list Z := [117; 115; 116; 97; 114; 0].       (* "ustar" *)
Definition TAR_VERSION : list Z := [48; 48; 0].                     (* "00" *)
Definition TAR_MAGIC_OLD : list Z := [117; 115; 116; 97; 114; 32; 0]. (* "ustar " *)
Definition TAR_VERSION_OLD : list Z := [32; 0].                     (* " " *)

Definition check_version (hdr : tar_header_t) : tar_version :=
  let buffer := repeat 0 8 in
  if memcmp_eq (h_magic hdr) buffer 6 && memcmp_eq (h_version hdr) buffer 2
  then ETV_V7_UNIX
  else if memcmp_eq (h_magic hdr) TAR_MAGIC 6
          && memcmp_eq (h_version hdr) TAR_VERSION 2
  then ETV_POSIX
  else if memcmp_eq (h_magic hdr) TAR_MAGIC_OLD 6
          && memcmp_eq (h_version hdr) TAR_VERSION_OLD 2
  then ETV_PRE_POSIX
  else ETV_UNKNOWN.

Definition s64 (x : Z) : Z :=
  if u64 x <? 2 ^ 63 then u64 x else u64 x - 2 ^ 64.

Definition INT32_MAX : Z := 2147483647.
Definition INT32_MIN : Z := -2147483648.

Section Decoder.
(** Helpers of lib/tar that are missing from the sources: the number
    parsers of the header fields ([None] is their error return), the
    pax flag bits of internal.h, the device macros of the C library and
    the configured width of time_t. *)
Variable read_number : list Z -> option Z.
Variable read_octal : list Z -> option Z.
Variables PAX_SIZE PAX_UID PAX_GID PAX_DEV_MAJ PAX_DEV_MIN : Z.
Variables PAX_NAME PAX_SLINK_TARGET PAX_MTIME : Z.
Variable makedev : Z -> Z -> Z.
Variables major minor : Z -> Z.
Variable SIZEOF_TIME_T : Z.

Definition set_sb (o : tar_header_decoded_t) (s : stat_t) : tar_header_decoded_t :=
  mk_decoded s (d_name o) (link_target o) (actual_size o) (record_size o)
             (unknown_record o) (d_mtime o).
Definition set_st_mode (o : tar_header_decoded_t) (v : Z) :=
  set_sb o (mk_stat v (st_uid (sb o)) (st_gid (sb o)) (st_rdev (sb o))
                    (st_size (sb o)) (st_mtime (sb o))).
Definition set_st_uid (o : tar_header_decoded_t) (v : Z) :=
  set_sb o (mk_stat (st_mode (sb o)) v (st_gid (sb o)) (st_rdev (sb o))
                    (st_size (sb o)) (st_mtime (sb o))).
Definition set_st_gid (o : tar_header_decoded_t) (v : Z) :=
  set_sb o (mk_stat (st_mode (sb o)) (st_uid (sb o)) v (st_rdev (sb o))
                    (st_size (sb o)) (st_mtime (sb o))).
Definition set_st_rdev (o : tar_header_decoded_t) (v : Z) :=
  set_sb o (mk_stat (st_mode (sb o)) (st_uid (sb o)) (st_gid (sb o)) v
                    (st_size (sb o)) (st_mtime (sb o))).
Definition set_st_mtime (o : tar_header_decoded_t) (v : Z) :=
  set_sb o (mk_stat (st_mode (sb o)) (st_uid (sb o)) (st_gid (sb o))
                    (st_rdev (sb o)) (st_size (sb o)) v).
Definition set_name (o : tar_header_decoded_t) (v : option (list Z)) :=
  mk_decoded (sb o) v (link_target o) (actual_size o) (record_size o)
             (unknown_record o) (d_mtime o).
Definition set_link_target (o : tar_header_decoded_t) (v : option (list Z)) :=
  mk_decoded (sb o) (d_name o) v (actual_size o) (record_size o)
             (unknown_record o) (d_mtime o).
Definition set_record_size (o : tar_header_decoded_t) (v : Z) :=
  mk_decoded (sb o) (d_name o) (link_target o) (actual_size o) v
             (unknown_record o) (d_mtime o).
Definition set_unknown_record (o : tar_header_decoded_t) (v : bool) :=
  mk_decoded (sb o) (d_name o) (link_target o) (actual_size o) (record_size o)
             v (d_mtime o).
Definition set_mtime (o : tar_header_decoded_t) (v : Z) :=
  mk_decoded (sb o) (d_name o) (link_target o) (actual_size o) (record_size o)
             (unknown_record o) v.

(** [!(set_by_pax & FLAG)] *)
Definition unset (set_by_pax flag : Z) : bool := Z.land set_by_pax flag =? 0.

Definition obind {A B : Type} (o : option A) (k : A -> option B) : option B :=
  match o with None => None | Some a => k a end.

Notation "x <-- c ;; k" := (obind c (fun x => k))
  (at level 61, c at next level, right associativity).

(** The file name: [hdr->name], behind [prefix] and a slash for a POSIX
    header with a prefix, unless a pax record has set the name. *)
Definition decode_name (hdr : tar_header_t) (set_by_pax : Z)
           (out : tar_header_decoded_t) (version : tar_version)
  : tar_header_decoded_t :=
  if unset set_by_pax PAX_NAME then
    if negb (nth 0 (posix_prefix hdr) 0 =? 0) && is_posix version then
      let len1 := strnlen (h_name hdr) 100 in
      let len2 := strnlen (posix_prefix hdr) 155 in
      set_name out (Some (firstn len2 (posix_prefix hdr) ++ [47]
                          ++ firstn len1 (h_name hdr)))
    else set_name out (Some (strndup (h_name hdr) 100))
  else out.

(** The numeric fields that no pax record has set: size, uid, gid, device
    numbers and mtime. *)
Definition decode_numbers (hdr : tar_header_t) (set_by_pax : Z)
           (out : tar_header_decoded_t) : option tar_header_decoded_t :=
  out <-- (if unset set_by_pax PAX_SIZE
           then field <-- read_number (h_size hdr) ;;
                Some (set_record_size out field)
           else Some out) ;;
  out <-- (if unset set_by_pax PAX_UID
           then field <-- read_number (h_uid hdr) ;;
                Some (set_st_uid out (u32 field))
           else Some out) ;;
  out <-- (if unset set_by_pax PAX_GID
           then field <-- read_number (h_gid hdr) ;;
                Some (set_st_gid out (u32 field))
           else Some out) ;;
  out <-- (if unset set_by_pax PAX_DEV_MAJ
           then field <-- read_number (h_devmajor hdr) ;;
                Some (set_st_rdev out (makedev field (minor (st_rdev (sb out)))))
           else Some out) ;;
  if unset set_by_pax PAX_DEV_MIN
  then field <-- read_number (h_devminor hdr) ;;
       Some (set_st_rdev out (makedev (major (st_rdev (sb out))) field))
  else Some out.

Definition decode_mtime (hdr : tar_header_t) (set_by_pax : Z)
           (out : tar_header_decoded_t) : option tar_header_decoded_t :=
  if unset set_by_pax PAX_MTIME
  then field <-- read_number (h_mtime hdr) ;;
       if negb (Z.land field 0x8000000000000000 =? 0)
       then let field := u64 (u64 (Z.lnot field) + 1) in
            Some (set_mtime out (s64 (- s64 field)))
       else Some (set_mtime out (s64 field))
  else Some out.

(** The target of a link or symlink, unless a pax or GNU record has set
    it. *)
Definition decode_link_target (hdr : tar_header_t) (set_by_pax : Z)
           (out : tar_header_decoded_t) : option tar_header_decoded_t :=
  let t := h_typeflag hdr in
  if (t =? TAR_TYPE_LINK) || (t =? TAR_TYPE_SLINK) then
    if unset set_by_pax PAX_SLINK_TARGET then
      target <-- strdup_linkname hdr ;;
      Some (set_link_target out (Some target))
    else Some out
  else Some out.

(** The switch over [hdr->typeflag]. *)
Definition decode_type (hdr : tar_header_t) (out : tar_header_decoded_t)
  : tar_header_decoded_t :=
  let t := h_typeflag hdr in
  if (t =? 0) || (t =? TAR_TYPE_FILE) || (t =? TAR_TYPE_GNU_SPARSE)
  then set_st_mode out (Z.lor (st_mode (sb out)) S_IFREG)
  else if t =? TAR_TYPE_LINK
  then set_st_mode out (Z.lor S_IFLNK 0x1FF)          (* 0777 *)
  else if t =? TAR_TYPE_SLINK
  then set_st_mode out (Z.lor S_IFLNK 0x1FF)
  else if t =? TAR_TYPE_CHARDEV
  then set_st_mode out (Z.lor (st_mode (sb out)) S_IFCHR)
  else if t =? TAR_TYPE_BLOCKDEV
  then set_st_mode out (Z.lor (st_mode (sb out)) S_IFBLK)
  else if t =? TAR_TYPE_DIR
  then set_st_mode out (Z.lor (st_mode (sb out)) S_IFDIR)
  else if t =? TAR_TYPE_FIFO
  then set_st_mode out (Z.lor (st_mode (sb out)) S_IFIFO)
  else set_unknown_record out true.

(** The [#if SIZEOF_TIME_T < 8] block. *)
Definition decode_st_mtime (out : tar_header_decoded_t) : tar_header_decoded_t :=
  if SIZEOF_TIME_T <? 8 then
    if d_mtime out >? INT32_MAX then set_st_mtime out INT32_MAX
    else if d_mtime out <? INT32_MIN then set_st_mtime out INT32_MIN
    else set_st_mtime out (d_mtime out)
  else set_st_mtime out (d_mtime out).

(** decode_header, block by block. *)
Definition decode_header (hdr : tar_header_t) (set_by_pax : Z)
           (out : tar_header_decoded_t) (version : tar_version)
  : option tar_header_decoded_t :=
  let out := decode_name hdr set_by_pax out version in
  out <-- decode_numbers hdr set_by_pax out ;;
  out <-- decode_mtime hdr set_by_pax out ;;
  field <-- read_octal (h_mode hdr) ;;
  let out := set_st_mode out (Z.land field 0xFFF) in   (* 07777 *)
  out <-- decode_link_target hdr set_by_pax out ;;
  let out := set_unknown_record out false in
  let out := decode_type hdr out in
  Some (decode_st_mtime out).

End Decoder.

End Tar.

(* ===================================================================== *)
(** ** lib/common/data_reader_dump.c: sqfs_data_reader_dump               *)
(* ===================================================================== *)

Module DumpReader.
Import Dump.

(** sqfs_inode_generic_t, as far as sqfs_data_reader_dump reads it. *)
Record sqfs_inode_generic_t : Type := mk_inode_generic {
  num_file_blocks : Z;
  block_sizes : list Z
}.

(** What the function does to the output file, call by call: ftruncate to a
    length, lseek forward from the current position, and the bytes that one
    call of append_block has put into the file. *)
Inductive event : Type :=
| Ftruncate (length : Z)
| Lseek (diff : Z)
| Append (bytes : list Z).

(** The lines the function can print on stderr: those of append_block, the
    two of sqfs_perror (with the error code) and the one of perror. *)
Inductive dump_message : Type :=
| from_append_block (m : message)
| reading_data_block (err : Z)
| reading_fragment_block (err : Z)
| creating_sparse_output_file.

(** [filesz], what has happened to the file and to stderr, and the answers
    that the coming calls of write and lseek will get ([true] for an lseek
    that succeeds). *)
Record dump_state : Type := mk_dump_state {
  filesz : Z;
  events : list event;
  messages : list dump_message;
  writes : list write_result;
  seeks : list bool
}.

Definition set_filesz (st : dump_state) (v : Z) : dump_state :=
  mk_dump_state v (events st) (messages st) (writes st) (seeks st).
Definition add_event (st : dump_state) (e : event) : dump_state :=
  mk_dump_state (filesz st) (events st ++ [e]) (messages st) (writes st) (seeks st).
Definition add_message (st : dump_state) (m : dump_message) : dump_state :=
  mk_dump_state (filesz st) (events st) (messages st ++ [m]) (writes st) (seeks st).
Definition set_seeks (st : dump_state) (v : list bool) : dump_state :=
  mk_dump_state (filesz st) (events st) (messages st) (writes st) v.

(** append_block(outfd, blk) inside the function: [None] when the write
    calls give no answer any more. *)
Definition put_block (blk : sqfs_block_t) (st : dump_state)
  : option (Z * dump_state) :=
  match append_block (writes st) blk with
  | None => None
  | Some (r, lst, ws') =>
      Some (r, mk_dump_state (filesz st) (events st ++ [Append (output lst)])
                             (messages st ++ map from_append_block (stderr lst))
                             ws' (seeks st))
  end.

Section Reader.
(** The parts of libsquashfs that are missing from the sources: the macro
    that tells a sparse block by its size word, the size of a file inode,
    and the two readers, which hand back an error code and, when that is 0,
    a block. *)
Variable SQFS_IS_SPARSE_BLOCK : Z -> bool.
Variable sqfs_inode_get_file_size : sqfs_inode_generic_t -> Z.
Variable sqfs_data_reader_get_block : sqfs_inode_generic_t -> Z -> Z * sqfs_block_t.
Variable sqfs_data_reader_get_fragment : sqfs_inode_generic_t -> Z * sqfs_block_t.

(** The [for (i = 0; i < inode->num_file_blocks; ++i)] loop, [n] rounds
    from index [i].  The result is -1 where the function returns -1 from
    inside the loop, 0 where the loop runs to its end; [None] stands for a
    read behind the end of block_sizes or for a call without answer. *)
Fixpoint dump_blocks (n : nat) (i : Z) (inode : sqfs_inode_generic_t)
         (block_size : Z) (allow_sparse : bool) (st : dump_state)
  : option (Z * dump_state) :=
  match n with
  | O => Some (0, st)
  | S n' =>
      match nth_error (block_sizes inode) (Z.to_nat i) with
      | None => None
      | Some bs =>
          if SQFS_IS_SPARSE_BLOCK bs && allow_sparse then
            let diff := if filesz st <? block_size then filesz st else block_size in
            let st := if filesz st <? block_size then set_filesz st 0
                      else set_filesz st (u64 (filesz st - block_size)) in
            match seeks st with
            | [] => None
            | ok :: rest =>
                let st := set_seeks st rest in
                if ok
                then dump_blocks n' (i + 1) inode block_size allow_sparse
                                 (add_event st (Lseek diff))
                else Some (-1, add_message st creating_sparse_output_file)
            end
          else
            let (err, blk) := sqfs_data_reader_get_block inode i in
            if negb (err =? 0) then Some (-1, add_message st (reading_data_block err))
            else
              match put_block blk st with
              | None => None
              | Some (r, st) =>
                  if negb (r =? 0) then Some (-1, st)
                  else dump_blocks n' (i + 1) inode block_size allow_sparse
                                   (set_filesz st (u64 (filesz st - blk_size blk)))
              end
      end
  end.

(** sqfs_data_reader_dump; [ftruncate_ok] is the answer of ftruncate, [ws]
    and [sk] are the answers of the write and lseek calls to come. *)
Definition sqfs_data_reader_dump (inode : sqfs_inode_generic_t)
           (block_size : Z) (allow_sparse : bool)
           (ftruncate_ok : bool) (ws : list write_result) (sk : list bool)
  : option (Z * dump_state) :=
  let st := mk_dump_state (sqfs_inode_get_file_size inode) [] [] ws sk in
  if allow_sparse && negb ftruncate_ok
  then Some (-1, add_message st creating_sparse_output_file)
  else
    let st := if allow_sparse then add_event st (Ftruncate (filesz st)) else st in
    match dump_blocks (Z.to_nat (num_file_blocks inode)) 0 inode block_size
                      allow_sparse st with
    | None => None
    | Some (r, st) =>
        if negb (r =? 0) then Some (r, st)
        else if filesz st >? 0 then
          let (err, blk) := sqfs_data_reader_get_fragment inode in
          if negb (err =? 0)
          then Some (-1, add_message st (reading_fragment_block err))
          else
            match put_block blk st with
            | None => None
            | Some (r, st) => if negb (r =? 0) then Some (-1, st) else Some (0, st)
            end
        else Some (0, st)
    end.

End Reader.

End DumpReader.

(* ===================================================================== *)
(** ** lib/tar/read_header.c: read_pax_header                             *)
(* ===================================================================== *)

Module Pax.
Import Tar.

(** sparse_map_t, a list linked through [next]: offset and count. *)
Definition sparse_map_t : Type := list (Z * Z).

(** tar_xattr_t: key and value, each a string in [data]. *)
Record tar_xattr_t : Type := mk_xattr {
  x_key : list Z;
  x_value : list Z
}.

(** mkxattr: the first [keylen] bytes of [key] and the first [valuelen]
    bytes of [value], each followed by a NUL of the zeroed allocation. *)
Definition mkxattr (key : list Z) (keylen : nat) (value : list Z) (valuelen : nat)
  : tar_xattr_t :=
  mk_xattr (firstn keylen key) (firstn valuelen value).

(** What read_pax_header works on: the decoded header with the two lists
    that hang off it, the flags behind [set_by_pax], and the locals
    [sparse_last] ([false] for NULL), [offset] and [num_bytes]. *)
Record pax_state : Type := mk_pax_state {
  out : tar_header_decoded_t;
  out_sparse : sparse_map_t;
  out_xattr : list tar_xattr_t;
  set_by_pax : Z;
  sparse_last : bool;
  offset : Z;
  num_bytes : Z
}.

Inductive pax_result : Type :=
| PaxOutOfFuel
| PaxFail
| PaxOk (st : pax_state).

Definition set_out (st : pax_state) (o : tar_header_decoded_t) : pax_state :=
  mk_pax_state o (out_sparse st) (out_xattr st) (set_by_pax st) (sparse_last st)
               (offset st) (num_bytes st).
Definition set_flag (st : pax_state) (flag : Z) : pax_state :=
  mk_pax_state (out st) (out_sparse st) (out_xattr st) (Z.lor (set_by_pax st) flag)
               (sparse_last st) (offset st) (num_bytes st).
Definition set_sparse (st : pax_state) (m : sparse_map_t) (last : bool) : pax_state :=
  mk_pax_state (out st) m (out_xattr st) (set_by_pax st) last
               (offset st) (num_bytes st).
Definition set_offset (st : pax_state) (v : Z) : pax_state :=
  mk_pax_state (out st) (out_sparse st) (out_xattr st) (set_by_pax st)
               (sparse_last st) v (num_bytes st).
Definition set_num_bytes (st : pax_state) (v : Z) : pax_state :=
  mk_pax_state (out st) (out_sparse st) (out_xattr st) (set_by_pax st)
               (sparse_last st) (offset st) v.
Definition add_xattr (st : pax_state) (x : tar_xattr_t) : pax_state :=
  mk_pax_state (out st) (out_sparse st) (x :: out_xattr st) (set_by_pax st)
               (sparse_last st) (offset st) (num_bytes st).

Definition set_actual_size (o : tar_header_decoded_t) (v : Z) : tar_header_decoded_t :=
  mk_decoded (sb o) (d_name o) (link_target o) v (record_size o)
             (unknown_record o) (d_mtime o).

(** isspace and isdigit of the C locale. *)
Definition isspace (c : Z) : bool := (c =? 32) || ((9 <=? c) && (c <=? 13)).
Definition isdigit (c : Z) : bool := (48 <=? c) && (c <=? 57).

(** The keywords. *)
Definition kw_uid : list Z := [117; 105; 100; 61].                   (* "uid=" *)
Definition kw_gid : list Z := [103; 105; 100; 61].                   (* "gid=" *)
Definition kw_path : list Z := [112; 97; 116; 104; 61].              (* "path=" *)
Definition kw_size : list Z := [115; 105; 122; 101; 61].             (* "size=" *)
Definition kw_linkpath : list Z :=
  [108; 105; 110; 107; 112; 97; 116; 104; 61].                       (* "linkpath=" *)
Definition kw_mtime : list Z := [109; 116; 105; 109; 101; 61].       (* "mtime=" *)
Definition kw_gnu_sparse_name : list Z :=
  [71; 78; 85; 46; 115; 112; 97; 114; 115; 101; 46; 110; 97; 109; 101; 61].
                                                            (* "GNU.sparse.name=" *)
Definition kw_gnu_sparse_map : list Z :=
  [71; 78; 85; 46; 115; 112; 97; 114; 115; 101; 46; 109; 97; 112; 61].
                                                            (* "GNU.sparse.map=" *)
Definition kw_gnu_sparse_size : list Z :=
  [71; 78; 85; 46; 115; 112; 97; 114; 115; 101; 46; 115; 105; 122; 101; 61].
                                                            (* "GNU.sparse.size=" *)
Definition kw_gnu_sparse_offset : list Z :=
  [71; 78; 85; 46; 115; 112; 97; 114; 115; 101; 46; 111; 102; 102; 115; 101; 116; 61].
                                                            (* "GNU.sparse.offset=" *)
Definition kw_gnu_sparse_numbytes : list Z :=
  [71; 78; 85; 46; 115; 112; 97; 114; 115; 101; 46; 110; 117; 109; 98; 121; 116;
   101; 115; 61].                                           (* "GNU.sparse.numbytes=" *)
Definition kw_schily_xattr : list Z :=
  [83; 67; 72; 73; 76; 89; 46; 120; 97; 116; 116; 114; 46].  (* "SCHILY.xattr." *)
Definition kw_libarchive_xattr : list Z :=
  [76; 73; 66; 65; 82; 67; 72; 73; 86; 69; 46; 120; 97; 116; 116; 114; 46].
                                                            (* "LIBARCHIVE.xattr." *)

Fixpoint bytes_eqb (a b : list Z) : bool :=
  match a, b with
  | [], [] => true
  | x :: a', y :: b' => (x =? y) && bytes_eqb a' b'
  | _, _ => false
  end.

(** [!strncmp(line, kw, strlen(kw))] for a string [line]. *)
Definition starts_with (kw line : list Z) : bool :=
  bytes_eqb (firstn (length kw) line) kw.

(** strrchr(s, c) as an index into the string. *)
Fixpoint strrchr (s : list Z) (c : Z) : option nat :=
  match s with
  | [] => None
  | x :: s' =>
      match strrchr s' c with
      | Some k => Some (S k)
      | None => if x =? c then Some O else None
      end
  end.

Fixpoint drop_while (p : Z -> bool) (s : list Z) : list Z :=
  match s with
  | [] => []
  | c :: s' => if p c then drop_while p s' else s
  end.

Fixpoint take_while (p : Z -> bool) (s : list Z) : list Z :=
  match s with
  | [] => []
  | c :: s' => if p c then c :: take_while p s' else []
  end.

Section PaxReader.
(** Helpers and constants of lib/tar that are missing from the sources:
    the decimal parser ([None] is its error return), the parser of a
    sparse map (the empty list is its NULL), the two decoders of
    libarchive attributes and the flag bits. *)
Variable pax_read_decimal : list Z -> option Z.
Variable read_sparse_map : list Z -> sparse_map_t.
Variable urldecode : list Z -> list Z.
Variable base64_decode : list Z -> list Z.
Variables PAX_SIZE PAX_UID PAX_GID PAX_NAME PAX_SLINK_TARGET PAX_MTIME : Z.
Variable PAX_SPARSE_SIZE : Z.

(** The xattr records: [key] is the line behind the keyword. *)
Definition pax_xattr (key : list Z) (libarchive : bool) (st : pax_state) : pax_result :=
  match strrchr key 61 with
  | None => PaxOk st
  | Some O => PaxOk st
  | Some ptr =>
      let value := skipn (S ptr) key in
      let x := mkxattr key ptr value (length value) in
      let x := if libarchive
               then mk_xattr (urldecode (x_key x)) (base64_decode value)
               else x in
      PaxOk (add_xattr st x)
  end.

(** The chain of strncmp tests on one line of the record. *)
Definition pax_line (line : list Z) (st : pax_state) : pax_result :=
  if starts_with kw_uid line then
    match pax_read_decimal (skipn 4 line) with
    | None => PaxFail
    | Some field => PaxOk (set_flag (set_out st (set_st_uid (out st) (u32 field))) PAX_UID)
    end
  else if starts_with kw_gid line then
    match pax_read_decimal (skipn 4 line) with
    | None => PaxFail
    | Some field => PaxOk (set_flag (set_out st (set_st_gid (out st) (u32 field))) PAX_GID)
    end
  else if starts_with kw_path line then
    PaxOk (set_flag (set_out st (set_name (out st) (Some (skipn 5 line)))) PAX_NAME)
  else if starts_with kw_size line then
    match pax_read_decimal (skipn 5 line) with
    | None => PaxFail
    | Some v => PaxOk (set_flag (set_out st (set_record_size (out st) v)) PAX_SIZE)
    end
  else if starts_with kw_linkpath line then
    PaxOk (set_flag (set_out st (set_link_target (out st) (Some (skipn 9 line))))
                    PAX_SLINK_TARGET)
  else if starts_with kw_mtime line then
    if nth 6 line 0 =? 45 then                                   (* '-' *)
      match pax_read_decimal (skipn 7 line) with
      | None => PaxFail
      | Some field =>
          PaxOk (set_flag (set_out st (set_mtime (out st) (s64 (- s64 field)))) PAX_MTIME)
      end
    else
      match pax_read_decimal (skipn 6 line) with
      | None => PaxFail
      | Some field =>
          PaxOk (set_flag (set_out st (set_mtime (out st) (s64 field))) PAX_MTIME)
      end
  else if starts_with kw_gnu_sparse_name line then
    PaxOk (set_flag (set_out st (set_name (out st) (Some (skipn 5 line)))) PAX_NAME)
  else if starts_with kw_gnu_sparse_map line then
    match read_sparse_map (skipn 15 line) with
    | [] => PaxFail
    | m => PaxOk (set_sparse st m false)
    end
  else if starts_with kw_gnu_sparse_size line then
    match pax_read_decimal (skipn 16 line) with
    | None => PaxFail
    | Some v =>
        PaxOk (set_flag (set_out st (set_actual_size (out st) v)) PAX_SPARSE_SIZE)
    end
  else if starts_with kw_gnu_sparse_offset line then
    match pax_read_decimal (skipn 18 line) with
    | None => PaxFail
    | Some v => PaxOk (set_offset st v)
    end
  else if starts_with kw_gnu_sparse_numbytes line then
    match pax_read_decimal (skipn 20 line) with
    | None => PaxFail
    | Some v =>
        let st := set_num_bytes st v in
        let sparse := (offset st, num_bytes st) in
        if sparse_last st
        then PaxOk (set_sparse st (out_sparse st ++ [sparse]) true)
        else PaxOk (set_sparse st [sparse] true)
    end
  else if starts_with kw_schily_xattr line then pax_xattr (skipn 13 line) false st
  else if starts_with kw_libarchive_xattr line then pax_xattr (skipn 17 line) true st
  else PaxOk st.

(** The [for (i = 0; i < entsize; ++i)] loop; [rest] is the buffer from
    index [i] to [entsize].  A line runs to the next newline, where the
    loop puts a NUL, or to the NUL behind the buffer, and as a string it
    ends at its first NUL. *)
Fixpoint pax_loop (fuel : nat) (rest : list Z) (st : pax_state) : pax_result :=
  match fuel with
  | O => PaxOutOfFuel
  | S fuel' =>
      match rest with
      | [] => PaxOk st
      | _ =>
          let rest := drop_while isspace rest in
          let rest := drop_while isdigit rest in
          let rest := drop_while isspace rest in
          match rest with
          | [] => PaxOk st
          | _ =>
              let span := take_while (fun c => negb (c =? 10)) rest in
              let rest := skipn (length span) rest in
              let line := until_nul span in
              match pax_line line st with
              | PaxOk st => pax_loop fuel' (tl rest) st
              | r => r
              end
          end
      end
  end.

(** read_pax_header; [buffer] is what record_to_memory hands back for the
    [entsize] bytes of the record, [None] for NULL. *)
Definition read_pax_header (buffer : option (list Z)) (set_by_pax : Z)
           (out : tar_header_decoded_t) (sparse : sparse_map_t)
           (xattr : list tar_xattr_t) : pax_result :=
  match buffer with
  | None => PaxFail
  | Some buffer =>
      pax_loop (S (length buffer)) buffer
               (mk_pax_state out sparse xattr set_by_pax false 0 0)
  end.

End PaxReader.

End Pax.

(* ===================================================================== *)
(** ** What the serializer emits, as values                               *)
(* ===================================================================== *)

Module Views.

(** *** Directory listings *)

(** One header and the entries that follow it, each entry with the node it
    was made from. *)
Definition dir_group : Type :=
  (sqfs_dir_header_t * list (tree_node_t * sqfs_dir_entry_t))%type.

(** The capped count of one round of the loop of write_dir. *)
Definition group_count (c0 : tree_node_t) (c : list tree_node_t) : Z :=
  let count := count_entries c0 c 0 in
  if count >? SQFS_MAX_DIR_ENT then SQFS_MAX_DIR_ENT else count.

Definition group_header (c0 : tree_node_t) (count : Z) : sqfs_dir_header_t :=
  mk_dir_header (htole32 (u64 (count - 1)))
                (htole32 (Z.shiftr (inode_ref c0) 16))
                (htole32 (inode_num c0)).

Definition group_entry (d c0 : tree_node_t) : sqfs_dir_entry_t :=
  mk_dir_entry (htole16 (Z.land (inode_ref c0) 0x0000FFFF))
               (htole16 (u32 (inode_num c0 - inode_num d)))
               (htole16 (type c0))
               (htole16 (u64 (strlen (name c0) - 1))).

(** The number of leading nodes of [d] that pass both tests of the counting
    loop of write_dir, as a natural number. *)
Fixpoint run_length (c : tree_node_t) (d : list tree_node_t) : nat :=
  match d with
  | [] => O
  | d0 :: next =>
      if negb (Z.shiftr (inode_ref d0) 16 =? Z.shiftr (inode_ref c) 16) then O
      else if u32 (inode_num d0 - inode_num c) >? 0xFFFF then O
      else S (run_length c next)
  end.

(** The headers and entries of the rounds of write_dir_loop. *)
Fixpoint dir_listing_loop (fuel : nat) (c : list tree_node_t) : list dir_group :=
  match c with
  | [] => []
  | c0 :: _ =>
      match fuel with
      | O => []
      | S fuel' =>
          let count := Z.to_nat (group_count c0 c) in
          (group_header c0 (group_count c0 c),
           map (fun n => (n, group_entry c0 n)) (firstn count c))
          :: dir_listing_loop fuel' (skipn count c)
      end
  end.

Definition dir_listing (c : list tree_node_t) : list dir_group :=
  dir_listing_loop (length c) c.

Definition bytes_group (g : dir_group) : list Z :=
  bytes_dir_header (fst g)
  ++ flat_map (fun ne => bytes_dir_entry (snd ne) ++ name (fst ne)) (snd g).

Definition bytes_listing (gs : list dir_group) : list Z := flat_map bytes_group gs.

(** The nodes of a listing, in the order of their entries. *)
Definition listing_nodes (gs : list dir_group) : list tree_node_t :=
  flat_map (fun g => map fst (snd g)) gs.

(** The bytes of the entries of one group based at [d]. *)
Definition bytes_entries (d : tree_node_t) (l : list tree_node_t) : list Z :=
  flat_map (fun ne : tree_node_t * sqfs_dir_entry_t =>
              bytes_dir_entry (snd ne) ++ name (fst ne))
           (map (fun n => (n, group_entry d n)) l).

(** The first node of a group. *)
Definition group_base (g : dir_group) : option tree_node_t :=
  match snd g with
  | [] => None
  | (n, _) :: _ => Some n
  end.

(** *** Inode records *)

(** What follows the common part of an inode. *)
Inductive inode_payload : Type :=
| PayloadIpc (r : sqfs_inode_ipc_t)
| PayloadSlink (r : sqfs_inode_slink_t) (target : list Z)
| PayloadDev (r : sqfs_inode_dev_t)
| PayloadFileExt (r : sqfs_inode_file_ext_t) (blocks : list Z)
| PayloadFile (r : sqfs_inode_file_t) (blocks : list Z)
| PayloadDir (r : sqfs_inode_dir_t)
| PayloadDirExt (r : sqfs_inode_dir_ext_t).

Definition bytes_blocks (blocks : list Z) : list Z := flat_map le32 blocks.

Definition bytes_payload (p : inode_payload) : list Z :=
  match p with
  | PayloadIpc r => bytes_ipc r
  | PayloadSlink r target => bytes_slink r ++ target
  | PayloadDev r => bytes_dev r
  | PayloadFileExt r blocks => bytes_file_ext r ++ bytes_blocks blocks
  | PayloadFile r blocks => bytes_file r ++ bytes_blocks blocks
  | PayloadDir r => bytes_dir r
  | PayloadDirExt r => bytes_dir_ext r
  end.

(** The nlink field of a record, where it has one. *)
Definition payload_nlink (p : inode_payload) : option Z :=
  match p with
  | PayloadIpc r => Some (ipc_nlink r)
  | PayloadSlink r _ => Some (slink_nlink r)
  | PayloadDev r => Some (dev_nlink r)
  | PayloadFileExt r _ => Some (fext_nlink r)
  | PayloadFile _ _ => None
  | PayloadDir r => Some (dir_nlink r)
  | PayloadDirExt r => Some (dext_nlink r)
  end.

(** The xattr index of a record, where it has one. *)
Definition payload_xattr_idx (p : inode_payload) : option Z :=
  match p with
  | PayloadFileExt r _ => Some (fext_xattr_idx r)
  | PayloadDirExt r => Some (dext_xattr_idx r)
  | _ => None
  end.

(** The inode type that goes with a record layout. *)
Definition payload_fits (t : Z) (p : inode_payload) : Prop :=
  match p with
  | PayloadIpc _ => t = SQFS_INODE_FIFO \/ t = SQFS_INODE_SOCKET
  | PayloadSlink _ _ => t = SQFS_INODE_SLINK
  | PayloadDev _ => t = SQFS_INODE_BDEV \/ t = SQFS_INODE_CDEV
  | PayloadFileExt _ _ => t = SQFS_INODE_EXT_FILE
  | PayloadFile _ _ => t = SQFS_INODE_FILE
  | PayloadDir _ => t = SQFS_INODE_DIR
  | PayloadDirExt _ => t = SQFS_INODE_EXT_DIR
  end.

(** What the first switch of write_inode decides for [node]: the type [t]
    and the union [d'] of the written node, and the directory writer [dm2]
    it leaves behind [dm]. *)
Definition type_decided (node : tree_node_t) (dm dm2 : meta_writer_t)
           (t : Z) (d' : node_data_t tree_node_t) : Prop :=
  (S_ISDIR (mode node) = true /\
   exists di di',
     data node = DataDir di /\
     write_dir dm di = Some (dm2, di') /\
     d' = DataDir di' /\
     t = if (di_start_block di' >? 0xFFFFFFFF) || (di_size di' >? 0xFFFF)
         then SQFS_INODE_EXT_DIR else SQFS_INODE_DIR) \/
  (S_ISDIR (mode node) = false /\ dm2 = dm /\ d' = data node /\
   ((S_ISREG (mode node) = true /\
     exists fi nl,
       data node = DataFile fi /\ hard_link_count node = Some nl /\
       t = if (fi_startblock fi >? 0xFFFFFFFF) || (fi_size fi >? 0xFFFFFFFF)
              || (nl >? 1)
           then SQFS_INODE_EXT_FILE else SQFS_INODE_FILE) \/
    (S_ISREG (mode node) = false /\
     (t = SQFS_INODE_SOCKET \/ t = SQFS_INODE_FIFO \/ t = SQFS_INODE_SLINK \/
      t = SQFS_INODE_BDEV \/ t = SQFS_INODE_CDEV)))).

(** *** The order of serialization *)

(** The nodes below [n] in the order in which write_child_inodes hands
    them to write_inode: first, for every child that is a directory, the
    nodes below it, then the children themselves. *)
Fixpoint write_order (n : tree_node_t) : list tree_node_t :=
  match n with
  | TreeNode _ (DataDir di) =>
      flat_map (fun it => if S_ISDIR (mode it) then write_order it else [])
               (di_children di)
      ++ di_children di
  | TreeNode _ _ => []
  end.

(** The numbers k, k+1, ..., k+n-1. *)
Fixpoint zseq (k : Z) (n : nat) : list Z :=
  match n with
  | O => []
  | S n' => k :: zseq (k + 1) n'
  end.

(** Every child of [d] has a smaller inode number than [d]. *)
Definition above_children (d : tree_node_t) : Prop :=
  Forall (fun c => inode_num c < inode_num d) (children d).

(** The nodes below the directories among [cs], in the order of the first
    loop of write_child_inodes. *)
Definition subdir_order (cs : list tree_node_t) : list tree_node_t :=
  flat_map (fun it => if S_ISDIR (mode it) then write_order it else []) cs.

(** The nodes of [l] carry the inode numbers handed out, one after the
    other, between the states [s] and [s']. *)
Definition numbered_from (s : ser_t) (l : list tree_node_t) (s' : ser_t) : Prop :=
  let k := inode_counter (s_info s) in
  map inode_num l = zseq k (length l) /\
  inode_counter (s_info s') = k + len l /\
  u32 (inode_count (super (s_info s')))
  = u32 (inode_count (super (s_info s)) + len l).

(** Every directory of [l] is numbered above its children. *)
Definition post_ordered (l : list tree_node_t) : Prop :=
  Forall (fun d => S_ISDIR (mode d) = true -> above_children d) l.

(** What write_child_inodes does below [root]: it keeps the shape of the
    tree and, as long as the inode numbers stay below 2^32, numbers the nodes
    in the order of [write_order], every directory above its children. *)
Definition traversal_numbered (root : tree_node_t) : Prop :=
  forall s root' s',
    write_child_inodes root s = Some (root', s') ->
    mode root' = mode root /\
    length (write_order root') = length (write_order root) /\
    (0 <= inode_counter (s_info s) ->
     inode_counter (s_info s) + len (write_order root) <= 2 ^ 32 ->
     numbered_from s (write_order root') s' /\ post_ordered (write_order root')).

(** The nodes of [l] carry the inode numbers k, k+1, ... in their order,
    all of them below 2^32: the state in which the last loop of
    write_child_inodes leaves the children of a directory. *)
Definition numbered_in_order (l : list tree_node_t) : Prop :=
  exists k, 0 <= k /\ k + len l <= 2 ^ 32 /\ map inode_num l = zseq k (length l).

(** The listing of the directory [d] has been written by write_dir, from
    children that were numbered in order. *)
Definition listing_written (d : tree_node_t) : Prop :=
  exists dm dm' di di',
    write_dir dm di = Some (dm', di') /\
    data d = DataDir di' /\
    di_children di = children d /\
    numbered_in_order (children d).

(** The first two loops of write_child_inodes over the children [cs] of a
    directory: the search for a directory among them and the descent into
    every directory. *)
Definition write_subdirs (cs : list tree_node_t) : M (list tree_node_t) :=
  if existsb (fun it => S_ISDIR (mode it)) cs
  then mapM (fun it => if S_ISDIR (mode it) then write_child_inodes it else ret it) cs
  else ret cs.

(** A writer whose counters agree with what it has emitted. *)
Definition writer_ok (m : meta_writer_t) : Prop :=
  block_offset m = len (written m) /\
  offset m = len (MetaWriter.data m) /\
  0 <= offset m < SQFS_META_BLOCK_SIZE.

End Views.
Import Views.

(* ===================================================================== *)
(** ** Runs of write(2)                                                   *)
(* ===================================================================== *)

Module IoViews.
Import Dump.

(** A run of write calls that takes the data piece by piece: for every
    pair [(k, c)], [k] calls interrupted by a signal, then one call that
    takes [c] bytes. *)
Definition interrupted (k : nat) : list write_result :=
  repeat (mk_write_result (-1) EINTR) k.

Definition answers (l : list (nat * Z)) : list write_result :=
  flat_map (fun kc => interrupted (fst kc) ++ [mk_write_result (snd kc) 0]) l.

(** The number of bytes such a run takes. *)
Definition total (l : list (nat * Z)) : Z :=
  fold_right (fun kc acc => snd kc + acc) 0 l.

(** Every piece of the run is a positive number of bytes. *)
Definition pieces (l : list (nat * Z)) : Prop :=
  Forall (fun kc => 0 < snd kc) l.

End IoViews.

(* ===================================================================== *)
(** ** Tar type flags                                                     *)
(* ===================================================================== *)

Module TarViews.
Import Tar.

(** The file type that the switch of decode_header gives a type flag;
    [None] for the flags it does not know. *)
Definition type_bits (t : Z) : option Z :=
  if (t =? 0) || (t =? TAR_TYPE_FILE) || (t =? TAR_TYPE_GNU_SPARSE) then Some S_IFREG
  else if (t =? TAR_TYPE_LINK) || (t =? TAR_TYPE_SLINK) then Some S_IFLNK
  else if t =? TAR_TYPE_CHARDEV then Some S_IFCHR
  else if t =? TAR_TYPE_BLOCKDEV then Some S_IFBLK
  else if t =? TAR_TYPE_DIR then Some S_IFDIR
  else if t =? TAR_TYPE_FIFO then Some S_IFIFO
  else None.

Definition is_link (t : Z) : bool := (t =? TAR_TYPE_LINK) || (t =? TAR_TYPE_SLINK).

End TarViews.

(* ===================================================================== *)
(** ** Sizes of directory listings                                        *)
(* ===================================================================== *)

Module DirViews.

(** The bytes of the entries of [l]: eight for the entry and the name. *)
Definition entries_size (l : list tree_node_t) : Z :=
  fold_right (fun c acc => sizeof_dir_entry + strlen (name c) + acc) 0 l.

End DirViews.

(* ===================================================================== *)
(** ** The tree without what the serializer fills in                      *)
(* ===================================================================== *)

Module TreeViews.

(** A tree with the fields that write_inode and write_dir assign set to
    zero: inode_ref, inode_num and type of every node, and size,
    start_block and block_offset of every directory. *)
Fixpoint erase (n : tree_node_t) : tree_node_t :=
  match n with
  | TreeNode a d =>
      TreeNode (mk_attr (a_name a) (a_mode a) (a_uid a) (a_gid a) (a_mtime a)
                        (a_xattr a) 0 0 0)
               (match d with
                | DataDir di => DataDir (mk_dir_info (map erase (di_children di)) 0 0 0)
                | DataFile fi => DataFile fi
                | DataSlink target => DataSlink target
                | DataDev devno => DataDev devno
                end)
  end.

End TreeViews.

(* ===================================================================== *)
(** ** Runs of sqfs_data_reader_dump                                      *)
(* ===================================================================== *)

Module DumpViews.
Import Dump DumpReader.

(** A write call that takes the whole block at once, and what it puts into
    the file. *)
Definition full_write (blk : sqfs_block_t) : write_result :=
  mk_write_result (blk_size blk) 0.

Definition whole_block (blk : sqfs_block_t) : event :=
  Append (firstn (Z.to_nat (blk_size blk)) (blk_data blk)).

Definition sizes_sum (blocks : list sqfs_block_t) : Z :=
  fold_right (fun blk acc => blk_size blk + acc) 0 blocks.

(** The steps in which [n] holes of at most [block_size] bytes use up
    [filesz] bytes. *)
Fixpoint skips (filesz block_size : Z) (n : nat) : list Z :=
  match n with
  | O => []
  | S n' =>
      Z.min filesz block_size
      :: skips (filesz - Z.min filesz block_size) block_size n'
  end.

Definition is_append (e : event) : Prop := exists bytes, e = Append bytes.

Definition is_error (m : dump_message) : Prop :=
  (exists err, m = reading_data_block err) \/
  (exists err, m = reading_fragment_block err) \/
  m = creating_sparse_output_file.

Definition is_warning (m : dump_message) : Prop := exists a, m = from_append_block a.

(** What holds of the state of a run: the file has only been appended to
    unless sparse files are allowed, and stderr holds warnings of
    append_block, with one error at the end exactly when the run has
    failed. *)
Definition run_ok (allow_sparse : bool) (sk : list bool) (r : Z) (st : dump_state)
  : Prop :=
  (allow_sparse = false -> Forall is_append (events st) /\ seeks st = sk) /\
  ((r = 0 /\ Forall is_warning (messages st)) \/
   (r = -1 /\ exists ms m, messages st = ms ++ [m] /\ Forall is_warning ms /\
                           is_error m /\
                           (allow_sparse = false -> m <> creating_sparse_output_file))).

End DumpViews.

(* ===================================================================== *)
(** ** Pax flags                                                          *)
(* ===================================================================== *)

Module PaxViews.

(** A flag that is set stays set. *)
Definition flags_kept (f f' : Z) : Prop :=
  forall n, Z.testbit f n = true -> Z.testbit f' n = true.

End PaxViews.

(* ===================================================================== *)
(** ** Sample inputs                                                      *)
(* ===================================================================== *)

Module Examples.

(** A codec that never shrinks a block: every block is stored as it is. *)
Definition store : compressor_t := fun d => Some d.

Definition file_node (nm : list Z) (sz : Z) (blocks : list Z) : tree_node_t :=
  TreeNode (mk_attr nm (Z.lor S_IFREG 0x1A4) 0 0 1565000000 None 0 0 0)
           (DataFile (mk_file_info sz 0 0xFFFFFFFF 0 blocks)).

Definition dir_node (nm : list Z) (cs : list tree_node_t) : tree_node_t :=
  TreeNode (mk_attr nm (Z.lor S_IFDIR 0x1ED) 0 0 1565000000 None 0 0 0)
           (DataDir (mk_dir_info cs 0 0 0)).

(** A node as it looks once its inode has been written. *)
Definition written_file (nm : list Z) (num ref : Z) : tree_node_t :=
  set_type (set_inode_num (set_inode_ref (file_node nm 0 []) ref) num)
           SQFS_INODE_FILE.

(** [n] files with consecutive inode numbers from 2, 32 bytes of inode
    each. *)
Definition numbered_files (n : nat) : list tree_node_t :=
  map (fun i => written_file [97 + Z.of_nat i / 26; 97 + Z.of_nat i mod 26]
                             (2 + Z.of_nat i) (32 * Z.of_nat i))
      (seq 0 n).

Definition dir300 : dir_info_t tree_node_t := mk_dir_info (numbered_files 300) 0 0 0.

(** Two entries with consecutive inode numbers. *)
Definition dir_two : dir_info_t tree_node_t :=
  mk_dir_info [written_file [97] 2 0; written_file [98; 99] 3 32] 0 0 0.

Definition dm0 : meta_writer_t := meta_writer_create 4 store.

Definition super0 : sqfs_super_t := mk_super 0 0x100000 0 96 0 0.

Definition info0 (r : tree_node_t) : sqfs_info_t :=
  mk_info 3 (mk_options 0) super0 (mk_fstree r) [] 0 store.

Definition ser0 (r : tree_node_t) : ser_t :=
  mk_ser (info0 r) (meta_writer_create 3 store) dm0.

(** The tree of a source that holds nothing but the root directory. *)
Definition root_only : tree_node_t := dir_node [] [].

(** /a, /b/c, /d *)
Definition small_tree : tree_node_t :=
  dir_node [] [file_node [97] 10 [];
               dir_node [98] [file_node [99] 5 []];
               file_node [100] 0 []].

(** A file of 2^32 - 1 bytes and one of 2^32 bytes, in blocks of 1 MiB. *)
Definition max_narrow_file : tree_node_t :=
  file_node [97] (2 ^ 32 - 1) (repeat 0x100000 4095).

Definition min_extended_file : tree_node_t :=
  file_node [98] (2 ^ 32) (repeat 0x100000 4096).

(** A small file that carries an xattr id. *)
Definition xattr_file : tree_node_t := set_xattr (file_node [99] 10 []) (Some 0).

(** The image file before the inode table: the 96 bytes kept for the
    super block. *)
Definition image0 : list Z := repeat 0 96.

(** A stand-in for the number parsers of lib/tar: leading octal digits, up
    to a NUL or a space. *)
Fixpoint octal_value (s : list Z) (acc : Z) : option Z :=
  match s with
  | [] => Some acc
  | c :: s' =>
      if (c =? 0) || (c =? 32) then Some acc
      else if (48 <=? c) && (c <=? 55) then octal_value s' (acc * 8 + (c - 48))
      else None
  end.

Definition read_octal_digits (s : list Z) : option Z := octal_value s 0.

(** A field of [n] bytes that holds [s], padded with NUL. *)
Definition field (n : nat) (s : list Z) : list Z :=
  firstn n (s ++ repeat 0 n).

(** The header of a hard link "b" to "a": mode 0644, typeflag '1'. *)
Definition link_header : Tar.tar_header_t :=
  Tar.mk_tar_header
    (field 100 [98])                                    (* name "b" *)
    (field 8 [48; 48; 48; 48; 54; 52; 52])              (* mode "0000644" *)
    (field 8 [48]) (field 8 [48])                       (* uid, gid *)
    (field 12 [48]) (field 12 [48])                     (* size, mtime *)
    (field 8 [])                                        (* chksum *)
    Tar.TAR_TYPE_LINK
    (field 100 [97])                                    (* linkname "a" *)
    (field 6 [117; 115; 116; 97; 114])                  (* "ustar" *)
    [48; 48]                                            (* "00" *)
    (field 32 []) (field 32 [])
    (field 8 [48]) (field 8 [48])
    (field 167 []).

Definition decoded0 : Tar.tar_header_decoded_t :=
  Tar.mk_decoded (Tar.mk_stat 0 0 0 0 0 0) None None 0 0 false 0.

(** decode_header with the stand-ins: pax flag bits 1, 2, 4, ..., 128, a
    device number of 8+8 bits and a 64-bit time_t. *)
Definition decode_header0 :=
  Tar.decode_header read_octal_digits read_octal_digits
                    1 2 4 8 16 32 64 128
                    (fun ma mi => ma * 256 + mi) (fun d => d / 256) (fun d => d mod 256)
                    8.

End Examples.

(* ===================================================================== *)
(** ** More concrete inputs                                               *)
(* ===================================================================== *)

Module Examples2.
Import Examples.

Definition is_some {A : Type} (o : option A) : bool :=
  match o with Some _ => true | None => false end.

(** A number field in base 256, as read_number takes it from GNU tar:
    the bytes of the field, most significant first, cut to 64 bits. *)
Definition read_base256 (s : list Z) : option Z :=
  Some (u64 (fold_left (fun a c => a * 256 + c) s 0)).

(** The header of a directory "p/d" with mode 0755. *)
Definition dir_header : Tar.tar_header_t :=
  Tar.mk_tar_header
    (field 100 [100])                                   (* name "d" *)
    (field 8 [48; 48; 48; 48; 55; 53; 53])              (* mode "0000755" *)
    (field 8 [48]) (field 8 [48])                       (* uid, gid *)
    (field 12 [48]) (field 12 [48])                     (* size, mtime *)
    (field 8 [])                                        (* chksum *)
    Tar.TAR_TYPE_DIR
    (field 100 [])                                      (* linkname *)
    (field 6 [117; 115; 116; 97; 114])                  (* "ustar" *)
    [48; 48]                                            (* "00" *)
    (field 32 []) (field 32 [])
    (field 8 [48]) (field 8 [48])
    (field 167 [112]).                                  (* prefix "p" *)


(** A regular file "f" whose number fields are in base 256; its mtime
    field holds 2^64 - 1. *)
Definition old_file_header : Tar.tar_header_t :=
  Tar.mk_tar_header
    (field 100 [102])                                   (* name "f" *)
    (field 8 [48; 48; 48; 48; 54; 52; 52])              (* mode "0000644" *)
    (repeat 0 8) (repeat 0 8)                           (* uid, gid *)
    (repeat 0 12)                                       (* size *)
    (repeat 0 4 ++ repeat 255 8)                        (* mtime *)
    (field 8 [])
    Tar.TAR_TYPE_FILE
    (field 100 [])
    (field 6 [117; 115; 116; 97; 114])
    [48; 48]
    (field 32 []) (field 32 [])
    (repeat 0 8) (repeat 0 8)
    (field 167 []).

(** The header of a GNU tar file "f": magic "ustar ", version " ", and the
    access time where a POSIX header has its prefix. *)
Definition gnu_header : Tar.tar_header_t :=
  Tar.mk_tar_header
    (field 100 [102])
    (field 8 [48; 48; 48; 48; 54; 52; 52])
    (field 8 [48]) (field 8 [48])
    (field 12 [48]) (field 12 [48])
    (field 8 [])
    Tar.TAR_TYPE_FILE
    (field 100 [])
    [117; 115; 116; 97; 114; 32]
    [32; 0]
    (field 32 []) (field 32 [])
    (field 8 [48]) (field 8 [48])
    (field 167 [49; 51; 53; 48; 48]).                   (* atime "13500" *)

(** The header of a character device "t" with the device numbers 4 and 64
    (0100) and the mtime 1000 (01750). *)
Definition dev_header : Tar.tar_header_t :=
  Tar.mk_tar_header
    (field 100 [116])                                   (* name "t" *)
    (field 8 [48; 48; 48; 48; 54; 50; 48])              (* mode "0000620" *)
    (field 8 [48]) (field 8 [53])                       (* uid "0", gid "5" *)
    (field 12 [48]) (field 12 [49; 55; 53; 48])         (* size, mtime "1750" *)
    (field 8 [])
    Tar.TAR_TYPE_CHARDEV
    (field 100 [])
    (field 6 [117; 115; 116; 97; 114])
    [48; 48]
    (field 32 []) (field 32 [])
    (field 8 [52]) (field 8 [49; 48; 48])               (* devmajor "4", devminor "100" *)
    (field 167 []).

(** An entry that a pax record has given the uid 1000 and the name "n",
    with the device number (9, 7) and the mtime 77 from before. *)
Definition decoded_pax_dev : Tar.tar_header_decoded_t :=
  Tar.mk_decoded (Tar.mk_stat 0 1000 0 (9 * 256 + 7) 0 0) (Some [110]) None 0 0 false 77.

(** decode_header with base-256 number fields and a time_t of 8 and of 4
    bytes. *)
Definition decode_header64 :=
  Tar.decode_header read_base256 read_octal_digits
                    1 2 4 8 16 32 64 128
                    (fun ma mi => ma * 256 + mi) (fun d => d / 256) (fun d => d mod 256)
                    8.

Definition decode_header32 :=
  Tar.decode_header read_base256 read_octal_digits
                    1 2 4 8 16 32 64 128
                    (fun ma mi => ma * 256 + mi) (fun d => d / 256) (fun d => d mod 256)
                    4.


(** A symlink "l" to "/tmp". *)
Definition slink_node : tree_node_t :=
  TreeNode (mk_attr [108] (Z.lor S_IFLNK 0x1FF) 0 0 1565000000 None 0 0 0)
           (DataSlink [47; 116; 109; 112]).

(** A file of three full blocks and five bytes. *)
Definition big_file : tree_node_t :=
  file_node [102] (3 * 0x100000 + 5) [1000; 2000; 3000].

(** A serializer in the middle of its work: the inode writer has put out
    8194 bytes and holds 5 bytes of the next block, the directory writer has
    put out 8194 bytes and holds 40; the next inode number is 9. *)
Definition ser_busy : ser_t :=
  mk_ser (mk_info 3 (mk_options 0) super0 (mk_fstree root_only) [] 9 store)
         (mk_meta_writer 5 8194 [1; 2; 3; 4; 5] 3 store (repeat 0 (Z.to_nat 8194)))
         (mk_meta_writer 40 8194 (repeat 7 40) 4 store (repeat 0 (Z.to_nat 8194))).

(** A directory "d" whose two children have their inodes. *)
Definition dir_with_children : tree_node_t :=
  dir_node [100] [written_file [97] 2 0; written_file [98; 99] 3 32].

(** A node whose mode has no file type. *)
Definition no_type_node : tree_node_t :=
  TreeNode (mk_attr [120] 0x1FF 0 0 0 None 0 0 0) (DataDev 0).

End Examples2.

Module Examples3.
Import Dump DumpReader.

(** A file of two blocks of three bytes and a fragment of two bytes; the
    size word 0 marks a sparse block. *)
Definition is_sparse (bs : Z) : bool := bs =? 0.

Definition two_blocks : sqfs_inode_generic_t := mk_inode_generic 2 [3; 3].

Definition block_of (i : Z) : sqfs_block_t :=
  mk_block 3 [10 * i + 1; 10 * i + 2; 10 * i + 3] [].

Definition tail_block : sqfs_block_t := mk_block 2 [91; 92] [].

Definition dump0 :=
  sqfs_data_reader_dump is_sparse (fun _ => 8) (fun _ i => (0, block_of i))
                        (fun _ => (0, tail_block)).

(** The same file with a first block that cannot be read. *)
Definition dump_broken :=
  sqfs_data_reader_dump is_sparse (fun _ => 8) (fun _ i => (5, block_of i))
                        (fun _ => (0, tail_block)).

(** A file of ten bytes in three sparse blocks of four bytes. *)
Definition holes : sqfs_inode_generic_t := mk_inode_generic 3 [0; 0; 0].

Definition dump_holes :=
  sqfs_data_reader_dump is_sparse (fun _ => 10) (fun _ i => (5, block_of i))
                        (fun _ => (5, tail_block)).

End Examples3.

Module Examples4.

(** A string of decimal digits as a number. *)
Fixpoint decimal_value (s : list Z) (acc : Z) : option Z :=
  match s with
  | [] => Some acc
  | c :: s' =>
      if (48 <=? c) && (c <=? 57) then decimal_value s' (acc * 10 + (c - 48))
      else None
  end.

Definition read_decimal_digits (s : list Z) : option Z := decimal_value s 0.

(** read_pax_header with the stand-ins: no sparse maps, attributes kept as
    they are, and the flag bits of decode_header0. *)
Definition read_pax_header0 :=
  Pax.read_pax_header read_decimal_digits (fun _ => []) (fun k => k) (fun v => v)
                      1 2 4 32 64 128 256.

(** "12 uid=1000" and a newline. *)
Definition uid_record : list Z :=
  [49; 50; 32; 117; 105; 100; 61; 49; 48; 48; 48; 10].

(** "25 GNU.sparse.name=big" and a newline. *)
Definition sparse_name_record : list Z :=
  [50; 53; 32] ++ Pax.kw_gnu_sparse_name ++ [98; 105; 103; 10].

End Examples4.

(* ===================================================================== *)
(** ** Facts about the meta-writer                                        *)
(* ===================================================================== *)

Module WriterFacts.

Lemma len_app {A : Type} (l1 l2 : list A) : len (l1 ++ l2) = len l1 + len l2.
Proof. unfold len. rewrite length_app. lia. Qed.

Lemma len_nonneg {A : Type} (l : list A) : 0 <= len l.
Proof. unfold len. lia. Qed.

Lemma len_cons {A : Type} (x : A) (l : list A) : len (x :: l) = 1 + len l.
Proof. unfold len. cbn [length]. lia. Qed.

(** Appending a concatenation is appending its parts in turn. *)
Lemma meta_writer_append_app (a b : list Z) :
  forall m,
    meta_writer_append m (a ++ b) =
    match meta_writer_append m a with
    | None => None
    | Some m' => meta_writer_append m' b
    end.
Proof.
  induction a as [|x a IH]; intros m; cbn [app meta_writer_append].
  - reflexivity.
  - destruct (_ =? SQFS_META_BLOCK_SIZE).
    + destruct (meta_writer_flush _) as [m2|]; [apply IH | reflexivity].
    + apply IH.
Qed.

Lemma meta_writer_append_app_Some (a b : list Z) (m m1 m2 : meta_writer_t) :
  meta_writer_append m a = Some m1 ->
  meta_writer_append m1 b = Some m2 ->
  meta_writer_append m (a ++ b) = Some m2.
Proof. intros Ha Hb. rewrite meta_writer_append_app, Ha. exact Hb. Qed.

(** What a flush keeps and what it resets. *)
Lemma meta_writer_flush_inv (m m' : meta_writer_t) :
  meta_writer_flush m = Some m' ->
  block_offset m = len (written m) ->
  block_offset m' = len (written m') /\
  outfd m' = outfd m /\ cmp m' = cmp m /\
  (exists blk, written m' = written m ++ blk) /\
  ((offset m = 0 /\ m' = m) \/ (offset m' = 0 /\ MetaWriter.data m' = [])).
Proof.
  unfold meta_writer_flush. intros H Hb.
  destruct (offset m =? 0) eqn:E.
  - apply Z.eqb_eq in E. inversion H; subst m'. repeat split; auto.
    exists []. now rewrite app_nil_r.
  - destruct (cmp m (MetaWriter.data m)) as [c|]; [|discriminate].
    inversion H; subst m'; clear H. cbn.
    repeat split; auto.
    + rewrite len_app. lia.
    + eexists. reflexivity.
Qed.

Lemma meta_writer_flush_ok (m m' : meta_writer_t) :
  meta_writer_flush m = Some m' -> writer_ok m -> writer_ok m'.
Proof.
  intros H (Hb & Ho & Hr).
  destruct (meta_writer_flush_inv _ _ H Hb) as (Hb' & _ & _ & _ & [[_ ->]|[Ho' Hd']]).
  - repeat split; auto; lia.
  - unfold writer_ok. rewrite Ho', Hd'. unfold SQFS_META_BLOCK_SIZE.
    cbn. repeat split; auto; lia.
Qed.

(** Appending keeps the counters of a writer in step with its output, and
    only ever extends the output. *)
Lemma meta_writer_append_inv (bytes : list Z) :
  forall m m',
    meta_writer_append m bytes = Some m' ->
    writer_ok m ->
    writer_ok m' /\ outfd m' = outfd m /\ cmp m' = cmp m /\
    (exists blk, written m' = written m ++ blk).
Proof.
  induction bytes as [|b bytes IH]; intros m m' H Hok; cbn [meta_writer_append] in H.
  - inversion H; subst. repeat split; try apply Hok.
    exists []. now rewrite app_nil_r.
  - destruct Hok as (Hb & Ho & Hr).
    set (m1 := mk_meta_writer _ _ _ _ _ _) in H.
    destruct (offset m1 =? SQFS_META_BLOCK_SIZE) eqn:E.
    + destruct (meta_writer_flush m1) as [m2|] eqn:F; [|discriminate].
      destruct (meta_writer_flush_inv _ _ F Hb) as (Hb2 & Hf2 & Hc2 & (blk & Hw2) & Hcase).
      assert (Hok2 : writer_ok m2).
      { destruct Hcase as [[Hz _]|[Ho2 Hd2]].
        - apply Z.eqb_eq in E. rewrite Hz in E. discriminate.
        - unfold writer_ok. rewrite Ho2, Hd2. unfold SQFS_META_BLOCK_SIZE.
          cbn. repeat split; auto; lia. }
      destruct (IH _ _ H Hok2) as (Hok' & Hf' & Hc' & (blk' & Hw')).
      repeat split; try apply Hok'.
      * now rewrite Hf', Hf2.
      * now rewrite Hc', Hc2.
      * exists (blk ++ blk'). rewrite Hw', Hw2. cbn. now rewrite app_assoc.
    + assert (Hok1 : writer_ok m1).
      { apply Z.eqb_neq in E. unfold writer_ok, m1 in *. cbn in *.
        rewrite len_app, len_cons. unfold len at 3. cbn.
        repeat split; try lia. }
      destruct (IH _ _ H Hok1) as (Hok' & Hf' & Hc' & Hw').
      repeat split; try apply Hok'; auto.
Qed.

Lemma meta_writer_append_ok (bytes : list Z) (m m' : meta_writer_t) :
  meta_writer_append m bytes = Some m' -> writer_ok m -> writer_ok m'.
Proof. intros H Hok. exact (proj1 (meta_writer_append_inv _ _ _ H Hok)). Qed.

Lemma meta_writer_create_ok (fd : Z) (c : compressor_t) :
  writer_ok (meta_writer_create fd c).
Proof. unfold writer_ok, SQFS_META_BLOCK_SIZE. cbn. lia. Qed.

End WriterFacts.
Import WriterFacts.

(* ===================================================================== *)
(** ** Facts about write_dir                                              *)
(* ===================================================================== *)

Module DirFacts.

Lemma u64_range (x : Z) : 0 <= u64 x < 2 ^ 64.
Proof. unfold u64. apply Z.mod_pos_bound. lia. Qed.

Lemma u32_range (x : Z) : 0 <= u32 x < 2 ^ 32.
Proof. unfold u32. apply Z.mod_pos_bound. lia. Qed.

Lemma u16_range (x : Z) : 0 <= u16 x < 2 ^ 16.
Proof. unfold u16. apply Z.mod_pos_bound. lia. Qed.

Lemma u64_small (x : Z) : 0 <= x < 2 ^ 64 -> u64 x = x.
Proof. unfold u64. apply Z.mod_small. Qed.

Lemma u32_small (x : Z) : 0 <= x < 2 ^ 32 -> u32 x = x.
Proof. unfold u32. apply Z.mod_small. Qed.

Lemma u16_small (x : Z) : 0 <= x < 2 ^ 16 -> u16 x = x.
Proof. unfold u16. apply Z.mod_small. Qed.

(** Truncating twice is truncating to the narrower width. *)
Lemma u16_u32 (x : Z) : u16 (u32 x) = u16 x.
Proof. unfold u16, u32. apply Z.mod_mod_divide. exists (2 ^ 16). reflexivity. Qed.

Lemma u16_u64 (x : Z) : u16 (u64 x) = u16 x.
Proof. unfold u16, u64. apply Z.mod_mod_divide. exists (2 ^ 48). reflexivity. Qed.

Lemma u32_u64 (x : Z) : u32 (u64 x) = u32 x.
Proof. unfold u32, u64. apply Z.mod_mod_divide. exists (2 ^ 32). reflexivity. Qed.

Lemma u32_sub_u32_r (a b : Z) : u32 (a - u32 b) = u32 (a - b).
Proof. unfold u32. apply Zminus_mod_idemp_r. Qed.

Lemma u16_sub_u32_r (a b : Z) : u16 (a - u32 b) = u16 (a - b).
Proof. rewrite <- u16_u32, u32_sub_u32_r. apply u16_u32. Qed.

(** *** The counting loop *)

Lemma count_entries_run (c : tree_node_t) (d : list tree_node_t) :
  forall k, 0 <= k < 2 ^ 64 ->
    count_entries c d k = u64 (k + Z.of_nat (run_length c d)).
Proof.
  induction d as [|d0 next IH]; intros k Hk; cbn [count_entries run_length].
  - rewrite Z.add_0_r. symmetry. now apply u64_small.
  - destruct (negb _).
    + rewrite Z.add_0_r. symmetry. now apply u64_small.
    + destruct (_ >? 0xFFFF).
      * rewrite Z.add_0_r. symmetry. now apply u64_small.
      * rewrite IH by apply u64_range.
        unfold u64. rewrite Zplus_mod_idemp_l. f_equal. lia.
Qed.

Lemma run_length_le (c : tree_node_t) (d : list tree_node_t) :
  (run_length c d <= length d)%nat.
Proof.
  induction d as [|d0 next IH]; cbn [run_length length]; [lia|].
  destruct (negb _); [lia|]. destruct (_ >? _); lia.
Qed.

(** The nodes of the run share the upper bits of their inode reference with
    [c] and are at most 0xFFFF inode numbers away from it. *)
Lemma run_length_In (c : tree_node_t) (d : list tree_node_t) (n : tree_node_t) :
  In n (firstn (run_length c d) d) ->
  Z.shiftr (inode_ref n) 16 = Z.shiftr (inode_ref c) 16 /\
  u32 (inode_num n - inode_num c) <= 0xFFFF.
Proof.
  induction d as [|d0 next IH]; cbn [run_length]; [intros []|].
  destruct (Z.shiftr (inode_ref d0) 16 =? Z.shiftr (inode_ref c) 16) eqn:E1;
    cbn [negb]; [|intros []].
  destruct (u32 (inode_num d0 - inode_num c) >? 0xFFFF) eqn:E2; [intros []|].
  cbn [firstn]. intros [<-|Hin]; [|auto].
  split; [now apply Z.eqb_eq|].
  rewrite Z.gtb_ltb in E2. apply Z.ltb_ge in E2. exact E2.
Qed.

Lemma run_length_head (c : tree_node_t) (rest : list tree_node_t) :
  (1 <= run_length c (c :: rest))%nat.
Proof.
  cbn [run_length]. rewrite Z.eqb_refl. cbn [negb].
  rewrite Z.sub_diag. cbn. lia.
Qed.

Lemma group_count_range (c0 : tree_node_t) (c : list tree_node_t) :
  0 <= group_count c0 c <= SQFS_MAX_DIR_ENT /\
  (Z.to_nat (group_count c0 c) <= run_length c0 c)%nat.
Proof.
  unfold group_count. rewrite count_entries_run by lia. cbn [Z.add].
  pose proof (u64_range (Z.of_nat (run_length c0 c))) as Hr.
  assert (Hle : u64 (Z.of_nat (run_length c0 c)) <= Z.of_nat (run_length c0 c)).
  { unfold u64. apply Z.mod_le; lia. }
  unfold SQFS_MAX_DIR_ENT.
  destruct (_ >? 256) eqn:E.
  - rewrite Z.gtb_ltb in E. apply Z.ltb_lt in E. lia.
  - rewrite Z.gtb_ltb in E. apply Z.ltb_ge in E. lia.
Qed.

(** Below 2^64 nodes the counter does not wrap: the count is the run,
    capped at SQFS_MAX_DIR_ENT. *)
Lemma group_count_exact (c0 : tree_node_t) (c : list tree_node_t) :
  len c < 2 ^ 64 ->
  group_count c0 c = Z.min SQFS_MAX_DIR_ENT (Z.of_nat (run_length c0 c)).
Proof.
  intros Hlen. unfold group_count. rewrite count_entries_run by lia. cbn [Z.add].
  pose proof (run_length_le c0 c). unfold len in Hlen.
  rewrite u64_small by lia. unfold SQFS_MAX_DIR_ENT.
  destruct (_ >? 256) eqn:E.
  - rewrite Z.gtb_ltb in E. apply Z.ltb_lt in E. lia.
  - rewrite Z.gtb_ltb in E. apply Z.ltb_ge in E. lia.
Qed.

(** *** The entry loop *)

Lemma write_dir_entries_inv (n : nat) (d : tree_node_t) :
  forall c dm size dm' size' c',
    write_dir_entries n d c dm size = Some (dm', size', c') ->
    (n <= length c)%nat /\
    c' = skipn n c /\
    meta_writer_append dm (bytes_entries d (firstn n c)) = Some dm'.
Proof.
  induction n as [|n IH]; intros c dm size dm' size' c' H; cbn [write_dir_entries] in H.
  - inversion H; subst. cbn. repeat split; lia.
  - destruct c as [|c0 next]; [discriminate|].
    destruct (meta_writer_append dm _) as [dm1|] eqn:E1; [|discriminate].
    destruct (meta_writer_append dm1 _) as [dm2|] eqn:E2; [|discriminate].
    destruct (IH _ _ _ _ _ _ H) as (Hn & Hc & Ha).
    repeat split.
    + cbn [length]. lia.
    + exact Hc.
    + cbn [firstn]. unfold bytes_entries in *. cbn [map flat_map fst snd].
      rewrite <- app_assoc.
      eapply meta_writer_append_app_Some; [exact E1|].
      eapply meta_writer_append_app_Some; [exact E2|exact Ha].
Qed.

(** *** The outer loop *)

(** A round that counts no entry never ends. *)
Lemma write_dir_loop_stuck (fuel : nat) (c0 : tree_node_t) (rest : list tree_node_t) :
  Z.to_nat (group_count c0 (c0 :: rest)) = O ->
  forall dm size, write_dir_loop fuel (c0 :: rest) dm size = None.
Proof.
  intros Hz. induction fuel as [|fuel IH]; intros dm size; cbn [write_dir_loop].
  - reflexivity.
  - fold (group_count c0 (c0 :: rest)).
    destruct (meta_writer_append dm _) as [dm1|]; [|reflexivity].
    rewrite Hz. cbn [write_dir_entries]. apply IH.
Qed.

Lemma write_dir_loop_inv (fuel : nat) :
  forall c dm size dm' size',
    write_dir_loop fuel c dm size = Some (dm', size') ->
    meta_writer_append dm (bytes_listing (dir_listing_loop fuel c)) = Some dm' /\
    listing_nodes (dir_listing_loop fuel c) = c /\
    Forall (fun g : dir_group => snd g <> []) (dir_listing_loop fuel c).
Proof.
  induction fuel as [|fuel IH]; intros c dm size dm' size' H.
  - destruct c as [|c0 rest]; cbn in H; [|discriminate].
    inversion H; subst. cbn. repeat split. constructor.
  - destruct c as [|c0 rest].
    + cbn in H. inversion H; subst. cbn. repeat split. constructor.
    + destruct (Z.to_nat (group_count c0 (c0 :: rest))) as [|k] eqn:Ek.
      { rewrite (write_dir_loop_stuck _ _ _ Ek) in H. discriminate. }
      cbn [write_dir_loop] in H. fold (group_count c0 (c0 :: rest)) in H.
      destruct (meta_writer_append dm _) as [dm1|] eqn:E1; [|discriminate].
      destruct (write_dir_entries _ _ _ _ _) as [[[dm2 size2] c2]|] eqn:E2;
        [|discriminate].
      destruct (write_dir_entries_inv _ _ _ _ _ _ _ _ E2) as (Hn & Hc & Ha).
      destruct (IH _ _ _ _ _ H) as (Hb & Hl & Hne).
      cbn [dir_listing_loop]. subst c2.
      repeat split.
      * unfold bytes_listing. cbn [flat_map]. unfold bytes_group at 1.
        cbn [fst snd]. rewrite <- app_assoc.
        eapply meta_writer_append_app_Some; [exact E1|].
        eapply meta_writer_append_app_Some; [exact Ha|exact Hb].
      * unfold listing_nodes in *. cbn [flat_map snd].
        rewrite Hl, map_map. cbn [fst]. rewrite map_id.
        apply firstn_skipn.
      * constructor; [|exact Hne].
        cbn [snd]. rewrite Ek. cbn [firstn map]. discriminate.
Qed.

(** write_dir appends exactly the bytes of its listing. *)
Lemma write_dir_emits (dm dm' : meta_writer_t) (dir dir' : dir_info_t tree_node_t) :
  write_dir dm dir = Some (dm', dir') ->
  meta_writer_append dm (bytes_listing (dir_listing (di_children dir))) = Some dm' /\
  listing_nodes (dir_listing (di_children dir)) = di_children dir /\
  Forall (fun g : dir_group => snd g <> []) (dir_listing (di_children dir)) /\
  di_children dir' = di_children dir /\
  di_start_block dir' = u64 (block_offset dm) /\
  di_block_offset dir' = u32 (offset dm).
Proof.
  unfold write_dir, dir_listing. intros H.
  destruct (write_dir_loop _ _ _ _) as [[dm2 size]|] eqn:E; [|discriminate].
  inversion H; subst; clear H. cbn.
  destruct (write_dir_loop_inv _ _ _ _ _ _ E) as (Ha & Hl & Hne).
  repeat split; assumption.
Qed.

End DirFacts.
Import DirFacts.

Module GroupFacts.

Lemma firstn_In_le {A : Type} (l : list A) :
  forall (a b : nat) (x : A),
    (a <= b)%nat -> In x (firstn a l) -> In x (firstn b l).
Proof.
  induction l as [|y l IH]; intros a b x Hab Hin.
  - rewrite firstn_nil in Hin. destruct Hin.
  - destruct a as [|a]; [destruct Hin|].
    destruct b as [|b]; [lia|].
    cbn [firstn] in *. destruct Hin as [->|Hin]; [now left|right].
    apply (IH a b); [lia|exact Hin].
Qed.

(** The shape of every group of a listing: a base node, the header made
    from it and the entries made from at most SQFS_MAX_DIR_ENT nodes that
    pass the two tests against the base. *)
Lemma dir_listing_loop_groups (fuel : nat) :
  forall c g,
    In g (dir_listing_loop fuel c) ->
    exists (base : tree_node_t) (members : list tree_node_t),
      snd g = map (fun n => (n, group_entry base n)) members /\
      fst g = group_header base (len members) /\
      len members <= SQFS_MAX_DIR_ENT /\
      (members <> [] -> hd_error members = Some base) /\
      (forall n, In n members ->
         Z.shiftr (inode_ref n) 16 = Z.shiftr (inode_ref base) 16 /\
         u32 (inode_num n - inode_num base) <= 0xFFFF).
Proof.
  induction fuel as [|fuel IH]; intros c g Hin.
  - destruct c; destruct Hin.
  - destruct c as [|c0 rest]; [destruct Hin|].
    cbn [dir_listing_loop] in Hin. destruct Hin as [<-|Hin]; [|eauto].
    destruct (group_count_range c0 (c0 :: rest)) as ((H0 & Hmax) & Hrun).
    set (count := group_count c0 (c0 :: rest)) in *.
    pose proof (run_length_le c0 (c0 :: rest)) as Hle.
    assert (Hlen : length (firstn (Z.to_nat count) (c0 :: rest)) = Z.to_nat count).
    { apply firstn_length_le. lia. }
    exists c0, (firstn (Z.to_nat count) (c0 :: rest)).
    cbn [fst snd]. repeat split.
    + unfold len. rewrite Hlen, Z2Nat.id by lia. reflexivity.
    + unfold len. rewrite Hlen. lia.
    + destruct (Z.to_nat count); cbn; [congruence|reflexivity].
    + eapply run_length_In, firstn_In_le; [exact Hrun|exact H].
    + eapply run_length_In, firstn_In_le; [exact Hrun|exact H].
Qed.

Lemma listing_nodes_length (gs : list dir_group) (k : Z) :
  Forall (fun g : dir_group => len (snd g) <= k) gs ->
  len (listing_nodes gs) <= k * len gs.
Proof.
  induction 1 as [|g gs Hg _ IH]; unfold listing_nodes in *; cbn [flat_map].
  - unfold len. cbn. lia.
  - rewrite len_app, len_cons. unfold len at 1. rewrite length_map.
    fold (len (snd g)). lia.
Qed.

End GroupFacts.

(* ===================================================================== *)
(** ** Directory listings: groups and entries                             *)
(* ===================================================================== *)

Lemma u16_idem (x : Z) : u16 (u16 x) = u16 x.
Proof. unfold u16. apply Z.mod_mod. lia. Qed.

Lemma s16_u16 (x : Z) : - 2 ^ 15 <= x < 2 ^ 15 -> s16 (u16 x) = x.
Proof.
  intros Hx. unfold s16. rewrite u16_idem.
  destruct (Z_lt_le_dec x 0) as [Hneg|Hpos].
  - assert (E : u16 x = x + 2 ^ 16).
    { unfold u16. symmetry. apply (Z.mod_unique x (2 ^ 16) (-1)); lia. }
    rewrite E. destruct (Z.ltb_spec (x + 2 ^ 16) (2 ^ 15)); lia.
  - rewrite u16_small by lia.
    destruct (Z.ltb_spec x (2 ^ 15)); lia.
Qed.

(** C4: every directory entry written by write_dir is delta-encoded: its
    16-bit inode field is the difference between the inode number of the
    entry and the inode number in the header of its group, truncated to 16
    bits, and reads back as that difference whenever the difference fits a
    signed 16-bit number; its size field holds the length of the name
    minus one (truncated to 16 bits, exact for names of 1 to 65536
    bytes). *)
Theorem write_dir_entries_delta_encoded :
  forall (dm dm' : meta_writer_t) (dir dir' : dir_info_t tree_node_t),
    write_dir dm dir = Some (dm', dir') ->
    let gs := dir_listing (di_children dir) in
    meta_writer_append dm (bytes_listing gs) = Some dm' /\
    listing_nodes gs = di_children dir /\
    forall h es n e, In (h, es) gs -> In (n, e) es ->
      ent_inode_number e = u16 (inode_num n - hdr_inode_number h) /\
      (- 2 ^ 15 <= inode_num n - hdr_inode_number h < 2 ^ 15 ->
       s16 (ent_inode_number e) = inode_num n - hdr_inode_number h) /\
      ent_size e = u16 (strlen (name n) - 1) /\
      (1 <= strlen (name n) <= 2 ^ 16 -> ent_size e = strlen (name n) - 1).
Proof.
  intros dm dm' dir dir' H gs.
  destruct (write_dir_emits _ _ _ _ H) as (Ha & Hl & Hne & _).
  fold gs in Ha, Hl, Hne.
  split; [exact Ha|]. split; [exact Hl|].
  intros h es n e Hin Hine.
  destruct (GroupFacts.dir_listing_loop_groups _ _ _ Hin)
    as (base & members & Hes & Hh & _ & _ & _).
  cbn [fst snd] in Hes, Hh. rewrite Hes in Hine.
  apply in_map_iff in Hine. destruct Hine as (x & Hx & _).
  inversion Hx; subst x e; clear Hx.
  assert (Hnum : ent_inode_number (group_entry base n)
                 = u16 (inode_num n - hdr_inode_number h)).
  { rewrite Hh. unfold group_entry, group_header, htole16, htole32.
    cbn [ent_inode_number hdr_inode_number].
    now rewrite u16_u32, u16_sub_u32_r. }
  assert (Hsize : ent_size (group_entry base n) = u16 (strlen (name n) - 1)).
  { unfold group_entry, htole16. cbn [ent_size]. apply u16_u64. }
  repeat split.
  - exact Hnum.
  - intros Hr. rewrite Hnum. now apply s16_u16.
  - exact Hsize.
  - intros Hr. rewrite Hsize. apply u16_small. lia.
Qed.

(** The second of two entries: inode field 1, size field 1 for a name of
    two bytes. *)
Lemma write_dir_entries_delta_encoded_witness :
  let a := Examples.written_file [97] 2 0 in
  let b := Examples.written_file [98; 99] 3 32 in
  exists dm' dir',
    write_dir Examples.dm0 Examples.dir_two = Some (dm', dir') /\
    s16 (ent_inode_number (group_entry a b)) = inode_num b - hdr_inode_number (group_header a 2) /\
    ent_size (group_entry a b) = strlen (name b) - 1.
Proof.
  intros a b.
  destruct (write_dir Examples.dm0 Examples.dir_two) as [[dm' dir']|] eqn:E.
  - exists dm', dir'. split; [reflexivity|].
    destruct (write_dir_entries_delta_encoded _ _ _ _ E) as (_ & _ & Hall).
    assert (Hg : In (group_header a 2, [(a, group_entry a a); (b, group_entry a b)])
                    (dir_listing (di_children Examples.dir_two))).
    { left. reflexivity. }
    destruct (Hall _ _ b (group_entry a b) Hg (or_intror (or_introl eq_refl)))
      as (_ & Hs16 & _ & Hsz).
    split.
    + apply Hs16. vm_compute. split; [intro Hc; discriminate Hc|reflexivity].
    + apply Hsz. vm_compute. split; intro Hc; discriminate Hc.
  - vm_compute in E. discriminate E.
Defined.

(* ===================================================================== *)
(** ** Facts about write_inode                                            *)
(* ===================================================================== *)

Module InodeFacts.

Lemma bind_inv {A B : Type} (c : M A) (k : A -> M B) (s : ser_t) (r : B * ser_t) :
  bind c k s = Some r ->
  exists a s1, c s = Some (a, s1) /\ k a s1 = Some r.
Proof.
  unfold bind. destruct (c s) as [[a s1]|]; [|discriminate].
  intros H. exists a, s1. split; [reflexivity|exact H].
Qed.

Lemma ret_inv {A : Type} (a : A) (s : ser_t) (r : A * ser_t) :
  ret a s = Some r -> r = (a, s).
Proof. unfold ret. congruence. Qed.

Lemma lift_inv {A : Type} (o : option A) (s : ser_t) (a : A) (s1 : ser_t) :
  lift o s = Some (a, s1) -> o = Some a /\ s1 = s.
Proof. unfold lift. destruct o; [|discriminate]. intros H. inversion H. auto. Qed.

Lemma im_append_inv (bytes : list Z) (s : ser_t) (u : unit) (s1 : ser_t) :
  im_append bytes s = Some (u, s1) ->
  meta_writer_append (s_im s) bytes = Some (s_im s1) /\
  s_info s1 = s_info s /\ s_dm s1 = s_dm s.
Proof.
  unfold im_append. destruct (meta_writer_append _ _); [|discriminate].
  intros H. inversion H. cbn. auto.
Qed.

Lemma id_to_index_inv (id : Z) (s : ser_t) (idx : Z) (s1 : ser_t) :
  id_to_index id s = Some (idx, s1) ->
  exists tbl,
    id_table_id_to_index (idtbl (s_info s)) id = Some (tbl, idx) /\
    s1 = mk_ser (set_idtbl (s_info s) tbl) (s_im s) (s_dm s).
Proof.
  unfold id_to_index. destruct (id_table_id_to_index _ _) as [[tbl i]|]; [|discriminate].
  intros H. inversion H. exists tbl. auto.
Qed.

Ltac bind_step H :=
  let a := fresh "a" in
  let s1 := fresh "s" in
  let E := fresh "E" in
  apply bind_inv in H; destruct H as (a & s1 & E & H); cbv beta zeta in H.

(** The loop at out_file_blocks appends the first size/block_size block
    sizes, four bytes each. *)
Lemma write_file_blocks_inv (n : nat) :
  forall blocksizes s u s1,
    write_file_blocks n blocksizes s = Some (u, s1) ->
    (n <= length blocksizes)%nat /\
    meta_writer_append (s_im s) (bytes_blocks (map u32 (firstn n blocksizes)))
      = Some (s_im s1) /\
    s_info s1 = s_info s /\ s_dm s1 = s_dm s.
Proof.
  induction n as [|n IH]; intros blocksizes s u s1 H; cbn [write_file_blocks] in H.
  - apply ret_inv in H. inversion H; subst. cbn. repeat split. lia.
  - destruct blocksizes as [|bs rest]; [discriminate|].
    bind_step H. destruct a.
    apply im_append_inv in E. destruct E as (Ea & Ei & Ed).
    destruct (IH _ _ _ _ H) as (Hn & Ha & Hi & Hd).
    repeat split.
    + cbn [length]. lia.
    + cbn [firstn map bytes_blocks flat_map].
      eapply meta_writer_append_app_Some; [exact Ea|exact Ha].
    + congruence.
    + congruence.
Qed.

Lemma out_file_blocks_inv (fi : file_info_t) (s : ser_t) (u : unit) (s1 : ser_t) :
  out_file_blocks fi s = Some (u, s1) ->
  let n := Z.to_nat (fi_size fi / block_size (super (s_info s))) in
  block_size (super (s_info s)) <> 0 /\
  (n <= length (fi_blocksizes fi))%nat /\
  meta_writer_append (s_im s) (bytes_blocks (map u32 (firstn n (fi_blocksizes fi))))
    = Some (s_im s1) /\
  s_info s1 = s_info s /\ s_dm s1 = s_dm s.
Proof.
  unfold out_file_blocks. intros H. bind_step H.
  unfold get in E. inversion E; subst; clear E.
  destruct (block_size (super (s_info s0)) =? 0) eqn:Ez; [discriminate|].
  apply Z.eqb_neq in Ez.
  destruct (write_file_blocks_inv _ _ _ _ _ H) as (Hn & Ha & Hi & Hd).
  repeat split; assumption.
Qed.

End InodeFacts.
Import InodeFacts.
Module InodeFacts2.

Lemma hard_link_count_ext (n n' : tree_node_t) :
  mode n' = mode n ->
  (data n' = data n \/
   exists di di', data n = DataDir di /\ data n' = DataDir di' /\
                  di_children di' = di_children di) ->
  hard_link_count n' = hard_link_count n.
Proof.
  intros Hm Hd. unfold hard_link_count. rewrite Hm.
  destruct (S_ISDIR (mode n)); [|reflexivity].
  destruct Hd as [->|(di & di' & -> & -> & ->)]; reflexivity.
Qed.

Ltac step_lift H nl El :=
  let s1 := fresh "s" in
  apply bind_inv in H; destruct H as (nl & s1 & El & H); cbv beta zeta in H;
  apply lift_inv in El; destruct El as [El ->].

Ltac step_append H Ea Ei Ed :=
  let u := fresh "u" in
  let s1 := fresh "s" in
  apply bind_inv in H; destruct H as (u & s1 & Ea & H); cbv beta zeta in H;
  apply im_append_inv in Ea; destruct Ea as (Ea & Ei & Ed).

Ltac step_blocks H Eb Ez En Ei Ed :=
  let u := fresh "u" in
  let s1 := fresh "s" in
  apply bind_inv in H; destruct H as (u & s1 & Eb & H); cbv beta zeta in H;
  apply out_file_blocks_inv in Eb; destruct Eb as (Ez & En & Eb & Ei & Ed).

Ltac step_ret H :=
  apply ret_inv in H; inversion H; subst; clear H.

(** What the second switch of write_inode appends for a node whose type
    has been set. *)
Lemma write_inode_record_inv (parent : option Z) (node node' : tree_node_t)
      (s s' : ser_t) :
  write_inode_record parent node s = Some (node', s') ->
  node' = node /\ s_info s' = s_info s /\ s_dm s' = s_dm s /\
  exists payload,
    meta_writer_append (s_im s) (bytes_payload payload) = Some (s_im s') /\
    payload_fits (type node) payload /\
    (forall x, payload_nlink payload = Some x ->
       exists nl, hard_link_count node = Some nl /\ x = u32 nl) /\
    (forall x, payload_xattr_idx payload = Some x -> x = 0xFFFFFFFF).
Proof.
  unfold write_inode_record. intros H.
  destruct ((type node =? SQFS_INODE_FIFO) || (type node =? SQFS_INODE_SOCKET)) eqn:T1.
  { step_lift H nl El. step_append H Ea Ei Ed. step_ret H.
    repeat split; try congruence.
    exists (PayloadIpc (mk_ipc (u32 nl))). cbn [bytes_payload payload_fits payload_nlink payload_xattr_idx ipc_nlink].
    split; [exact Ea|]. split.
    - apply orb_true_iff in T1. destruct T1 as [T|T]; apply Z.eqb_eq in T; auto.
    - split; [|discriminate]. intros x Hx. inversion Hx. eauto. }
  destruct (type node =? SQFS_INODE_SLINK) eqn:T2.
  { destruct (data node) as [| |target|] eqn:D; try discriminate.
    step_lift H nl El. step_append H Ea Ei Ed. step_append H Ea2 Ei2 Ed2. step_ret H.
    repeat split; try congruence.
    eexists (PayloadSlink _ _).
    cbn [bytes_payload payload_fits payload_nlink payload_xattr_idx slink_nlink].
    split; [eapply meta_writer_append_app_Some; [exact Ea|exact Ea2]|].
    split; [now apply Z.eqb_eq|].
    split; [|discriminate]. intros x Hx. inversion Hx. eauto. }
  destruct ((type node =? SQFS_INODE_BDEV) || (type node =? SQFS_INODE_CDEV)) eqn:T3.
  { destruct (data node) as [| | |devno] eqn:D; try discriminate.
    step_lift H nl El. step_append H Ea Ei Ed. step_ret H.
    repeat split; try congruence.
    exists (PayloadDev (mk_dev (htole32 nl) (htole32 devno))).
    cbn [bytes_payload payload_fits payload_nlink payload_xattr_idx dev_nlink].
    split; [exact Ea|]. split.
    - apply orb_true_iff in T3. destruct T3 as [T|T]; apply Z.eqb_eq in T; auto.
    - split; [|discriminate]. intros x Hx. inversion Hx. eauto. }
  destruct (type node =? SQFS_INODE_EXT_FILE) eqn:T4.
  { destruct (data node) as [|fi| |] eqn:D; try discriminate.
    step_lift H nl El. step_append H Ea Ei Ed. step_blocks H Eb Ez En Ei2 Ed2.
    step_ret H.
    repeat split; try congruence.
    eexists (PayloadFileExt _ _).
    cbn [bytes_payload payload_fits payload_nlink payload_xattr_idx
         fext_nlink fext_xattr_idx].
    split; [eapply meta_writer_append_app_Some; [exact Ea|exact Eb]|].
    split; [now apply Z.eqb_eq|].
    split; intros x Hx; inversion Hx; eauto. }
  destruct (type node =? SQFS_INODE_FILE) eqn:T5.
  { destruct (data node) as [|fi| |] eqn:D; try discriminate.
    step_append H Ea Ei Ed. step_blocks H Eb Ez En Ei2 Ed2.
    step_ret H.
    repeat split; try congruence.
    eexists (PayloadFile _ _).
    cbn [bytes_payload payload_fits payload_nlink payload_xattr_idx].
    split; [eapply meta_writer_append_app_Some; [exact Ea|exact Eb]|].
    split; [now apply Z.eqb_eq|].
    split; intros x Hx; discriminate Hx. }
  destruct (type node =? SQFS_INODE_DIR) eqn:T6.
  { destruct (data node) as [di| | |] eqn:D; try discriminate.
    step_lift H nl El. step_append H Ea Ei Ed. step_ret H.
    repeat split; try congruence.
    eexists (PayloadDir _).
    cbn [bytes_payload payload_fits payload_nlink payload_xattr_idx dir_nlink].
    split; [exact Ea|].
    split; [now apply Z.eqb_eq|].
    split; [|discriminate]. intros x Hx. inversion Hx. eauto. }
  destruct (type node =? SQFS_INODE_EXT_DIR) eqn:T7; [|discriminate].
  destruct (data node) as [di| | |] eqn:D; try discriminate.
  step_lift H nl El. step_append H Ea Ei Ed. step_ret H.
  repeat split; try congruence.
  eexists (PayloadDirExt _).
  cbn [bytes_payload payload_fits payload_nlink payload_xattr_idx dext_nlink
       dext_xattr_idx].
  split; [exact Ea|].
  split; [now apply Z.eqb_eq|].
  split; intros x Hx; inversion Hx; eauto.
Qed.


Lemma set_type_twice (n : tree_node_t) (t1 t2 : Z) :
  set_type (set_type n t1) t2 = set_type n t2.
Proof. destruct n. reflexivity. Qed.

Lemma set_data_same (n : tree_node_t) : set_data n (data n) = n.
Proof. destruct n. reflexivity. Qed.

Lemma set_type_set_data (n : tree_node_t) (t : Z) (d : node_data_t tree_node_t) :
  set_type (set_data n d) t = set_data (set_type n t) d.
Proof. destruct n. reflexivity. Qed.

(** What the first switch of write_inode decides. *)
Lemma select_inode_type_inv (node node2 : tree_node_t) (s s2 : ser_t) :
  select_inode_type node s = Some (node2, s2) ->
  s_info s2 = s_info s /\ s_im s2 = s_im s /\
  exists t d',
    node2 = set_data (set_type node t) d' /\
    type_decided node (s_dm s) (s_dm s2) t d'.
Proof.
  unfold select_inode_type. cbv zeta. intros H.
  assert (Hsimple : forall t,
            Z.land (mode node) S_IFMT <> S_IFDIR ->
            Z.land (mode node) S_IFMT <> S_IFREG ->
            (t = SQFS_INODE_SOCKET \/ t = SQFS_INODE_FIFO \/ t = SQFS_INODE_SLINK \/
             t = SQFS_INODE_BDEV \/ t = SQFS_INODE_CDEV) ->
            ret (set_type node t) s = Some (node2, s2) ->
            s_info s2 = s_info s /\ s_im s2 = s_im s /\
            exists t d', node2 = set_data (set_type node t) d' /\
              type_decided node (s_dm s) (s_dm s2) t d').
  { intros t Hnd Hnr Ht Hret. step_ret Hret.
    split; [reflexivity|]. split; [reflexivity|].
    exists t, (data node). split; [destruct node; reflexivity|].
    right. split; [now apply Z.eqb_neq|]. split; [reflexivity|].
    split; [reflexivity|]. right. split; [now apply Z.eqb_neq|exact Ht]. }
  destruct (Z.land (mode node) S_IFMT =? S_IFSOCK) eqn:F1.
  { apply Z.eqb_eq in F1. apply (Hsimple SQFS_INODE_SOCKET); auto;
      rewrite F1; discriminate. }
  destruct (Z.land (mode node) S_IFMT =? S_IFIFO) eqn:F2.
  { apply Z.eqb_eq in F2. apply (Hsimple SQFS_INODE_FIFO); auto;
      rewrite F2; discriminate. }
  destruct (Z.land (mode node) S_IFMT =? S_IFLNK) eqn:F3.
  { apply Z.eqb_eq in F3. apply (Hsimple SQFS_INODE_SLINK); auto;
      rewrite F3; discriminate. }
  destruct (Z.land (mode node) S_IFMT =? S_IFBLK) eqn:F4.
  { apply Z.eqb_eq in F4. apply (Hsimple SQFS_INODE_BDEV); auto 6;
      rewrite F4; discriminate. }
  destruct (Z.land (mode node) S_IFMT =? S_IFCHR) eqn:F5.
  { apply Z.eqb_eq in F5. apply (Hsimple SQFS_INODE_CDEV); auto 6;
      rewrite F5; discriminate. }
  clear Hsimple.
  destruct (Z.land (mode node) S_IFMT =? S_IFDIR) eqn:F6.
  { destruct (data node) as [di| | |] eqn:D; try discriminate.
    bind_step H. unfold dm_write_dir in E.
    destruct (write_dir (s_dm s) di) as [[m di']|] eqn:W; [|discriminate].
    inversion E; subst a s0; clear E.
    assert (Hret : forall t,
              t = (if (di_start_block di' >? 0xFFFFFFFF) || (di_size di' >? 0xFFFF)
                   then SQFS_INODE_EXT_DIR else SQFS_INODE_DIR) ->
              node2 = set_data (set_type node t) (DataDir di') ->
              s2 = mk_ser (s_info s) (s_im s) m ->
              s_info s2 = s_info s /\ s_im s2 = s_im s /\
              exists t d', node2 = set_data (set_type node t) d' /\
              type_decided node (s_dm s) (s_dm s2) t d').
    { intros t Ht Hn ->. split; [reflexivity|]. split; [reflexivity|].
      exists t, (DataDir di'). split; [exact Hn|].
      left. split; [exact F6|]. exists di, di'. repeat split; assumption. }
    destruct ((di_start_block di' >? 0xFFFFFFFF) || (di_size di' >? 0xFFFF)) eqn:X;
      step_ret H.
    - apply (Hret SQFS_INODE_EXT_DIR); auto;
        try (rewrite set_type_set_data, set_type_twice; reflexivity).
    - apply (Hret SQFS_INODE_DIR); auto. }
  destruct (Z.land (mode node) S_IFMT =? S_IFREG) eqn:F7; [|discriminate].
  destruct (data node) as [|fi| |] eqn:D; try discriminate.
  bind_step H. apply lift_inv in E. destruct E as [E ->].
  assert (Hhl : hard_link_count node = Some a).
  { rewrite <- E. symmetry. apply hard_link_count_ext.
    - destruct node; reflexivity.
    - left. destruct node; reflexivity. }
  assert (Hret : forall t,
            t = (if (fi_startblock fi >? 0xFFFFFFFF) || (fi_size fi >? 0xFFFFFFFF)
                    || (a >? 1)
                 then SQFS_INODE_EXT_FILE else SQFS_INODE_FILE) ->
            node2 = set_type node t -> s2 = s ->
            s_info s2 = s_info s /\ s_im s2 = s_im s /\
            exists t d', node2 = set_data (set_type node t) d' /\
              type_decided node (s_dm s) (s_dm s2) t d').
  { intros t Ht Hn ->. split; [reflexivity|]. split; [reflexivity|].
    exists t, (data node). split.
    - rewrite Hn. destruct node; reflexivity.
    - right. split; [exact F6|]. split; [reflexivity|]. split; [reflexivity|].
      left. split; [exact F7|]. exists fi, a. repeat split; assumption. }
  destruct ((fi_startblock fi >? 0xFFFFFFFF) || (fi_size fi >? 0xFFFFFFFF)
            || (a >? 1)) eqn:X; step_ret H.
  - apply (Hret SQFS_INODE_EXT_FILE); auto; try apply set_type_twice.
  - apply (Hret SQFS_INODE_FILE); auto.
Qed.

End InodeFacts2.
Import InodeFacts2.

Module InodeFacts3.

(** The whole of write_inode: the ids it interns, the node and the state
    it leaves, and the inode it appends to the inode writer. *)
Lemma write_inode_inv (parent : option Z) (node node' : tree_node_t) (s s' : ser_t) :
  write_inode parent node s = Some (node', s') ->
  exists tbl1 uid_idx tbl2 gid_idx t d' payload,
    id_table_id_to_index (idtbl (s_info s)) (uid node) = Some (tbl1, uid_idx) /\
    id_table_id_to_index tbl1 (gid node) = Some (tbl2, gid_idx) /\
    node' = TreeNode (mk_attr (name node) (mode node) (uid node) (gid node)
                              (mtime node) (xattr node)
                              (u64 (Z.lor (Z.shiftl (block_offset (s_im s)) 16)
                                          (offset (s_im s))))
                              (u32 (inode_counter (s_info s))) t) d' /\
    s_info s' = mk_info (info_outfd (s_info s)) (opt (s_info s))
                        (set_inode_count (super (s_info s))
                           (u32 (inode_count (super (s_info s)) + 1)))
                        (fs (s_info s)) tbl2
                        (u64 (inode_counter (s_info s) + 1))
                        (info_cmp (s_info s)) /\
    meta_writer_append (s_im s)
      (bytes_inode (mk_inode (htole16 t) (htole16 (mode node))
                             (htole16 uid_idx) (htole16 gid_idx)
                             (htole32 (def_mtime (opt (s_info s))))
                             (htole32 (u32 (inode_counter (s_info s)))))
       ++ bytes_payload payload) = Some (s_im s') /\
    payload_fits t payload /\
    (forall x, payload_nlink payload = Some x ->
       exists nl, hard_link_count node = Some nl /\ x = u32 nl) /\
    (forall x, payload_xattr_idx payload = Some x -> x = 0xFFFFFFFF) /\
    type_decided node (s_dm s) (s_dm s') t d'.
Proof.
  intros H. unfold write_inode in H.
  bind_step H. apply id_to_index_inv in E. destruct E as (tbl1 & Eu & ->).
  bind_step H. apply id_to_index_inv in E. destruct E as (tbl2 & Eg & ->).
  cbn [s_info s_im s_dm set_idtbl idtbl] in *.
  bind_step H. unfold get in E. inversion E; subst a1 s0; clear E.
  bind_step H. unfold modify_info in E. inversion E; subst a1 s0; clear E.
  bind_step H. unfold modify_info in E. inversion E; subst a1 s0; clear E.
  cbn [s_info s_im s_dm set_idtbl idtbl set_inode_counter set_super super inode_counter
       info_outfd opt fs info_cmp] in *.
  bind_step H.
  set (ref := u64 (Z.lor (Z.shiftl (block_offset (s_im s)) 16) (offset (s_im s)))) in *.
  set (num := u32 (inode_counter (s_info s))) in *.
  set (node1 := set_inode_num (set_inode_ref node ref) num) in *.
  apply select_inode_type_inv in E.
  destruct E as (Ei & Em & t & d' & Hn2 & Hdec).
  cbn [s_info s_im s_dm] in Ei, Em, Hdec.
  step_append H Eb Ei2 Ed2.
  apply write_inode_record_inv in H.
  destruct H as (-> & Ei3 & Ed3 & payload & Ep & Hfit & Hnl & Hx).
  assert (Hattr : a1 = TreeNode (mk_attr (name node) (mode node) (uid node) (gid node)
                                         (mtime node) (xattr node) ref num t) d').
  { rewrite Hn2. destruct node. reflexivity. }
  pose proof Hdec as Hdec'.
  assert (Hhl : hard_link_count a1 = hard_link_count node).
  { rewrite Hattr. apply hard_link_count_ext; [reflexivity|].
    destruct Hdec' as [(Hd & di & di' & D & W & -> & Ht)|(Hd & Hdm & -> & Hrest)].
    - right. exists di, di'. repeat split; try assumption.
      apply (write_dir_emits _ _ _ _ W).
    - left. reflexivity. }
  exists tbl1, a, tbl2, a0, t, d', payload.
  split; [exact Eu|]. split; [exact Eg|]. split; [exact Hattr|].
  split; [rewrite Ei3, Ei2, Ei; reflexivity|].
  split.
  { eapply meta_writer_append_app_Some; [|exact Ep].
    rewrite <- Em. rewrite Hattr in Eb. exact Eb. }
  split; [rewrite Hattr in Hfit; exact Hfit|].
  split; [intros x Hx'; rewrite <- Hhl; now apply Hnl|].
  split; [exact Hx|].
  rewrite Ed3, Ed2. exact Hdec'.
Qed.

End InodeFacts3.
Import InodeFacts3.

(* ===================================================================== *)
(** ** Facts about the traversal                                          *)
(* ===================================================================== *)

Module TreeFacts.

(** Induction over a tree: a property holds of every node once it holds of
    a node whenever it holds of the children in its directory record. *)
Lemma tree_node_induction (P : tree_node_t -> Prop) :
  (forall n, Forall P (children n) -> P n) ->
  forall n, P n.
Proof.
  intros Hstep. fix IH 1. intros [a d]. apply Hstep.
  unfold children. cbn [data].
  destruct d as [di| | |]; try constructor.
  destruct di as [cs sz sb bo]. cbn [di_children].
  revert cs. fix IHl 1. intros [|c cs]; constructor; [apply IH|apply IHl].
Qed.

Lemma mapM_cons_inv {A B : Type} (f : A -> M B) (x : A) (l : list A)
      (s : ser_t) (r : list B) (s' : ser_t) :
  mapM f (x :: l) s = Some (r, s') ->
  exists y s1 ys,
    f x s = Some (y, s1) /\ mapM f l s1 = Some (ys, s') /\ r = y :: ys.
Proof.
  cbn [mapM]. intros H. bind_step H. bind_step H.
  apply ret_inv in H. inversion H; subst. eauto 6.
Qed.

Lemma mapM_nil_inv {A B : Type} (f : A -> M B) (s : ser_t) (r : list B) (s' : ser_t) :
  mapM f [] s = Some (r, s') -> r = [] /\ s' = s.
Proof. cbn [mapM]. intros H. apply ret_inv in H. inversion H. auto. Qed.

(** A loop keeps what each of its rounds keeps. *)
Lemma mapM_invariant {A B : Type} (f : A -> M B) (Inv : ser_t -> Prop) (l : list A) :
  Forall (fun x => forall s y s', Inv s -> f x s = Some (y, s') -> Inv s') l ->
  forall s r s', Inv s -> mapM f l s = Some (r, s') -> Inv s'.
Proof.
  induction 1 as [|x l Hx _ IH]; intros s r s' Hi H.
  - apply mapM_nil_inv in H. destruct H as [_ ->]. exact Hi.
  - apply mapM_cons_inv in H. destruct H as (y & s1 & ys & Hf & Hm & _).
    eapply IH; [|exact Hm]. eapply Hx; eassumption.
Qed.

(** write_child_inodes keeps every property of the state that write_inode
    keeps. *)
Lemma write_child_inodes_invariant (Inv : ser_t -> Prop) :
  (forall parent node s node' s',
     Inv s -> write_inode parent node s = Some (node', s') -> Inv s') ->
  forall root s root' s',
    Inv s -> write_child_inodes root s = Some (root', s') -> Inv s'.
Proof.
  intros Hw root. induction root as [root IH] using tree_node_induction.
  intros s root' s' Hi H. destruct root as [a d]. cbn [write_child_inodes] in H.
  destruct d as [di| | |]; try discriminate.
  unfold children in IH. cbn [data] in IH.
  bind_step H. bind_step H. apply ret_inv in H. inversion H; subst; clear H.
  assert (Hi0 : Inv s0).
  { destruct (existsb _ _).
    - eapply mapM_invariant; [|exact Hi|exact E].
      eapply Forall_impl; [|exact IH]. cbv beta.
      intros it Hit st1 y st2 Hi1 Hf.
      destruct (S_ISDIR (mode it)).
      + eapply Hit; eassumption.
      + apply ret_inv in Hf. inversion Hf; subst. exact Hi1.
    - apply ret_inv in E. inversion E; subst. exact Hi. }
  eapply mapM_invariant; [|exact Hi0|exact E0].
  apply Forall_forall. intros it _ st1 y st2 Hi1 Hf. eapply Hw; eassumption.
Qed.

End TreeFacts.
Import TreeFacts.

(* ===================================================================== *)
(** ** Inode numbers along the traversal                                  *)
(* ===================================================================== *)

Module NumberFacts.

Lemma zseq_length (n : nat) : forall k, length (zseq k n) = n.
Proof. induction n as [|n IH]; intros k; cbn; [reflexivity|now rewrite IH]. Qed.

Lemma zseq_app (a b : nat) :
  forall k, zseq k (a + b) = zseq k a ++ zseq (k + Z.of_nat a) b.
Proof.
  induction a as [|a IH]; intros k.
  - cbn. now rewrite Z.add_0_r.
  - cbn [zseq Nat.add app]. rewrite IH. do 3 f_equal. lia.
Qed.

Lemma zseq_In (n : nat) : forall k x, In x (zseq k n) -> k <= x < k + Z.of_nat n.
Proof.
  induction n as [|n IH]; intros k x Hin; [destruct Hin|].
  cbn [zseq] in Hin. destruct Hin as [<-|Hin]; [lia|].
  apply IH in Hin. lia.
Qed.

Lemma write_order_children (n : tree_node_t) :
  write_order n = subdir_order (children n) ++ children n.
Proof.
  destruct n as [a d]. unfold children, subdir_order. cbn [data write_order].
  destruct d; reflexivity.
Qed.

Lemma children_in_write_order (n c : tree_node_t) :
  In c (children n) -> In c (write_order n).
Proof. rewrite write_order_children. intros H. apply in_or_app. now right. Qed.

(** What write_inode does to the shape of a node and to the counters. *)
Lemma write_inode_shape (parent : option Z) (node node' : tree_node_t) (s s' : ser_t) :
  write_inode parent node s = Some (node', s') ->
  mode node' = mode node /\
  children node' = children node /\
  inode_num node' = u32 (inode_counter (s_info s)) /\
  inode_counter (s_info s') = u64 (inode_counter (s_info s) + 1) /\
  inode_count (super (s_info s'))
  = u32 (inode_count (super (s_info s)) + 1).
Proof.
  intros H. apply write_inode_inv in H.
  destruct H as (tbl1 & ui & tbl2 & gi & t & d' & payload & _ & _ & -> & Hi & _ & _ & _ & _ & Hdec).
  rewrite Hi. cbn. repeat split.
  unfold children. cbn [data].
  destruct Hdec as [(_ & di & di' & -> & W & -> & _)|(_ & _ & -> & _)]; [|reflexivity].
  apply (write_dir_emits _ _ _ _ W).
Qed.

Lemma numbered_from_app (s s1 s2 : ser_t) (l1 l2 : list tree_node_t) :
  numbered_from s l1 s1 -> numbered_from s1 l2 s2 ->
  numbered_from s (l1 ++ l2) s2.
Proof.
  unfold numbered_from. cbv zeta. intros (Hm1 & Hc1 & Hn1) (Hm2 & Hc2 & Hn2).
  rewrite map_app, length_app, len_app, zseq_app, Hm1, Hm2, Hc2, Hn2, Hc1.
  repeat split.
  - lia.
  - unfold u32 in *. rewrite <- Zplus_mod_idemp_l, Hn1, Zplus_mod_idemp_l.
    f_equal. lia.
Qed.

Lemma numbered_from_nil (s : ser_t) : numbered_from s [] s.
Proof.
  unfold numbered_from, len. cbn. rewrite !Z.add_0_r. repeat split.
Qed.

Lemma numbered_from_one (parent : option Z) (node node' : tree_node_t) (s s' : ser_t) :
  write_inode parent node s = Some (node', s') ->
  0 <= inode_counter (s_info s) < 2 ^ 32 ->
  numbered_from s [node'] s'.
Proof.
  intros H Hk. apply write_inode_shape in H.
  destruct H as (_ & _ & Hn & Hc & Hi).
  unfold numbered_from, len. cbn [map length zseq].
  rewrite Hn, Hc, Hi, u32_small, u64_small by lia.
  repeat split. unfold u32. apply Z.mod_mod. lia.
Qed.

(** The second loop of write_child_inodes numbers the children one after the
    other and leaves their shape alone. *)
Lemma write_children_numbered (parent : option Z) (cs1 : list tree_node_t) :
  forall s1 cs2 s',
    mapM (write_inode parent) cs1 s1 = Some (cs2, s') ->
    Forall2 (fun it1 it2 => mode it2 = mode it1 /\ children it2 = children it1)
            cs1 cs2 /\
    (0 <= inode_counter (s_info s1) ->
     inode_counter (s_info s1) + len cs1 <= 2 ^ 32 ->
     numbered_from s1 cs2 s').
Proof.
  induction cs1 as [|it cs1 IH]; intros s1 cs2 s' H.
  - apply mapM_nil_inv in H. destruct H as [-> ->].
    split; [constructor|]. intros _ _. apply numbered_from_nil.
  - apply mapM_cons_inv in H. destruct H as (it2 & sa & cs2' & Hw & Hm & ->).
    destruct (IH _ _ _ Hm) as (Hf & Hn).
    pose proof (write_inode_shape _ _ _ _ _ Hw) as (Hmode & Hch & _ & Hc & _).
    split; [constructor; auto|].
    rewrite len_cons. pose proof (len_nonneg cs1). intros H0 Hb.
    change (it2 :: cs2') with ([it2] ++ cs2').
    eapply numbered_from_app.
    + eapply numbered_from_one; [exact Hw|lia].
    + apply Hn; rewrite Hc, u64_small; lia.
Qed.

End NumberFacts.
Import NumberFacts.

Module NumberFacts2.

Lemma subdir_order_cons (it : tree_node_t) (cs : list tree_node_t) :
  subdir_order (it :: cs)
  = (if S_ISDIR (mode it) then write_order it else []) ++ subdir_order cs.
Proof. reflexivity. Qed.

(** The first loop of write_child_inodes. *)
Lemma write_subdirs_numbered (cs : list tree_node_t) :
  Forall traversal_numbered cs ->
  forall s cs1 s1,
    mapM (fun it => if S_ISDIR (mode it) then write_child_inodes it else ret it)
         cs s = Some (cs1, s1) ->
    Forall2 (fun it it1 => mode it1 = mode it) cs cs1 /\
    length (subdir_order cs1) = length (subdir_order cs) /\
    (0 <= inode_counter (s_info s) ->
     inode_counter (s_info s) + len (subdir_order cs) <= 2 ^ 32 ->
     numbered_from s (subdir_order cs1) s1 /\ post_ordered (subdir_order cs1)).
Proof.
  induction 1 as [|it cs Hit _ IH]; intros s cs1 s1 H.
  - apply mapM_nil_inv in H. destruct H as [-> ->].
    split; [constructor|]. split; [reflexivity|].
    intros _ _. split; [apply numbered_from_nil|constructor].
  - apply mapM_cons_inv in H. destruct H as (it1 & sa & cs1' & Hw & Hm & ->).
    destruct (IH _ _ _ Hm) as (Hf & Hl & Hn).
    rewrite !subdir_order_cons, !length_app, len_app.
    destruct (S_ISDIR (mode it)) eqn:Hd.
    + destruct (Hit _ _ _ Hw) as (Hmode & Hlen & Hnum).
      rewrite Hmode, Hd.
      split; [constructor; auto|]. split; [congruence|].
      pose proof (len_nonneg (write_order it)).
      pose proof (len_nonneg (subdir_order cs)).
      intros Hk0 Hb.
      destruct Hnum as (Hn1 & Hp1); [lia|lia|].
      assert (Hca : inode_counter (s_info sa)
                    = inode_counter (s_info s) + len (write_order it)).
      { destruct Hn1 as (_ & Hc & _). rewrite Hc. unfold len. now rewrite Hlen. }
      destruct Hn as (Hn2 & Hp2); [lia|lia|].
      split; [eapply numbered_from_app; eassumption|].
      apply Forall_app. split; assumption.
    + apply ret_inv in Hw. inversion Hw; subst it1 sa; clear Hw.
      rewrite Hd. cbn [length app Nat.add].
      split; [constructor; auto|]. split; [exact Hl|].
      unfold len at 1. cbn [length]. rewrite Z.add_0_l. exact Hn.
Qed.

(** Without a directory among the children the first loop changes
    nothing. *)
Lemma write_subdirs_none (cs : list tree_node_t) :
  existsb (fun it => S_ISDIR (mode it)) cs = false ->
  forall s,
    mapM (fun it => if S_ISDIR (mode it) then write_child_inodes it else ret it)
         cs s = Some (cs, s).
Proof.
  induction cs as [|it cs IH]; intros He s; [reflexivity|].
  cbn [existsb] in He. apply orb_false_iff in He. destruct He as [Hd He].
  cbn [mapM]. unfold bind. rewrite Hd. cbn [ret]. rewrite (IH He). reflexivity.
Qed.

Lemma subdir_order_ext (cs1 cs2 : list tree_node_t) :
  Forall2 (fun it1 it2 => mode it2 = mode it1 /\ children it2 = children it1)
          cs1 cs2 ->
  subdir_order cs2 = subdir_order cs1.
Proof.
  induction 1 as [|it1 it2 cs1 cs2 [Hm Hc] _ IH]; [reflexivity|].
  rewrite !subdir_order_cons, IH, Hm, !write_order_children, Hc. reflexivity.
Qed.

Lemma Forall2_length {A B : Type} (R : A -> B -> Prop) (l1 : list A) (l2 : list B) :
  Forall2 R l1 l2 -> length l1 = length l2.
Proof. induction 1; cbn; congruence. Qed.

(** The numbers handed out below a node: the traversal by induction on the
    tree. *)
Lemma write_child_inodes_numbered (root : tree_node_t) : traversal_numbered root.
Proof.
  induction root as [root IH] using tree_node_induction.
  intros s root' s' H. destruct root as [a d]. cbn [write_child_inodes] in H.
  destruct d as [di| | |]; try discriminate.
  unfold children in IH. cbn [data] in IH.
  apply bind_inv in H. destruct H as (cs1 & s1 & E & H). cbv beta zeta in H.
  apply bind_inv in H. destruct H as (cs2 & s2 & E0 & H). cbv beta zeta in H.
  apply ret_inv in H. inversion H; subst root' s2; clear H.
  assert (E1 : mapM (fun it => if S_ISDIR (mode it) then write_child_inodes it
                               else ret it) (di_children di) s = Some (cs1, s1)).
  { destruct (existsb _ _) eqn:He; [exact E|].
    apply ret_inv in E. inversion E; subst cs1 s1.
    now apply write_subdirs_none. }
  clear E.
  destruct (write_subdirs_numbered _ IH _ _ _ E1) as (Hf1 & Hl1 & Hn1).
  destruct (write_children_numbered _ _ _ _ _ E0) as (Hf2 & Hn2).
  pose proof (subdir_order_ext _ _ Hf2) as Hsd.
  pose proof (Forall2_length _ _ _ Hf1) as Hlen1.
  pose proof (Forall2_length _ _ _ Hf2) as Hlen2.
  split; [reflexivity|].
  rewrite !write_order_children. unfold children. cbn [data di_children].
  rewrite Hsd, !length_app, len_app.
  split; [lia|].
  pose proof (len_nonneg (subdir_order (di_children di))).
  pose proof (len_nonneg (di_children di)).
  intros Hk0 Hb.
  destruct Hn1 as (Hn1 & Hp1); [lia|lia|].
  assert (Hc1 : inode_counter (s_info s1)
                = inode_counter (s_info s) + len (subdir_order (di_children di))).
  { destruct Hn1 as (_ & Hc & _). rewrite Hc. unfold len. now rewrite Hl1. }
  assert (Hb2 : inode_counter (s_info s1) + len cs1 <= 2 ^ 32).
  { unfold len in *. rewrite <- Hlen1. lia. }
  specialize (Hn2 ltac:(lia) Hb2).
  split; [eapply numbered_from_app; eassumption|].
  apply Forall_app. split; [exact Hp1|].
  (* every child that is a directory is numbered above its own children *)
  destruct Hn2 as (Hnum2 & _ & _). destruct Hn1 as (Hnum1 & _ & _).
  apply Forall_forall. intros it2 Hin2 Hd2.
  unfold above_children. apply Forall_forall. intros c Hc.
  assert (Hge : inode_counter (s_info s1) <= inode_num it2).
  { apply (in_map inode_num) in Hin2. rewrite Hnum2 in Hin2.
    apply zseq_In in Hin2. lia. }
  assert (Hlt : inode_num c < inode_counter (s_info s1)).
  { assert (Hcin : In c (subdir_order cs1)).
    { rewrite <- Hsd. unfold subdir_order. apply in_flat_map.
      exists it2. split; [exact Hin2|]. rewrite Hd2.
      now apply children_in_write_order. }
    apply (in_map inode_num) in Hcin. rewrite Hnum1 in Hcin.
    apply zseq_In in Hcin. rewrite Hl1 in Hcin. unfold len in Hc1. lia. }
  lia.
Qed.

End NumberFacts2.
Import NumberFacts2.

(* ===================================================================== *)
(** ** sqfs_write_inodes                                                  *)
(* ===================================================================== *)

Module TableFacts.

Lemma sizeof_data_pos : (0 < Z.to_nat sizeof_data)%nat.
Proof. unfold sizeof_data, SQFS_META_BLOCK_SIZE. lia. Qed.

(** The copy loop moves the whole temporary file behind the image. *)
Lemma copy_loop_all (fuel : nat) :
  forall tmp image,
    (length tmp < fuel)%nat -> copy_loop fuel tmp image = Some (image ++ tmp).
Proof.
  pose proof sizeof_data_pos as Hpos.
  induction fuel as [|fuel IH]; intros tmp image Hlt; [lia|].
  cbn [copy_loop]. destruct (Z.to_nat sizeof_data) as [|n] eqn:En; [lia|].
  destruct tmp as [|x tmp].
  - cbn. now rewrite app_nil_r.
  - cbn [firstn]. rewrite len_cons.
    pose proof (len_nonneg (firstn n tmp)).
    destruct (1 + len (firstn n tmp) =? 0) eqn:Ez; [apply Z.eqb_eq in Ez; lia|].
    cbn [skipn]. rewrite IH.
    + rewrite <- app_assoc. cbn [app]. now rewrite firstn_skipn.
    + rewrite length_skipn. cbn [length] in Hlt. lia.
Qed.

(** The steps of sqfs_write_inodes that succeeded, one by one. *)
Lemma sqfs_write_inodes_inv (tmpfd : Z) (info info' : sqfs_info_t)
      (image image' : list Z) :
  sqfs_write_inodes tmpfd info image = Some (info', image') ->
  exists root1 s1 root2 s2 im' dm',
    write_child_inodes (root (fs info))
      (mk_ser (set_inode_counter info 2)
              (meta_writer_create (info_outfd info) (info_cmp info))
              (meta_writer_create tmpfd (info_cmp info))) = Some (root1, s1) /\
    write_inode None root1 s1 = Some (root2, s2) /\
    meta_writer_flush (s_im s2) = Some im' /\
    meta_writer_flush (s_dm s2) = Some dm' /\
    fs info' = mk_fstree root2 /\
    idtbl info' = idtbl (s_info s2) /\
    inode_counter info' = inode_counter (s_info s2) /\
    inode_count (super info') = inode_count (super (s_info s2)) /\
    block_size (super info') = block_size (super (s_info s2)) /\
    root_inode_ref (super info') = inode_ref root2 /\
    inode_table_start (super info') = bytes_used (super (s_info s2)) /\
    directory_table_start (super info')
    = u64 (bytes_used (super (s_info s2)) + block_offset im') /\
    bytes_used (super info')
    = u64 (u64 (bytes_used (super (s_info s2)) + block_offset im')
           + block_offset dm') /\
    image' = image ++ written im' ++ written dm'.
Proof.
  unfold sqfs_write_inodes. cbv zeta. intros H.
  match type of H with
  | match ?c ?s with _ => _ end = _ => destruct (c s) as [[root2 s4]|] eqn:E
  end; [|discriminate].
  rewrite copy_loop_all in H by lia. inversion H; subst info' image'; clear H.
  apply bind_inv in E. destruct E as (root1 & s1 & E1 & E). cbv beta in E.
  apply bind_inv in E. destruct E as (r2 & s2 & E2 & E). cbv beta in E.
  apply bind_inv in E. destruct E as (u1 & s3 & E3 & E). cbv beta in E.
  apply bind_inv in E. destruct E as (u2 & s5 & E4 & E). cbv beta in E.
  apply ret_inv in E. inversion E; subst r2 s5; clear E.
  unfold im_flush in E3.
  destruct (meta_writer_flush (s_im s2)) as [im'|] eqn:F1; [|discriminate].
  inversion E3; subst u1 s3; clear E3.
  unfold dm_flush in E4. cbn [s_dm s_im s_info] in E4.
  destruct (meta_writer_flush (s_dm s2)) as [dm'|] eqn:F2; [|discriminate].
  inversion E4; subst u2 s4; clear E4.
  exists root1, s1, root2, s2, im', dm'.
  cbn. rewrite <- app_assoc. repeat split; assumption.
Qed.

End TableFacts.
Import TableFacts.

(* ===================================================================== *)
(** ** Inode numbers and references of a whole tree                       *)
(* ===================================================================== *)

(** C1 (as amended): inode numbers are handed out one after the other in
    the order of serialization, starting at 2; the nodes below a directory
    are numbered before the directory, and the root is written last: its
    number is the highest one, 2 plus the number of nodes below it, never
    1.  The super block's inode_count grows by the number of nodes; for a
    tree that is nothing but a root directory the one inode is a DIR
    inode with number 2 and inode_count grows by one. *)
Theorem inode_numbers_post_order :
  forall (tmpfd : Z) (info info' : sqfs_info_t) (image image' : list Z),
    sqfs_write_inodes tmpfd info image = Some (info', image') ->
    let r := root (fs info) in
    let r' := root (fs info') in
    2 + len (write_order r) < 2 ^ 32 ->
    map inode_num (write_order r' ++ [r']) = zseq 2 (length (write_order r) + 1) /\
    post_ordered (write_order r') /\
    above_children r' /\
    inode_num r' = 2 + len (write_order r) /\
    inode_count (super info')
    = u32 (inode_count (super info) + len (write_order r) + 1) /\
    (children r = [] -> S_ISDIR (mode r) = true ->
     inode_num r' = 2 /\ type r' = SQFS_INODE_DIR /\
     inode_count (super info') = u32 (inode_count (super info) + 1)).
Proof.
  intros tmpfd info info' image image' H r r' Hb.
  apply sqfs_write_inodes_inv in H.
  destruct H as (root1 & s1 & root2 & s2 & im' & dm' & E1 & E2 & _ & _ & Hfs & _ & _
                 & Hic & _).
  assert (Hr' : r' = root2) by (unfold r'; rewrite Hfs; reflexivity).
  clearbody r'. subst r'. fold r in E1.
  pose proof (len_nonneg (write_order r)) as Hn0.
  destruct (write_child_inodes_numbered r _ _ _ E1) as (Hmode1 & Hlen1 & Hnum).
  cbn [s_info set_inode_counter inode_counter] in Hnum.
  destruct Hnum as (Hnum & Hpost); [lia|lia|].
  destruct Hnum as (Hmap & Hc1 & Hi1).
  cbn [s_info set_inode_counter inode_counter super] in Hmap, Hc1, Hi1.
  pose proof (write_inode_shape _ _ _ _ _ E2) as (Hmode2 & Hch2 & Hn2 & _ & Hi2).
  assert (Hwo : write_order root2 = write_order root1).
  { rewrite !write_order_children, Hch2. reflexivity. }
  assert (Hlen : len (write_order root1) = len (write_order r)).
  { unfold len. now rewrite Hlen1. }
  assert (Hnum2 : inode_num root2 = 2 + len (write_order r)).
  { rewrite Hn2, Hc1, Hlen. apply u32_small. lia. }
  assert (Hcount : inode_count (super info')
                   = u32 (inode_count (super info) + len (write_order r) + 1)).
  { rewrite Hic, Hi2. unfold u32 in *.
    rewrite <- Zplus_mod_idemp_l, Hi1, Zplus_mod_idemp_l, Hlen. reflexivity. }
  assert (Habove : above_children root2).
  { unfold above_children. apply Forall_forall. intros c Hc.
    apply children_in_write_order in Hc. rewrite Hwo in Hc.
    apply (in_map inode_num) in Hc. rewrite Hmap in Hc. apply zseq_In in Hc.
    unfold len in *. lia. }
  split.
  { rewrite Hwo, map_app, Hmap, Hlen1, zseq_app. cbn [map zseq].
    rewrite Hnum2. reflexivity. }
  split; [rewrite Hwo; exact Hpost|].
  split; [exact Habove|]. split; [exact Hnum2|]. split; [exact Hcount|].
  intros Hnil Hdir.
  assert (Hwnil : write_order r = []).
  { rewrite write_order_children, Hnil. reflexivity. }
  rewrite Hwnil in Hnum2, Hcount. unfold len in Hnum2, Hcount. cbn in Hnum2, Hcount.
  rewrite Z.add_0_r in Hcount.
  split; [exact Hnum2|]. split; [|exact Hcount].
  (* the root of an empty tree: an empty listing at the start of the
     directory stream *)
  destruct r as [a d] eqn:Er. cbn [write_child_inodes] in E1.
  destruct d as [di| | |]; try discriminate.
  unfold children in Hnil. cbn [data] in Hnil. rewrite Hnil in E1.
  cbn in E1. inversion E1; subst root1 s1; clear E1.
  apply write_inode_inv in E2.
  destruct E2 as (tbl1 & ui & tbl2 & gi & t & d' & payload & _ & _ & -> & _ & _ & _
                  & _ & _ & Hdec).
  cbn [type attr a_type].
  destruct Hdec as [(_ & di0 & di' & D & W & _ & ->)|(Hnd & _)].
  - cbn [data] in D. inversion D; subst di0; clear D.
    cbn [s_dm] in W. unfold write_dir in W. cbn in W.
    inversion W; subst di'; clear W. reflexivity.
  - cbn [mode attr a_mode] in Hnd, Hdir. congruence.
Qed.

(** A tree of five nodes: the root is numbered 6. *)
Lemma inode_numbers_post_order_witness :
  exists info' image',
    sqfs_write_inodes 4 (Examples.info0 Examples.small_tree) Examples.image0
    = Some (info', image') /\
    2 + len (write_order Examples.small_tree) < 2 ^ 32 /\
    inode_num (root (fs info')) = 2 + len (write_order Examples.small_tree).
Proof.
  destruct (sqfs_write_inodes 4 (Examples.info0 Examples.small_tree) Examples.image0)
    as [[info' image']|] eqn:E.
  - exists info', image'. split; [reflexivity|].
    assert (Hb : 2 + len (write_order Examples.small_tree) < 2 ^ 32)
      by (vm_compute; reflexivity).
    split; [exact Hb|].
    exact (proj1 (proj2 (proj2 (proj2
             (inode_numbers_post_order 4 _ _ _ _ E Hb))))).
  - vm_compute in E. discriminate E.
Defined.

(** C1, as the specification words it, fails: the root directory of a tree
    without any other node is given inode number 2, not 1. *)
Lemma root_inode_number_counterexample :
  ~ (forall (tmpfd : Z) (info info' : sqfs_info_t) (image image' : list Z),
       sqfs_write_inodes tmpfd info image = Some (info', image') ->
       children (root (fs info)) = [] ->
       inode_num (root (fs info')) = 1).
Proof.
  intros claim.
  destruct (sqfs_write_inodes 4 (Examples.info0 Examples.root_only) Examples.image0)
    as [[info' image']|] eqn:E.
  - pose proof (claim _ _ _ _ _ E eq_refl) as H1.
    destruct (inode_numbers_post_order _ _ _ _ _ E) as (_ & _ & _ & H2 & _).
    + vm_compute. reflexivity.
    + rewrite H1 in H2. vm_compute in H2. discriminate H2.
  - vm_compute in E. discriminate E.
Qed.

(* ===================================================================== *)
(** ** The inode table and the directory table                            *)
(* ===================================================================== *)

Module LayoutFacts.

(** write_dir keeps the directory writer in step with its output. *)
Lemma write_dir_ok (dm dm' : meta_writer_t) (dir dir' : dir_info_t tree_node_t) :
  write_dir dm dir = Some (dm', dir') ->
  writer_ok dm ->
  writer_ok dm' /\ outfd dm' = outfd dm /\ cmp dm' = cmp dm /\
  (exists blk, written dm' = written dm ++ blk).
Proof.
  intros H Hok. apply write_dir_emits in H. destruct H as (Ha & _).
  exact (meta_writer_append_inv _ _ _ Ha Hok).
Qed.

(** write_inode keeps both writers in step with their outputs, on their
    descriptors, and leaves bytes_used alone. *)
Lemma write_inode_keeps (fd_im fd_dm used : Z) (parent : option Z)
      (node node' : tree_node_t) (s s' : ser_t) :
  (writer_ok (s_im s) /\ outfd (s_im s) = fd_im /\
   writer_ok (s_dm s) /\ outfd (s_dm s) = fd_dm /\
   bytes_used (super (s_info s)) = used) ->
  write_inode parent node s = Some (node', s') ->
  writer_ok (s_im s') /\ outfd (s_im s') = fd_im /\
  writer_ok (s_dm s') /\ outfd (s_dm s') = fd_dm /\
  bytes_used (super (s_info s')) = used.
Proof.
  intros (Hoi & Hfi & Hod & Hfd & Hu) H. apply write_inode_inv in H.
  destruct H as (tbl1 & ui & tbl2 & gi & t & d' & payload & _ & _ & _ & Hi & Ha & _ & _
                 & _ & Hdec).
  destruct (meta_writer_append_inv _ _ _ Ha Hoi) as (Hoi' & Hfi' & _).
  split; [exact Hoi'|]. split; [congruence|].
  assert (Hdm : writer_ok (s_dm s') /\ outfd (s_dm s') = fd_dm).
  { destruct Hdec as [(_ & di & di' & _ & W & _)|(_ & -> & _)]; [|auto].
    destruct (write_dir_ok _ _ _ _ W Hod) as (Hod' & Hfd' & _).
    split; [exact Hod'|congruence]. }
  split; [apply Hdm|]. split; [apply Hdm|].
  rewrite Hi. exact Hu.
Qed.

Lemma meta_writer_flush_flushed (m m' : meta_writer_t) :
  meta_writer_flush m = Some m' -> writer_ok m ->
  writer_ok m' /\ outfd m' = outfd m /\ offset m' = 0.
Proof.
  intros H Hok. split; [eapply meta_writer_flush_ok; eassumption|].
  destruct Hok as (Hb & _).
  destruct (meta_writer_flush_inv _ _ H Hb) as (_ & Hf & _ & _ & [[Hz ->]|[Hz _]]);
    auto.
Qed.

End LayoutFacts.
Import LayoutFacts.



Module LayoutFacts2.

(** A flush leaves whatever the writer has taken in its output. *)
Lemma meta_writer_flush_nonempty (m m' : meta_writer_t) :
  meta_writer_flush m = Some m' ->
  0 <= offset m -> 0 < offset m + len (written m) ->
  0 < len (written m').
Proof.
  unfold meta_writer_flush. intros H H0 Hpos.
  destruct (offset m =? 0) eqn:E.
  - apply Z.eqb_eq in E. inversion H; subst m'. lia.
  - destruct (cmp m (MetaWriter.data m)) as [c|]; [|discriminate H].
    inversion H; subst m'; clear H. cbn [written].
    rewrite len_app. pose proof (len_nonneg (written m)).
    pose proof (len_nonneg c). pose proof (len_nonneg (MetaWriter.data m)).
    destruct (len c <? offset m); unfold le16; cbn [le_bytes app];
      rewrite !len_cons; lia.
Qed.

(** A writer that has taken a byte has it in its current block or in its
    output. *)
Lemma meta_writer_append_nonempty (bytes : list Z) :
  forall m m',
    meta_writer_append m bytes = Some m' ->
    0 <= offset m ->
    bytes <> [] \/ 0 < offset m + len (written m) ->
    0 <= offset m' /\ 0 < offset m' + len (written m').
Proof.
  induction bytes as [|b bytes IH]; intros m m' H H0 Hpos; cbn [meta_writer_append] in H.
  - inversion H; subst m'. destruct Hpos as [Hc|Hpos]; [now contradiction Hc|auto].
  - set (m1 := mk_meta_writer _ _ _ _ _ _) in H.
    pose proof (len_nonneg (written m)) as Hw.
    assert (H1 : 0 <= offset m1 /\ 0 < offset m1 + len (written m1))
      by (unfold m1; cbn [offset written]; lia).
    destruct (offset m1 =? SQFS_META_BLOCK_SIZE).
    + destruct (meta_writer_flush m1) as [m2|] eqn:F; [|discriminate H].
      pose proof (meta_writer_flush_nonempty _ _ F (proj1 H1) (proj2 H1)) as Hw2.
      assert (Hz : offset m2 = 0).
      { unfold meta_writer_flush in F.
        destruct (offset m1 =? 0) eqn:E0.
        - apply Z.eqb_eq in E0. unfold m1 in E0. cbn [offset] in E0. lia.
        - destruct (cmp m1 (MetaWriter.data m1)); [|discriminate F].
          inversion F; reflexivity. }
      apply (IH _ _ H); [lia|right; lia].
    + apply (IH _ _ H); [apply H1|right; apply H1].
Qed.

Lemma bytes_inode_nonempty (b : sqfs_inode_t) (rest : list Z) :
  bytes_inode b ++ rest <> [].
Proof. unfold bytes_inode, le16. cbn [le_bytes app]. discriminate. Qed.

End LayoutFacts2.

(** C6: the inode writer writes to the image, the directory writer to the
    temporary file.  The run of sqfs_write_inodes is the serialization of
    the tree into these two writers followed by a flush of each; with [im]
    and [dm] the two writers after their flush, the inode stream
    [written im] is not empty, inode_table_start is the former bytes_used,
    directory_table_start is inode_table_start plus the size of the inode
    stream, bytes_used has grown by both streams, and the image is the
    former image followed by the inode stream and then by the content of the
    temporary file.  When bytes_used was the length of the image, the inode
    stream lies in the image at inode_table_start, the directory stream at
    directory_table_start, which is inode_table_start plus the size of the
    inode stream and therefore behind it. *)
Theorem directory_table_follows_inode_table :
  forall (tmpfd : Z) (info info' : sqfs_info_t) (image image' : list Z),
    sqfs_write_inodes tmpfd info image = Some (info', image') ->
    exists (root1 root2 : tree_node_t) (s1 s2 : ser_t) (im dm : meta_writer_t),
      write_child_inodes (root (fs info))
        (mk_ser (set_inode_counter info 2)
                (meta_writer_create (info_outfd info) (info_cmp info))
                (meta_writer_create tmpfd (info_cmp info))) = Some (root1, s1) /\
      write_inode None root1 s1 = Some (root2, s2) /\
      meta_writer_flush (s_im s2) = Some im /\
      meta_writer_flush (s_dm s2) = Some dm /\
      outfd im = info_outfd info /\ outfd dm = tmpfd /\
      offset im = 0 /\ offset dm = 0 /\
      block_offset im = len (written im) /\
      block_offset dm = len (written dm) /\
      0 < len (written im) /\
      image' = image ++ written im ++ written dm /\
      inode_table_start (super info') = bytes_used (super info) /\
      directory_table_start (super info')
      = u64 (inode_table_start (super info') + len (written im)) /\
      bytes_used (super info')
      = u64 (directory_table_start (super info') + len (written dm)) /\
      (bytes_used (super info) = len image ->
       len image' < 2 ^ 64 ->
       inode_table_start (super info') = len image /\
       directory_table_start (super info')
       = inode_table_start (super info') + len (written im) /\
       inode_table_start (super info') < directory_table_start (super info') /\
       bytes_used (super info') = len image' /\
       firstn (length (written im))
              (skipn (Z.to_nat (inode_table_start (super info'))) image')
       = written im /\
       skipn (Z.to_nat (directory_table_start (super info'))) image'
       = written dm).
Proof.
  intros tmpfd info info' image image' H.
  apply sqfs_write_inodes_inv in H.
  destruct H as (root1 & s1 & root2 & s2 & im' & dm' & E1 & E2 & F1 & F2 & _ & _ & _
                 & _ & _ & _ & Hits & Hdts & Hbu & Himg).
  set (Inv := fun s : ser_t =>
                writer_ok (s_im s) /\ outfd (s_im s) = info_outfd info /\
                writer_ok (s_dm s) /\ outfd (s_dm s) = tmpfd /\
                bytes_used (super (s_info s)) = bytes_used (super info)).
  assert (H0 : Inv (mk_ser (set_inode_counter info 2)
                           (meta_writer_create (info_outfd info) (info_cmp info))
                           (meta_writer_create tmpfd (info_cmp info)))).
  { unfold Inv. cbn [s_im s_dm s_info].
    repeat split; try apply meta_writer_create_ok. }
  assert (H1 : Inv s1).
  { eapply write_child_inodes_invariant; [|exact H0|exact E1].
    intros p n s n' s' Hi Hw. eapply write_inode_keeps; eassumption. }
  assert (H2 : Inv s2) by (eapply write_inode_keeps; eassumption).
  assert (Hne : 0 < len (written im')).
  { destruct (write_inode_inv _ _ _ _ _ E2)
      as (tbl1 & ui & tbl2 & gi & t & d' & payload & _ & _ & _ & _ & Ha & _).
    destruct H1 as ((_ & Ho1 & Hr1) & _).
    destruct (LayoutFacts2.meta_writer_append_nonempty _ _ _ Ha) as (Hp & Hq).
    - rewrite Ho1. apply len_nonneg.
    - left. apply LayoutFacts2.bytes_inode_nonempty.
    - exact (LayoutFacts2.meta_writer_flush_nonempty _ _ F1 Hp Hq). }
  destruct H2 as (Hoi & Hfi & Hod & Hfd & Hu).
  destruct (meta_writer_flush_flushed _ _ F1 Hoi) as (Hoi' & Hfi' & Hzi).
  destruct (meta_writer_flush_flushed _ _ F2 Hod) as (Hod' & Hfd' & Hzd).
  destruct Hoi' as (Hbi & _). destruct Hod' as (Hbd & _).
  exists root1, root2, s1, s2, im', dm'.
  split; [exact E1|]. split; [exact E2|]. split; [exact F1|]. split; [exact F2|].
  split; [congruence|]. split; [congruence|].
  split; [exact Hzi|]. split; [exact Hzd|].
  split; [exact Hbi|]. split; [exact Hbd|].
  split; [exact Hne|].
  split; [exact Himg|].
  assert (Hits' : inode_table_start (super info') = bytes_used (super info))
    by congruence.
  assert (Hdts' : directory_table_start (super info')
                  = u64 (inode_table_start (super info') + len (written im'))).
  { rewrite Hdts, Hits', Hu, Hbi. reflexivity. }
  split; [exact Hits'|]. split; [exact Hdts'|].
  split.
  { rewrite Hbu, Hdts', Hits', Hu, Hbi, Hbd. reflexivity. }
  intros Hlen Hfit.
  pose proof (len_nonneg image). pose proof (len_nonneg (written im')).
  pose proof (len_nonneg (written dm')).
  assert (Hlen' : len image' = len image + len (written im') + len (written dm')).
  { rewrite Himg, !len_app. lia. }
  rewrite Hbu, Hdts, Hits, Hu, Hbi, Hbd, Hlen.
  rewrite (u64_small (len image + len (written im'))) by lia.
  rewrite u64_small by lia.
  split; [reflexivity|]. split; [reflexivity|]. split; [lia|]. split; [lia|].
  rewrite Himg. unfold len. split.
  - rewrite Nat2Z.id. rewrite skipn_app, skipn_all, Nat.sub_diag.
    cbn [app skipn]. rewrite firstn_app, firstn_all, Nat.sub_diag.
    cbn [firstn]. apply app_nil_r.
  - rewrite <- Nat2Z.inj_add, Nat2Z.id, app_assoc, <- length_app.
    rewrite skipn_app, skipn_all, Nat.sub_diag. reflexivity.
Qed.

(** The tables of a five-node tree behind a 96-byte super block: the inode
    stream of 162 bytes at 96, the directory stream at 258. *)
Lemma directory_table_follows_inode_table_witness :
  exists info' image',
    sqfs_write_inodes 4 (Examples.info0 Examples.small_tree) Examples.image0
    = Some (info', image') /\
    bytes_used (super (Examples.info0 Examples.small_tree)) = len Examples.image0 /\
    len image' < 2 ^ 64 /\
    inode_table_start (super info') = 96 /\
    directory_table_start (super info') = 258 /\
    inode_table_start (super info') < directory_table_start (super info') /\
    bytes_used (super info') = len image'.
Proof.
  assert (Hs : match sqfs_write_inodes 4 (Examples.info0 Examples.small_tree)
                                       Examples.image0 with
               | Some (i, img) =>
                   (len img <? 2 ^ 64) && (directory_table_start (super i) =? 258)
               | None => false
               end = true) by (vm_compute; reflexivity).
  destruct (sqfs_write_inodes 4 (Examples.info0 Examples.small_tree) Examples.image0)
    as [[info' image']|] eqn:E; [|discriminate Hs].
  apply andb_prop in Hs. destruct Hs as (Hl & Hd).
  apply Z.ltb_lt in Hl. apply Z.eqb_eq in Hd.
  exists info', image'. split; [reflexivity|].
  assert (Hu : bytes_used (super (Examples.info0 Examples.small_tree))
               = len Examples.image0) by reflexivity.
  destruct (directory_table_follows_inode_table _ _ _ _ _ E)
    as (root1 & root2 & s1 & s2 & im & dm & _ & _ & _ & _ & _ & _ & _ & _ & _ & _ & _
        & _ & _ & _ & _ & Hat).
  destruct (Hat Hu Hl) as (Hits & _ & Hlt & Hb & _).
  split; [exact Hu|]. split; [exact Hl|].
  split; [rewrite Hits; reflexivity|].
  split; [exact Hd|]. split; [exact Hlt|exact Hb].
Defined.

(* ===================================================================== *)
(** ** Fields that write_inode does not read                             *)
(* ===================================================================== *)

Module FieldFacts.

Lemma select_inode_type_mtime (node : tree_node_t) (m : Z) (s : ser_t) :
  select_inode_type (set_mtime node m) s
  = match select_inode_type node s with
    | Some (n', s') => Some (set_mtime n' m, s')
    | None => None
    end.
Proof.
  destruct node as [[nm md u g mt xa ir inum ty] d].
  unfold select_inode_type, set_mtime, mode, data, attr, hard_link_count, bind, ret,
    lift, fail, dm_write_dir, set_type, set_data, S_ISDIR.
  cbn [a_mode a_name a_uid a_gid a_mtime a_xattr a_inode_ref a_inode_num a_type
       attr data mode].
  repeat match goal with
         | |- context [if ?c then _ else _] => destruct c
         | |- context [match ?x with _ => _ end] => destruct x
         end; reflexivity.
Qed.

Lemma write_inode_record_mtime (parent : option Z) (node : tree_node_t) (m : Z)
      (s : ser_t) :
  write_inode_record parent (set_mtime node m) s
  = match write_inode_record parent node s with
    | Some (n', s') => Some (set_mtime n' m, s')
    | None => None
    end.
Proof.
  destruct node as [[nm md u g mt xa ir inum ty] d].
  unfold write_inode_record, set_mtime, type, mode, data, attr, hard_link_count, bind,
    ret, lift, fail, S_ISDIR.
  cbn [a_mode a_name a_uid a_gid a_mtime a_xattr a_inode_ref a_inode_num a_type
       attr data mode].
  repeat match goal with
         | |- context [if ?c then _ else _] => destruct c
         | |- context [match ?x with _ => _ end] => destruct x
         end; reflexivity.
Qed.


Lemma bind_match {A B : Type} (c : M A) (k1 k2 : A -> M B) (F : B -> B) (s : ser_t) :
  (forall a s1, k1 a s1 = match k2 a s1 with
                          | Some (n', s') => Some (F n', s')
                          | None => None
                          end) ->
  bind c k1 s = match bind c k2 s with
                | Some (n', s') => Some (F n', s')
                | None => None
                end.
Proof. intros H. unfold bind. destruct (c s) as [[a s1]|]; [apply H|reflexivity]. Qed.

Lemma bind_match2 {A B : Type} (c1 c2 : M A) (k1 k2 : A -> M B) (G : A -> A)
      (F : B -> B) (s : ser_t) :
  c1 s = match c2 s with
         | Some (a, s') => Some (G a, s')
         | None => None
         end ->
  (forall a s1, k1 (G a) s1 = match k2 a s1 with
                              | Some (n', s') => Some (F n', s')
                              | None => None
                              end) ->
  bind c1 k1 s = match bind c2 k2 s with
                 | Some (n', s') => Some (F n', s')
                 | None => None
                 end.
Proof.
  intros Hc H. unfold bind. rewrite Hc.
  destruct (c2 s) as [[a s1]|]; [apply H|reflexivity].
Qed.

(** write_inode does not look at the mtime of the node: with another mtime
    it does the same, and hands back the node with that mtime. *)
Lemma write_inode_mtime (parent : option Z) (node : tree_node_t) (m : Z) (s : ser_t) :
  write_inode parent (set_mtime node m) s
  = match write_inode parent node s with
    | Some (n', s') => Some (set_mtime n' m, s')
    | None => None
    end.
Proof.
  unfold write_inode.
  replace (uid (set_mtime node m)) with (uid node) by (destruct node; reflexivity).
  replace (gid (set_mtime node m)) with (gid node) by (destruct node; reflexivity).
  apply bind_match. intros ui s1.
  apply bind_match. intros gi s2.
  apply bind_match. intros s3 s4. cbv zeta.
  apply bind_match. intros u1 s5.
  apply bind_match. intros u2 s6.
  apply bind_match2 with (G := fun n => set_mtime n m).
  { rewrite <- select_inode_type_mtime. f_equal; try (destruct node; reflexivity). }
  intros n2 s7.
  replace (type (set_mtime n2 m)) with (type n2) by (destruct n2; reflexivity).
  replace (mode (set_mtime n2 m)) with (mode n2) by (destruct n2; reflexivity).
  replace (inode_num (set_mtime n2 m)) with (inode_num n2)
    by (destruct n2; reflexivity).
  apply bind_match. intros u3 s8.
  apply write_inode_record_mtime.
Qed.

Lemma select_inode_type_xattr (node : tree_node_t) (m : option Z) (s : ser_t) :
  select_inode_type (set_xattr node m) s
  = match select_inode_type node s with
    | Some (n', s') => Some (set_xattr n' m, s')
    | None => None
    end.
Proof.
  destruct node as [[nm md u g mt xa ir inum ty] d].
  unfold select_inode_type, set_xattr, mode, data, attr, hard_link_count, bind, ret,
    lift, fail, dm_write_dir, set_type, set_data, S_ISDIR.
  cbn [a_mode a_name a_uid a_gid a_xattr a_xattr a_inode_ref a_inode_num a_type
       attr data mode].
  repeat match goal with
         | |- context [if ?c then _ else _] => destruct c
         | |- context [match ?x with _ => _ end] => destruct x
         end; reflexivity.
Qed.

Lemma write_inode_record_xattr (parent : option Z) (node : tree_node_t) (m : option Z)
      (s : ser_t) :
  write_inode_record parent (set_xattr node m) s
  = match write_inode_record parent node s with
    | Some (n', s') => Some (set_xattr n' m, s')
    | None => None
    end.
Proof.
  destruct node as [[nm md u g mt xa ir inum ty] d].
  unfold write_inode_record, set_xattr, type, mode, data, attr, hard_link_count, bind,
    ret, lift, fail, S_ISDIR.
  cbn [a_mode a_name a_uid a_gid a_xattr a_xattr a_inode_ref a_inode_num a_type
       attr data mode].
  repeat match goal with
         | |- context [if ?c then _ else _] => destruct c
         | |- context [match ?x with _ => _ end] => destruct x
         end; reflexivity.
Qed.


(** write_inode does not look at the xattr id of the node: with another one
    it does the same, and hands back the node with that id. *)
Lemma write_inode_xattr (parent : option Z) (node : tree_node_t) (m : option Z) (s : ser_t) :
  write_inode parent (set_xattr node m) s
  = match write_inode parent node s with
    | Some (n', s') => Some (set_xattr n' m, s')
    | None => None
    end.
Proof.
  unfold write_inode.
  replace (uid (set_xattr node m)) with (uid node) by (destruct node; reflexivity).
  replace (gid (set_xattr node m)) with (gid node) by (destruct node; reflexivity).
  apply bind_match. intros ui s1.
  apply bind_match. intros gi s2.
  apply bind_match. intros s3 s4. cbv zeta.
  apply bind_match. intros u1 s5.
  apply bind_match. intros u2 s6.
  apply bind_match2 with (G := fun n => set_xattr n m).
  { rewrite <- select_inode_type_xattr. f_equal; try (destruct node; reflexivity). }
  intros n2 s7.
  replace (type (set_xattr n2 m)) with (type n2) by (destruct n2; reflexivity).
  replace (mode (set_xattr n2 m)) with (mode n2) by (destruct n2; reflexivity).
  replace (inode_num (set_xattr n2 m)) with (inode_num n2)
    by (destruct n2; reflexivity).
  apply bind_match. intros u3 s8.
  apply write_inode_record_xattr.
Qed.

End FieldFacts.
Import FieldFacts.

(* ===================================================================== *)
(** ** The inode records                                                  *)
(* ===================================================================== *)

Module LinkFacts.

Lemma count_next_len (l : list tree_node_t) :
  forall k, 0 <= k < 2 ^ 64 -> count_next l k = u64 (k + len l).
Proof.
  induction l as [|x l IH]; intros k Hk; cbn [count_next].
  - unfold len. cbn. rewrite Z.add_0_r. symmetry. now apply u64_small.
  - rewrite IH by apply u64_range. rewrite len_cons.
    unfold u64. rewrite Zplus_mod_idemp_l. f_equal. lia.
Qed.

Lemma S_ISREG_not_dir (m : Z) : S_ISREG m = true -> S_ISDIR m = false.
Proof.
  unfold S_ISREG, S_ISDIR. intros H. apply Z.eqb_eq in H. rewrite H. reflexivity.
Qed.

(** hard_link_count: 2 plus the number of children for a directory, 1 for
    anything else. *)
Lemma hard_link_count_value (n : tree_node_t) (nl : Z) :
  hard_link_count n = Some nl ->
  nl = if S_ISDIR (mode n) then u64 (2 + len (children n)) else 1.
Proof.
  unfold hard_link_count, children. destruct (S_ISDIR (mode n)).
  - destruct (data n); try discriminate. intros H. inversion H.
    apply count_next_len. lia.
  - intros H. inversion H. reflexivity.
Qed.

End LinkFacts.
Import LinkFacts.

(** C2 (as amended): the extended inode form is chosen if and only if a
    field exceeds the range of the narrow form: for a regular file, size >
    2^32-1, or start block > 2^32-1, or hard_link_count > 1; for a
    directory, listing size > 2^16-1 or start block > 2^32-1.  No other
    node gets an extended form, and the xattr id of a node plays no part:
    write_inode does the same whatever it is, and the xattr index of an
    extended record is always 0xFFFFFFFF.  A file of 2^32-1 bytes (start
    block within range) gets the narrow form, a file of 2^32 bytes the
    extended form. *)
Theorem extended_form_threshold :
  forall (parent : option Z) (node node' : tree_node_t) (s s' : ser_t),
    write_inode parent node s = Some (node', s') ->
    (S_ISREG (mode node) = true ->
     exists fi nl,
       data node = DataFile fi /\ hard_link_count node = Some nl /\
       (type node' = SQFS_INODE_EXT_FILE \/ type node' = SQFS_INODE_FILE) /\
       (type node' = SQFS_INODE_EXT_FILE <->
        fi_size fi > 0xFFFFFFFF \/ fi_startblock fi > 0xFFFFFFFF \/ nl > 1) /\
       (fi_size fi = 2 ^ 32 - 1 -> fi_startblock fi <= 0xFFFFFFFF ->
        type node' = SQFS_INODE_FILE) /\
       (fi_size fi = 2 ^ 32 -> type node' = SQFS_INODE_EXT_FILE)) /\
    (S_ISDIR (mode node) = true ->
     exists di',
       data node' = DataDir di' /\
       (type node' = SQFS_INODE_EXT_DIR \/ type node' = SQFS_INODE_DIR) /\
       (type node' = SQFS_INODE_EXT_DIR <->
        di_size di' > 0xFFFF \/ di_start_block di' > 0xFFFFFFFF)) /\
    (S_ISREG (mode node) = false -> S_ISDIR (mode node) = false ->
     type node' <> SQFS_INODE_EXT_FILE /\ type node' <> SQFS_INODE_EXT_DIR) /\
    (forall x, write_inode parent (set_xattr node x) s
               = Some (set_xattr node' x, s')) /\
    (exists base payload,
       meta_writer_append (s_im s) (bytes_inode base ++ bytes_payload payload)
       = Some (s_im s') /\
       base_type base = htole16 (type node') /\
       payload_fits (type node') payload /\
       forall x, payload_xattr_idx payload = Some x -> x = 0xFFFFFFFF).
Proof.
  intros parent node node' s s' H.
  destruct (write_inode_inv _ _ _ _ _ H)
    as (tbl1 & ui & tbl2 & gi & t & d' & payload & _ & _ & Hn' & _ & Ha & Hfit & _ & Hx
        & Hdec).
  rewrite Hn' in *.
  cbn [type data attr a_type].
  split; [|split; [|split; [|split]]].
  - intros Hreg. pose proof (S_ISREG_not_dir _ Hreg) as Hnd.
    destruct Hdec as [(Hd & _)|(_ & _ & _ & [(_ & fi & nl & D & Hl & Ht)|(Hr & _)])];
      try congruence.
    exists fi, nl. split; [exact D|]. split; [exact Hl|].
    pose proof (hard_link_count_value _ _ Hl) as Hnl. rewrite Hnd in Hnl.
    assert (Hiff : t = SQFS_INODE_EXT_FILE <->
                   fi_size fi > 0xFFFFFFFF \/ fi_startblock fi > 0xFFFFFFFF \/ nl > 1).
    { rewrite Ht.
      destruct (fi_startblock fi >? 0xFFFFFFFF) eqn:E1;
        destruct (fi_size fi >? 0xFFFFFFFF) eqn:E2;
        destruct (nl >? 1) eqn:E3; cbn [orb];
        rewrite Z.gtb_ltb in E1, E2, E3;
        try apply Z.ltb_lt in E1; try apply Z.ltb_ge in E1;
        try apply Z.ltb_lt in E2; try apply Z.ltb_ge in E2;
        try apply Z.ltb_lt in E3; try apply Z.ltb_ge in E3;
        split; intros Hc; try reflexivity; try lia; try discriminate Hc. }
    split.
    { rewrite Ht. destruct (_ || _); auto. }
    split; [exact Hiff|]. split.
    + intros Hs Hb.
      assert (Hne : t <> SQFS_INODE_EXT_FILE) by (rewrite Hiff; lia).
      rewrite Ht in *. destruct (_ || _); congruence.
    + intros Hs. apply Hiff. lia.
  - intros Hd.
    destruct Hdec as [(_ & di & di' & _ & _ & -> & Ht)|(Hnd & _)]; [|congruence].
    exists di'. split; [reflexivity|].
    rewrite Ht.
    destruct (di_start_block di' >? 0xFFFFFFFF) eqn:E1;
      destruct (di_size di' >? 0xFFFF) eqn:E2; cbn [orb];
      rewrite Z.gtb_ltb in E1, E2;
      try apply Z.ltb_lt in E1; try apply Z.ltb_ge in E1;
      try apply Z.ltb_lt in E2; try apply Z.ltb_ge in E2;
      (split; [auto|]); split; intros Hc; try reflexivity; try lia;
      try discriminate Hc.
  - intros Hr Hd.
    destruct Hdec as [(Hd' & _)|(_ & _ & _ & [(Hr' & _)|(_ & Ht)])]; try congruence.
    destruct Ht as [ -> | [ -> | [ -> | [ -> | -> ] ] ] ]; split; discriminate.
  - intros x. rewrite write_inode_xattr, H. reflexivity.
  - eexists. exists payload. split; [exact Ha|]. split; [reflexivity|].
    split; [exact Hfit|exact Hx].
Qed.

(** A file of 2^32-1 bytes is written in the narrow form, one of 2^32
    bytes in the extended form. *)
Lemma extended_form_threshold_witness :
  exists n1 s1 n2 s2,
    write_inode None Examples.max_narrow_file (Examples.ser0 Examples.root_only)
    = Some (n1, s1) /\
    write_inode None Examples.min_extended_file (Examples.ser0 Examples.root_only)
    = Some (n2, s2) /\
    type n1 = SQFS_INODE_FILE /\ type n2 = SQFS_INODE_EXT_FILE.
Proof.
  assert (Hs1 : match write_inode None Examples.max_narrow_file
                        (Examples.ser0 Examples.root_only)
                with Some _ => true | None => false end = true)
    by (vm_compute; reflexivity).
  assert (Hs2 : match write_inode None Examples.min_extended_file
                        (Examples.ser0 Examples.root_only)
                with Some _ => true | None => false end = true)
    by (vm_compute; reflexivity).
  destruct (write_inode None Examples.max_narrow_file (Examples.ser0 Examples.root_only))
    as [[n1 s1]|] eqn:E1; [|discriminate Hs1].
  destruct (write_inode None Examples.min_extended_file (Examples.ser0 Examples.root_only))
    as [[n2 s2]|] eqn:E2; [|discriminate Hs2].
  exists n1, s1, n2, s2. split; [reflexivity|]. split; [reflexivity|].
  destruct (extended_form_threshold _ _ _ _ _ E1) as (Hreg1 & _).
  destruct (extended_form_threshold _ _ _ _ _ E2) as (Hreg2 & _).
  destruct (Hreg1 eq_refl) as (fi1 & nl1 & D1 & _ & _ & _ & Hn & _).
  destruct (Hreg2 eq_refl) as (fi2 & nl2 & D2 & _ & _ & _ & _ & Hx).
  cbv beta iota delta [Examples.max_narrow_file Examples.file_node data] in D1.
  cbv beta iota delta [Examples.min_extended_file Examples.file_node data] in D2.
  injection D1 as D1. injection D2 as D2. subst fi1 fi2.
  split.
  - apply Hn; [reflexivity|]. cbn [fi_startblock]. intro Hc. discriminate Hc.
  - apply Hx. reflexivity.
Defined.

(** C2, as the specification words it, fails: a small file that carries an
    xattr id is written in the narrow form. *)
Lemma xattr_form_counterexample :
  ~ (forall (parent : option Z) (node node' : tree_node_t) (s s' : ser_t),
       write_inode parent node s = Some (node', s') ->
       S_ISREG (mode node) = true ->
       xattr node <> None ->
       type node' = SQFS_INODE_EXT_FILE).
Proof.
  intros claim.
  destruct (write_inode None Examples.xattr_file (Examples.ser0 Examples.root_only))
    as [[n' s']|] eqn:E; [|vm_compute in E; discriminate E].
  assert (Hx : type n' = SQFS_INODE_EXT_FILE).
  { apply (claim _ _ _ _ _ E); [reflexivity|]. cbn. discriminate. }
  vm_compute in E. injection E as En _. rewrite <- En in Hx.
  vm_compute in Hx. discriminate Hx.
Qed.

(** C9: the nlink value of every inode record that has one is, truncated
    to 32 bits, hard_link_count of the node: 2 plus the number of children
    for a directory, 1 for every other node; so the test hard_link_count > 1
    never turns a regular file into an extended inode, whose form depends on
    the size and the start block alone. *)
Theorem nlink_serialized :
  forall (parent : option Z) (node node' : tree_node_t) (s s' : ser_t),
    write_inode parent node s = Some (node', s') ->
    exists base payload nl,
      meta_writer_append (s_im s) (bytes_inode base ++ bytes_payload payload)
      = Some (s_im s') /\
      payload_fits (type node') payload /\
      hard_link_count node = Some nl /\
      nl = (if S_ISDIR (mode node) then u64 (2 + len (children node)) else 1) /\
      (forall x, payload_nlink payload = Some x -> x = u32 nl) /\
      (S_ISDIR (mode node) = true -> 2 + len (children node) < 2 ^ 32 ->
       forall x, payload_nlink payload = Some x -> x = 2 + len (children node)) /\
      (S_ISDIR (mode node) = false ->
       forall x, payload_nlink payload = Some x -> x = 1) /\
      (S_ISREG (mode node) = true ->
       (nl >? 1) = false /\
       forall fi, data node = DataFile fi ->
         (type node' = SQFS_INODE_EXT_FILE <->
          fi_size fi > 0xFFFFFFFF \/ fi_startblock fi > 0xFFFFFFFF)).
Proof.
  intros parent node node' s s' H.
  destruct (write_inode_inv _ _ _ _ _ H)
    as (tbl1 & ui & tbl2 & gi & t & d' & payload & _ & _ & Hn' & _ & Ha & Hfit & Hnl & _
        & Hdec).
  assert (Hhl : exists nl, hard_link_count node = Some nl).
  { unfold hard_link_count.
    destruct Hdec as [(Hd & di & di' & D & _)|(Hd & _)]; rewrite Hd; [|eauto].
    rewrite D. eauto. }
  destruct Hhl as (nl & Hhl).
  pose proof (hard_link_count_value _ _ Hhl) as Hval.
  assert (Hx : forall x, payload_nlink payload = Some x -> x = u32 nl).
  { intros x Hx. destruct (Hnl x Hx) as (nl' & Hl' & ->). congruence. }
  eexists. exists payload, nl.
  split; [exact Ha|]. split; [rewrite Hn'; exact Hfit|].
  split; [exact Hhl|]. split; [exact Hval|]. split; [exact Hx|].
  pose proof (len_nonneg (children node)) as Hc.
  split; [|split].
  - intros Hd Hb x Hpx. rewrite (Hx x Hpx), Hval, Hd, u32_u64.
    apply u32_small. lia.
  - intros Hd x Hpx. rewrite (Hx x Hpx), Hval, Hd. reflexivity.
  - intros Hreg. pose proof (S_ISREG_not_dir _ Hreg) as Hd.
    rewrite Hd in Hval. subst nl. split; [reflexivity|].
    intros fi D.
    destruct (extended_form_threshold _ _ _ _ _ H) as (Hf & _).
    destruct (Hf Hreg) as (fi' & nl' & D' & Hl' & _ & Hiff & _).
    rewrite D in D'. inversion D'; subst fi'.
    rewrite Hhl in Hl'. inversion Hl'; subst nl'.
    rewrite Hiff. split; intros Hc'; [|tauto].
    destruct Hc' as [Hc'|[Hc'|Hc']]; [tauto|tauto|lia].
Qed.

(** The root of an empty tree: nlink 2. *)
Lemma nlink_serialized_witness :
  exists node' s',
    write_inode None Examples.root_only (Examples.ser0 Examples.root_only)
    = Some (node', s') /\
    hard_link_count Examples.root_only = Some 2.
Proof.
  assert (Hs : match write_inode None Examples.root_only
                       (Examples.ser0 Examples.root_only)
               with Some _ => true | None => false end = true)
    by (vm_compute; reflexivity).
  destruct (write_inode None Examples.root_only (Examples.ser0 Examples.root_only))
    as [[node' s']|] eqn:E; [|discriminate Hs].
  exists node', s'. split; [reflexivity|].
  destruct (nlink_serialized _ _ _ _ _ E) as (base & payload & nl & _ & _ & Hl & Hv & _).
  rewrite Hl, Hv. reflexivity.
Defined.

(** C10: the mod_time field of every inode written is the configured
    default mtime; the mtime of the node itself is never written: with any
    other mtime on the node, write_inode leaves the same state behind, the
    same bytes in the inode writer included. *)
Theorem mod_time_is_default :
  forall (parent : option Z) (node node' : tree_node_t) (s s' : ser_t),
    write_inode parent node s = Some (node', s') ->
    (exists base payload,
       meta_writer_append (s_im s) (bytes_inode base ++ bytes_payload payload)
       = Some (s_im s') /\
       payload_fits (type node') payload /\
       base_mod_time base = htole32 (def_mtime (opt (s_info s)))) /\
    (forall m, write_inode parent (set_mtime node m) s
               = Some (set_mtime node' m, s')).
Proof.
  intros parent node node' s s' H. split.
  - destruct (write_inode_inv _ _ _ _ _ H)
      as (tbl1 & ui & tbl2 & gi & t & d' & payload & _ & _ & Hn' & _ & Ha & Hfit & _).
    eexists. exists payload. split; [exact Ha|].
    split; [rewrite Hn'; exact Hfit|reflexivity].
  - intros m. rewrite write_inode_mtime, H. reflexivity.
Qed.

(** A file with mtime 1565000000 under a default mtime of 0: the state
    after writing its inode is the one for mtime 7. *)
Lemma mod_time_is_default_witness :
  exists node' s',
    write_inode None Examples.xattr_file (Examples.ser0 Examples.root_only)
    = Some (node', s') /\
    write_inode None (set_mtime Examples.xattr_file 7) (Examples.ser0 Examples.root_only)
    = Some (set_mtime node' 7, s').
Proof.
  assert (Hs : match write_inode None Examples.xattr_file
                       (Examples.ser0 Examples.root_only)
               with Some _ => true | None => false end = true)
    by (vm_compute; reflexivity).
  destruct (write_inode None Examples.xattr_file (Examples.ser0 Examples.root_only))
    as [[node' s']|] eqn:E; [|discriminate Hs].
  exists node', s'. split; [reflexivity|].
  exact (proj2 (mod_time_is_default _ _ _ _ _ E) 7).
Defined.

(* ===================================================================== *)
(** ** append_block                                                       *)
(* ===================================================================== *)

Module DumpFacts.
Import Dump.

(** Whatever the write calls answer, the loop can only end with 0. *)
Lemma append_block_loop_returns_0 (ws : list write_result) (blk : sqfs_block_t) :
  forall st r st' rest,
    append_block_loop ws blk st = Some (r, st', rest) -> r = 0.
Proof.
  induction ws as [|w ws IH]; intros st r st' rest H; cbn [append_block_loop] in H.
  - destruct (size st >? 0); [discriminate|]. now inversion H.
  - destruct (size st >? 0); [|now inversion H].
    destruct ((wr_ret w <? 0) && (wr_errno w =? EINTR)); [eapply IH; exact H|].
    destruct (written_by blk (ptr st) (wr_ret w)); [eapply IH; exact H|discriminate H].
Qed.

(** From blk->data on, write is handed the bytes of [data]. *)
Lemma written_by_data (blk : sqfs_block_t) (p ret : Z) :
  0 <= p ->
  written_by blk p ret
  = Some (firstn (Z.to_nat ret) (skipn (Z.to_nat p) (blk_data blk))).
Proof.
  intros Hp. unfold written_by.
  destruct (ret <=? 0) eqn:Hr.
  - apply Z.leb_le in Hr. replace (Z.to_nat ret) with 0%nat by lia. reflexivity.
  - pose proof (len_nonneg (blk_head blk)).
    replace (len (blk_head blk) + p <? 0) with false by (symmetry; apply Z.ltb_ge; lia).
    do 2 f_equal. unfold len. rewrite Z2Nat.inj_add, Nat2Z.id by lia.
    rewrite skipn_app, skipn_all2 by lia.
    cbn [app]. f_equal. lia.
Qed.

(** A call that fails moves [ptr] back by one: the next call starts with
    the byte in front of blk->data. *)
Lemma append_block_after_failed_write :
  exists st,
    append_block [mk_write_result (-1) 5; mk_write_result 4 0]
                 (mk_block 3 [1; 2; 3] [170; 171])
    = Some (0, st, []) /\
    output st = [171; 1; 2; 3] /\
    stderr st = [perror_writing_data_block].
Proof. eexists. repeat split. Qed.

(** After [k] calls that wrote nothing and one call that wrote the rest,
    the loop ends with 0 and [k] warnings. *)
Lemma append_block_loop_zero_writes (blk : sqfs_block_t) (k : nat) :
  forall st,
    0 < size st < 2 ^ 64 -> 0 <= ptr st ->
    exists st',
      append_block_loop
        (repeat (mk_write_result 0 0) k ++ [mk_write_result (size st) 0]) blk st
      = Some (0, st', []) /\
      size st' = 0 /\
      ptr st' = ptr st + size st /\
      stderr st' = stderr st ++ repeat unexpected_end_of_file k /\
      output st'
      = output st ++ firstn (Z.to_nat (size st)) (skipn (Z.to_nat (ptr st)) (blk_data blk)).
Proof.
  induction k as [|k IH]; intros st Hs Hp0.
  - cbn [repeat app append_block_loop wr_ret wr_errno].
    replace (size st >? 0) with true by (symmetry; apply Z.gtb_lt; lia).
    replace (size st <? 0) with false by (symmetry; apply Z.ltb_ge; lia).
    cbn [andb].
    replace (size st =? 0) with false by (symmetry; apply Z.eqb_neq; lia).
    rewrite written_by_data by exact Hp0.
    rewrite Z.sub_diag. cbn [size]. change (u64 0 >? 0) with false. cbv iota.
    eexists. split; [reflexivity|]. cbn. rewrite app_nil_r. auto.
  - cbn [repeat app append_block_loop wr_ret wr_errno].
    replace (size st >? 0) with true by (symmetry; apply Z.gtb_lt; lia).
    cbn [Z.ltb Z.compare andb Z.eqb].
    rewrite written_by_data by exact Hp0. cbn [Z.to_nat firstn].
    set (st1 := mk_loop_state _ _ _ _).
    assert (Hs1 : size st1 = size st).
    { unfold st1. cbn [size]. rewrite Z.sub_0_r. apply u64_small. lia. }
    assert (Hp1 : ptr st1 = ptr st).
    { unfold st1. cbn [ptr]. lia. }
    destruct (IH st1) as (st' & Hrun & Hz & Hp & He & Ho);
      [rewrite Hs1; exact Hs|rewrite Hp1; exact Hp0|].
    rewrite Hs1 in Hrun, Hp, Ho. rewrite Hp1 in Hp, Ho.
    exists st'. split; [exact Hrun|]. split; [exact Hz|].
    unfold st1 in He, Ho. cbn [stderr output] in He, Ho.
    split; [exact Hp|]. split.
    + rewrite He, <- app_assoc. reflexivity.
    + rewrite Ho, app_nil_r. reflexivity.
Qed.

(** As long as write answers 0 the loop goes on. *)
Lemma append_block_loop_only_zero (blk : sqfs_block_t) (k : nat) :
  forall st,
    0 < size st < 2 ^ 64 ->
    append_block_loop (repeat (mk_write_result 0 0) k) blk st = None.
Proof.
  induction k as [|k IH]; intros st Hs; cbn [repeat append_block_loop wr_ret wr_errno];
    replace (size st >? 0) with true by (symmetry; apply Z.gtb_lt; lia).
  - reflexivity.
  - cbn [Z.ltb Z.compare andb Z.eqb].
    change (written_by blk (ptr st) 0) with (Some (@nil Z)). cbv iota.
    apply IH. cbn [size].
    rewrite Z.sub_0_r, u64_small; lia.
Qed.

End DumpFacts.

(** C7: append_block does not treat a write that returns 0 as an error: it
    has no error return at all, for whenever it returns it returns 0; and
    when write answers 0 any number of times before it takes the data, the
    result is 0 all the same, each empty write leaving only a warning on
    stderr (while write keeps answering 0 the loop does not return). *)
Theorem append_block_ignores_zero_write :
  forall (blk : Dump.sqfs_block_t),
    (forall ws r st rest,
       Dump.append_block ws blk = Some (r, st, rest) -> r = 0) /\
    (0 < Dump.blk_size blk < 2 ^ 64 ->
     forall k : nat,
       Dump.append_block (repeat (Dump.mk_write_result 0 0) k) blk = None /\
       exists st,
         Dump.append_block
           (repeat (Dump.mk_write_result 0 0) k
            ++ [Dump.mk_write_result (Dump.blk_size blk) 0]) blk
         = Some (0, st, []) /\
         Dump.stderr st = repeat Dump.unexpected_end_of_file k /\
         Dump.output st
         = firstn (Z.to_nat (Dump.blk_size blk)) (Dump.blk_data blk)).
Proof.
  intros blk. split.
  - intros ws r st rest H.
    exact (DumpFacts.append_block_loop_returns_0 _ _ _ _ _ _ H).
  - intros Hs k. unfold Dump.append_block. split.
    + apply DumpFacts.append_block_loop_only_zero. exact Hs.
    + destruct (DumpFacts.append_block_loop_zero_writes blk k
                  (Dump.mk_loop_state 0 (Dump.blk_size blk) [] []) Hs (Z.le_refl 0))
        as (st & Hrun & _ & _ & He & Ho).
      exists st. split; [exact Hrun|]. split; [exact He|].
      rewrite Ho. reflexivity.
Qed.

(** A block of three bytes, two empty writes, then a full one. *)
Lemma append_block_ignores_zero_write_witness :
  0 < Dump.blk_size (Dump.mk_block 3 [1; 2; 3] []) < 2 ^ 64 /\
  exists st,
    Dump.append_block
      [Dump.mk_write_result 0 0; Dump.mk_write_result 0 0; Dump.mk_write_result 3 0]
      (Dump.mk_block 3 [1; 2; 3] [])
    = Some (0, st, []) /\
    Dump.output st = [1; 2; 3].
Proof.
  assert (Hs : 0 < Dump.blk_size (Dump.mk_block 3 [1; 2; 3] []) < 2 ^ 64)
    by (cbn; lia).
  split; [exact Hs|].
  destruct (proj2 (append_block_ignores_zero_write (Dump.mk_block 3 [1; 2; 3] [])) Hs 2%nat)
    as (_ & st & Hrun & _ & Ho).
  exists st. split; [exact Hrun|exact Ho].
Defined.

(* ===================================================================== *)
(** ** decode_header                                                      *)
(* ===================================================================== *)

Module TarFacts.
Import Tar.

Section DecoderFacts.
Variable read_number : list Z -> option Z.
Variable read_octal : list Z -> option Z.
Variables PAX_SIZE PAX_UID PAX_GID PAX_DEV_MAJ PAX_DEV_MIN : Z.
Variables PAX_NAME PAX_SLINK_TARGET PAX_MTIME : Z.
Variable makedev : Z -> Z -> Z.
Variables major minor : Z -> Z.
Variable SIZEOF_TIME_T : Z.

Local Abbreviation decode_numbers' :=
  (decode_numbers read_number PAX_SIZE PAX_UID PAX_GID PAX_DEV_MAJ PAX_DEV_MIN
                  makedev major minor).
Local Abbreviation decode_header' :=
  (decode_header read_number read_octal PAX_SIZE PAX_UID PAX_GID PAX_DEV_MAJ
                 PAX_DEV_MIN PAX_NAME PAX_SLINK_TARGET PAX_MTIME makedev major minor
                 SIZEOF_TIME_T).

Ltac field_step H :=
  match type of H with
  | context [if ?b then _ else _] => destruct b
  end;
  [ match type of H with
    | context [obind ?r _] => destruct r; cbn [obind] in H; [|discriminate H]
    end
  | ].

(** The numeric fields leave the strings, the mode and the mtime alone. *)
Lemma decode_numbers_frame (hdr : tar_header_t) (set_by_pax : Z)
      (out o : tar_header_decoded_t) :
  decode_numbers' hdr set_by_pax out = Some o ->
  link_target o = link_target out /\ d_name o = d_name out /\
  d_mtime o = d_mtime out /\ st_mode (sb o) = st_mode (sb out) /\
  unknown_record o = unknown_record out.
Proof.
  unfold decode_numbers. intros H.
  repeat match type of H with
         | obind ?c ?k = Some _ =>
             let o1 := fresh "o" in
             let E := fresh "E" in
             destruct c as [o1|] eqn:E; [cbn [obind] in H|discriminate H]
         end.
  assert (Hstep : forall (b : bool) (r : option Z) (f : Z -> tar_header_decoded_t)
                         (p q : tar_header_decoded_t),
            (forall x, link_target (f x) = link_target p /\ d_name (f x) = d_name p /\
                       d_mtime (f x) = d_mtime p /\
                       st_mode (sb (f x)) = st_mode (sb p) /\
                       unknown_record (f x) = unknown_record p) ->
            (if b then obind r (fun field => Some (f field)) else Some p) = Some q ->
            link_target q = link_target p /\ d_name q = d_name p /\
            d_mtime q = d_mtime p /\ st_mode (sb q) = st_mode (sb p) /\
            unknown_record q = unknown_record p).
  { intros b r f p q Hf Hq. destruct b.
    - destruct r; cbn [obind] in Hq; [|discriminate Hq]. inversion Hq. apply Hf.
    - inversion Hq. auto. }
  apply Hstep in E; [|intros; repeat split].
  apply Hstep in E0; [|intros; repeat split].
  apply Hstep in E1; [|intros; repeat split].
  apply Hstep in E2; [|intros; repeat split].
  apply Hstep in H; [|intros; repeat split].
  destruct E as (? & ? & ? & ? & ?), E0 as (? & ? & ? & ? & ?),
           E1 as (? & ? & ? & ? & ?), E2 as (? & ? & ? & ? & ?),
           H as (? & ? & ? & ? & ?).
  repeat split; congruence.
Qed.

Lemma decode_mtime_frame (hdr : tar_header_t) (set_by_pax : Z)
      (out o : tar_header_decoded_t) :
  decode_mtime read_number PAX_MTIME hdr set_by_pax out = Some o ->
  link_target o = link_target out /\ d_name o = d_name out /\ sb o = sb out /\
  unknown_record o = unknown_record out.
Proof.
  unfold decode_mtime. intros H.
  destruct (unset set_by_pax PAX_MTIME); [|inversion H; auto].
  destruct (read_number (h_mtime hdr)); cbn [obind] in H; [|discriminate H].
  destruct (negb _); inversion H; auto.
Qed.

(** The steps of decode_header that succeeded, one by one. *)
Lemma decode_header_inv (hdr : tar_header_t) (set_by_pax : Z)
      (out out' : tar_header_decoded_t) (version : tar_version) :
  decode_header' hdr set_by_pax out version = Some out' ->
  exists o1 o2 field o3,
    decode_numbers' hdr set_by_pax (decode_name PAX_NAME hdr set_by_pax out version)
    = Some o1 /\
    decode_mtime read_number PAX_MTIME hdr set_by_pax o1 = Some o2 /\
    read_octal (h_mode hdr) = Some field /\
    decode_link_target PAX_SLINK_TARGET hdr set_by_pax
                       (set_st_mode o2 (Z.land field 0xFFF)) = Some o3 /\
    out' = decode_st_mtime SIZEOF_TIME_T
             (decode_type hdr (set_unknown_record o3 false)).
Proof.
  unfold decode_header. cbv zeta. intros H.
  destruct (decode_numbers' _ _ _) as [o1|] eqn:E1; [cbn [obind] in H|discriminate H].
  destruct (decode_mtime _ _ _ _ _) as [o2|] eqn:E2; [cbn [obind] in H|discriminate H].
  destruct (read_octal _) as [field|] eqn:E3; [cbn [obind] in H|discriminate H].
  destruct (decode_link_target _ _ _ _) as [o3|] eqn:E4;
    [cbn [obind] in H|discriminate H].
  inversion H. exists o1, o2, field, o3. auto.
Qed.

Lemma decode_st_mtime_frame (o : tar_header_decoded_t) :
  st_mode (sb (decode_st_mtime SIZEOF_TIME_T o)) = st_mode (sb o) /\
  link_target (decode_st_mtime SIZEOF_TIME_T o) = link_target o /\
  d_name (decode_st_mtime SIZEOF_TIME_T o) = d_name o /\
  unknown_record (decode_st_mtime SIZEOF_TIME_T o) = unknown_record o /\
  d_mtime (decode_st_mtime SIZEOF_TIME_T o) = d_mtime o.
Proof.
  unfold decode_st_mtime.
  destruct (SIZEOF_TIME_T <? 8); [|repeat split].
  destruct (d_mtime o >? INT32_MAX); [repeat split|].
  destruct (d_mtime o <? INT32_MIN); repeat split.
Qed.

Lemma decode_type_frame (hdr : tar_header_t) (o : tar_header_decoded_t) :
  link_target (decode_type hdr o) = link_target o /\
  d_name (decode_type hdr o) = d_name o /\
  d_mtime (decode_type hdr o) = d_mtime o.
Proof.
  unfold decode_type. cbv zeta.
  repeat match goal with
         | |- context [if ?b then _ else _] => destruct b
         end; repeat split.
Qed.

(** C8: for a header with typeflag TAR_TYPE_LINK ('1'), decode_header
    yields the mode S_IFLNK | 0777, whatever the mode field of the header
    says: the hard link comes out as a symlink, and not as an unknown
    record.  Its target is the string that starts in the linkname field
    (the field up to its first NUL when it has one), unless a pax or GNU
    record has set the target, which is then kept. *)
Theorem hard_link_decoded_as_symlink
        (hdr : tar_header_t) (set_by_pax : Z)
        (out out' : tar_header_decoded_t) (version : tar_version) :
  h_typeflag hdr = TAR_TYPE_LINK ->
  decode_header' hdr set_by_pax out version = Some out' ->
  st_mode (sb out') = Z.lor S_IFLNK 0x1FF /\
  st_mode (sb out') = 0xA1FF /\
  unknown_record out' = false /\
  (Z.land set_by_pax PAX_SLINK_TARGET = 0 ->
   exists target,
     strdup_linkname hdr = Some target /\
     link_target out' = Some target /\
     (In 0 (h_linkname hdr) -> target = until_nul (h_linkname hdr))) /\
  (Z.land set_by_pax PAX_SLINK_TARGET <> 0 ->
   link_target out' = link_target out).
Proof.
  intros Ht H. apply decode_header_inv in H.
  destruct H as (o1 & o2 & field & o3 & E1 & E2 & E3 & E4 & ->).
  destruct (decode_st_mtime_frame (decode_type hdr (set_unknown_record o3 false)))
    as (Hm & Hl & _ & Hu & _).
  rewrite Hm, Hl, Hu.
  assert (Hty : decode_type hdr (set_unknown_record o3 false)
                = set_st_mode (set_unknown_record o3 false) (Z.lor S_IFLNK 0x1FF)).
  { unfold decode_type. rewrite Ht. reflexivity. }
  rewrite Hty. cbn [set_st_mode set_sb sb st_mode unknown_record link_target
                    set_unknown_record].
  split; [reflexivity|]. split; [reflexivity|]. split; [reflexivity|].
  unfold decode_link_target in E4. rewrite Ht in E4. cbv zeta in E4.
  rewrite Z.eqb_refl in E4. cbn [orb] in E4.
  destruct (decode_numbers_frame _ _ _ _ E1) as (Hl1 & _).
  destruct (decode_mtime_frame _ _ _ _ E2) as (Hl2 & _).
  assert (Hname : link_target (decode_name PAX_NAME hdr set_by_pax out version)
                  = link_target out).
  { unfold decode_name. destruct (unset set_by_pax PAX_NAME); [|reflexivity].
    destruct (negb _ && _); reflexivity. }
  unfold unset in E4. split.
  - intros Hz. rewrite Hz in E4. cbn [Z.eqb] in E4.
    destruct (strdup_linkname hdr) as [target|] eqn:Es; cbn [obind] in E4;
      [|discriminate E4].
    inversion E4; subst o3; clear E4. exists target.
    split; [reflexivity|]. split; [reflexivity|].
    intros Hin. unfold strdup_linkname in Es.
    destruct (existsb _ _); [|discriminate Es]. inversion Es; subst target.
    unfold behind_linkname. generalize (h_magic hdr ++ h_version hdr ++ h_uname hdr
      ++ h_gname hdr ++ h_devmajor hdr ++ h_devminor hdr ++ h_tail hdr).
    induction (h_linkname hdr) as [|c l IH]; intros rest; [destruct Hin|].
    cbn [app until_nul]. destruct (c =? 0) eqn:Ec; [reflexivity|].
    f_equal. apply IH. destruct Hin as [Hc|Hin]; [|exact Hin].
    subst c. discriminate Ec.
  - intros Hnz. apply Z.eqb_neq in Hnz. rewrite Hnz in E4.
    inversion E4; subst o3; clear E4.
    cbn [set_st_mode set_sb link_target]. congruence.
Qed.

End DecoderFacts.

(** The header of a hard link "b" to "a" with mode 0644: mode
    S_IFLNK | 0777, target "a". *)
Lemma hard_link_decoded_as_symlink_witness :
  exists out',
    h_typeflag Examples.link_header = TAR_TYPE_LINK /\
    Examples.decode_header0 Examples.link_header 0 Examples.decoded0 ETV_POSIX
    = Some out' /\
    st_mode (sb out') = 0xA1FF.
Proof.
  destruct (Examples.decode_header0 Examples.link_header 0 Examples.decoded0 ETV_POSIX)
    as [out'|] eqn:E; [|vm_compute in E; discriminate E].
  exists out'. split; [reflexivity|]. split; [reflexivity|].
  unfold Examples.decode_header0 in E.
  apply hard_link_decoded_as_symlink in E; [|reflexivity].
  exact (proj1 (proj2 E)).
Defined.

End TarFacts.

(* ===================================================================== *)
(** ** write(2) in a loop: append_block and write_retry                *)
(* ===================================================================== *)

Module IoFacts.
Import Dump IoViews.

Lemma firstn_add_skipn {A : Type} (a b : nat) (l : list A) :
  firstn (a + b) l = firstn a l ++ firstn b (skipn a l).
Proof.
  revert l. induction a as [|a IH]; intros l; [reflexivity|].
  destruct l as [|x l]; cbn [Nat.add firstn skipn app].
  - now rewrite firstn_nil.
  - now rewrite IH.
Qed.

Lemma skipn_add {A : Type} (a b : nat) (l : list A) :
  skipn (a + b) l = skipn b (skipn a l).
Proof.
  revert l. induction a as [|a IH]; intros l; [reflexivity|].
  destruct l as [|x l]; cbn [Nat.add skipn].
  - now rewrite skipn_nil.
  - apply IH.
Qed.

Lemma total_nonneg (l : list (nat * Z)) : pieces l -> 0 <= total l.
Proof.
  induction 1 as [|kc l H _ IH]; cbn [total fold_right]; [lia|].
  fold (total l). lia.
Qed.

(** The bytes of [buf] from offset [p], [n] of them. *)
Lemma slice_add (buf : list Z) (p a b : Z) :
  0 <= p -> 0 <= a -> 0 <= b ->
  firstn (Z.to_nat (a + b)) (skipn (Z.to_nat p) buf)
  = firstn (Z.to_nat a) (skipn (Z.to_nat p) buf)
    ++ firstn (Z.to_nat b) (skipn (Z.to_nat (p + a)) buf).
Proof.
  intros Hp Ha Hb.
  rewrite !Z2Nat.inj_add by lia.
  rewrite firstn_add_skipn. f_equal.
  now rewrite skipn_add.
Qed.

(** Calls interrupted by a signal leave the loop where it is. *)
Lemma append_block_loop_interrupted (blk : sqfs_block_t) (k : nat) ws st :
  0 < size st ->
  append_block_loop (interrupted k ++ ws) blk st = append_block_loop ws blk st.
Proof.
  intros Hs. induction k as [|k IH]; [reflexivity|].
  cbn [interrupted repeat app append_block_loop wr_ret wr_errno].
  replace (size st >? 0) with true by (symmetry; apply Z.gtb_lt; lia).
  cbn [Z.ltb Z.compare andb]. change (EINTR =? EINTR) with true. cbv iota.
  exact IH.
Qed.

Lemma append_block_loop_answers (blk : sqfs_block_t) (l : list (nat * Z)) :
  pieces l ->
  forall rest st,
    size st = total l -> size st < 2 ^ 64 -> 0 <= ptr st ->
    exists st',
      append_block_loop (answers l ++ rest) blk st = Some (0, st', rest) /\
      size st' = 0 /\
      stderr st' = stderr st /\
      output st'
      = output st
        ++ firstn (Z.to_nat (total l)) (skipn (Z.to_nat (ptr st)) (blk_data blk)).
Proof.
  induction 1 as [|[k c] l Hc Hl IH]; intros rest st Hs Hlt Hp.
  - cbn [answers flat_map app total fold_right] in *.
    destruct st as [p sz o e]; cbn [size ptr output stderr] in *. subst sz.
    exists (mk_loop_state p 0 o e).
    split; [destruct rest; reflexivity|]. cbn [size stderr output].
    cbn [Z.to_nat firstn]. rewrite app_nil_r. auto.
  - cbn [answers flat_map total fold_right fst snd] in *.
    fold (answers l) in *. fold (total l) in *.
    pose proof (total_nonneg l Hl) as Ht.
    rewrite <- !app_assoc. rewrite append_block_loop_interrupted by lia.
    cbn [app append_block_loop wr_ret wr_errno].
    replace (size st >? 0) with true by (symmetry; apply Z.gtb_lt; lia).
    replace (c <? 0) with false by (symmetry; apply Z.ltb_ge; lia).
    cbn [andb].
    replace (c =? 0) with false by (symmetry; apply Z.eqb_neq; lia).
    rewrite DumpFacts.written_by_data by exact Hp.
    set (st1 := mk_loop_state _ _ _ _).
    assert (Hs1 : size st1 = total l).
    { unfold st1. cbn [size]. rewrite Hs. replace (c + total l - c) with (total l) by lia.
      apply u64_small. lia. }
    destruct (IH rest st1) as (st' & Hrun & Hz & He & Ho);
      [exact Hs1 | lia | unfold st1; cbn [ptr]; lia |].
    exists st'. split; [exact Hrun|]. split; [exact Hz|].
    unfold st1 in He, Ho. cbn [stderr output ptr] in He, Ho.
    split; [exact He|].
    rewrite Ho, <- app_assoc. f_equal.
    symmetry. apply slice_add; lia.
Qed.

End IoFacts.
Module RetryFacts.
Import Dump IoViews IoFacts.
Import WriteRetry.

Lemma write_retry_loop_interrupted (buf : list Z) (k : nat) ws st :
  0 < size st ->
  write_retry_loop (interrupted k ++ ws) buf st = write_retry_loop ws buf st.
Proof.
  intros Hs. induction k as [|k IH]; [reflexivity|].
  cbn [interrupted repeat app write_retry_loop wr_ret wr_errno].
  replace (size st >? 0) with true by (symmetry; apply Z.gtb_lt; lia).
  cbn [Z.ltb Z.eqb Z.compare]. change (EINTR =? EINTR) with true. cbv iota.
  exact IH.
Qed.

(** A run of pieces moves the loop on by their total. *)
Lemma write_retry_loop_answers (buf : list Z) (l : list (nat * Z)) :
  pieces l ->
  forall rest st,
    total l <= size st -> size st < 2 ^ 64 -> 0 <= data_off st ->
    write_retry_loop (answers l ++ rest) buf st
    = write_retry_loop rest buf
        (mk_loop_state (data_off st + total l) (size st - total l)
           (output st ++ firstn (Z.to_nat (total l))
                                (skipn (Z.to_nat (data_off st)) buf))
           (stderr st)).
Proof.
  induction 1 as [|[k c] l Hc Hl IH]; intros rest st Hs Hlt Hp.
  - cbn [answers flat_map app total fold_right].
    rewrite Z.add_0_r, Z.sub_0_r. cbn [Z.to_nat firstn]. rewrite app_nil_r.
    destruct st; reflexivity.
  - cbn [answers flat_map total fold_right fst snd] in *.
    fold (answers l) in *. fold (total l) in *.
    pose proof (total_nonneg l Hl) as Ht.
    rewrite <- !app_assoc. rewrite write_retry_loop_interrupted by lia.
    cbn [app write_retry_loop wr_ret wr_errno].
    replace (size st >? 0) with true by (symmetry; apply Z.gtb_lt; lia).
    replace (c =? 0) with false by (symmetry; apply Z.eqb_neq; lia).
    replace (c <? 0) with false by (symmetry; apply Z.ltb_ge; lia).
    rewrite IH; cbn [size data_off output stderr];
      rewrite ?u64_small by lia; try lia.
    f_equal. f_equal; try lia.
    rewrite <- app_assoc. f_equal.
    symmetry. apply slice_add; lia.
Qed.

(** How the loop can end. *)
Lemma write_retry_loop_result (buf : list Z) (ws : list write_result) :
  forall st r st' rest,
    write_retry_loop ws buf st = Some (r, st', rest) ->
    (r = 0 /\ size st' <= 0 /\ stderr st' = stderr st) \/
    (r = -1 /\ 0 < size st' /\ exists m, stderr st' = stderr st ++ [m]).
Proof.
  induction ws as [|w ws IH]; intros st r st' rest H; cbn [write_retry_loop] in H.
  - destruct (size st >? 0) eqn:Hs; [discriminate H|]. inversion H; subst.
    left. rewrite Z.gtb_ltb in Hs. apply Z.ltb_ge in Hs. auto.
  - destruct (size st >? 0) eqn:Hs.
    + rewrite Z.gtb_ltb in Hs. apply Z.ltb_lt in Hs.
      destruct (wr_ret w =? 0).
      * inversion H; subst. right. cbn [size stderr]. eauto.
      * destruct (wr_ret w <? 0).
        -- destruct (wr_errno w =? EINTR).
           ++ exact (IH _ _ _ _ H).
           ++ inversion H; subst. right. cbn [size stderr]. eauto.
        -- apply IH in H. cbn [stderr] in H. exact H.
    + inversion H; subst.
      left. rewrite Z.gtb_ltb in Hs. apply Z.ltb_ge in Hs. auto.
Qed.

End RetryFacts.

(** X1 (append_block): when the write calls take the block piece by piece,
    with any number of calls interrupted by a signal in between, the
    function returns 0 once the pieces add up to the size of the block; the
    file has then received the first blk->size bytes of the block in order
    and nothing was printed. *)
Theorem append_block_writes_whole_block :
  forall (blk : Dump.sqfs_block_t) (l : list (nat * Z)),
    IoViews.pieces l ->
    IoViews.total l = Dump.blk_size blk ->
    Dump.blk_size blk < 2 ^ 64 ->
    exists st,
      Dump.append_block (IoViews.answers l) blk = Some (0, st, []) /\
      Dump.output st = firstn (Z.to_nat (Dump.blk_size blk)) (Dump.blk_data blk) /\
      Dump.stderr st = [].
Proof.
  intros blk l Hl Ht Hlt. unfold Dump.append_block.
  destruct (IoFacts.append_block_loop_answers blk l Hl []
              (Dump.mk_loop_state 0 (Dump.blk_size blk) [] []))
    as (st & Hrun & _ & He & Ho); cbn [Dump.size Dump.ptr]; try lia.
  rewrite app_nil_r in Hrun.
  exists st. split; [exact Hrun|]. split; [|exact He].
  rewrite Ho, Ht. reflexivity.
Qed.

(** Five bytes taken as two and three, the second call after two
    interruptions. *)
Lemma append_block_writes_whole_block_witness :
  exists st,
    Dump.append_block (IoViews.answers [(0%nat, 2); (2%nat, 3)])
                      (Dump.mk_block 5 [10; 11; 12; 13; 14] [])
    = Some (0, st, []) /\
    Dump.output st = [10; 11; 12; 13; 14] /\
    Dump.stderr st = [].
Proof.
  apply (append_block_writes_whole_block
           (Dump.mk_block 5 [10; 11; 12; 13; 14] []) [(0%nat, 2); (2%nat, 3)]).
  - repeat constructor.
  - reflexivity.
  - reflexivity.
Defined.

(** X2 (write_retry): short writes and calls interrupted by a signal are
    retried: when the pieces taken add up to [size], write_retry returns 0,
    has written the first [size] bytes of the buffer in order and has
    printed nothing. *)
Theorem write_retry_writes_everything :
  forall (buf : list Z) (sz : Z) (l : list (nat * Z)),
    IoViews.pieces l ->
    IoViews.total l = sz ->
    sz < 2 ^ 64 ->
    exists st,
      WriteRetry.write_retry (IoViews.answers l) buf sz = Some (0, st, []) /\
      WriteRetry.output st = firstn (Z.to_nat sz) buf /\
      WriteRetry.stderr st = [].
Proof.
  intros buf sz l Hl Ht Hlt. unfold WriteRetry.write_retry.
  rewrite <- (app_nil_r (IoViews.answers l)).
  rewrite RetryFacts.write_retry_loop_answers;
    cbn [WriteRetry.size WriteRetry.data_off WriteRetry.output WriteRetry.stderr];
    try lia; [|exact Hl].
  rewrite Ht, Z.sub_diag. cbn [WriteRetry.write_retry_loop WriteRetry.size Z.gtb Z.compare].
  eexists. split; [reflexivity|]. cbn. auto.
Qed.

Lemma write_retry_writes_everything_witness :
  exists st,
    WriteRetry.write_retry (IoViews.answers [(1%nat, 1); (0%nat, 3)]) [7; 8; 9; 10; 11] 4
    = Some (0, st, []) /\
    WriteRetry.output st = [7; 8; 9; 10] /\
    WriteRetry.stderr st = [].
Proof.
  apply (write_retry_writes_everything [7; 8; 9; 10; 11] 4 [(1%nat, 1); (0%nat, 3)]).
  - repeat constructor.
  - reflexivity.
  - reflexivity.
Defined.

(** X3 (write_retry): a write call that returns 0 while data is left, or
    that fails with an errno other than EINTR, ends write_retry with -1
    after one line on stderr; the bytes taken before stay written and the
    later answers are not asked for. *)
Theorem write_retry_fails_on_empty_write :
  forall (buf : list Z) (sz : Z) (l : list (nat * Z))
         (w : Dump.write_result) (rest : list Dump.write_result),
    IoViews.pieces l ->
    IoViews.total l < sz < 2 ^ 64 ->
    Dump.wr_ret w = 0 \/ (Dump.wr_ret w < 0 /\ Dump.wr_errno w <> Dump.EINTR) ->
    exists st,
      WriteRetry.write_retry (IoViews.answers l ++ w :: rest) buf sz
      = Some (-1, st, rest) /\
      WriteRetry.output st = firstn (Z.to_nat (IoViews.total l)) buf /\
      WriteRetry.size st = sz - IoViews.total l /\
      WriteRetry.stderr st
      = [if Dump.wr_ret w =? 0 then WriteRetry.write_truncated
         else WriteRetry.perror_errstr].
Proof.
  intros buf sz l w rest Hl Ht Hw. unfold WriteRetry.write_retry.
  rewrite RetryFacts.write_retry_loop_answers;
    cbn [WriteRetry.size WriteRetry.data_off WriteRetry.output WriteRetry.stderr];
    try lia; [|exact Hl].
  cbn [WriteRetry.write_retry_loop WriteRetry.size WriteRetry.data_off
       WriteRetry.output WriteRetry.stderr app].
  replace (sz - IoViews.total l >? 0) with true by (symmetry; apply Z.gtb_lt; lia).
  destruct Hw as [Hw | [Hw He]].
  - rewrite Hw. cbn [Z.eqb].
    eexists. split; [reflexivity|]. cbn. auto.
  - replace (Dump.wr_ret w =? 0) with false by (symmetry; apply Z.eqb_neq; lia).
    replace (Dump.wr_ret w <? 0) with true by (symmetry; apply Z.ltb_lt; lia).
    replace (Dump.wr_errno w =? Dump.EINTR) with false
      by (symmetry; apply Z.eqb_neq; exact He).
    eexists. split; [reflexivity|]. cbn. auto.
Qed.

Lemma write_retry_fails_on_empty_write_witness :
  exists st,
    WriteRetry.write_retry
      (IoViews.answers [(0%nat, 2)] ++ Dump.mk_write_result 0 0 :: [Dump.mk_write_result 3 0])
      [1; 2; 3; 4; 5] 5
    = Some (-1, st, [Dump.mk_write_result 3 0]) /\
    WriteRetry.output st = [1; 2] /\
    WriteRetry.size st = 3 /\
    WriteRetry.stderr st = [WriteRetry.write_truncated].
Proof.
  apply (write_retry_fails_on_empty_write [1; 2; 3; 4; 5] 5 [(0%nat, 2)]
           (Dump.mk_write_result 0 0) [Dump.mk_write_result 3 0]).
  - repeat constructor.
  - cbn. lia.
  - left. reflexivity.
Defined.

(** X4 (write_retry): whenever write_retry returns, it returns 0 with
    nothing left to write and nothing printed, or -1 with data left and
    exactly one line printed. *)
Theorem write_retry_result :
  forall (ws : list Dump.write_result) (buf : list Z) (sz : Z) r st rest,
    WriteRetry.write_retry ws buf sz = Some (r, st, rest) ->
    (r = 0 /\ WriteRetry.size st <= 0 /\ WriteRetry.stderr st = []) \/
    (r = -1 /\ 0 < WriteRetry.size st /\ exists m, WriteRetry.stderr st = [m]).
Proof.
  intros ws buf sz r st rest H.
  exact (RetryFacts.write_retry_loop_result buf ws _ _ _ _ H).
Qed.

Lemma write_retry_result_witness :
  (-1 = 0 /\ WriteRetry.size (WriteRetry.mk_loop_state 0 2 [] [WriteRetry.perror_errstr]) <= 0
   /\ WriteRetry.stderr (WriteRetry.mk_loop_state 0 2 [] [WriteRetry.perror_errstr]) = []) \/
  (-1 = -1 /\ 0 < WriteRetry.size (WriteRetry.mk_loop_state 0 2 [] [WriteRetry.perror_errstr])
   /\ exists m, WriteRetry.stderr (WriteRetry.mk_loop_state 0 2 [] [WriteRetry.perror_errstr]) = [m]).
Proof.
  apply (write_retry_result [Dump.mk_write_result (-1) 5] [1; 2] 2 (-1)
           (WriteRetry.mk_loop_state 0 2 [] [WriteRetry.perror_errstr]) []).
  reflexivity.
Defined.

(* ===================================================================== *)
(** ** More of decode_header, and is_zero_block                           *)
(* ===================================================================== *)

Module TarMore.
Import Tar TarViews TarFacts.
Import Examples Examples2.

Lemma land_mode_type (f b : Z) :
  Z.land b 0xFFF = 0 -> Z.land b S_IFMT = b ->
  Z.land (Z.lor (Z.land f 0xFFF) b) 0xFFF = Z.land f 0xFFF /\
  Z.land (Z.lor (Z.land f 0xFFF) b) S_IFMT = b.
Proof.
  intros H1 H2. rewrite !Z.land_lor_distr_l, H1, H2, Z.lor_0_r.
  rewrite <- !Z.land_assoc.
  change (Z.land 0xFFF 0xFFF) with 0xFFF.
  change (Z.land 0xFFF S_IFMT) with 0.
  rewrite Z.land_0_r. split; reflexivity.
Qed.

Section DecoderMore.
Variable read_number : list Z -> option Z.
Variable read_octal : list Z -> option Z.
Variables PAX_SIZE PAX_UID PAX_GID PAX_DEV_MAJ PAX_DEV_MIN : Z.
Variables PAX_NAME PAX_SLINK_TARGET PAX_MTIME : Z.
Variable makedev : Z -> Z -> Z.
Variables major minor : Z -> Z.
Variable SIZEOF_TIME_T : Z.

Local Abbreviation decode_numbers' :=
  (decode_numbers read_number PAX_SIZE PAX_UID PAX_GID PAX_DEV_MAJ PAX_DEV_MIN
                  makedev major minor).
Local Abbreviation decode_header' :=
  (decode_header read_number read_octal PAX_SIZE PAX_UID PAX_GID PAX_DEV_MAJ
                 PAX_DEV_MIN PAX_NAME PAX_SLINK_TARGET PAX_MTIME makedev major minor
                 SIZEOF_TIME_T).

Lemma decode_link_target_frame (hdr : tar_header_t) (set_by_pax : Z)
      (out o : tar_header_decoded_t) :
  decode_link_target PAX_SLINK_TARGET hdr set_by_pax out = Some o ->
  sb o = sb out /\ d_name o = d_name out /\ d_mtime o = d_mtime out /\
  record_size o = record_size out /\ actual_size o = actual_size out /\
  unknown_record o = unknown_record out /\
  (is_link (h_typeflag hdr) = false -> link_target o = link_target out).
Proof.
  unfold decode_link_target, is_link. cbv zeta. intros H.
  destruct (_ || _).
  - destruct (unset set_by_pax PAX_SLINK_TARGET).
    + destruct (strdup_linkname hdr); cbn [obind] in H; [|discriminate H].
      inversion H; subst o. repeat split. intros Hc; discriminate Hc.
    + inversion H; subst o. repeat split.
  - inversion H; subst o. repeat split.
Qed.

(** X5 (decode_header): the mode of the decoded entry.  For a type flag that
    the switch knows, the file type bits are those of the flag and the
    entry is not marked unknown; the permission bits are the low twelve
    bits of the octal mode field, except for a hard link or symlink, whose
    permission bits are always 0777.  For any other type flag the mode is
    the twelve permission bits alone and the entry is marked unknown. *)
Theorem decode_header_mode
        (hdr : tar_header_t) (set_by_pax : Z)
        (out out' : tar_header_decoded_t) (version : tar_version) :
  decode_header' hdr set_by_pax out version = Some out' ->
  exists field,
    read_octal (h_mode hdr) = Some field /\
    match type_bits (h_typeflag hdr) with
    | Some b =>
        Z.land (st_mode (sb out')) S_IFMT = b /\
        unknown_record out' = false /\
        Z.land (st_mode (sb out')) 0xFFF
        = (if is_link (h_typeflag hdr) then 0x1FF else Z.land field 0xFFF)
    | None =>
        st_mode (sb out') = Z.land field 0xFFF /\
        unknown_record out' = true
    end.
Proof.
  intros H. apply decode_header_inv in H.
  destruct H as (o1 & o2 & field & o3 & E1 & E2 & E3 & E4 & ->).
  exists field. split; [exact E3|].
  destruct (decode_st_mtime_frame SIZEOF_TIME_T
              (decode_type hdr (set_unknown_record o3 false)))
    as (Hm & _ & _ & Hu & _).
  rewrite Hm, Hu.
  destruct (decode_link_target_frame _ _ _ _ E4) as (Hsb & _).
  assert (Hmode : st_mode (sb (set_unknown_record o3 false)) = Z.land field 0xFFF).
  { cbn [set_unknown_record sb]. rewrite Hsb. reflexivity. }
  unfold decode_type, type_bits, is_link. cbv zeta.
  set (t := h_typeflag hdr).
  destruct ((t =? 0) || (t =? TAR_TYPE_FILE) || (t =? TAR_TYPE_GNU_SPARSE)) eqn:Ereg.
  { assert (Hl : (t =? TAR_TYPE_LINK) || (t =? TAR_TYPE_SLINK) = false).
    { apply orb_true_iff in Ereg. destruct Ereg as [Ereg|Ereg];
        [apply orb_true_iff in Ereg; destruct Ereg as [Ereg|Ereg]|];
        apply Z.eqb_eq in Ereg; rewrite Ereg; reflexivity. }
    rewrite Hl. cbn [set_st_mode set_sb sb st_mode unknown_record].
    rewrite Hmode.
    destruct (land_mode_type field S_IFREG eq_refl eq_refl) as (Ha & Hb).
    auto. }
  destruct (t =? TAR_TYPE_LINK) eqn:El.
  { cbn [orb set_st_mode set_sb sb st_mode unknown_record set_unknown_record].
    repeat split. }
  destruct (t =? TAR_TYPE_SLINK) eqn:Es.
  { cbn [orb set_st_mode set_sb sb st_mode unknown_record set_unknown_record].
    repeat split. }
  cbn [orb].
  destruct (t =? TAR_TYPE_CHARDEV).
  { cbn [set_st_mode set_sb sb st_mode unknown_record]. rewrite Hmode.
    destruct (land_mode_type field S_IFCHR eq_refl eq_refl) as (Ha & Hb). auto. }
  destruct (t =? TAR_TYPE_BLOCKDEV).
  { cbn [set_st_mode set_sb sb st_mode unknown_record]. rewrite Hmode.
    destruct (land_mode_type field S_IFBLK eq_refl eq_refl) as (Ha & Hb). auto. }
  destruct (t =? TAR_TYPE_DIR).
  { cbn [set_st_mode set_sb sb st_mode unknown_record]. rewrite Hmode.
    destruct (land_mode_type field S_IFDIR eq_refl eq_refl) as (Ha & Hb). auto. }
  destruct (t =? TAR_TYPE_FIFO).
  { cbn [set_st_mode set_sb sb st_mode unknown_record]. rewrite Hmode.
    destruct (land_mode_type field S_IFIFO eq_refl eq_refl) as (Ha & Hb). auto. }
  cbn [set_unknown_record sb unknown_record]. rewrite Hsb. auto.
Qed.


Lemma decode_name_frame (hdr : tar_header_t) (set_by_pax : Z)
      (out : tar_header_decoded_t) (version : tar_version) :
  let o := decode_name PAX_NAME hdr set_by_pax out version in
  sb o = sb out /\ link_target o = link_target out /\
  actual_size o = actual_size out /\ record_size o = record_size out /\
  unknown_record o = unknown_record out /\ d_mtime o = d_mtime out /\
  (unset set_by_pax PAX_NAME = false -> d_name o = d_name out).
Proof.
  unfold decode_name. cbv zeta.
  destruct (unset set_by_pax PAX_NAME).
  - destruct (negb _ && _); repeat split; intros Hc; discriminate Hc.
  - repeat split.
Qed.

Lemma decode_mtime_fields (hdr : tar_header_t) (set_by_pax : Z)
      (out o : tar_header_decoded_t) :
  decode_mtime read_number PAX_MTIME hdr set_by_pax out = Some o ->
  record_size o = record_size out /\ actual_size o = actual_size out /\
  (unset set_by_pax PAX_MTIME = false -> d_mtime o = d_mtime out).
Proof.
  unfold decode_mtime. intros H.
  destruct (unset set_by_pax PAX_MTIME); [|inversion H; auto].
  destruct (read_number (h_mtime hdr)); cbn [obind] in H; [|discriminate H].
  destruct (negb _); inversion H; repeat split; intros Hc; discriminate Hc.
Qed.

Lemma decode_type_fields (hdr : tar_header_t) (o : tar_header_decoded_t) :
  let o' := decode_type hdr o in
  st_uid (sb o') = st_uid (sb o) /\ st_gid (sb o') = st_gid (sb o) /\
  st_rdev (sb o') = st_rdev (sb o) /\ st_size (sb o') = st_size (sb o) /\
  record_size o' = record_size o /\ actual_size o' = actual_size o.
Proof.
  unfold decode_type. cbv zeta.
  repeat match goal with
         | |- context [if ?b then _ else _] => destruct b
         end; repeat split.
Qed.

Lemma decode_st_mtime_fields (o : tar_header_decoded_t) :
  let o' := decode_st_mtime SIZEOF_TIME_T o in
  st_uid (sb o') = st_uid (sb o) /\ st_gid (sb o') = st_gid (sb o) /\
  st_rdev (sb o') = st_rdev (sb o) /\ st_size (sb o') = st_size (sb o) /\
  record_size o' = record_size o /\ actual_size o' = actual_size o.
Proof.
  unfold decode_st_mtime. cbv zeta.
  repeat match goal with
         | |- context [if ?b then _ else _] => destruct b
         end; repeat split.
Qed.

(** The name that decode_name takes from the header block. *)
Lemma decode_name_value (hdr : tar_header_t) (set_by_pax : Z)
      (out : tar_header_decoded_t) (version : tar_version) :
  unset set_by_pax PAX_NAME = true ->
  d_name (decode_name PAX_NAME hdr set_by_pax out version)
  = Some (if negb (nth 0 (posix_prefix hdr) 0 =? 0) && is_posix version
          then firstn (strnlen (posix_prefix hdr) 155) (posix_prefix hdr)
               ++ [47] ++ firstn (strnlen (h_name hdr) 100) (h_name hdr)
          else strndup (h_name hdr) 100).
Proof.
  intros Hp. unfold decode_name. cbv zeta. rewrite Hp.
  destruct (negb _ && _); reflexivity.
Qed.

(** The mtime that decode_mtime takes from the header block. *)
Lemma decode_mtime_value (hdr : tar_header_t) (set_by_pax : Z)
      (out o : tar_header_decoded_t) :
  decode_mtime read_number PAX_MTIME hdr set_by_pax out = Some o ->
  unset set_by_pax PAX_MTIME = true ->
  exists f,
    read_number (h_mtime hdr) = Some f /\
    d_mtime o = if negb (Z.land f 0x8000000000000000 =? 0)
                then s64 (- s64 (u64 (u64 (Z.lnot f) + 1)))
                else s64 f.
Proof.
  unfold decode_mtime. intros H Hp. rewrite Hp in H.
  destruct (read_number (h_mtime hdr)) as [f|]; cbn [obind] in H; [|discriminate H].
  exists f. split; [reflexivity|].
  destruct (negb _); cbv zeta in H; inversion H; reflexivity.
Qed.

(** What the numeric fields are after decode_numbers.  The device number
    is put together in two steps: the major number first, with the minor
    number of the value on entry, then the minor number, with the major
    number of what the first step has left. *)
Lemma decode_numbers_fields (hdr : tar_header_t) (set_by_pax : Z)
      (out o : tar_header_decoded_t) :
  decode_numbers' hdr set_by_pax out = Some o ->
  (if unset set_by_pax PAX_SIZE
   then read_number (h_size hdr) = Some (record_size o)
   else record_size o = record_size out) /\
  (if unset set_by_pax PAX_UID
   then exists f, read_number (h_uid hdr) = Some f /\ st_uid (sb o) = u32 f
   else st_uid (sb o) = st_uid (sb out)) /\
  (if unset set_by_pax PAX_GID
   then exists f, read_number (h_gid hdr) = Some f /\ st_gid (sb o) = u32 f
   else st_gid (sb o) = st_gid (sb out)) /\
  (if unset set_by_pax PAX_DEV_MAJ
   then exists fa,
          read_number (h_devmajor hdr) = Some fa /\
          if unset set_by_pax PAX_DEV_MIN
          then exists fi,
                 read_number (h_devminor hdr) = Some fi /\
                 st_rdev (sb o)
                 = makedev (major (makedev fa (minor (st_rdev (sb out))))) fi
          else st_rdev (sb o) = makedev fa (minor (st_rdev (sb out)))
   else if unset set_by_pax PAX_DEV_MIN
        then exists fi,
               read_number (h_devminor hdr) = Some fi /\
               st_rdev (sb o) = makedev (major (st_rdev (sb out))) fi
        else st_rdev (sb o) = st_rdev (sb out)) /\
  actual_size o = actual_size out /\ st_size (sb o) = st_size (sb out).
Proof.
  unfold decode_numbers. intros H.
  destruct (unset set_by_pax PAX_SIZE);
    [destruct (read_number (h_size hdr)); [|discriminate H]|];
    cbn [obind] in H;
    (destruct (unset set_by_pax PAX_UID);
     [destruct (read_number (h_uid hdr)); [|discriminate H]|]);
    cbn [obind] in H;
    (destruct (unset set_by_pax PAX_GID);
     [destruct (read_number (h_gid hdr)); [|discriminate H]|]);
    cbn [obind] in H;
    (destruct (unset set_by_pax PAX_DEV_MAJ);
     [destruct (read_number (h_devmajor hdr)); [|discriminate H]|]);
    cbn [obind] in H;
    (destruct (unset set_by_pax PAX_DEV_MIN);
     [destruct (read_number (h_devminor hdr)); [|discriminate H]|]);
    cbn [obind] in H;
    inversion H; subst o; clear H;
    cbn [set_record_size set_st_uid set_st_gid set_st_rdev set_sb sb record_size
         st_uid st_gid st_rdev st_size actual_size];
    repeat split;
    repeat (eexists; split; [reflexivity|]); reflexivity.
Qed.

(** X6 (decode_header): every numeric field, the name and the mtime come
    from the header block exactly when the pax flag of the field is clear;
    a field whose flag is set keeps the value it had on entry.  The size is
    the parsed number, the uid and the gid are the parsed numbers cut to
    32 bits.  The device number is made of the parsed major and minor
    numbers, and where only one of the two comes from the header, of the
    other half of the device number on entry.  The name is the name field
    up to its first NUL or its 100th byte, behind the prefix field and a
    slash for a POSIX header with a prefix.  The mtime is the parsed number
    read as a two's complement 64-bit number.  actual_size and st_size are
    never touched. *)
Theorem decode_header_pax_fields_kept
        (hdr : tar_header_t) (set_by_pax : Z)
        (out out' : tar_header_decoded_t) (version : tar_version) :
  decode_header' hdr set_by_pax out version = Some out' ->
  (if unset set_by_pax PAX_SIZE
   then read_number (h_size hdr) = Some (record_size out')
   else record_size out' = record_size out) /\
  (if unset set_by_pax PAX_UID
   then exists f, read_number (h_uid hdr) = Some f /\ st_uid (sb out') = u32 f
   else st_uid (sb out') = st_uid (sb out)) /\
  (if unset set_by_pax PAX_GID
   then exists f, read_number (h_gid hdr) = Some f /\ st_gid (sb out') = u32 f
   else st_gid (sb out') = st_gid (sb out)) /\
  (if unset set_by_pax PAX_DEV_MAJ
   then exists fa,
          read_number (h_devmajor hdr) = Some fa /\
          if unset set_by_pax PAX_DEV_MIN
          then exists fi,
                 read_number (h_devminor hdr) = Some fi /\
                 st_rdev (sb out')
                 = makedev (major (makedev fa (minor (st_rdev (sb out))))) fi
          else st_rdev (sb out') = makedev fa (minor (st_rdev (sb out)))
   else if unset set_by_pax PAX_DEV_MIN
        then exists fi,
               read_number (h_devminor hdr) = Some fi /\
               st_rdev (sb out') = makedev (major (st_rdev (sb out))) fi
        else st_rdev (sb out') = st_rdev (sb out)) /\
  (if unset set_by_pax PAX_NAME
   then d_name out'
        = Some (if negb (nth 0 (posix_prefix hdr) 0 =? 0) && is_posix version
                then firstn (strnlen (posix_prefix hdr) 155) (posix_prefix hdr)
                     ++ [47] ++ firstn (strnlen (h_name hdr) 100) (h_name hdr)
                else strndup (h_name hdr) 100)
   else d_name out' = d_name out) /\
  (if unset set_by_pax PAX_MTIME
   then exists f,
          read_number (h_mtime hdr) = Some f /\
          d_mtime out' = if negb (Z.land f 0x8000000000000000 =? 0)
                         then s64 (- s64 (u64 (u64 (Z.lnot f) + 1)))
                         else s64 f
   else d_mtime out' = d_mtime out) /\
  actual_size out' = actual_size out /\
  st_size (sb out') = st_size (sb out).
Proof.
  intros H. apply decode_header_inv in H.
  destruct H as (o1 & o2 & field & o3 & E1 & E2 & E3 & E4 & ->).
  destruct (decode_st_mtime_fields (decode_type hdr (set_unknown_record o3 false)))
    as (Hu & Hg & Hr & Hs & Hrs & Has).
  destruct (decode_st_mtime_frame SIZEOF_TIME_T
              (decode_type hdr (set_unknown_record o3 false)))
    as (_ & _ & Hn & _ & Hmt).
  destruct (decode_type_fields hdr (set_unknown_record o3 false))
    as (Hu1 & Hg1 & Hr1 & Hs1 & Hrs1 & Has1).
  destruct (decode_type_frame hdr (set_unknown_record o3 false))
    as (_ & Hn1 & Hmt1).
  cbv zeta in *.
  rewrite Hu, Hg, Hr, Hs, Hrs, Has, Hn, Hmt, Hu1, Hg1, Hr1, Hs1, Hrs1, Has1, Hn1, Hmt1.
  clear Hu Hg Hr Hs Hrs Has Hn Hmt Hu1 Hg1 Hr1 Hs1 Hrs1 Has1 Hn1 Hmt1.
  cbn [set_unknown_record sb record_size actual_size d_name d_mtime].
  destruct (decode_link_target_frame _ _ _ _ E4)
    as (Hsb3 & Hn3 & Hmt3 & Hrs3 & Has3 & _).
  rewrite Hsb3, Hn3, Hmt3, Hrs3, Has3.
  cbn [set_st_mode set_sb sb st_uid st_gid st_rdev st_size record_size actual_size
       d_name d_mtime].
  destruct (decode_mtime_frame _ _ _ _ _ _ E2) as (_ & Hn2 & Hsb2 & _).
  destruct (decode_mtime_fields _ _ _ _ E2) as (Hrs2 & Has2 & Hmt2).
  rewrite Hsb2, Hn2, Hrs2, Has2.
  destruct (decode_numbers_frame _ _ _ _ _ _ _ _ _ _ _ _ _ E1) as (_ & Hn1 & Hmt1 & _).
  destruct (decode_numbers_fields _ _ _ _ E1) as (F1 & F2 & F3 & F4 & F5 & F6).
  destruct (decode_name_frame hdr set_by_pax out version)
    as (Hsb0 & _ & Has0 & Hrs0 & _ & Hmt0 & Hn0).
  cbv zeta in *.
  rewrite Hsb0, Hrs0, Has0 in *.
  split; [exact F1|]. split; [exact F2|]. split; [exact F3|]. split; [exact F4|].
  split.
  { rewrite Hn1. destruct (unset set_by_pax PAX_NAME) eqn:Pn.
    - apply decode_name_value. exact Pn.
    - exact (Hn0 eq_refl). }
  split.
  { destruct (unset set_by_pax PAX_MTIME) eqn:Pm.
    - exact (decode_mtime_value _ _ _ _ E2 Pm).
    - rewrite (Hmt2 eq_refl), Hmt1. exact Hmt0. }
  split; [exact F5|exact F6].
Qed.



End DecoderMore.

(** The directory header "p/d" with mode 0755. *)
Lemma decode_header_mode_witness :
  exists out',
    decode_header0 dir_header 0 decoded0 ETV_POSIX = Some out' /\
    Z.land (st_mode (sb out')) S_IFMT = S_IFDIR /\
    unknown_record out' = false /\
    Z.land (st_mode (sb out')) 0xFFF = 0x1ED.
Proof.
  assert (Hs : is_some (decode_header0 dir_header 0 decoded0 ETV_POSIX) = true)
    by (vm_compute; reflexivity).
  destruct (decode_header0 dir_header 0 decoded0 ETV_POSIX) as [out'|] eqn:E;
    [|discriminate Hs].
  exists out'. split; [reflexivity|].
  unfold decode_header0 in E. apply decode_header_mode in E.
  destruct E as (f & Ef & Hm).
  assert (Hf : f = 0x1ED) by (vm_compute in Ef; inversion Ef; reflexivity).
  subst f.
  change (type_bits (h_typeflag dir_header)) with (Some S_IFDIR) in Hm.
  change (is_link (h_typeflag dir_header)) with false in Hm.
  exact Hm.
Defined.

(** A device behind a pax record that has set uid and name: these two are
    kept, the gid, both device numbers, the mtime and the size are those of
    the header block. *)
Lemma decode_header_pax_fields_kept_witness :
  exists out',
    decode_header0 dev_header 34 decoded_pax_dev ETV_POSIX = Some out' /\
    st_uid (sb out') = 1000 /\
    d_name out' = Some [110] /\
    st_gid (sb out') = 5 /\
    st_rdev (sb out') = 4 * 256 + 64 /\
    d_mtime out' = 1000 /\
    read_octal_digits (h_size dev_header) = Some (record_size out').
Proof.
  assert (Hs : is_some (decode_header0 dev_header 34 decoded_pax_dev ETV_POSIX) = true)
    by (vm_compute; reflexivity).
  destruct (decode_header0 dev_header 34 decoded_pax_dev ETV_POSIX) as [out'|] eqn:E;
    [|discriminate Hs].
  exists out'. split; [reflexivity|].
  unfold decode_header0 in E. apply decode_header_pax_fields_kept in E.
  destruct E as (F1 & F2 & F3 & F4 & F5 & F6 & _).
  change (unset 34 1) with true in F1.
  change (unset 34 2) with false in F2.
  change (unset 34 4) with true in F3.
  change (unset 34 8) with true in F4.
  change (unset 34 16) with true in F4.
  change (unset 34 32) with false in F5.
  change (unset 34 128) with true in F6.
  destruct F3 as (fg & Eg & Hg).
  destruct F4 as (fa & Ea & fi & Ei & Hr).
  destruct F6 as (ft & Et & Ht).
  vm_compute in Eg, Ea, Ei, Et.
  inversion Eg; subst fg. inversion Ea; subst fa. inversion Ei; subst fi.
  inversion Et; subst ft.
  split; [exact F2|]. split; [exact F5|].
  split; [rewrite Hg; reflexivity|].
  split; [rewrite Hr; reflexivity|].
  split; [rewrite Ht; reflexivity|exact F1].
Defined.


End TarMore.

Module TarNames.
Import Tar TarViews TarFacts TarMore.
Import Examples Examples2.

Lemma until_nul_prefix (s : list Z) :
  firstn (length (until_nul s)) s = until_nul s.
Proof.
  induction s as [|c s IH]; [reflexivity|].
  cbn [until_nul]. destruct (c =? 0); [reflexivity|].
  cbn [length firstn]. now rewrite IH.
Qed.

Lemma until_nul_length (s : list Z) : (length (until_nul s) <= length s)%nat.
Proof.
  induction s as [|c s IH]; [apply Nat.le_refl|].
  cbn [until_nul]. destruct (c =? 0); cbn [length]; lia.
Qed.

Lemma until_nul_no_nul (s : list Z) : ~ In 0 (until_nul s).
Proof.
  induction s as [|c s IH]; [intros []|].
  cbn [until_nul]. destruct (c =? 0) eqn:E; [intros []|].
  intros [Hc|Hin]; [subst c; discriminate E|exact (IH Hin)].
Qed.

(** memcpy of the first strnlen bytes of a field is strndup of the field. *)
Lemma firstn_strnlen (s : list Z) (n : nat) :
  firstn (strnlen s n) s = strndup s n.
Proof.
  unfold strnlen, strndup.
  rewrite <- (until_nul_prefix (firstn n s)) at 2.
  rewrite firstn_firstn. f_equal.
  pose proof (until_nul_length (firstn n s)) as H.
  pose proof (firstn_le_length n s) as H'.
  rewrite Nat.min_l; [reflexivity|].
  destruct (Nat.le_gt_cases (length (until_nul (firstn n s))) n) as [Hle|Hgt];
    [exact Hle|].
  rewrite length_firstn in H. lia.
Qed.

Lemma strndup_length (s : list Z) (n : nat) : (length (strndup s n) <= n)%nat.
Proof.
  unfold strndup. pose proof (until_nul_length (firstn n s)) as H.
  rewrite length_firstn in H. lia.
Qed.

Section NameFacts.
Variable read_number : list Z -> option Z.
Variable read_octal : list Z -> option Z.
Variables PAX_SIZE PAX_UID PAX_GID PAX_DEV_MAJ PAX_DEV_MIN : Z.
Variables PAX_NAME PAX_SLINK_TARGET PAX_MTIME : Z.
Variable makedev : Z -> Z -> Z.
Variables major minor : Z -> Z.
Variable SIZEOF_TIME_T : Z.

Local Abbreviation decode_header' :=
  (decode_header read_number read_octal PAX_SIZE PAX_UID PAX_GID PAX_DEV_MAJ
                 PAX_DEV_MIN PAX_NAME PAX_SLINK_TARGET PAX_MTIME makedev major minor
                 SIZEOF_TIME_T).

(** decode_header leaves the name that decode_name has set. *)
Lemma decode_header_name (hdr : tar_header_t) (set_by_pax : Z)
      (out out' : tar_header_decoded_t) (version : tar_version) :
  decode_header' hdr set_by_pax out version = Some out' ->
  d_name out' = d_name (decode_name PAX_NAME hdr set_by_pax out version).
Proof.
  intros H. apply decode_header_inv in H.
  destruct H as (o1 & o2 & field & o3 & E1 & E2 & E3 & E4 & ->).
  destruct (decode_st_mtime_frame SIZEOF_TIME_T
              (decode_type hdr (set_unknown_record o3 false)))
    as (_ & _ & Hn & _ & _).
  destruct (decode_type_frame hdr (set_unknown_record o3 false)) as (_ & Hn1 & _).
  rewrite Hn, Hn1. cbn [set_unknown_record d_name].
  destruct (decode_link_target_frame _ _ _ _ _ E4) as (_ & Hn3 & _).
  rewrite Hn3. cbn [set_st_mode set_sb d_name].
  destruct (decode_mtime_frame _ _ _ _ _ _ E2) as (_ & Hn2 & _).
  destruct (decode_numbers_frame _ _ _ _ _ _ _ _ _ _ _ _ _ E1) as (_ & Hn0 & _).
  congruence.
Qed.

(** X8 (decode_header): the file name when no pax record has set it.  For a
    POSIX header with a non-empty prefix it is the prefix field, a slash
    and the name field; otherwise the name field alone.  Either field ends
    at its first NUL or at the end of the field, so a name field that is
    filled to its last byte gives all its 100 bytes and nothing of the
    fields behind it.  The name holds no NUL byte and at most 256 bytes. *)
Theorem decode_header_name_from_fields
        (hdr : tar_header_t) (set_by_pax : Z)
        (out out' : tar_header_decoded_t) (version : tar_version) :
  unset set_by_pax PAX_NAME = true ->
  decode_header' hdr set_by_pax out version = Some out' ->
  exists n,
    d_name out' = Some n /\
    n = (if negb (nth 0 (posix_prefix hdr) 0 =? 0) && is_posix version
         then strndup (posix_prefix hdr) 155 ++ [47] ++ strndup (h_name hdr) 100
         else strndup (h_name hdr) 100) /\
    ~ In 0 n /\
    (length n <= 256)%nat /\
    (length (h_name hdr) = 100%nat -> ~ In 0 (h_name hdr) ->
     strndup (h_name hdr) 100 = h_name hdr).
Proof.
  intros Hp H. apply decode_header_name in H. rewrite H. clear H.
  unfold decode_name. rewrite Hp.
  pose proof (strndup_length (h_name hdr) 100) as L1.
  pose proof (strndup_length (posix_prefix hdr) 155) as L2.
  assert (Hfull : length (h_name hdr) = 100%nat -> ~ In 0 (h_name hdr) ->
                  strndup (h_name hdr) 100 = h_name hdr).
  { intros Hl Hn. unfold strndup. rewrite <- Hl, firstn_all.
    rewrite <- (app_nil_r (h_name hdr)) at 2.
    clear Hl L1. induction (h_name hdr) as [|c s IH]; [reflexivity|].
    cbn [until_nul app]. destruct (c =? 0) eqn:E.
    - apply Z.eqb_eq in E. subst c. exfalso. apply Hn. now left.
    - f_equal. apply IH. intros Hin. apply Hn. now right. }
  destruct (negb _ && _).
  - cbv zeta. cbn [set_name d_name]. rewrite !firstn_strnlen.
    eexists. split; [reflexivity|]. split; [reflexivity|].
    split; [|split; [|exact Hfull]].
    + intros Hin. apply in_app_or in Hin. destruct Hin as [Hin|Hin].
      * exact (until_nul_no_nul _ Hin).
      * cbn [app] in Hin. destruct Hin as [Hc|Hin]; [discriminate Hc|].
        exact (until_nul_no_nul _ Hin).
    + rewrite length_app. cbn [app length]. lia.
  - cbn [set_name d_name].
    eexists. split; [reflexivity|]. split; [reflexivity|].
    split; [exact (until_nul_no_nul _)|]. split; [lia|exact Hfull].
Qed.

End NameFacts.

(** Prefix "p" and name "d" give "p/d". *)
Lemma decode_header_name_from_fields_witness :
  exists out',
    decode_header0 dir_header 0 decoded0 ETV_POSIX = Some out' /\
    d_name out' = Some [112; 47; 100].
Proof.
  assert (Hs : is_some (decode_header0 dir_header 0 decoded0 ETV_POSIX) = true)
    by (vm_compute; reflexivity).
  destruct (decode_header0 dir_header 0 decoded0 ETV_POSIX) as [out'|] eqn:E;
    [|discriminate Hs].
  exists out'. split; [reflexivity|].
  unfold decode_header0 in E.
  apply decode_header_name_from_fields in E; [|reflexivity].
  destruct E as (n & Hn & Hv & _).
  rewrite Hn, Hv. reflexivity.
Defined.

End TarNames.

Module TarTime.
Import Tar TarViews TarFacts TarMore.
Import Examples Examples2.

(** Bit 63 of a 64-bit number. *)
Lemma land_sign_bit (f : Z) :
  0 <= f < 2 ^ 64 ->
  (Z.land f 0x8000000000000000 =? 0) = (f <? 2 ^ 63).
Proof.
  intros Hf.
  assert (Hb : Z.land f (2 ^ 63) = if Z.testbit f 63 then 2 ^ 63 else 0).
  { apply Z.bits_inj'. intros n Hn.
    rewrite Z.land_spec, Z.pow2_bits_eqb by lia.
    destruct (Z.eqb_spec 63 n) as [<-|Hne].
    - rewrite andb_true_r. destruct (Z.testbit f 63).
      + symmetry. apply Z.pow2_bits_true. lia.
      + symmetry. apply Z.bits_0.
    - rewrite andb_false_r. destruct (Z.testbit f 63).
      + symmetry. apply Z.pow2_bits_false. lia.
      + symmetry. apply Z.bits_0. }
  change 0x8000000000000000 with (2 ^ 63). rewrite Hb.
  rewrite Z.testbit_eqb by lia.
  destruct (Z.ltb_spec f (2 ^ 63)) as [Hlt|Hge].
  - rewrite Z.div_small by lia. reflexivity.
  - assert (Hq : f / 2 ^ 63 = 1).
    { symmetry. apply (Z.div_unique f (2 ^ 63) 1 (f - 2 ^ 63)); lia. }
    rewrite Hq. reflexivity.
Qed.

(** Negating twice, as the code does for a field with bit 63 set, gives the
    two's complement reading of the field. *)
Lemma mtime_negated (f : Z) :
  2 ^ 63 <= f < 2 ^ 64 ->
  s64 (- s64 (u64 (u64 (Z.lnot f) + 1))) = f - 2 ^ 64.
Proof.
  intros Hf.
  assert (H1 : u64 (u64 (Z.lnot f) + 1) = 2 ^ 64 - f).
  { unfold u64. rewrite Z.add_mod_idemp_l by lia.
    unfold Z.lnot. replace (Z.pred (- f) + 1) with (- f) by lia.
    symmetry. apply (Z.mod_unique (- f) (2 ^ 64) (-1) (2 ^ 64 - f)); lia. }
  rewrite H1. unfold s64.
  rewrite (u64_small (2 ^ 64 - f)) by lia.
  destruct (Z.ltb_spec (2 ^ 64 - f) (2 ^ 63)) as [Hlt|Hge].
  - assert (H2 : u64 (- (2 ^ 64 - f)) = f).
    { unfold u64. symmetry.
      apply (Z.mod_unique (- (2 ^ 64 - f)) (2 ^ 64) (-1) f); lia. }
    rewrite H2.
    destruct (Z.ltb_spec f (2 ^ 63)); lia.
  - assert (Hf' : f = 2 ^ 63) by lia. subst f.
    reflexivity.
Qed.

Section TimeFacts.
Variable read_number : list Z -> option Z.
Variable read_octal : list Z -> option Z.
Variables PAX_SIZE PAX_UID PAX_GID PAX_DEV_MAJ PAX_DEV_MIN : Z.
Variables PAX_NAME PAX_SLINK_TARGET PAX_MTIME : Z.
Variable makedev : Z -> Z -> Z.
Variables major minor : Z -> Z.
Variable SIZEOF_TIME_T : Z.

Local Abbreviation decode_header' :=
  (decode_header read_number read_octal PAX_SIZE PAX_UID PAX_GID PAX_DEV_MAJ
                 PAX_DEV_MIN PAX_NAME PAX_SLINK_TARGET PAX_MTIME makedev major minor
                 SIZEOF_TIME_T).

(** decode_header leaves the mtime that decode_mtime has set, and derives
    st_mtime from it. *)
Lemma decode_header_mtime_steps (hdr : tar_header_t) (set_by_pax : Z)
      (out out' : tar_header_decoded_t) (version : tar_version) :
  decode_header' hdr set_by_pax out version = Some out' ->
  exists o1 o2,
    d_mtime o1 = d_mtime out /\
    decode_mtime read_number PAX_MTIME hdr set_by_pax o1 = Some o2 /\
    d_mtime out' = d_mtime o2 /\
    st_mtime (sb out')
    = (if SIZEOF_TIME_T <? 8
       then if d_mtime o2 >? INT32_MAX then INT32_MAX
            else if d_mtime o2 <? INT32_MIN then INT32_MIN
            else d_mtime o2
       else d_mtime o2).
Proof.
  intros H. apply decode_header_inv in H.
  destruct H as (o1 & o2 & field & o3 & E1 & E2 & E3 & E4 & ->).
  exists o1, o2.
  destruct (decode_numbers_frame _ _ _ _ _ _ _ _ _ _ _ _ _ E1) as (_ & _ & Hm1 & _).
  destruct (decode_name_frame PAX_NAME hdr set_by_pax out version)
    as (_ & _ & _ & _ & _ & Hm0 & _).
  cbv zeta in Hm0.
  split; [congruence|]. split; [exact E2|].
  destruct (decode_link_target_frame _ _ _ _ _ E4) as (_ & _ & Hm3 & _).
  cbn [set_st_mode set_sb d_mtime] in Hm3.
  destruct (decode_type_frame hdr (set_unknown_record o3 false)) as (_ & _ & Hm4).
  cbn [set_unknown_record d_mtime] in Hm4.
  set (o4 := decode_type hdr (set_unknown_record o3 false)) in *.
  assert (Hm : d_mtime o4 = d_mtime o2) by congruence.
  unfold decode_st_mtime. rewrite Hm.
  destruct (SIZEOF_TIME_T <? 8); [|split; [exact Hm|reflexivity]].
  destruct (d_mtime o2 >? INT32_MAX); [split; [exact Hm|reflexivity]|].
  destruct (d_mtime o2 <? INT32_MIN); split; solve [exact Hm|reflexivity].
Qed.

(** X9 (decode_header): when no pax record has set it, the mtime is the
    64-bit number of the header field read as a two's complement value: a
    field with bit 63 set is a time before the epoch. *)
Theorem decode_header_mtime_signed
        (hdr : tar_header_t) (set_by_pax : Z)
        (out out' : tar_header_decoded_t) (version : tar_version) :
  unset set_by_pax PAX_MTIME = true ->
  decode_header' hdr set_by_pax out version = Some out' ->
  exists field,
    read_number (h_mtime hdr) = Some field /\
    (0 <= field < 2 ^ 64 ->
     d_mtime out' = (if field <? 2 ^ 63 then field else field - 2 ^ 64) /\
     - 2 ^ 63 <= d_mtime out' < 2 ^ 63).
Proof.
  intros Hp H. apply decode_header_mtime_steps in H.
  destruct H as (o1 & o2 & _ & E2 & Hm & _).
  unfold decode_mtime in E2. rewrite Hp in E2.
  destruct (read_number (h_mtime hdr)) as [field|]; cbn [obind] in E2;
    [|discriminate E2].
  exists field. split; [reflexivity|]. intros Hf.
  rewrite Hm. rewrite land_sign_bit in E2 by exact Hf.
  destruct (Z.ltb_spec field (2 ^ 63)) as [Hlt|Hge]; cbn [negb] in E2;
    inversion E2; subst o2; cbn [set_mtime d_mtime].
  - unfold s64. rewrite u64_small by lia.
    destruct (Z.ltb_spec field (2 ^ 63)); lia.
  - rewrite mtime_negated by lia. lia.
Qed.

(** X10 (decode_header): st_mtime is the mtime of the entry, whether it
    comes from the header or from a pax record; when time_t has less than
    8 bytes it is cut to the range of a 32-bit signed number. *)
Theorem decode_header_st_mtime_clamped
        (hdr : tar_header_t) (set_by_pax : Z)
        (out out' : tar_header_decoded_t) (version : tar_version) :
  decode_header' hdr set_by_pax out version = Some out' ->
  (SIZEOF_TIME_T < 8 ->
   st_mtime (sb out') = Z.max INT32_MIN (Z.min INT32_MAX (d_mtime out'))) /\
  (8 <= SIZEOF_TIME_T -> st_mtime (sb out') = d_mtime out') /\
  (unset set_by_pax PAX_MTIME = false -> d_mtime out' = d_mtime out).
Proof.
  intros H. apply decode_header_mtime_steps in H.
  destruct H as (o1 & o2 & Hm1 & E2 & Hm & Hst).
  rewrite Hst, Hm. split; [|split].
  - intros Hs. replace (SIZEOF_TIME_T <? 8) with true
      by (symmetry; apply Z.ltb_lt; exact Hs).
    unfold INT32_MAX, INT32_MIN.
    destruct (Z.gtb_spec (d_mtime o2) 2147483647);
      [|destruct (Z.ltb_spec (d_mtime o2) (-2147483648))]; lia.
  - intros Hs. replace (SIZEOF_TIME_T <? 8) with false
      by (symmetry; apply Z.ltb_ge; exact Hs).
    reflexivity.
  - intros Hp. destruct (decode_mtime_fields _ _ _ _ _ _ E2) as (_ & _ & Hk).
    rewrite (Hk Hp). exact Hm1.
Qed.

End TimeFacts.

(** An mtime field of 2^64 - 1 is one second before the epoch. *)
Lemma decode_header_mtime_signed_witness :
  exists out',
    decode_header64 old_file_header 0 decoded0 ETV_POSIX = Some out' /\
    d_mtime out' = -1.
Proof.
  assert (Hs : is_some (decode_header64 old_file_header 0 decoded0 ETV_POSIX) = true)
    by (vm_compute; reflexivity).
  destruct (decode_header64 old_file_header 0 decoded0 ETV_POSIX) as [out'|] eqn:E;
    [|discriminate Hs].
  exists out'. split; [reflexivity|].
  unfold decode_header64 in E.
  apply decode_header_mtime_signed in E; [|reflexivity].
  destruct E as (f & Ef & Hm).
  assert (Hf : f = 2 ^ 64 - 1) by (vm_compute in Ef; inversion Ef; reflexivity).
  subst f.
  exact (proj1 (Hm ltac:(lia))).
Defined.

(** A pax mtime of 2^40 with a time_t of 4 bytes. *)
Lemma decode_header_st_mtime_clamped_witness :
  exists out',
    decode_header32 old_file_header 128
      (mk_decoded (mk_stat 0 0 0 0 0 0) None None 0 0 false (2 ^ 40)) ETV_POSIX
    = Some out' /\
    st_mtime (sb out') = INT32_MAX.
Proof.
  set (d := mk_decoded (mk_stat 0 0 0 0 0 0) None None 0 0 false (2 ^ 40)).
  assert (Hs : is_some (decode_header32 old_file_header 128 d ETV_POSIX) = true)
    by (vm_compute; reflexivity).
  destruct (decode_header32 old_file_header 128 d ETV_POSIX) as [out'|] eqn:E;
    [|discriminate Hs].
  exists out'. split; [reflexivity|].
  unfold decode_header32 in E.
  apply decode_header_st_mtime_clamped in E.
  destruct E as (H32 & _ & Hk).
  rewrite (H32 ltac:(lia)), (Hk eq_refl). reflexivity.
Defined.

End TarTime.

Module TarZero.
Import Tar.

Lemma memcmp_eq_shifted (n : nat) :
  forall (x : Z) (l : list Z),
    length l = n ->
    memcmp_eq (x :: l) l n = true <-> Forall (fun c => c = x) l.
Proof.
  induction n as [|n IH]; intros x l Hl.
  - destruct l; [|discriminate Hl]. cbn. split; [constructor|reflexivity].
  - destruct l as [|y l]; [discriminate Hl|].
    cbn [memcmp_eq]. rewrite andb_true_iff, Z.eqb_eq.
    rewrite (IH y l) by (inversion Hl; reflexivity).
    split.
    + intros [-> H]. constructor; [reflexivity|exact H].
    + intros H. inversion H as [|? ? -> H']. split; [reflexivity|exact H'].
Qed.

(** X11 (is_zero_block): a header block of 512 bytes is taken for a zero
    block exactly when every byte of it is NUL. *)
Theorem is_zero_block_iff_all_zero :
  forall ptr : list Z,
    length ptr = sizeof_header ->
    is_zero_block ptr = true <-> Forall (fun c => c = 0) ptr.
Proof.
  intros ptr Hl. destruct ptr as [|c rest]; [discriminate Hl|].
  unfold is_zero_block. rewrite andb_true_iff, Z.eqb_eq.
  change (sizeof_header - 1)%nat with 511%nat.
  assert (Hr : length rest = 511%nat) by (inversion Hl; reflexivity).
  rewrite (memcmp_eq_shifted 511 c rest Hr).
  split.
  - intros [-> H]. constructor; [reflexivity|exact H].
  - intros H. inversion H as [|? ? -> H']. split; [reflexivity|exact H'].
Qed.

Lemma is_zero_block_iff_all_zero_witness :
  is_zero_block (repeat 0 511 ++ [1]) = false /\
  is_zero_block (repeat 0 512) = true.
Proof.
  split.
  - destruct (is_zero_block (repeat 0 511 ++ [1])) eqn:E; [|reflexivity].
    apply (proj1 (is_zero_block_iff_all_zero (repeat 0 511 ++ [1]) eq_refl)) in E.
    apply Forall_app in E. destruct E as (_ & E).
    inversion E as [|? ? Hc _]. discriminate Hc.
  - apply (proj2 (is_zero_block_iff_all_zero (repeat 0 512) eq_refl)).
    apply Forall_forall. intros c Hc. apply repeat_spec in Hc. exact Hc.
Defined.

End TarZero.
Module TarVersion.
Import Tar TarViews TarFacts TarMore TarNames.
Import Examples Examples2.

(** memcmp over [n] bytes that both arrays have. *)
Lemma memcmp_eq_firstn (n : nat) :
  forall a b,
    (n <= length a)%nat -> (n <= length b)%nat ->
    memcmp_eq a b n = true <-> firstn n a = firstn n b.
Proof.
  induction n as [|n IH]; intros a b Ha Hb.
  - cbn. split; reflexivity.
  - destruct a as [|x a]; [cbn in Ha; lia|]. destruct b as [|y b]; [cbn in Hb; lia|].
    cbn [memcmp_eq firstn length] in *.
    rewrite andb_true_iff, Z.eqb_eq, IH by lia.
    split.
    + intros [-> ->]. reflexivity.
    + intros H. inversion H. auto.
Qed.

(** check_version takes a header for a POSIX one exactly when its magic
    is "ustar" with the NUL and its version is "00". *)
Lemma check_version_posix (hdr : tar_header_t) :
  length (h_magic hdr) = 6%nat -> length (h_version hdr) = 2%nat ->
  is_posix (check_version hdr) = true <->
  h_magic hdr = [117; 115; 116; 97; 114; 0] /\ h_version hdr = [48; 48].
Proof.
  intros Hm Hv. unfold check_version. cbv zeta.
  assert (F : forall (a b : list Z) n, length a = n -> (n <= length b)%nat ->
                memcmp_eq a b n = true <-> a = firstn n b).
  { intros a b n Ha Hb. rewrite memcmp_eq_firstn by lia.
    rewrite <- Ha at 1. rewrite firstn_all. reflexivity. }
  destruct (memcmp_eq (h_magic hdr) (repeat 0 8) 6) eqn:Z1.
  - apply (F _ _ _ Hm) in Z1; [|cbn; lia]. cbn in Z1.
    destruct (memcmp_eq (h_version hdr) (repeat 0 8) 2) eqn:Z2; cbn [andb].
    + cbn. split; [intros Hc; discriminate Hc|]. intros [Hc _]. congruence.
    + assert (M : memcmp_eq (h_magic hdr) TAR_MAGIC 6 = false).
      { rewrite Z1. reflexivity. }
      rewrite M. cbn [andb].
      destruct (_ && _); cbn; (split; [intros Hc; discriminate Hc|]);
        intros [Hc _]; congruence.
  - cbn [andb].
    destruct (memcmp_eq (h_magic hdr) TAR_MAGIC 6) eqn:M1.
    + destruct (memcmp_eq (h_version hdr) TAR_VERSION 2) eqn:V1; cbn [andb].
      * apply (F _ _ _ Hm) in M1; [|cbn; lia]. apply (F _ _ _ Hv) in V1; [|cbn; lia].
        cbn. split; [intros _; split; assumption|reflexivity].
      * assert (Hnv : h_version hdr <> [48; 48]).
        { intros Hc. rewrite Hc in V1. discriminate V1. }
        destruct (_ && _); cbn; (split; [intros Hc; discriminate Hc|]);
          intros [_ Hc]; congruence.
    + cbn [andb].
      assert (Hnm : h_magic hdr <> [117; 115; 116; 97; 114; 0]).
      { intros Hc. rewrite Hc in M1. discriminate M1. }
      destruct (_ && _); cbn; (split; [intros Hc; discriminate Hc|]);
        intros [Hc _]; congruence.
Qed.

Section VersionFacts.
Variable read_number : list Z -> option Z.
Variable read_octal : list Z -> option Z.
Variables PAX_SIZE PAX_UID PAX_GID PAX_DEV_MAJ PAX_DEV_MIN : Z.
Variables PAX_NAME PAX_SLINK_TARGET PAX_MTIME : Z.
Variable makedev : Z -> Z -> Z.
Variables major minor : Z -> Z.
Variable SIZEOF_TIME_T : Z.

Local Abbreviation decode_header' :=
  (decode_header read_number read_octal PAX_SIZE PAX_UID PAX_GID PAX_DEV_MAJ
                 PAX_DEV_MIN PAX_NAME PAX_SLINK_TARGET PAX_MTIME makedev major minor
                 SIZEOF_TIME_T).

(** X26 (check_version, decode_header, as read_header calls them): the
    prefix field is part of the name only for a POSIX header.  When the
    version that check_version finds is handed to decode_header, a header
    whose magic is not "ustar" with its NUL or whose version is not "00"
    gets the name field alone as its name, whatever the bytes in the place
    of the prefix are (for a GNU header they belong to other fields); a
    POSIX header with a non-empty prefix gets prefix, slash and name. *)
Theorem prefix_only_for_posix_headers
        (hdr : tar_header_t) (set_by_pax : Z) (out out' : tar_header_decoded_t) :
  length (h_magic hdr) = 6%nat -> length (h_version hdr) = 2%nat ->
  unset set_by_pax PAX_NAME = true ->
  decode_header' hdr set_by_pax out (check_version hdr) = Some out' ->
  (h_magic hdr <> [117; 115; 116; 97; 114; 0] \/ h_version hdr <> [48; 48] ->
   d_name out' = Some (strndup (h_name hdr) 100)) /\
  (h_magic hdr = [117; 115; 116; 97; 114; 0] -> h_version hdr = [48; 48] ->
   nth 0 (posix_prefix hdr) 0 <> 0 ->
   d_name out' = Some (strndup (posix_prefix hdr) 155 ++ [47]
                       ++ strndup (h_name hdr) 100)).
Proof.
  intros Hm Hv Hp H. apply decode_header_name in H. rewrite H. clear H.
  unfold decode_name. rewrite Hp.
  pose proof (check_version_posix hdr Hm Hv) as Hpx.
  split.
  - intros Hne.
    destruct (is_posix (check_version hdr)) eqn:E.
    + exfalso. destruct (proj1 Hpx eq_refl) as (A & B).
      destruct Hne as [Hne|Hne]; [exact (Hne A)|exact (Hne B)].
    + rewrite andb_false_r. reflexivity.
  - intros A B Hnz.
    rewrite (proj2 Hpx (conj A B)), andb_true_r.
    replace (nth 0 (posix_prefix hdr) 0 =? 0) with false
      by (symmetry; apply Z.eqb_neq; exact Hnz).
    cbn [negb]. cbv zeta. cbn [set_name d_name].
    rewrite !firstn_strnlen. reflexivity.
Qed.

End VersionFacts.

(** A GNU header with an access time in the place of the prefix. *)
Lemma prefix_only_for_posix_headers_witness :
  exists out',
    decode_header0 gnu_header 0 decoded0 (check_version gnu_header) = Some out' /\
    d_name out' = Some [102].
Proof.
  assert (Hs : is_some (decode_header0 gnu_header 0 decoded0 (check_version gnu_header))
               = true) by (vm_compute; reflexivity).
  destruct (decode_header0 gnu_header 0 decoded0 (check_version gnu_header))
    as [out'|] eqn:E; [|discriminate Hs].
  exists out'. split; [reflexivity|].
  unfold decode_header0 in E.
  apply prefix_only_for_posix_headers in E; try reflexivity.
  destruct E as (Hgnu & _).
  rewrite Hgnu; [reflexivity|].
  left. intros Hc. discriminate Hc.
Defined.

End TarVersion.

(* ===================================================================== *)
(** ** More of write_dir: size, maximal groups, termination            *)
(* ===================================================================== *)

Module DirMore.
Import GroupFacts DirViews.

Lemma len_le_bytes (n : nat) : forall x, len (le_bytes n x) = Z.of_nat n.
Proof.
  induction n as [|n IH]; intros x; [reflexivity|].
  cbn [le_bytes]. rewrite len_cons, IH. lia.
Qed.

Lemma len_bytes_dir_header (h : sqfs_dir_header_t) :
  len (bytes_dir_header h) = sizeof_dir_header.
Proof.
  unfold bytes_dir_header, le32. rewrite !len_app, !len_le_bytes. reflexivity.
Qed.

Lemma len_bytes_dir_entry (e : sqfs_dir_entry_t) :
  len (bytes_dir_entry e) = sizeof_dir_entry.
Proof.
  unfold bytes_dir_entry, le16. rewrite !len_app, !len_le_bytes. reflexivity.
Qed.

Lemma u64_add_u64_l (a b : Z) : u64 (u64 a + b) = u64 (a + b).
Proof. unfold u64. apply Zplus_mod_idemp_l. Qed.

Lemma entries_size_app (l1 l2 : list tree_node_t) :
  entries_size (l1 ++ l2) = entries_size l1 + entries_size l2.
Proof.
  induction l1 as [|c l1 IH]; cbn [app entries_size fold_right]; [reflexivity|].
  fold (entries_size (l1 ++ l2)). fold (entries_size l1). lia.
Qed.

Lemma len_bytes_entries (d : tree_node_t) (l : list tree_node_t) :
  len (bytes_entries d l) = entries_size l.
Proof.
  unfold bytes_entries.
  induction l as [|c l IH]; cbn [map flat_map fst snd entries_size fold_right];
    [reflexivity|].
  fold (entries_size l). rewrite !len_app, IH, len_bytes_dir_entry.
  unfold strlen. lia.
Qed.

Lemma write_dir_entries_size (n : nat) (d : tree_node_t) :
  forall c dm size dm' size' c',
    write_dir_entries n d c dm size = Some (dm', size', c') ->
    0 <= size < 2 ^ 64 ->
    size' = u64 (size + entries_size (firstn n c)).
Proof.
  induction n as [|n IH]; intros c dm size dm' size' c' H Hs;
    cbn [write_dir_entries] in H.
  - inversion H; subst. cbn [firstn entries_size fold_right].
    rewrite Z.add_0_r. symmetry. apply u64_small. exact Hs.
  - destruct c as [|c0 next]; [discriminate H|].
    destruct (meta_writer_append dm _) as [dm1|]; [|discriminate H].
    destruct (meta_writer_append dm1 _) as [dm2|]; [|discriminate H].
    apply IH in H; [|apply u64_range].
    rewrite H, u64_add_u64_l. cbn [firstn entries_size fold_right].
    fold (entries_size (firstn n next)). f_equal. lia.
Qed.

Lemma bytes_listing_cons (g : dir_group) (gs : list dir_group) :
  bytes_listing (g :: gs) = bytes_group g ++ bytes_listing gs.
Proof. reflexivity. Qed.

Lemma listing_nodes_cons (g : dir_group) (gs : list dir_group) :
  listing_nodes (g :: gs) = map fst (snd g) ++ listing_nodes gs.
Proof. reflexivity. Qed.

Lemma len_bytes_group (c0 : tree_node_t) (k : Z) (l : list tree_node_t) :
  len (bytes_group (group_header c0 k, map (fun n => (n, group_entry c0 n)) l))
  = sizeof_dir_header + entries_size l.
Proof.
  unfold bytes_group. cbn [fst snd].
  rewrite len_app, len_bytes_dir_header.
  fold (bytes_entries c0 l). now rewrite len_bytes_entries.
Qed.

(** The size of a listing: twelve bytes for every header, and the
    entries. *)
Lemma len_bytes_listing (fuel : nat) :
  forall c,
    len (bytes_listing (dir_listing_loop fuel c))
    = sizeof_dir_header * len (dir_listing_loop fuel c)
      + entries_size (listing_nodes (dir_listing_loop fuel c)).
Proof.
  induction fuel as [|fuel IH]; intros c.
  - destruct c; reflexivity.
  - destruct c as [|c0 rest]; [reflexivity|].
    cbn [dir_listing_loop].
    rewrite bytes_listing_cons, listing_nodes_cons, len_app, len_cons,
      entries_size_app, IH, len_bytes_group.
    cbn [snd]. rewrite map_map. cbn [fst]. rewrite map_id.
    unfold sizeof_dir_header, dir_group. lia.
Qed.

Lemma write_dir_loop_size (fuel : nat) :
  forall c dm size dm' size',
    write_dir_loop fuel c dm size = Some (dm', size') ->
    0 <= size < 2 ^ 64 ->
    size' = u64 (size + len (bytes_listing (dir_listing_loop fuel c))).
Proof.
  induction fuel as [|fuel IH]; intros c dm size dm' size' H Hs.
  - destruct c as [|c0 rest]; cbn in H; [|discriminate H].
    inversion H; subst. cbn. rewrite Z.add_0_r. symmetry. now apply u64_small.
  - destruct c as [|c0 rest].
    + cbn in H. inversion H; subst. cbn. rewrite Z.add_0_r. symmetry.
      now apply u64_small.
    + cbn [write_dir_loop] in H. fold (group_count c0 (c0 :: rest)) in H.
      destruct (meta_writer_append dm _) as [dm1|]; [|discriminate H].
      destruct (write_dir_entries _ _ _ _ _) as [[[dm2 size2] c2]|] eqn:E2;
        [|discriminate H].
      pose proof (write_dir_entries_size _ _ _ _ _ _ _ _ E2 (u64_range _)) as Hs2.
      destruct (write_dir_entries_inv _ _ _ _ _ _ _ _ E2) as (_ & Hc & _).
      apply IH in H; [|rewrite Hs2; apply u64_range].
      subst c2. rewrite H, Hs2, u64_add_u64_l, <- Z.add_assoc, u64_add_u64_l.
      cbn [dir_listing_loop].
      rewrite bytes_listing_cons, len_app, len_bytes_group.
      unfold sizeof_dir_header, dir_group. f_equal. lia.
Qed.

End DirMore.

(** X12 (write_dir): the size that write_dir records in the directory is the
    number of bytes of the listing it has written, cut to 64 bits: twelve
    bytes for every header and, for every child, eight bytes and the
    length of its name.  For a directory without children nothing is
    written and the size is 0. *)
Theorem write_dir_size_is_listing_length :
  forall (dm dm' : meta_writer_t) (dir dir' : dir_info_t tree_node_t),
    write_dir dm dir = Some (dm', dir') ->
    let gs := dir_listing (di_children dir) in
    meta_writer_append dm (bytes_listing gs) = Some dm' /\
    di_size dir' = u64 (len (bytes_listing gs)) /\
    len (bytes_listing gs)
    = 12 * len gs
      + fold_right (fun c acc => 8 + strlen (name c) + acc) 0 (di_children dir) /\
    (di_children dir = [] -> dm' = dm /\ di_size dir' = 0).
Proof.
  intros dm dm' dir dir' H gs.
  destruct (write_dir_emits _ _ _ _ H) as (Ha & Hl & _).
  fold gs in Ha, Hl.
  split; [exact Ha|].
  assert (Hsize : di_size dir' = u64 (len (bytes_listing gs))).
  { unfold write_dir in H.
    destruct (write_dir_loop _ _ _ _) as [[dm2 size]|] eqn:E; [|discriminate H].
    inversion H; subst dm' dir'; clear H. cbn [di_size].
    apply DirMore.write_dir_loop_size in E; [|lia]. exact E. }
  split; [exact Hsize|]. split.
  - unfold gs, dir_listing. rewrite DirMore.len_bytes_listing.
    fold (dir_listing (di_children dir)). fold gs. rewrite Hl. reflexivity.
  - intros Hnil. rewrite Hsize. unfold gs in *. rewrite Hnil in *.
    cbn in Ha. inversion Ha. split; reflexivity.
Qed.

Lemma write_dir_size_is_listing_length_witness :
  exists dm' dir',
    write_dir Examples.dm0 Examples.dir_two = Some (dm', dir') /\
    di_size dir' = u64 (len (bytes_listing (dir_listing (di_children Examples.dir_two)))).
Proof.
  assert (Hs : Examples2.is_some (write_dir Examples.dm0 Examples.dir_two) = true)
    by (vm_compute; reflexivity).
  destruct (write_dir Examples.dm0 Examples.dir_two) as [[dm' dir']|] eqn:E;
    [|discriminate Hs].
  exists dm', dir'. split; [reflexivity|].
  exact (proj1 (proj2 (write_dir_size_is_listing_length _ _ _ _ E))).
Defined.
Module DirMore2.
Import GroupFacts DirViews DirMore.

(** The node behind a run fails one of the two tests of the counting
    loop. *)
Lemma run_length_stop (c : tree_node_t) (d : list tree_node_t) :
  forall n rest,
    skipn (run_length c d) d = n :: rest ->
    Z.shiftr (inode_ref n) 16 <> Z.shiftr (inode_ref c) 16 \/
    u32 (inode_num n - inode_num c) > 0xFFFF.
Proof.
  induction d as [|d0 next IH]; intros n rest H; cbn [run_length] in H.
  - discriminate H.
  - destruct (Z.shiftr (inode_ref d0) 16 =? Z.shiftr (inode_ref c) 16) eqn:E1;
      cbn [negb] in H.
    + destruct (u32 (inode_num d0 - inode_num c) >? 0xFFFF) eqn:E2.
      * cbn [skipn] in H. inversion H; subst. right.
        rewrite Z.gtb_ltb in E2. apply Z.ltb_lt in E2. lia.
      * cbn [skipn] in H. exact (IH _ _ H).
    + cbn [skipn] in H. inversion H; subst. left. now apply Z.eqb_neq.
Qed.

Lemma cons_inj {A : Type} (x y : A) (l l' : list A) :
  x :: l = y :: l' -> x = y /\ l = l'.
Proof. intros H. inversion H. split; reflexivity. Qed.

Lemma len_skipn_le {A : Type} (n : nat) (l : list A) : len (skipn n l) <= len l.
Proof. unfold len. rewrite length_skipn. lia. Qed.

(** The first node of the first group of a listing is the first node of the
    list. *)
Lemma dir_listing_loop_first_base (fuel : nat) (c : list tree_node_t)
      (g : dir_group) (gs : list dir_group) (n : tree_node_t) :
  dir_listing_loop fuel c = g :: gs ->
  group_base g = Some n ->
  exists rest, c = n :: rest.
Proof.
  destruct fuel as [|fuel]; destruct c as [|c0 rest]; cbn [dir_listing_loop];
    try discriminate.
  intros H Hb. apply cons_inj in H. destruct H as (Hg & _). subst g.
  unfold group_base in Hb. cbn [snd] in Hb.
  destruct (Z.to_nat (group_count c0 (c0 :: rest))); cbn [firstn map] in Hb;
    [discriminate Hb|].
  inversion Hb; subst. eauto.
Qed.

(** A header is only followed by another one when its group is full or
    the next node fails a test against the base of the group. *)
Lemma dir_listing_loop_maximal (fuel : nat) :
  forall c gs1 g g' gs2 base next,
    len c < 2 ^ 64 ->
    dir_listing_loop fuel c = gs1 ++ g :: g' :: gs2 ->
    group_base g = Some base ->
    group_base g' = Some next ->
    len (snd g) = SQFS_MAX_DIR_ENT \/
    Z.shiftr (inode_ref next) 16 <> Z.shiftr (inode_ref base) 16 \/
    u32 (inode_num next - inode_num base) > 0xFFFF.
Proof.
  induction fuel as [|fuel IH]; intros c gs1 g g' gs2 base next Hlen H Hb Hn.
  - destruct c; cbn in H; destruct gs1; discriminate H.
  - destruct c as [|c0 rest]; [destruct gs1; discriminate H|].
    cbn [dir_listing_loop] in H.
    destruct gs1 as [|g0 gs1].
    + cbn [app] in H. apply cons_inj in H. destruct H as (Hg & Hrest).
      pose proof (group_count_exact c0 (c0 :: rest) Hlen) as Hcnt.
      pose proof (run_length_le c0 (c0 :: rest)) as Hle.
      set (count := group_count c0 (c0 :: rest)) in *.
      destruct (dir_listing_loop_first_base _ _ _ _ _ Hrest Hn) as (rest' & Hsk).
      assert (Hbase : base = c0).
      { subst g. unfold group_base in Hb. cbn [snd] in Hb.
        destruct (Z.to_nat count); cbn [firstn map] in Hb; [discriminate Hb|].
        now inversion Hb. }
      subst base.
      destruct (Z_lt_le_dec (Z.of_nat (run_length c0 (c0 :: rest))) SQFS_MAX_DIR_ENT)
        as [Hlt|Hge].
      * right. apply (run_length_stop c0 (c0 :: rest) next rest').
        rewrite <- Hsk. f_equal. lia.
      * left. subst g. cbn [snd]. unfold len.
        rewrite length_map, firstn_length_le by (unfold SQFS_MAX_DIR_ENT in *; lia).
        unfold SQFS_MAX_DIR_ENT in *. lia.
    + cbn [app] in H. apply cons_inj in H. destruct H as (Hg & Hrest).
      eapply IH; [|exact Hrest|exact Hb|exact Hn].
      pose proof (len_skipn_le (Z.to_nat (group_count c0 (c0 :: rest))) (c0 :: rest)).
      lia.
Qed.

(** The writer keeps its compressor. *)
Lemma meta_writer_append_total (bytes : list Z) :
  forall m,
    (forall d, cmp m d <> None) ->
    exists m', meta_writer_append m bytes = Some m' /\ cmp m' = cmp m.
Proof.
  induction bytes as [|b bytes IH]; intros m Hc; cbn [meta_writer_append].
  - eauto.
  - cbn [offset].
    destruct (offset m + 1 =? SQFS_META_BLOCK_SIZE).
    + unfold meta_writer_flush. cbn [offset cmp MetaWriter.data block_offset outfd written].
      destruct (offset m + 1 =? 0).
      * destruct (IH (mk_meta_writer (offset m + 1) (block_offset m)
                        (MetaWriter.data m ++ [b]) (outfd m) (cmp m) (written m)) Hc)
          as (m' & H & Hc').
        exists m'. split; [exact H|exact Hc'].
      * destruct (cmp m (MetaWriter.data m ++ [b])) as [z|] eqn:E;
          [|exfalso; exact (Hc _ E)].
        match goal with
        | |- exists m', meta_writer_append ?m1 bytes = Some m' /\ _ =>
            destruct (IH m1 Hc) as (m' & H & Hc')
        end.
        exists m'. split; [exact H|exact Hc'].
    + destruct (IH (mk_meta_writer (offset m + 1) (block_offset m)
                      (MetaWriter.data m ++ [b]) (outfd m) (cmp m) (written m)) Hc)
        as (m' & H & Hc').
      exists m'. split; [exact H|exact Hc'].
Qed.

Lemma write_dir_entries_total (n : nat) (d : tree_node_t) :
  forall c dm size,
    (n <= length c)%nat ->
    (forall x, cmp dm x <> None) ->
    exists dm' size',
      write_dir_entries n d c dm size = Some (dm', size', skipn n c) /\
      cmp dm' = cmp dm.
Proof.
  induction n as [|n IH]; intros c dm size Hn Hc; cbn [write_dir_entries].
  - eauto.
  - destruct c as [|c0 next]; [cbn in Hn; lia|].
    destruct (meta_writer_append_total
                (bytes_dir_entry
                   (mk_dir_entry (htole16 (Z.land (inode_ref c0) 65535))
                      (htole16 (u32 (inode_num c0 - inode_num d)))
                      (htole16 (type c0)) (htole16 (u64 (strlen (name c0) - 1)))))
                dm Hc) as (dm1 & E1 & Hc1).
    rewrite E1.
    assert (Hc1' : forall x, cmp dm1 x <> None) by (rewrite Hc1; exact Hc).
    destruct (meta_writer_append_total (name c0) dm1 Hc1') as (dm2 & E2 & Hc2).
    rewrite E2.
    assert (Hc2' : forall x, cmp dm2 x <> None) by (rewrite Hc2; exact Hc1').
    destruct (IH next dm2 (u64 (size + (sizeof_dir_entry + strlen (name c0))))
                ltac:(cbn in Hn; lia) Hc2') as (dm' & size' & E & Hc').
    exists dm', size'. split; [exact E|congruence].
Qed.

Lemma write_dir_loop_total (fuel : nat) :
  forall c dm size,
    (length c <= fuel)%nat ->
    len c < 2 ^ 64 ->
    (forall x, cmp dm x <> None) ->
    exists dm' size', write_dir_loop fuel c dm size = Some (dm', size').
Proof.
  induction fuel as [|fuel IH]; intros c dm size Hf Hlen Hc.
  - destruct c; [cbn; eauto|cbn in Hf; lia].
  - destruct c as [|c0 rest]; [cbn; eauto|].
    cbn [write_dir_loop]. fold (group_count c0 (c0 :: rest)).
    pose proof (group_count_exact c0 (c0 :: rest) Hlen) as Hcnt.
    pose proof (run_length_le c0 (c0 :: rest)) as Hle.
    pose proof (run_length_head c0 rest) as Hhd.
    set (count := group_count c0 (c0 :: rest)) in *.
    destruct (meta_writer_append_total
                (bytes_dir_header
                   (mk_dir_header (htole32 (u64 (count - 1)))
                      (htole32 (Z.shiftr (inode_ref c0) 16)) (htole32 (inode_num c0))))
                dm Hc) as (dm1 & E1 & Hc1).
    rewrite E1.
    assert (Hc1' : forall x, cmp dm1 x <> None) by (rewrite Hc1; exact Hc).
    assert (Hn : (Z.to_nat count <= length (c0 :: rest))%nat)
      by (unfold SQFS_MAX_DIR_ENT in *; lia).
    destruct (write_dir_entries_total (Z.to_nat count) c0 (c0 :: rest) dm1
                (u64 (size + sizeof_dir_header)) Hn Hc1') as (dm2 & size2 & E2 & Hc2).
    rewrite E2.
    apply IH.
    + rewrite length_skipn. cbn [length] in *. unfold SQFS_MAX_DIR_ENT in *. lia.
    + pose proof (len_skipn_le (Z.to_nat count) (c0 :: rest)). lia.
    + rewrite Hc2. exact Hc1'.
Qed.

End DirMore2.

(** X13 (write_dir): the groups are as long as the format allows.  Where a
    header is followed by another one, the group of the first header
    holds SQFS_MAX_DIR_ENT entries, or the first node of the next group
    differs from the first node of the group in inode_ref >> 16, or its
    inode number is more than 0xFFFF above (as an unsigned 32-bit
    difference). *)
Theorem directory_groups_are_maximal :
  forall (dm dm' : meta_writer_t) (dir dir' : dir_info_t tree_node_t),
    write_dir dm dir = Some (dm', dir') ->
    len (di_children dir) < 2 ^ 64 ->
    let gs := dir_listing (di_children dir) in
    meta_writer_append dm (bytes_listing gs) = Some dm' /\
    forall gs1 g g' gs2 base next,
      gs = gs1 ++ g :: g' :: gs2 ->
      group_base g = Some base ->
      group_base g' = Some next ->
      len (snd g) = SQFS_MAX_DIR_ENT \/
      Z.shiftr (inode_ref next) 16 <> Z.shiftr (inode_ref base) 16 \/
      u32 (inode_num next - inode_num base) > 0xFFFF.
Proof.
  intros dm dm' dir dir' H Hlen gs.
  destruct (write_dir_emits _ _ _ _ H) as (Ha & _).
  split; [exact Ha|].
  intros gs1 g g' gs2 base next Hgs Hb Hn.
  exact (DirMore2.dir_listing_loop_maximal _ _ _ _ _ _ _ _ Hlen Hgs Hb Hn).
Qed.

(** 300 files: the first group is full. *)
Lemma directory_groups_are_maximal_witness :
  exists dm' dir' g g' gs2,
    write_dir Examples.dm0 Examples.dir300 = Some (dm', dir') /\
    dir_listing (di_children Examples.dir300) = g :: g' :: gs2 /\
    len (snd g) = SQFS_MAX_DIR_ENT.
Proof.
  assert (Hs : Examples2.is_some (write_dir Examples.dm0 Examples.dir300) = true)
    by (vm_compute; reflexivity).
  destruct (write_dir Examples.dm0 Examples.dir300) as [[dm' dir']|] eqn:E;
    [|discriminate Hs].
  assert (Hlen : len (di_children Examples.dir300) < 2 ^ 64)
    by (vm_compute; reflexivity).
  destruct (directory_groups_are_maximal _ _ _ _ E Hlen) as (_ & Hmax).
  remember (dir_listing (di_children Examples.dir300)) as gs eqn:Hgs.
  assert (Hshape : match gs with
                   | g :: g' :: _ =>
                       match group_base g, group_base g' with
                       | Some b, Some n =>
                           (Z.shiftr (inode_ref n) 16 =? Z.shiftr (inode_ref b) 16)
                           && (u32 (inode_num n - inode_num b) <=? 0xFFFF)
                       | _, _ => false
                       end
                   | _ => false
                   end = true)
    by (rewrite Hgs; vm_compute; reflexivity).
  destruct gs as [|g [|g' gs2]]; try discriminate Hshape.
  destruct (group_base g) as [b|] eqn:Eb; [|discriminate Hshape].
  destruct (group_base g') as [n|] eqn:En; [|discriminate Hshape].
  apply andb_true_iff in Hshape. destruct Hshape as (H1 & H2).
  apply Z.eqb_eq in H1. apply Z.leb_le in H2.
  exists dm', dir', g, g', gs2.
  split; [reflexivity|]. split; [reflexivity|].
  destruct (Hmax [] g g' gs2 b n eq_refl Eb En) as [Hfull|[Hne|Hgt]].
  - exact Hfull.
  - exfalso. exact (Hne H1).
  - exfalso. lia.
Defined.

(** X14 (write_dir): write_dir comes to an end.  With a compressor that
    never fails and fewer than 2^64 children, every round of the loop
    takes at least one child and the function returns. *)
Theorem write_dir_returns :
  forall (dm : meta_writer_t) (dir : dir_info_t tree_node_t),
    (forall block, cmp dm block <> None) ->
    len (di_children dir) < 2 ^ 64 ->
    exists dm' dir', write_dir dm dir = Some (dm', dir').
Proof.
  intros dm dir Hc Hlen. unfold write_dir.
  destruct (DirMore2.write_dir_loop_total (length (di_children dir)) (di_children dir)
              dm 0 (Nat.le_refl _) Hlen Hc) as (dm' & size & E).
  rewrite E. eauto.
Qed.

Lemma write_dir_returns_witness :
  exists dm' dir', write_dir Examples.dm0 Examples.dir_two = Some (dm', dir').
Proof.
  apply write_dir_returns.
  - intros block. cbn. discriminate.
  - vm_compute. reflexivity.
Defined.

(* ===================================================================== *)
(** ** Inode references and the tree behind the serializer             *)
(* ===================================================================== *)

Module RefFacts.

Lemma land_shiftl_low (b o : Z) :
  0 <= o < 2 ^ 16 -> Z.land (Z.shiftl b 16) o = 0.
Proof.
  intros Ho. apply Z.bits_inj'. intros n Hn.
  rewrite Z.land_spec, Z.bits_0.
  destruct (Z_lt_le_dec n 16) as [Hlt|Hge].
  - rewrite Z.shiftl_spec_low by lia. reflexivity.
  - replace o with (o mod 2 ^ 16) by (apply Z.mod_small; lia).
    rewrite Z.mod_pow2_bits_high by lia. apply andb_false_r.
Qed.

(** The two halves of an inode reference. *)
Lemma inode_ref_halves (b o : Z) :
  0 <= b < 2 ^ 48 -> 0 <= o < 2 ^ 16 ->
  Z.shiftr (u64 (Z.lor (Z.shiftl b 16) o)) 16 = b /\
  Z.land (u64 (Z.lor (Z.shiftl b 16) o)) 0xFFFF = o.
Proof.
  intros Hb Ho.
  assert (Hsum : Z.lor (Z.shiftl b 16) o = b * 2 ^ 16 + o).
  { rewrite <- Z.lxor_lor by (apply land_shiftl_low; exact Ho).
    rewrite <- Z.add_nocarry_lxor by (apply land_shiftl_low; exact Ho).
    rewrite Z.shiftl_mul_pow2 by lia. reflexivity. }
  rewrite Hsum, u64_small by lia. split.
  - rewrite Z.shiftr_div_pow2 by lia.
    symmetry. apply (Z.div_unique (b * 2 ^ 16 + o) (2 ^ 16) b o); lia.
  - change 0xFFFF with (Z.ones 16). rewrite Z.land_ones by lia.
    symmetry. apply (Z.mod_unique (b * 2 ^ 16 + o) (2 ^ 16) b o); lia.
Qed.

End RefFacts.

(** X15 (write_inode, write_dir): the inode reference can be taken apart
    again.  While the inode stream is shorter than 2^48 bytes, the
    reference that write_inode gives a node has the block offset of the
    inode writer in its upper bits and the byte offset in its low 16 bits.
    Whenever write_dir later writes a directory that holds the node, the
    listing it appends has the node in a group whose header carries that
    block offset (cut to 32 bits) as start_block, with an entry that
    carries that byte offset as offset. *)
Theorem inode_ref_locates_inode :
  forall (parent : option Z) (node node' : tree_node_t) (s s' : ser_t),
    write_inode parent node s = Some (node', s') ->
    writer_ok (s_im s) ->
    block_offset (s_im s) < 2 ^ 48 ->
    Z.shiftr (inode_ref node') 16 = block_offset (s_im s) /\
    Z.land (inode_ref node') 0xFFFF = offset (s_im s) /\
    forall (dm dm' : meta_writer_t) (dir dir' : dir_info_t tree_node_t),
      write_dir dm dir = Some (dm', dir') ->
      In node' (di_children dir) ->
      meta_writer_append dm (bytes_listing (dir_listing (di_children dir))) = Some dm' /\
      exists h es e,
        In (h, es) (dir_listing (di_children dir)) /\
        In (node', e) es /\
        hdr_start_block h = u32 (block_offset (s_im s)) /\
        ent_offset e = offset (s_im s).
Proof.
  intros parent node node' s s' H (Hb & Ho & Hr) Hlt.
  apply write_inode_inv in H.
  destruct H as (tbl1 & ui & tbl2 & gi & t & d' & payload & _ & _ & Hnode & _).
  pose proof (len_nonneg (written (s_im s))) as Hn.
  unfold SQFS_META_BLOCK_SIZE in Hr.
  destruct (RefFacts.inode_ref_halves (block_offset (s_im s)) (offset (s_im s)))
    as (H1 & H2); [lia|lia|].
  assert (Href : inode_ref node'
                 = u64 (Z.lor (Z.shiftl (block_offset (s_im s)) 16) (offset (s_im s)))).
  { rewrite Hnode. reflexivity. }
  rewrite <- Href in H1, H2. clear Href Hnode.
  split; [exact H1|]. split; [exact H2|].
  intros dm dm' dir dir' W Hin.
  destruct (write_dir_emits _ _ _ _ W) as (Ha & Hl & _).
  split; [exact Ha|].
  rewrite <- Hl in Hin. unfold listing_nodes in Hin.
  apply in_flat_map in Hin. destruct Hin as ([h es] & Hg & Hin).
  cbn [snd] in Hin. apply in_map_iff in Hin. destruct Hin as ([n e] & Hfst & Hne).
  cbn [fst] in Hfst. subst n.
  destruct (GroupFacts.dir_listing_loop_groups _ _ _ Hg)
    as (base & members & Hes & Hh & _ & _ & Hmem).
  cbn [fst snd] in Hes, Hh.
  exists h, es, e. split; [exact Hg|]. split; [exact Hne|].
  rewrite Hes in Hne. apply in_map_iff in Hne. destruct Hne as (x & Hx & Hxin).
  inversion Hx; subst x e; clear Hx.
  destruct (Hmem _ Hxin) as (Hsb & _).
  split.
  - rewrite Hh. unfold group_header, htole32. cbn [hdr_start_block].
    rewrite <- Hsb, H1. reflexivity.
  - unfold group_entry, htole16. cbn [ent_offset]. rewrite H2.
    apply u16_small. lia.
Qed.

(** A file written when the inode writer stands at byte 5 of the block at
    8194, and a directory that holds it. *)
Lemma inode_ref_locates_inode_witness :
  exists node' s' dm' dir',
    write_inode (Some 1) (Examples.file_node [102] 10 []) Examples2.ser_busy
    = Some (node', s') /\
    write_dir Examples.dm0 (mk_dir_info [node'] 0 0 0) = Some (dm', dir') /\
    Z.shiftr (inode_ref node') 16 = 8194 /\
    Z.land (inode_ref node') 0xFFFF = 5 /\
    exists h es e,
      In (h, es) (dir_listing [node']) /\ In (node', e) es /\
      hdr_start_block h = 8194 /\ ent_offset e = 5.
Proof.
  assert (Hs : Examples2.is_some
                 (match write_inode (Some 1) (Examples.file_node [102] 10 [])
                                    Examples2.ser_busy with
                  | Some (n', _) => write_dir Examples.dm0 (mk_dir_info [n'] 0 0 0)
                  | None => None
                  end) = true) by (vm_compute; reflexivity).
  destruct (write_inode (Some 1) (Examples.file_node [102] 10 []) Examples2.ser_busy)
    as [[node' s']|] eqn:E; [|discriminate Hs].
  destruct (write_dir Examples.dm0 (mk_dir_info [node'] 0 0 0))
    as [[dm' dir']|] eqn:W; [|discriminate Hs].
  exists node', s', dm', dir'. split; [reflexivity|]. split; [exact W|].
  assert (Hok : writer_ok (s_im Examples2.ser_busy)).
  { unfold writer_ok. split; [reflexivity|]. split; [reflexivity|].
    split; [intro Hc; discriminate Hc|reflexivity]. }
  assert (Hlt : block_offset (s_im Examples2.ser_busy) < 2 ^ 48) by reflexivity.
  destruct (inode_ref_locates_inode _ _ _ _ _ E Hok Hlt) as (H1 & H2 & Hdir).
  split; [exact H1|]. split; [exact H2|].
  destruct (Hdir _ _ _ _ W (or_introl eq_refl)) as (_ & h & es & e & Hg & He & Hh & Ho).
  exists h, es, e. auto.
Defined.

Module EraseFacts.
Import TreeViews.

Lemma erase_written (a : node_attr) (d d' : node_data_t tree_node_t) (r n t : Z) :
  (d' = d \/
   exists di di', d = DataDir di /\ d' = DataDir di' /\
                  di_children di' = di_children di) ->
  erase (TreeNode (mk_attr (a_name a) (a_mode a) (a_uid a) (a_gid a) (a_mtime a)
                           (a_xattr a) r n t) d')
  = erase (TreeNode a d).
Proof.
  intros [->|(di & di' & -> & -> & Hc)]; cbn [erase a_name a_mode a_uid a_gid
                                                a_mtime a_xattr].
  - reflexivity.
  - now rewrite Hc.
Qed.

(** write_inode changes nothing but the fields it is there to fill in. *)
Lemma write_inode_erase (parent : option Z) (node node' : tree_node_t) (s s' : ser_t) :
  write_inode parent node s = Some (node', s') -> erase node' = erase node.
Proof.
  intros H. apply write_inode_inv in H.
  destruct H as (tbl1 & ui & tbl2 & gi & t & d' & payload & _ & _ & -> & _ & _ & _ & _
                 & _ & Hdec).
  assert (Hd : d' = data node \/
               exists di di', data node = DataDir di /\ d' = DataDir di' /\
                              di_children di' = di_children di).
  { destruct Hdec as [(_ & di & di' & Hdn & W & Hd' & _)|(_ & _ & Hd' & _)].
    - right. exists di, di'. split; [exact Hdn|]. split; [exact Hd'|].
      apply (write_dir_emits _ _ _ _ W).
    - left. exact Hd'. }
  clear Hdec. destruct node as [a d].
  unfold name, mode, uid, gid, mtime, xattr. cbn [attr data] in *.
  apply erase_written. exact Hd.
Qed.

Lemma mapM_erase {f : tree_node_t -> M tree_node_t} (l : list tree_node_t) :
  Forall (fun x => forall s y s', f x s = Some (y, s') -> erase y = erase x) l ->
  forall s r s', mapM f l s = Some (r, s') -> map erase r = map erase l.
Proof.
  induction 1 as [|x l Hx _ IH]; intros s r s' H.
  - apply mapM_nil_inv in H. destruct H as [-> _]. reflexivity.
  - apply mapM_cons_inv in H. destruct H as (y & s1 & ys & Hf & Hm & ->).
    cbn [map]. rewrite (Hx _ _ _ Hf), (IH _ _ _ Hm). reflexivity.
Qed.

Lemma write_child_inodes_erase (root : tree_node_t) :
  forall s root' s',
    write_child_inodes root s = Some (root', s') -> erase root' = erase root.
Proof.
  induction root as [root IH] using tree_node_induction.
  intros s root' s' H. destruct root as [a d]. cbn [write_child_inodes] in H.
  destruct d as [di| | |]; try discriminate H.
  unfold children in IH. cbn [data] in IH.
  apply bind_inv in H. destruct H as (cs1 & s1 & E & H). cbv beta zeta in H.
  apply bind_inv in H. destruct H as (cs2 & s2 & E0 & H). cbv beta zeta in H.
  apply ret_inv in H. inversion H; subst root' s2; clear H.
  assert (H1 : map erase cs1 = map erase (di_children di)).
  { destruct (existsb _ _).
    - eapply mapM_erase; [|exact E].
      eapply Forall_impl; [|exact IH]. cbv beta.
      intros it Hit st1 y st2 Hf.
      destruct (S_ISDIR (mode it)).
      + eapply Hit; exact Hf.
      + apply ret_inv in Hf. inversion Hf; subst. reflexivity.
    - apply ret_inv in E. inversion E; subst. reflexivity. }
  assert (H2 : map erase cs2 = map erase cs1).
  { eapply mapM_erase; [|exact E0].
    apply Forall_forall. intros it _ st1 y st2 Hf.
    eapply write_inode_erase; exact Hf. }
  cbn [erase di_children]. rewrite H2, H1. reflexivity.
Qed.

End EraseFacts.

(** X16 (sqfs_write_inodes, write_child_inodes, write_inode): serializing
    the tree only fills in what it is there to fill in.  Apart from
    inode_ref, inode_num and type of the nodes and size, start_block and
    block_offset of the directories, the tree that sqfs_write_inodes
    leaves in info->fs is the tree it was given: no node is dropped, added,
    moved or renamed, and mode, uid, gid and file data stay as they were. *)
Theorem sqfs_write_inodes_keeps_tree :
  forall (tmpfd : Z) (info info' : sqfs_info_t) (image image' : list Z),
    sqfs_write_inodes tmpfd info image = Some (info', image') ->
    TreeViews.erase (root (fs info')) = TreeViews.erase (root (fs info)) /\
    map name (write_order (root (fs info'))) = map name (write_order (root (fs info))).
Proof.
  intros tmpfd info info' image image' H.
  apply sqfs_write_inodes_inv in H.
  destruct H as (root1 & s1 & root2 & s2 & im' & dm' & Hc & Hw & _ & _ & Hfs & _).
  rewrite Hfs. cbn [root].
  apply EraseFacts.write_child_inodes_erase in Hc.
  apply EraseFacts.write_inode_erase in Hw.
  assert (He : TreeViews.erase root2 = TreeViews.erase (root (fs info))) by congruence.
  split; [exact He|].
  clear - He. revert He. generalize (root (fs info)). generalize root2. clear.
  intros n. induction n as [n IH] using tree_node_induction.
  intros m He. destruct n as [a d], m as [b e].
  cbn [TreeViews.erase] in He. inversion He as [[Hn Hm Hu Hg Ht Hx Hd]].
  destruct d as [di| | |], e as [ei| | |]; try discriminate Hd; try reflexivity.
  inversion Hd as [Hcs]. clear Hd He.
  unfold children in IH. cbn [data] in IH.
  cbn [write_order].
  assert (Hgen : forall l1 l2,
            Forall (fun n => forall m, TreeViews.erase n = TreeViews.erase m ->
                      map name (write_order n) = map name (write_order m)) l1 ->
            map TreeViews.erase l1 = map TreeViews.erase l2 ->
            map name l1 = map name l2 /\
            map name (flat_map (fun it => if S_ISDIR (mode it) then write_order it
                                          else []) l1)
            = map name (flat_map (fun it => if S_ISDIR (mode it) then write_order it
                                            else []) l2)).
  { clear. induction l1 as [|x l1 IHl]; intros l2 Hall Hmap.
    - destruct l2; [split; reflexivity|discriminate Hmap].
    - destruct l2 as [|y l2]; [discriminate Hmap|].
      cbn [map] in Hmap. inversion Hmap as [[Hxy Hrest]].
      inversion Hall as [|? ? Hx Hl]; subst.
      destruct (IHl l2 Hl Hrest) as (Hn1 & Hf1).
      assert (Hname : name x = name y /\ mode x = mode y).
      { destruct x as [ax dx], y as [ay dy]. cbn [TreeViews.erase] in Hxy.
        inversion Hxy. unfold name, mode. cbn [attr]. auto. }
      destruct Hname as (Hnm & Hmd).
      split.
      + cbn [map]. now rewrite Hnm, Hn1.
      + cbn [flat_map]. rewrite !map_app, Hf1, Hmd.
        destruct (S_ISDIR (mode y)); [|reflexivity].
        now rewrite (Hx y Hxy). }
  destruct (Hgen _ _ IH Hcs) as (Hn1 & Hf1).
  now rewrite !map_app, Hn1, Hf1.
Qed.

Lemma sqfs_write_inodes_keeps_tree_witness :
  exists info' image',
    sqfs_write_inodes 4 (Examples.info0 Examples.small_tree) Examples.image0
    = Some (info', image') /\
    TreeViews.erase (root (fs info')) = TreeViews.erase Examples.small_tree.
Proof.
  assert (Hs : Examples2.is_some
                 (sqfs_write_inodes 4 (Examples.info0 Examples.small_tree)
                                    Examples.image0) = true)
    by (vm_compute; reflexivity).
  destruct (sqfs_write_inodes 4 (Examples.info0 Examples.small_tree) Examples.image0)
    as [[info' image']|] eqn:E; [|discriminate Hs].
  exists info', image'. split; [reflexivity|].
  exact (proj1 (sqfs_write_inodes_keeps_tree _ _ _ _ _ E)).
Defined.

(* ===================================================================== *)
(** ** The inode records of write_inode                                *)
(* ===================================================================== *)

Module RecordFacts.

(** The steps of write_inode that succeeded: the node with its reference
    and number goes through the first switch, the common part is
    appended, and the second switch appends the record. *)
Lemma write_inode_steps (parent : option Z) (node node' : tree_node_t) (s s' : ser_t) :
  write_inode parent node s = Some (node', s') ->
  exists uid_idx gid_idx sA node2 s2 s3,
    s_im sA = s_im s /\ s_dm sA = s_dm s /\
    block_size (super (s_info sA)) = block_size (super (s_info s)) /\
    select_inode_type
      (set_inode_num
         (set_inode_ref node
            (u64 (Z.lor (Z.shiftl (block_offset (s_im s)) 16) (offset (s_im s)))))
         (u32 (inode_counter (s_info s)))) sA = Some (node2, s2) /\
    meta_writer_append (s_im s2)
      (bytes_inode (mk_inode (htole16 (type node2)) (htole16 (mode node2))
                             (htole16 uid_idx) (htole16 gid_idx)
                             (htole32 (def_mtime (opt (s_info s))))
                             (htole32 (inode_num node2)))) = Some (s_im s3) /\
    s_info s3 = s_info s2 /\ s_dm s3 = s_dm s2 /\
    write_inode_record parent node2 s3 = Some (node', s').
Proof.
  intros H. unfold write_inode in H.
  bind_step H. apply id_to_index_inv in E. destruct E as (tbl1 & Eu & ->).
  bind_step H. apply id_to_index_inv in E. destruct E as (tbl2 & Eg & ->).
  cbn [s_info s_im s_dm set_idtbl idtbl] in *.
  bind_step H. unfold get in E. inversion E; subst a1 s0; clear E.
  bind_step H. unfold modify_info in E. inversion E; subst a1 s0; clear E.
  bind_step H. unfold modify_info in E. inversion E; subst a1 s0; clear E.
  cbn [s_info s_im s_dm set_idtbl idtbl set_inode_counter set_super super inode_counter
       info_outfd opt fs info_cmp] in *.
  bind_step H.
  step_append H Eb Ei2 Ed2.
  eexists a, a0, _, a1, s0, s1.
  split; [|split; [|split; [|split; [exact E|]]]]; try reflexivity.
  split; [exact Eb|]. split; [exact Ei2|]. split; [exact Ed2|exact H].
Qed.

(** What the first switch leaves of the node. *)
Lemma select_inode_type_fields (node node2 : tree_node_t) (s s2 : ser_t) :
  select_inode_type node s = Some (node2, s2) ->
  s_info s2 = s_info s /\ s_im s2 = s_im s /\
  mode node2 = mode node /\ inode_num node2 = inode_num node /\
  type_decided node (s_dm s) (s_dm s2) (type node2) (data node2).
Proof.
  intros H. apply select_inode_type_inv in H.
  destruct H as (Hi & Hm & t & d' & -> & Hdec).
  destruct node as [a d]. cbn. auto.
Qed.

(** The first switch for a node that is neither a directory nor a regular
    file. *)
Lemma select_inode_type_simple (node node2 : tree_node_t) (s s2 : ser_t) :
  select_inode_type node s = Some (node2, s2) ->
  let fmt := Z.land (mode node) S_IFMT in
  (fmt = S_IFSOCK /\ type node2 = SQFS_INODE_SOCKET) \/
  (fmt = S_IFIFO /\ type node2 = SQFS_INODE_FIFO) \/
  (fmt = S_IFLNK /\ type node2 = SQFS_INODE_SLINK) \/
  (fmt = S_IFBLK /\ type node2 = SQFS_INODE_BDEV) \/
  (fmt = S_IFCHR /\ type node2 = SQFS_INODE_CDEV) \/
  (fmt = S_IFDIR /\
   (type node2 = SQFS_INODE_DIR \/ type node2 = SQFS_INODE_EXT_DIR)) \/
  (fmt = S_IFREG /\
   (type node2 = SQFS_INODE_FILE \/ type node2 = SQFS_INODE_EXT_FILE)).
Proof.
  intros H fmt. pose proof (select_inode_type_fields _ _ _ _ H) as (_ & _ & _ & _ & Hdec).
  unfold select_inode_type in H. cbv zeta in H. fold fmt in H.
  destruct (fmt =? S_IFSOCK) eqn:F1.
  { apply Z.eqb_eq in F1. step_ret H. left. split; [exact F1|].
    destruct node; reflexivity. }
  destruct (fmt =? S_IFIFO) eqn:F2.
  { apply Z.eqb_eq in F2. step_ret H. right. left. split; [exact F2|].
    destruct node; reflexivity. }
  destruct (fmt =? S_IFLNK) eqn:F3.
  { apply Z.eqb_eq in F3. step_ret H. do 2 right. left. split; [exact F3|].
    destruct node; reflexivity. }
  destruct (fmt =? S_IFBLK) eqn:F4.
  { apply Z.eqb_eq in F4. step_ret H. do 3 right. left. split; [exact F4|].
    destruct node; reflexivity. }
  destruct (fmt =? S_IFCHR) eqn:F5.
  { apply Z.eqb_eq in F5. step_ret H. do 4 right. left. split; [exact F5|].
    destruct node; reflexivity. }
  destruct (fmt =? S_IFDIR) eqn:F6.
  { apply Z.eqb_eq in F6. do 5 right. left. split; [exact F6|].
    destruct Hdec as [(_ & di & di' & _ & _ & _ & Ht)|(Hnd & _)].
    - rewrite Ht. destruct (_ || _); auto.
    - unfold S_ISDIR in Hnd. fold fmt in Hnd. rewrite F6 in Hnd. discriminate Hnd. }
  destruct (fmt =? S_IFREG) eqn:F7; [|discriminate H].
  apply Z.eqb_eq in F7. do 6 right. split; [exact F7|].
  destruct Hdec as [(Hd & _)|(_ & _ & _ & [(_ & fi & nl & _ & _ & Ht)|(Hnr & _)])].
  - unfold S_ISDIR in Hd. fold fmt in Hd. rewrite F7 in Hd. discriminate Hd.
  - rewrite Ht. destruct (_ || _); auto.
  - unfold S_ISREG in Hnr. fold fmt in Hnr. rewrite F7 in Hnr. discriminate Hnr.
Qed.

Lemma set_ref_num_mode (node : tree_node_t) (r n : Z) :
  mode (set_inode_num (set_inode_ref node r) n) = mode node /\
  data (set_inode_num (set_inode_ref node r) n) = data node /\
  inode_num (set_inode_num (set_inode_ref node r) n) = n.
Proof. destruct node. cbn. auto. Qed.

End RecordFacts.

(** X17 (write_inode): the inode type follows the file type bits of the
    mode.  write_inode only succeeds for a socket, a fifo, a symlink, a
    block or character device, a directory or a regular file; the type it
    gives the node is the one that goes with the file type, in the basic or
    the extended form for directories and regular files, and a mode
    without a known file type makes it fail. *)
Theorem write_inode_type_follows_mode :
  forall (parent : option Z) (node node' : tree_node_t) (s s' : ser_t),
    write_inode parent node s = Some (node', s') ->
    let fmt := Z.land (mode node) S_IFMT in
    (fmt = S_IFSOCK /\ type node' = SQFS_INODE_SOCKET) \/
    (fmt = S_IFIFO /\ type node' = SQFS_INODE_FIFO) \/
    (fmt = S_IFLNK /\ type node' = SQFS_INODE_SLINK) \/
    (fmt = S_IFBLK /\ type node' = SQFS_INODE_BDEV) \/
    (fmt = S_IFCHR /\ type node' = SQFS_INODE_CDEV) \/
    (fmt = S_IFDIR /\
     (type node' = SQFS_INODE_DIR \/ type node' = SQFS_INODE_EXT_DIR)) \/
    (fmt = S_IFREG /\
     (type node' = SQFS_INODE_FILE \/ type node' = SQFS_INODE_EXT_FILE)).
Proof.
  intros parent node node' s s' H.
  apply RecordFacts.write_inode_steps in H.
  destruct H as (ui & gi & sA & node2 & s2 & s3 & _ & _ & _ & Hsel & _ & _ & _ & Hrec).
  apply write_inode_record_inv in Hrec. destruct Hrec as (-> & _).
  apply RecordFacts.select_inode_type_simple in Hsel.
  destruct (RecordFacts.set_ref_num_mode node
              (u64 (Z.lor (Z.shiftl (block_offset (s_im s)) 16) (offset (s_im s))))
              (u32 (inode_counter (s_info s)))) as (Hm & _).
  cbv zeta in Hsel. rewrite Hm in Hsel. exact Hsel.
Qed.

Lemma write_inode_type_follows_mode_witness :
  write_inode None Examples2.no_type_node (Examples.ser0 Examples.root_only) = None /\
  exists node' s',
    write_inode None Examples2.slink_node (Examples.ser0 Examples.root_only)
    = Some (node', s') /\
    type node' = SQFS_INODE_SLINK.
Proof.
  split.
  - destruct (write_inode None Examples2.no_type_node (Examples.ser0 Examples.root_only))
      as [[node' s']|] eqn:E; [|reflexivity].
    exfalso. apply write_inode_type_follows_mode in E. cbv zeta in E.
    change (Z.land (mode Examples2.no_type_node) S_IFMT) with 0 in E.
    destruct E as [(E & _)|[(E & _)|[(E & _)|[(E & _)|[(E & _)|[(E & _)|(E & _)]]]]]];
      discriminate E.
  - assert (Hs : Examples2.is_some
                   (write_inode None Examples2.slink_node
                                (Examples.ser0 Examples.root_only)) = true)
      by (vm_compute; reflexivity).
    destruct (write_inode None Examples2.slink_node (Examples.ser0 Examples.root_only))
      as [[node' s']|] eqn:E; [|discriminate Hs].
    exists node', s'. split; [reflexivity|].
    apply write_inode_type_follows_mode in E. cbv zeta in E.
    change (Z.land (mode Examples2.slink_node) S_IFMT) with S_IFLNK in E.
    destruct E as [(E & _)|[(E & _)|[(_ & E)|[(E & _)|[(E & _)|[(E & _)|(E & _)]]]]]];
      try discriminate E.
    exact E.
Defined.
Module RecordFacts2.
Import RecordFacts.

Lemma hard_link_count_not_dir (n : tree_node_t) :
  S_ISDIR (mode n) = false -> hard_link_count n = Some 1.
Proof. unfold hard_link_count. intros ->. reflexivity. Qed.

Lemma firstn_len_all {A : Type} (l : list A) (k : Z) :
  k = len l -> firstn (Z.to_nat k) l = l.
Proof. intros ->. unfold len. rewrite Nat2Z.id. apply firstn_all. Qed.

(** The second switch for a basic regular file. *)
Lemma write_inode_record_file (parent : option Z) (node node' : tree_node_t)
      (fi : file_info_t) (s s' : ser_t) :
  type node = SQFS_INODE_FILE ->
  data node = DataFile fi ->
  write_inode_record parent node s = Some (node', s') ->
  let n := Z.to_nat (fi_size fi / block_size (super (s_info s))) in
  block_size (super (s_info s)) <> 0 /\
  (n <= length (fi_blocksizes fi))%nat /\
  meta_writer_append (s_im s)
    (bytes_file (mk_file (htole32 (fi_startblock fi)) (htole32 (fi_fragment fi))
                         (htole32 (fi_fragment_offset fi)) (htole32 (fi_size fi)))
     ++ bytes_blocks (map u32 (firstn n (fi_blocksizes fi)))) = Some (s_im s').
Proof.
  intros Ht Hd H. unfold write_inode_record in H. rewrite Ht, Hd in H.
  cbv zeta in H. cbn [Z.eqb SQFS_INODE_FILE SQFS_INODE_FIFO SQFS_INODE_SOCKET
                      SQFS_INODE_SLINK SQFS_INODE_BDEV SQFS_INODE_CDEV
                      SQFS_INODE_EXT_FILE Pos.eqb orb] in H.
  step_append H Ea Ei Ed. step_blocks H Eb Ez En Ei2 Ed2. step_ret H.
  rewrite Ei in *. cbv zeta in *.
  split; [exact Ez|]. split; [exact En|].
  eapply meta_writer_append_app_Some; [exact Ea|exact Eb].
Qed.

(** The second switch for a symlink. *)
Lemma write_inode_record_slink (parent : option Z) (node node' : tree_node_t)
      (target : list Z) (s s' : ser_t) :
  type node = SQFS_INODE_SLINK ->
  data node = DataSlink target ->
  write_inode_record parent node s = Some (node', s') ->
  exists nl,
    hard_link_count node = Some nl /\
    meta_writer_append (s_im s)
      (bytes_slink (mk_slink (htole32 nl) (htole32 (strlen target)))
       ++ firstn (Z.to_nat (u32 (u32 (strlen target)))) target) = Some (s_im s').
Proof.
  intros Ht Hd H. unfold write_inode_record in H. rewrite Ht, Hd in H.
  cbv zeta in H. cbn [Z.eqb SQFS_INODE_FIFO SQFS_INODE_SOCKET
                      SQFS_INODE_SLINK Pos.eqb orb] in H.
  step_lift H nl El. step_append H Ea Ei Ed. step_append H Ea2 Ei2 Ed2. step_ret H.
  exists nl. split; [exact El|].
  eapply meta_writer_append_app_Some; [exact Ea|exact Ea2].
Qed.

(** The second switch for a directory, basic and extended. *)
Lemma write_inode_record_dir (parent : option Z) (node node' : tree_node_t)
      (di : dir_info_t tree_node_t) (s s' : ser_t) :
  data node = DataDir di ->
  write_inode_record parent node s = Some (node', s') ->
  exists nl,
    hard_link_count node = Some nl /\
    (type node = SQFS_INODE_DIR ->
     meta_writer_append (s_im s)
       (bytes_dir (mk_dir (htole32 (di_start_block di)) (htole32 nl)
                          (htole16 (di_size di)) (htole16 (di_block_offset di))
                          (parent_inode parent))) = Some (s_im s')) /\
    (type node = SQFS_INODE_EXT_DIR ->
     meta_writer_append (s_im s)
       (bytes_dir_ext (mk_dir_ext (htole32 nl) (htole32 (di_size di))
                                  (htole32 (di_start_block di)) (parent_inode parent)
                                  (htole16 (htole32 0)) (htole16 (di_block_offset di))
                                  (htole32 0xFFFFFFFF))) = Some (s_im s')).
Proof.
  intros Hd H. unfold write_inode_record in H. rewrite Hd in H. cbv zeta in H.
  destruct ((type node =? SQFS_INODE_FIFO) || (type node =? SQFS_INODE_SOCKET)) eqn:T1.
  { apply orb_true_iff in T1.
    step_lift H nl El. step_append H Ea Ei Ed. step_ret H.
    exists nl. split; [exact El|].
    split; intros Ht; rewrite Ht in T1; destruct T1 as [T|T]; discriminate T. }
  destruct (type node =? SQFS_INODE_SLINK) eqn:T2; [discriminate H|].
  destruct ((type node =? SQFS_INODE_BDEV) || (type node =? SQFS_INODE_CDEV)) eqn:T3;
    [discriminate H|].
  destruct (type node =? SQFS_INODE_EXT_FILE) eqn:T4; [discriminate H|].
  destruct (type node =? SQFS_INODE_FILE) eqn:T5; [discriminate H|].
  destruct (type node =? SQFS_INODE_DIR) eqn:T6.
  { apply Z.eqb_eq in T6.
    step_lift H nl El. step_append H Ea Ei Ed. step_ret H.
    exists nl. split; [exact El|].
    split; intros Ht; [exact Ea|]. rewrite T6 in Ht. discriminate Ht. }
  destruct (type node =? SQFS_INODE_EXT_DIR) eqn:T7; [|discriminate H].
  apply Z.eqb_eq in T7.
  step_lift H nl El. step_append H Ea Ei Ed. step_ret H.
  exists nl. split; [exact El|].
  split; intros Ht; [|exact Ea]. rewrite T7 in Ht. discriminate Ht.
Qed.

Lemma mapM_In {A B : Type} (f : A -> M B) (l : list A) :
  forall s r s',
    mapM f l s = Some (r, s') ->
    forall y, In y r -> exists x sa sb, In x l /\ f x sa = Some (y, sb).
Proof.
  induction l as [|x l IH]; intros s r s' H y Hy.
  - apply mapM_nil_inv in H. destruct H as [-> _]. destruct Hy.
  - apply mapM_cons_inv in H. destruct H as (y0 & s1 & ys & Hf & Hm & ->).
    destruct Hy as [<-|Hy].
    + exists x, s, s1. split; [now left|exact Hf].
    + destruct (IH _ _ _ Hm y Hy) as (x' & sa & sb & Hin & Hfx).
      exists x', sa, sb. split; [now right|exact Hfx].
Qed.

End RecordFacts2.

(** X18 (write_inode): the inode of a regular file whose start block and
    size fit into 32 bits.  The node gets the basic file type and the
    record holds start block and size as they are, the fragment index and
    offset cut to 32 bits, and behind it one 32-bit word for each of the
    first size / block_size entries of blocksizes: the whole blocks of the
    file, the rest being left to the fragment.  A block size of 0 makes
    write_inode fail. *)
Theorem write_inode_basic_file_record :
  forall (parent : option Z) (node node' : tree_node_t) (fi : file_info_t)
         (s s' : ser_t),
    write_inode parent node s = Some (node', s') ->
    S_ISREG (mode node) = true ->
    data node = DataFile fi ->
    0 <= fi_startblock fi <= 0xFFFFFFFF ->
    0 <= fi_size fi <= 0xFFFFFFFF ->
    let n := Z.to_nat (fi_size fi / block_size (super (s_info s))) in
    type node' = SQFS_INODE_FILE /\
    block_size (super (s_info s)) <> 0 /\
    (n <= length (fi_blocksizes fi))%nat /\
    exists base,
      base_type base = SQFS_INODE_FILE /\
      meta_writer_append (s_im s)
        (bytes_inode base
         ++ bytes_file (mk_file (fi_startblock fi) (u32 (fi_fragment fi))
                                (u32 (fi_fragment_offset fi)) (fi_size fi))
         ++ bytes_blocks (map u32 (firstn n (fi_blocksizes fi)))) = Some (s_im s').
Proof.
  intros parent node node' fi s s' H Hreg Hd Hsb Hsz n.
  apply RecordFacts.write_inode_steps in H.
  destruct H as (ui & gi & sA & node2 & s2 & s3 & HimA & HdmA & HbsA & Hsel & Hbase
                 & Hi3 & Hd3 & Hrec).
  destruct (RecordFacts.set_ref_num_mode node
              (u64 (Z.lor (Z.shiftl (block_offset (s_im s)) 16) (offset (s_im s))))
              (u32 (inode_counter (s_info s)))) as (Hm1 & Hd1 & _).
  apply RecordFacts.select_inode_type_fields in Hsel.
  destruct Hsel as (Hi2 & Him2 & Hm2 & _ & Hdec).
  unfold type_decided in Hdec. rewrite Hm1, Hd1 in Hdec.
  pose proof (S_ISREG_not_dir _ Hreg) as Hnd.
  destruct Hdec as [(Hdir & _)|(_ & _ & Hd2 & [(_ & fi' & nl & Hfi & Hnl & Ht)|(Hnr & _)])];
    [congruence| |congruence].
  rewrite Hd in Hfi. inversion Hfi; subst fi'; clear Hfi.
  assert (Hnl1 : nl = 1).
  { assert (Hhl : hard_link_count
                    (set_inode_num
                       (set_inode_ref node
                          (u64 (Z.lor (Z.shiftl (block_offset (s_im s)) 16)
                                      (offset (s_im s)))))
                       (u32 (inode_counter (s_info s)))) = Some 1).
    { apply RecordFacts2.hard_link_count_not_dir. rewrite Hm1. exact Hnd. }
    congruence. }
  subst nl.
  replace (fi_startblock fi >? 0xFFFFFFFF) with false in Ht
    by (symmetry; rewrite Z.gtb_ltb; apply Z.ltb_ge; lia).
  replace (fi_size fi >? 0xFFFFFFFF) with false in Ht
    by (symmetry; rewrite Z.gtb_ltb; apply Z.ltb_ge; lia).
  cbn [orb Z.gtb Z.compare] in Ht.
  pose proof Hrec as Hrec'.
  apply write_inode_record_inv in Hrec'. destruct Hrec' as (-> & _).
  split; [exact Ht|].
  assert (Hd2' : data node2 = DataFile fi) by congruence.
  destruct (RecordFacts2.write_inode_record_file _ _ _ _ _ _ Ht Hd2' Hrec)
    as (Hz & Hn & Ha).
  rewrite Hi3, Hi2, HbsA in Hz, Hn, Ha.
  split; [exact Hz|]. split; [exact Hn|].
  eexists. split; [|eapply meta_writer_append_app_Some;
                     [rewrite <- HimA, <- Him2; exact Hbase|]].
  - cbn [base_type]. rewrite Ht. reflexivity.
  - unfold htole32 in Ha. rewrite (u32_small (fi_startblock fi)) in Ha by lia.
    rewrite (u32_small (fi_size fi)) in Ha by lia. exact Ha.
Qed.

Lemma write_inode_basic_file_record_witness :
  exists node' s',
    write_inode None Examples2.big_file (Examples.ser0 Examples.root_only)
    = Some (node', s') /\
    type node' = SQFS_INODE_FILE /\
    Z.to_nat (3145733 / 1048576) = 3%nat.
Proof.
  assert (Hs : Examples2.is_some
                 (write_inode None Examples2.big_file (Examples.ser0 Examples.root_only))
               = true) by (vm_compute; reflexivity).
  destruct (write_inode None Examples2.big_file (Examples.ser0 Examples.root_only))
    as [[node' s']|] eqn:E; [|discriminate Hs].
  exists node', s'. split; [reflexivity|].
  split; [|reflexivity].
  refine (proj1 (write_inode_basic_file_record None Examples2.big_file node'
                   (mk_file_info (3 * 0x100000 + 5) 0 0xFFFFFFFF 0 [1000; 2000; 3000])
                   _ s' E eq_refl eq_refl _ _)); cbn; lia.
Defined.

(** X19 (write_inode): the inode of a symlink.  The record holds the link
    count 1 and the length of the target, and the target follows it in
    full, without a terminating NUL (for a target shorter than 2^32
    bytes). *)
Theorem write_inode_symlink_record :
  forall (parent : option Z) (node node' : tree_node_t) (target : list Z)
         (s s' : ser_t),
    write_inode parent node s = Some (node', s') ->
    Z.land (mode node) S_IFMT = S_IFLNK ->
    data node = DataSlink target ->
    len target < 2 ^ 32 ->
    type node' = SQFS_INODE_SLINK /\
    exists base,
      base_type base = SQFS_INODE_SLINK /\
      meta_writer_append (s_im s)
        (bytes_inode base ++ bytes_slink (mk_slink 1 (len target)) ++ target)
      = Some (s_im s').
Proof.
  intros parent node node' target s s' H Hfmt Hd Hlen.
  apply RecordFacts.write_inode_steps in H.
  destruct H as (ui & gi & sA & node2 & s2 & s3 & HimA & HdmA & HbsA & Hsel & Hbase
                 & Hi3 & Hd3 & Hrec).
  destruct (RecordFacts.set_ref_num_mode node
              (u64 (Z.lor (Z.shiftl (block_offset (s_im s)) 16) (offset (s_im s))))
              (u32 (inode_counter (s_info s)))) as (Hm1 & Hd1 & _).
  pose proof (RecordFacts.select_inode_type_simple _ _ _ _ Hsel) as Hty.
  cbv zeta in Hty. rewrite Hm1, Hfmt in Hty.
  assert (Ht : type node2 = SQFS_INODE_SLINK).
  { destruct Hty as [(E & _)|[(E & _)|[(_ & E)|[(E & _)|[(E & _)|[(E & _)|(E & _)]]]]]];
      try discriminate E. exact E. }
  apply RecordFacts.select_inode_type_fields in Hsel.
  destruct Hsel as (Hi2 & Him2 & Hm2 & _ & Hdec).
  unfold type_decided in Hdec. rewrite Hm1, Hd1 in Hdec.
  assert (Hnd : S_ISDIR (mode node) = false).
  { unfold S_ISDIR. rewrite Hfmt. reflexivity. }
  assert (Hd2 : data node2 = DataSlink target).
  { destruct Hdec as [(Hdir & _)|(_ & _ & Hd2 & _)]; congruence. }
  pose proof Hrec as Hrec'.
  apply write_inode_record_inv in Hrec'. destruct Hrec' as (-> & _).
  split; [exact Ht|].
  destruct (RecordFacts2.write_inode_record_slink _ _ _ _ _ _ Ht Hd2 Hrec)
    as (nl & Hnl & Ha).
  rewrite RecordFacts2.hard_link_count_not_dir in Hnl by congruence.
  inversion Hnl; subst nl; clear Hnl.
  pose proof (len_nonneg target) as Hpos.
  unfold htole32, strlen in Ha.
  rewrite !(u32_small (len target)) in Ha by lia.
  rewrite (RecordFacts2.firstn_len_all target (len target) eq_refl) in Ha.
  change (u32 1) with 1 in Ha.
  eexists. split; [|eapply meta_writer_append_app_Some;
                     [rewrite <- HimA, <- Him2; exact Hbase|exact Ha]].
  cbn [base_type]. rewrite Ht. reflexivity.
Qed.

Lemma write_inode_symlink_record_witness :
  exists node' s',
    write_inode None Examples2.slink_node (Examples.ser0 Examples.root_only)
    = Some (node', s') /\
    type node' = SQFS_INODE_SLINK.
Proof.
  assert (Hs : Examples2.is_some
                 (write_inode None Examples2.slink_node
                              (Examples.ser0 Examples.root_only)) = true)
    by (vm_compute; reflexivity).
  destruct (write_inode None Examples2.slink_node (Examples.ser0 Examples.root_only))
    as [[node' s']|] eqn:E; [|discriminate Hs].
  exists node', s'. split; [reflexivity|].
  refine (proj1 (write_inode_symlink_record None Examples2.slink_node node'
                   [47; 116; 109; 112] _ s' E eq_refl eq_refl _)).
  reflexivity.
Defined.

(** X20 (write_inode, write_dir): the inode of a directory points at its
    listing.  write_inode first has write_dir append the listing to the
    directory writer; the record then holds the place of the listing (the
    block offset and the byte offset of the directory writer as they were
    before), its size, and as parent_inode the inode number of the parent
    as it stands when the inode is written, or 1 for a node without
    parent.  The basic form, which stores the size in 16 bits, is chosen
    only when size and start block fit; the extended form stores both cut
    to 32 bits. *)
Theorem write_inode_directory_record :
  forall (parent : option Z) (node node' : tree_node_t)
         (di : dir_info_t tree_node_t) (s s' : ser_t),
    write_inode parent node s = Some (node', s') ->
    S_ISDIR (mode node) = true ->
    data node = DataDir di ->
    writer_ok (s_dm s) ->
    block_offset (s_dm s) < 2 ^ 64 ->
    exists di' nl,
      write_dir (s_dm s) di = Some (s_dm s', di') /\
      data node' = DataDir di' /\
      di_start_block di' = block_offset (s_dm s) /\
      di_block_offset di' = offset (s_dm s) /\
      hard_link_count node = Some nl /\
      let up := match parent with Some p => u32 p | None => 1 end in
      (type node' = SQFS_INODE_DIR ->
       di_size di' <= 0xFFFF /\ di_start_block di' <= 0xFFFFFFFF /\
       exists base,
         meta_writer_append (s_im s)
           (bytes_inode base
            ++ bytes_dir (mk_dir (di_start_block di') (u32 nl) (di_size di')
                                 (offset (s_dm s)) up)) = Some (s_im s')) /\
      (type node' = SQFS_INODE_EXT_DIR ->
       exists base,
         meta_writer_append (s_im s)
           (bytes_inode base
            ++ bytes_dir_ext (mk_dir_ext (u32 nl) (u32 (di_size di'))
                                         (u32 (di_start_block di')) up 0
                                         (offset (s_dm s)) 0xFFFFFFFF))
         = Some (s_im s')).
Proof.
  intros parent node node' di s s' H Hdir Hd (Hbo & Hoff & Hrange) Hsmall.
  apply RecordFacts.write_inode_steps in H.
  destruct H as (ui & gi & sA & node2 & s2 & s3 & HimA & HdmA & HbsA & Hsel & Hbase
                 & Hi3 & Hd3 & Hrec).
  destruct (RecordFacts.set_ref_num_mode node
              (u64 (Z.lor (Z.shiftl (block_offset (s_im s)) 16) (offset (s_im s))))
              (u32 (inode_counter (s_info s)))) as (Hm1 & Hd1 & _).
  apply RecordFacts.select_inode_type_fields in Hsel.
  destruct Hsel as (Hi2 & Him2 & Hm2 & _ & Hdec).
  unfold type_decided in Hdec. rewrite Hm1, Hd1, HdmA in Hdec.
  destruct Hdec as [(_ & di0 & di' & Hdi & W & Hd2 & Ht)|(Hnd & _)]; [|congruence].
  rewrite Hd in Hdi. inversion Hdi; subst di0; clear Hdi.
  pose proof Hrec as Hrec'.
  apply write_inode_record_inv in Hrec'. destruct Hrec' as (-> & _ & Hdm' & _).
  destruct (RecordFacts2.write_inode_record_dir _ _ _ _ _ _ Hd2 Hrec)
    as (nl & Hnl & Hnarrow & Hext).
  destruct (write_dir_emits _ _ _ _ W) as (_ & _ & _ & Hch & Hsb & Hbo').
  pose proof (len_nonneg (written (s_dm s))) as Hpos.
  unfold SQFS_META_BLOCK_SIZE in Hrange.
  assert (Hoff' : di_block_offset di' = offset (s_dm s)).
  { rewrite Hbo'. apply u32_small. lia. }
  assert (Hsb' : di_start_block di' = block_offset (s_dm s)).
  { rewrite Hsb. apply u64_small. lia. }
  assert (Hnl' : hard_link_count node = Some nl).
  { rewrite <- Hnl. symmetry. rewrite Hm1 in Hm2.
    apply hard_link_count_ext; [exact Hm2|].
    right. exists di, di'. split; [exact Hd|]. split; [exact Hd2|exact Hch]. }
  assert (Hsize : 0 <= di_size di' < 2 ^ 64).
  { unfold write_dir in W.
    destruct (write_dir_loop _ _ _ _) as [[dm2 size]|] eqn:EL; [|discriminate W].
    inversion W; subst di'. cbn [di_size].
    apply DirMore.write_dir_loop_size in EL; [|lia]. rewrite EL. apply u64_range. }
  assert (Hup : parent_inode parent
                = match parent with Some p => u32 p | None => 1 end).
  { destruct parent; reflexivity. }
  assert (Hbase' : meta_writer_append (s_im s)
                     (bytes_inode
                        (mk_inode (htole16 (type node2)) (htole16 (mode node2))
                           (htole16 ui) (htole16 gi)
                           (htole32 (def_mtime (opt (s_info s))))
                           (htole32 (inode_num node2)))) = Some (s_im s3)).
  { rewrite <- HimA, <- Him2. exact Hbase. }
  exists di', nl.
  split; [rewrite Hdm', Hd3; exact W|]. split; [exact Hd2|].
  split; [exact Hsb'|]. split; [exact Hoff'|]. split; [exact Hnl'|].
  cbv zeta. rewrite <- Hup. split.
  - intros Hty. rewrite Hty in Ht.
    destruct (di_start_block di' >? 0xFFFFFFFF) eqn:C1; [discriminate Ht|].
    destruct (di_size di' >? 0xFFFF) eqn:C2; [discriminate Ht|].
    rewrite Z.gtb_ltb in C1, C2. apply Z.ltb_ge in C1, C2.
    split; [exact C2|]. split; [exact C1|].
    eexists. eapply meta_writer_append_app_Some; [exact Hbase'|].
    specialize (Hnarrow Hty). unfold htole32, htole16 in Hnarrow.
    rewrite (u32_small (di_start_block di')) in Hnarrow by lia.
    rewrite (u16_small (di_size di')) in Hnarrow by lia.
    rewrite Hoff', (u16_small (offset (s_dm s))) in Hnarrow by lia.
    exact Hnarrow.
  - intros Hty.
    eexists. eapply meta_writer_append_app_Some; [exact Hbase'|].
    specialize (Hext Hty). unfold htole32, htole16 in Hext.
    rewrite Hoff', (u16_small (offset (s_dm s))) in Hext by lia.
    exact Hext.
Qed.

(** A directory with two children, written below the parent numbered 7
    while the directory writer stands at byte 40 of the block at 8194: the
    listing of 31 bytes goes there, and the record says so. *)
Lemma write_inode_directory_record_witness :
  exists node' s' di' base,
    write_inode (Some 7) Examples2.dir_with_children Examples2.ser_busy
    = Some (node', s') /\
    data node' = DataDir di' /\
    di_start_block di' = 8194 /\
    di_block_offset di' = 40 /\
    di_size di' = 31 /\
    type node' = SQFS_INODE_DIR /\
    meta_writer_append (s_im Examples2.ser_busy)
      (bytes_inode base ++ bytes_dir (mk_dir 8194 4 31 40 7)) = Some (s_im s').
Proof.
  assert (Hs : match write_inode (Some 7) Examples2.dir_with_children
                                 Examples2.ser_busy with
               | Some (n', _) =>
                   (type n' =? SQFS_INODE_DIR)
                   && match data n' with
                      | DataDir d => di_size d =? 31
                      | _ => false
                      end
               | None => false
               end = true) by (vm_compute; reflexivity).
  destruct (write_inode (Some 7) Examples2.dir_with_children Examples2.ser_busy)
    as [[node' s']|] eqn:E; [|discriminate Hs].
  apply andb_prop in Hs. destruct Hs as (Hty & Hsz). apply Z.eqb_eq in Hty.
  assert (Hok : writer_ok (s_dm Examples2.ser_busy)).
  { unfold writer_ok. split; [reflexivity|]. split; [reflexivity|].
    split; [intro Hc; discriminate Hc|reflexivity]. }
  destruct (write_inode_directory_record (Some 7) Examples2.dir_with_children node'
              (mk_dir_info [Examples.written_file [97] 2 0;
                            Examples.written_file [98; 99] 3 32] 0 0 0)
              _ s' E eq_refl eq_refl Hok eq_refl)
    as (di' & nl & _ & Hd & Hsb & Hbo & Hnl & Hnarrow & _).
  rewrite Hd in Hsz. apply Z.eqb_eq in Hsz.
  assert (Hnl' : nl = 4) by (vm_compute in Hnl; inversion Hnl; reflexivity).
  subst nl.
  destruct (Hnarrow Hty) as (_ & _ & base & Ha).
  rewrite Hsb, Hsz in Ha.
  exists node', s', di', base.
  split; [reflexivity|]. split; [exact Hd|]. split; [exact Hsb|].
  split; [exact Hbo|]. split; [exact Hsz|]. split; [exact Hty|exact Ha].
Defined.

Module RecordFacts3.
Import RecordFacts RecordFacts2.

(** The round of a loop that made the [i]-th result: the node it took and
    the state the rounds before it had left. *)
Lemma mapM_nth {A B : Type} (f : A -> M B) (l : list A) :
  forall s r s',
    mapM f l s = Some (r, s') ->
    forall i y, nth_error r i = Some y ->
      exists x sa sb,
        nth_error l i = Some x /\
        mapM f (firstn i l) s = Some (firstn i r, sa) /\
        f x sa = Some (y, sb).
Proof.
  induction l as [|x l IH]; intros s r s' H i y Hy.
  - apply mapM_nil_inv in H. destruct H as [-> _]. destruct i; discriminate Hy.
  - apply mapM_cons_inv in H. destruct H as (y0 & s1 & ys & Hf & Hm & ->).
    destruct i as [|i]; cbn [nth_error] in Hy.
    + inversion Hy; subst y0. exists x, s, s1.
      split; [reflexivity|]. split; [reflexivity|exact Hf].
    + destruct (IH _ _ _ Hm i y Hy) as (x' & sa & sb & Hx & Hpre & Hfx).
      exists x', sa, sb. split; [exact Hx|]. split; [|exact Hfx].
      cbn [firstn mapM]. unfold bind. rewrite Hf, Hpre. reflexivity.
Qed.

(** The bytes that write_inode appends for a directory: the common part
    and the directory record, which holds the place and the size of the
    listing as the node has them, and the parent handed to write_inode. *)
Lemma write_inode_dir_bytes (parent : option Z) (node node' : tree_node_t) (s s' : ser_t) :
  write_inode parent node s = Some (node', s') ->
  S_ISDIR (mode node') = true ->
  exists di nl base,
    data node' = DataDir di /\
    hard_link_count node' = Some nl /\
    (type node' = SQFS_INODE_DIR ->
     meta_writer_append (s_im s)
       (bytes_inode base
        ++ bytes_dir (mk_dir (htole32 (di_start_block di)) (htole32 nl)
                             (htole16 (di_size di)) (htole16 (di_block_offset di))
                             (parent_inode parent))) = Some (s_im s')) /\
    (type node' = SQFS_INODE_EXT_DIR ->
     meta_writer_append (s_im s)
       (bytes_inode base
        ++ bytes_dir_ext (mk_dir_ext (htole32 nl) (htole32 (di_size di))
                                     (htole32 (di_start_block di)) (parent_inode parent)
                                     (htole16 (htole32 0))
                                     (htole16 (di_block_offset di))
                                     (htole32 0xFFFFFFFF))) = Some (s_im s')).
Proof.
  intros H Hdir.
  pose proof (write_inode_shape _ _ _ _ _ H) as (Hmode & _).
  rewrite Hmode in Hdir.
  apply write_inode_steps in H.
  destruct H as (ui & gi & sA & node2 & s2 & s3 & HimA & HdmA & HbsA & Hsel & Hbase
                 & Hi3 & Hd3 & Hrec).
  destruct (set_ref_num_mode node
              (u64 (Z.lor (Z.shiftl (block_offset (s_im s)) 16) (offset (s_im s))))
              (u32 (inode_counter (s_info s)))) as (Hm1 & Hd1 & _).
  apply select_inode_type_fields in Hsel.
  destruct Hsel as (Hi2 & Him2 & Hm2 & _ & Hdec).
  unfold type_decided in Hdec. rewrite Hm1 in Hdec.
  destruct Hdec as [(_ & di0 & di' & Hdi & W & Hd2 & Ht)|(Hnd & _)]; [|congruence].
  pose proof Hrec as Hrec'.
  apply write_inode_record_inv in Hrec'. destruct Hrec' as (-> & _).
  destruct (write_inode_record_dir _ _ _ _ _ _ Hd2 Hrec) as (nl & Hnl & Hnarrow & Hext).
  assert (Hbase' : meta_writer_append (s_im s)
                     (bytes_inode
                        (mk_inode (htole16 (type node2)) (htole16 (mode node2))
                           (htole16 ui) (htole16 gi)
                           (htole32 (def_mtime (opt (s_info s))))
                           (htole32 (inode_num node2)))) = Some (s_im s3)).
  { rewrite <- HimA, <- Him2. exact Hbase. }
  exists di', nl. eexists.
  split; [exact Hd2|]. split; [exact Hnl|].
  split; intros Hty; (eapply meta_writer_append_app_Some; [exact Hbase'|]);
    [exact (Hnarrow Hty)|exact (Hext Hty)].
Qed.

End RecordFacts3.

(** X21 (sqfs_write_inodes, write_child_inodes): the parent_inode of the
    directories below the root.  The run of sqfs_write_inodes first
    descends into the directories among the children of the root, then
    writes the children one after the other with the root as parent, and
    only then the root.  The record of every child that is a directory
    therefore holds as parent_inode the inode number the root had when
    sqfs_write_inodes was entered, not the number the root is given at the
    end, which is the value of the inode counter after all children.  The
    root itself is written without parent: its record holds the
    parent_inode 1. *)
Theorem children_written_before_parent_is_numbered :
  forall (tmpfd : Z) (info info' : sqfs_info_t) (image image' : list Z),
    sqfs_write_inodes tmpfd info image = Some (info', image') ->
    let s0 := mk_ser (set_inode_counter info 2)
                     (meta_writer_create (info_outfd info) (info_cmp info))
                     (meta_writer_create tmpfd (info_cmp info)) in
    let up := inode_num (root (fs info)) in
    let kids := children (root (fs info')) in
    exists cs1 s1 s2 root1 s3,
      write_subdirs (children (root (fs info))) s0 = Some (cs1, s1) /\
      mapM (write_inode (Some up)) cs1 s1 = Some (kids, s2) /\
      write_child_inodes (root (fs info)) s0 = Some (root1, s2) /\
      children root1 = kids /\
      inode_num root1 = up /\
      write_inode None root1 s2 = Some (root (fs info'), s3) /\
      inode_num (root (fs info')) = u32 (inode_counter (s_info s2)) /\
      (forall i child',
         nth_error kids i = Some child' ->
         exists child sa sb,
           nth_error cs1 i = Some child /\
           mapM (write_inode (Some up)) (firstn i cs1) s1 = Some (firstn i kids, sa) /\
           write_inode (Some up) child sa = Some (child', sb) /\
           (S_ISDIR (mode child') = true ->
            exists di nl base,
              data child' = DataDir di /\
              hard_link_count child' = Some nl /\
              (type child' = SQFS_INODE_DIR ->
               meta_writer_append (s_im sa)
                 (bytes_inode base
                  ++ bytes_dir (mk_dir (htole32 (di_start_block di)) (htole32 nl)
                                       (htole16 (di_size di))
                                       (htole16 (di_block_offset di))
                                       (u32 up))) = Some (s_im sb)) /\
              (type child' = SQFS_INODE_EXT_DIR ->
               meta_writer_append (s_im sa)
                 (bytes_inode base
                  ++ bytes_dir_ext (mk_dir_ext (htole32 nl) (htole32 (di_size di))
                                               (htole32 (di_start_block di)) (u32 up)
                                               (htole16 (htole32 0))
                                               (htole16 (di_block_offset di))
                                               (htole32 0xFFFFFFFF)))
               = Some (s_im sb)))) /\
      (S_ISDIR (mode (root (fs info'))) = true ->
       exists di nl base,
         data (root (fs info')) = DataDir di /\
         hard_link_count (root (fs info')) = Some nl /\
         (type (root (fs info')) = SQFS_INODE_DIR ->
          meta_writer_append (s_im s2)
            (bytes_inode base
             ++ bytes_dir (mk_dir (htole32 (di_start_block di)) (htole32 nl)
                                  (htole16 (di_size di))
                                  (htole16 (di_block_offset di)) 1))
          = Some (s_im s3)) /\
         (type (root (fs info')) = SQFS_INODE_EXT_DIR ->
          meta_writer_append (s_im s2)
            (bytes_inode base
             ++ bytes_dir_ext (mk_dir_ext (htole32 nl) (htole32 (di_size di))
                                          (htole32 (di_start_block di)) 1
                                          (htole16 (htole32 0))
                                          (htole16 (di_block_offset di))
                                          (htole32 0xFFFFFFFF)))
          = Some (s_im s3))).
Proof.
  intros tmpfd info info' image image' H s0 up kids.
  apply sqfs_write_inodes_inv in H.
  destruct H as (root1 & s2 & root2 & s3 & im' & dm' & Hc & Hw & _ & _ & Hfs & _).
  fold s0 in Hc.
  assert (Hr2 : root (fs info') = root2) by (rewrite Hfs; reflexivity).
  unfold kids. rewrite Hr2. clear kids.
  destruct (write_inode_shape _ _ _ _ _ Hw) as (_ & Hch & Hnum & _).
  assert (Hparts : exists cs1 s1,
             write_subdirs (children (root (fs info))) s0 = Some (cs1, s1) /\
             mapM (write_inode (Some up)) cs1 s1 = Some (children root1, s2) /\
             inode_num root1 = up).
  { pose proof Hc as Hc'. unfold up. clearbody s0.
    destruct (root (fs info)) as [a d]. cbn [write_child_inodes] in Hc'.
    destruct d as [di| | |]; try discriminate Hc'.
    apply bind_inv in Hc'. destruct Hc' as (cs1 & st1 & E & Hc'). cbv beta zeta in Hc'.
    apply bind_inv in Hc'. destruct Hc' as (cs2 & st2 & E0 & Hc'). cbv beta zeta in Hc'.
    apply ret_inv in Hc'. inversion Hc'; subst root1 st2; clear Hc'.
    exists cs1, st1. split; [exact E|]. split; [exact E0|reflexivity]. }
  destruct Hparts as (cs1 & s1 & Hsub & Hloop & Hup).
  exists cs1, s1, s2, root1, s3.
  rewrite Hch.
  split; [exact Hsub|]. split; [exact Hloop|]. split; [exact Hc|].
  split; [reflexivity|]. split; [exact Hup|]. split; [exact Hw|].
  split; [exact Hnum|]. split.
  - intros i child' Hi.
    destruct (RecordFacts3.mapM_nth _ _ _ _ _ Hloop i child' Hi)
      as (child & sa & sb & Hx & Hpre & Hf).
    exists child, sa, sb.
    split; [exact Hx|]. split; [exact Hpre|]. split; [exact Hf|].
    intros Hdir. exact (RecordFacts3.write_inode_dir_bytes _ _ _ _ _ Hf Hdir).
  - intros Hdir. exact (RecordFacts3.write_inode_dir_bytes _ _ _ _ _ Hw Hdir).
Qed.

(** /a, /b/c, /d: the root comes in with the inode number 0 and leaves with
    6; the record of the directory b holds the parent_inode 0. *)
Lemma children_written_before_parent_is_numbered_witness :
  exists info' image' child' sa sb di nl base,
    sqfs_write_inodes 4 (Examples.info0 Examples.small_tree) Examples.image0
    = Some (info', image') /\
    inode_num (root (fs (Examples.info0 Examples.small_tree))) = 0 /\
    inode_num (root (fs info')) = 6 /\
    nth_error (children (root (fs info'))) 1 = Some child' /\
    type child' = SQFS_INODE_DIR /\
    data child' = DataDir di /\
    meta_writer_append (s_im sa)
      (bytes_inode base
       ++ bytes_dir (mk_dir (htole32 (di_start_block di)) (htole32 nl)
                            (htole16 (di_size di)) (htole16 (di_block_offset di)) 0))
    = Some (s_im sb).
Proof.
  assert (Hs : match sqfs_write_inodes 4 (Examples.info0 Examples.small_tree)
                                       Examples.image0 with
               | Some (i, _) =>
                   (inode_num (root (fs i)) =? 6)
                   && match nth_error (children (root (fs i))) 1 with
                      | Some c => (type c =? SQFS_INODE_DIR) && S_ISDIR (mode c)
                      | None => false
                      end
               | None => false
               end = true) by (vm_compute; reflexivity).
  destruct (sqfs_write_inodes 4 (Examples.info0 Examples.small_tree) Examples.image0)
    as [[info' image']|] eqn:E; [|discriminate Hs].
  apply andb_prop in Hs. destruct Hs as (Hnum & Hs). apply Z.eqb_eq in Hnum.
  destruct (nth_error (children (root (fs info'))) 1) as [child'|] eqn:En;
    [|discriminate Hs].
  apply andb_prop in Hs. destruct Hs as (Hty & Hdir). apply Z.eqb_eq in Hty.
  destruct (children_written_before_parent_is_numbered _ _ _ _ _ E)
    as (cs1 & s1 & s2 & root1 & s3 & _ & _ & _ & _ & _ & _ & _ & Hkids & _).
  destruct (Hkids 1%nat child' En) as (child & sa & sb & _ & _ & _ & Hrec).
  destruct (Hrec Hdir) as (di & nl & base & Hd & _ & Hn & _).
  exists info', image', child', sa, sb, di, nl, base.
  split; [reflexivity|]. split; [reflexivity|]. split; [exact Hnum|].
  split; [exact En|]. split; [exact Hty|]. split; [exact Hd|].
  exact (Hn Hty).
Defined.

(* ===================================================================== *)
(** ** sqfs_data_reader_dump                                           *)
(* ===================================================================== *)

Module ReaderFacts.
Import Dump DumpReader DumpViews DumpFacts IoViews IoFacts.

Lemma append_block_returns_0 (ws : list write_result) (blk : sqfs_block_t) r st rest :
  append_block ws blk = Some (r, st, rest) -> r = 0.
Proof. exact (append_block_loop_returns_0 ws blk _ r st rest). Qed.

(** One call that takes the whole block. *)
Lemma append_block_full_write (blk : sqfs_block_t) (rest : list write_result) :
  0 < blk_size blk < 2 ^ 64 ->
  exists st,
    append_block (full_write blk :: rest) blk = Some (0, st, rest) /\
    output st = firstn (Z.to_nat (blk_size blk)) (blk_data blk) /\
    stderr st = [].
Proof.
  intros Hs.
  destruct (append_block_loop_answers blk [(0%nat, blk_size blk)]
              ltac:(constructor; [cbn; lia|constructor]) rest
              (mk_loop_state 0 (blk_size blk) [] []))
    as (st & Hrun & _ & He & Ho); cbn [size ptr total fold_right snd]; try lia.
  exists st. split; [exact Hrun|]. split; [|exact He].
  rewrite Ho. cbn [output app total fold_right snd]. rewrite Z.add_0_r. reflexivity.
Qed.

Lemma put_block_inv (blk : sqfs_block_t) (st st' : dump_state) (r : Z) :
  put_block blk st = Some (r, st') ->
  r = 0 /\ filesz st' = filesz st /\ seeks st' = seeks st /\
  (exists bytes, events st' = events st ++ [Append bytes]) /\
  (exists ms, messages st' = messages st ++ map from_append_block ms).
Proof.
  unfold put_block. intros H.
  destruct (append_block (writes st) blk) as [[[r0 lst] ws']|] eqn:E; [|discriminate H].
  inversion H; subst r st'; clear H. cbn.
  split; [exact (append_block_returns_0 _ _ _ _ _ E)|]. eauto 8.
Qed.

Lemma put_block_full (blk : sqfs_block_t) (st : dump_state) (rest : list write_result) :
  0 < blk_size blk < 2 ^ 64 ->
  writes st = full_write blk :: rest ->
  put_block blk st
  = Some (0, mk_dump_state (filesz st) (events st ++ [whole_block blk])
                           (messages st) rest (seeks st)).
Proof.
  intros Hs Hw. unfold put_block. rewrite Hw.
  destruct (append_block_full_write blk rest Hs) as (lst & -> & Ho & He).
  rewrite Ho, He. cbn [map]. rewrite app_nil_r. reflexivity.
Qed.

Section ReaderProofs.
Variable SQFS_IS_SPARSE_BLOCK : Z -> bool.
Variable sqfs_inode_get_file_size : sqfs_inode_generic_t -> Z.
Variable sqfs_data_reader_get_block : sqfs_inode_generic_t -> Z -> Z * sqfs_block_t.
Variable sqfs_data_reader_get_fragment : sqfs_inode_generic_t -> Z * sqfs_block_t.

Local Abbreviation dump_blocks' :=
  (dump_blocks SQFS_IS_SPARSE_BLOCK sqfs_data_reader_get_block).
Local Abbreviation dump' :=
  (sqfs_data_reader_dump SQFS_IS_SPARSE_BLOCK sqfs_inode_get_file_size
                         sqfs_data_reader_get_block sqfs_data_reader_get_fragment).

Lemma Forall_warning_app (ms : list dump_message) (l : list message) :
  Forall is_warning ms -> Forall is_warning (ms ++ map from_append_block l).
Proof.
  intros H. apply Forall_app. split; [exact H|].
  apply Forall_forall. intros m Hin. apply in_map_iff in Hin.
  destruct Hin as (a & <- & _). now exists a.
Qed.

Lemma dump_blocks_run_ok (inode : sqfs_inode_generic_t) (block_size : Z)
      (allow_sparse : bool) (sk : list bool) (n : nat) :
  forall i st r st',
    dump_blocks' n i inode block_size allow_sparse st = Some (r, st') ->
    run_ok allow_sparse sk 0 st ->
    run_ok allow_sparse sk r st'.
Proof.
  induction n as [|n IH]; intros i st r st' H Hok; cbn [dump_blocks] in H.
  - inversion H; subst. exact Hok.
  - destruct (nth_error (block_sizes inode) (Z.to_nat i)) as [bs|]; [|discriminate H].
    destruct Hok as (Hev & Hmsg).
    assert (Hw : Forall is_warning (messages st)).
    { destruct Hmsg as [(_ & Hw)|(Hr & _)]; [exact Hw|discriminate Hr]. }
    destruct (SQFS_IS_SPARSE_BLOCK bs && allow_sparse) eqn:Esp.
    + apply andb_true_iff in Esp. destruct Esp as (_ & Has).
      cbv zeta in H.
      set (st1 := if filesz st <? block_size then set_filesz st 0
                  else set_filesz st (u64 (filesz st - block_size))) in *.
      assert (Hm1 : messages st1 = messages st)
        by (unfold st1; destruct (_ <? _); reflexivity).
      destruct (seeks st1) as [|ok rest]; [discriminate H|].
      destruct ok.
      * apply IH in H; [exact H|].
        split; [intros Hc; congruence|].
        left. split; [reflexivity|]. cbn [add_event set_seeks messages].
        rewrite Hm1. exact Hw.
      * inversion H; subst r st'; clear H.
        split; [intros Hc; congruence|].
        right. split; [reflexivity|].
        exists (messages st), creating_sparse_output_file.
        cbn [add_message set_seeks messages]. rewrite Hm1.
        split; [reflexivity|]. split; [exact Hw|].
        split; [right; right; reflexivity|intros Hc; congruence].
    + destruct (sqfs_data_reader_get_block inode i) as [err blk].
      destruct (negb (err =? 0)).
      * inversion H; subst r st'; clear H.
        split; [exact Hev|].
        right. split; [reflexivity|].
        exists (messages st), (reading_data_block err). cbn [add_message messages].
        split; [reflexivity|]. split; [exact Hw|].
        split; [left; eauto|intros _ Hc; discriminate Hc].
      * destruct (put_block blk st) as [[r1 st1]|] eqn:Ep; [|discriminate H].
        destruct (put_block_inv _ _ _ _ Ep) as (-> & Hf & Hs & (b & Hb) & (ms & Hms)).
        cbn [Z.eqb negb] in H.
        apply IH in H; [exact H|].
        split.
        -- intros Hc. destruct (Hev Hc) as (He & Hk).
           cbn [set_filesz events seeks]. rewrite Hb, Hs.
           split; [|exact Hk].
           apply Forall_app. split; [exact He|].
           constructor; [now exists b|constructor].
        -- left. split; [reflexivity|]. cbn [set_filesz messages]. rewrite Hms.
           now apply Forall_warning_app.
Qed.

Lemma dump_run_ok (inode : sqfs_inode_generic_t) (block_size : Z)
      (allow_sparse ft : bool) (ws : list write_result) (sk : list bool)
      (r : Z) (st : dump_state) :
  dump' inode block_size allow_sparse ft ws sk = Some (r, st) ->
  run_ok allow_sparse sk r st.
Proof.
  unfold sqfs_data_reader_dump. cbv zeta. intros H.
  destruct (allow_sparse && negb ft) eqn:Eft.
  { inversion H; subst r st; clear H.
    apply andb_true_iff in Eft. destruct Eft as (Has & _).
    split; [intros Hc; congruence|].
    right. split; [reflexivity|]. exists [], creating_sparse_output_file.
    cbn. split; [reflexivity|]. split; [constructor|].
    split; [right; right; reflexivity|intros Hc; congruence]. }
  match type of H with
  | match dump_blocks _ _ ?n ?i _ _ _ ?s0 with _ => _ end = _ =>
      destruct (dump_blocks' n i inode block_size allow_sparse s0)
        as [[r1 st1]|] eqn:El; [|discriminate H];
      assert (Hok1 : run_ok allow_sparse sk r1 st1)
  end.
  { eapply dump_blocks_run_ok; [exact El|].
    split.
    - intros ->. cbn. split; [constructor|reflexivity].
    - left. split; [reflexivity|]. destruct allow_sparse; cbn; constructor. }
  destruct (negb (r1 =? 0)) eqn:Er.
  { inversion H; subst r st; clear H. exact Hok1. }
  apply negb_false_iff, Z.eqb_eq in Er. subst r1.
  destruct Hok1 as (Hev & Hmsg).
  assert (Hw : Forall is_warning (messages st1)).
  { destruct Hmsg as [(_ & Hw)|(Hr & _)]; [exact Hw|discriminate Hr]. }
  destruct (filesz st1 >? 0).
  - destruct (sqfs_data_reader_get_fragment inode) as [err blk].
    destruct (negb (err =? 0)).
    + inversion H; subst r st; clear H.
      split; [exact Hev|].
      right. split; [reflexivity|].
      exists (messages st1), (reading_fragment_block err). cbn [add_message messages].
      split; [reflexivity|]. split; [exact Hw|].
      split; [right; left; eauto|intros _ Hc; discriminate Hc].
    + destruct (put_block blk st1) as [[r2 st2]|] eqn:Ep; [|discriminate H].
      destruct (put_block_inv _ _ _ _ Ep) as (-> & Hf & Hs & (b & Hb) & (ms & Hms)).
      cbn [Z.eqb negb] in H. inversion H; subst r st; clear H.
      split.
      * intros Hc. destruct (Hev Hc) as (He & Hk). rewrite Hb, Hs.
        split; [|exact Hk].
        apply Forall_app. split; [exact He|].
        constructor; [now exists b|constructor].
      * left. split; [reflexivity|]. rewrite Hms. now apply Forall_warning_app.
  - inversion H; subst r st; clear H.
    split; [exact Hev|]. left. split; [reflexivity|exact Hw].
Qed.

End ReaderProofs.
End ReaderFacts.
Module ReaderFacts2.
Import Dump DumpReader DumpViews DumpFacts IoViews IoFacts ReaderFacts.

Lemma skips_sum (n : nat) :
  forall f b, 0 <= f -> 0 < b ->
    fold_right Z.add 0 (skips f b n) = Z.min f (Z.of_nat n * b).
Proof.
  induction n as [|n IH]; intros f b Hf Hb; cbn [skips fold_right].
  - cbn. lia.
  - rewrite IH by lia. lia.
Qed.

Lemma nth_error_Some_lt {A : Type} (l : list A) (k : nat) :
  (k < length l)%nat -> exists x, nth_error l k = Some x.
Proof.
  intros H. destruct (nth_error l k) as [x|] eqn:E; [eauto|].
  apply nth_error_None in E. lia.
Qed.

Section ReaderProofs2.
Variable SQFS_IS_SPARSE_BLOCK : Z -> bool.
Variable sqfs_inode_get_file_size : sqfs_inode_generic_t -> Z.
Variable sqfs_data_reader_get_block : sqfs_inode_generic_t -> Z -> Z * sqfs_block_t.
Variable sqfs_data_reader_get_fragment : sqfs_inode_generic_t -> Z * sqfs_block_t.

Local Abbreviation dump_blocks' :=
  (dump_blocks SQFS_IS_SPARSE_BLOCK sqfs_data_reader_get_block).
Local Abbreviation dump' :=
  (sqfs_data_reader_dump SQFS_IS_SPARSE_BLOCK sqfs_inode_get_file_size
                         sqfs_data_reader_get_block sqfs_data_reader_get_fragment).

(** The loop over blocks that are all read and written at once. *)
Lemma dump_blocks_copies (inode : sqfs_inode_generic_t) (block_size : Z)
      (rest : list write_result) (blocks : list sqfs_block_t) :
  forall i st,
    0 <= i ->
    (length blocks + Z.to_nat i <= length (block_sizes inode))%nat ->
    (forall k blk, nth_error blocks k = Some blk ->
       sqfs_data_reader_get_block inode (i + Z.of_nat k) = (0, blk)) ->
    Forall (fun blk => 0 < blk_size blk < 2 ^ 64) blocks ->
    writes st = map full_write blocks ++ rest ->
    exists f,
      u64 f = u64 (filesz st - sizes_sum blocks) /\
      (blocks = [] \/ 0 <= f < 2 ^ 64) /\
      dump_blocks' (length blocks) i inode block_size false st
      = Some (0, mk_dump_state f (events st ++ map whole_block blocks)
                               (messages st) rest (seeks st)).
Proof.
  induction blocks as [|blk blocks IH]; intros i st Hi Hlen Hget Hsz Hw.
  - cbn [length dump_blocks map sizes_sum fold_right app] in *.
    exists (filesz st). rewrite Z.sub_0_r, app_nil_r.
    split; [reflexivity|]. split; [now left|].
    destruct st; cbn in *. now subst.
  - cbn [length dump_blocks].
    destruct (nth_error_Some_lt (block_sizes inode) (Z.to_nat i)) as (bs & ->);
      [cbn [length] in Hlen; lia|].
    rewrite andb_false_r.
    pose proof (Hget 0%nat blk eq_refl) as Hg. cbn in Hg. rewrite Z.add_0_r in Hg.
    rewrite Hg. cbn [Z.eqb negb].
    inversion Hsz as [|? ? Hb Hrest]; subst.
    cbn [map app] in Hw.
    rewrite (put_block_full blk st _ Hb Hw). cbn [Z.eqb negb].
    destruct (IH (i + 1)
                 (set_filesz
                    (mk_dump_state (filesz st) (events st ++ [whole_block blk])
                                   (messages st) (map full_write blocks ++ rest)
                                   (seeks st))
                    (u64 (filesz st - blk_size blk))))
      as (f & Hf & Hr & Hrun).
    + lia.
    + cbn [length] in Hlen. rewrite Z2Nat.inj_add by lia. cbn. lia.
    + intros k b Hk. replace (i + 1 + Z.of_nat k) with (i + Z.of_nat (S k)) by lia.
      apply Hget. exact Hk.
    + exact Hrest.
    + reflexivity.
    + cbn [set_filesz filesz events messages seeks writes] in *.
      exists f. split; [|split].
      * rewrite Hf. cbn [sizes_sum fold_right]. fold (sizes_sum blocks).
        unfold u64. rewrite Zminus_mod_idemp_l. f_equal. lia.
      * right. destruct Hr as [->|Hr]; [|exact Hr].
        cbn [length dump_blocks] in Hrun. inversion Hrun. apply u64_range.
      * rewrite Hrun. cbn [map]. rewrite <- app_assoc. reflexivity.
Qed.

(** The loop over sparse blocks. *)
Lemma dump_blocks_holes (inode : sqfs_inode_generic_t) (block_size : Z)
      (rest : list bool) (n : nat) :
  forall i st,
    0 <= i -> 0 < block_size -> 0 <= filesz st < 2 ^ 64 ->
    (forall k, (Z.to_nat i <= k < Z.to_nat i + n)%nat ->
       exists bs, nth_error (block_sizes inode) k = Some bs /\
                  SQFS_IS_SPARSE_BLOCK bs = true) ->
    seeks st = repeat true n ++ rest ->
    dump_blocks' n i inode block_size true st
    = Some (0, mk_dump_state
                 (filesz st - fold_right Z.add 0 (skips (filesz st) block_size n))
                 (events st ++ map Lseek (skips (filesz st) block_size n))
                 (messages st) (writes st) rest).
Proof.
  induction n as [|n IH]; intros i st Hi Hb Hf Hsp Hsk.
  - cbn [dump_blocks skips map fold_right repeat app] in *.
    rewrite Z.sub_0_r, app_nil_r. destruct st; cbn in *. now subst.
  - cbn [dump_blocks].
    destruct (Hsp (Z.to_nat i) ltac:(lia)) as (bs & -> & ->). cbn [andb].
    cbv zeta.
    assert (Hst : (if filesz st <? block_size then set_filesz st 0
                   else set_filesz st (u64 (filesz st - block_size)))
                  = set_filesz st (filesz st - Z.min (filesz st) block_size)).
    { destruct (Z.ltb_spec (filesz st) block_size).
      - f_equal. lia.
      - rewrite u64_small by lia. f_equal. lia. }
    rewrite Hst. cbn [set_filesz seeks]. rewrite Hsk. cbn [repeat app].
    assert (Hd : (if filesz st <? block_size then filesz st else block_size)
                 = Z.min (filesz st) block_size).
    { destruct (Z.ltb_spec (filesz st) block_size); lia. }
    rewrite Hd.
    rewrite (IH (i + 1));
      cbn [add_event set_seeks set_filesz filesz events messages writes seeks];
      try lia.
    + cbn [skips map fold_right]. rewrite <- app_assoc. cbn [app].
      f_equal. f_equal. f_equal. lia.
    + intros k Hk. apply Hsp. rewrite Z2Nat.inj_add in Hk by lia.
      change (Z.to_nat 1) with 1%nat in Hk. lia.
    + reflexivity.
Qed.

(** X22 (sqfs_data_reader_dump): without allow_sparse the output file is
    only ever appended to.  Whatever the readers and the write calls
    answer, the function then issues no ftruncate and no lseek and never
    prints the sparse-file error. *)
Theorem dump_without_sparse_only_appends
        (inode : sqfs_inode_generic_t) (block_size : Z) (ft : bool)
        (ws : list write_result) (sk : list bool) (r : Z) (st : dump_state) :
  dump' inode block_size false ft ws sk = Some (r, st) ->
  Forall is_append (events st) /\
  seeks st = sk /\
  ~ In creating_sparse_output_file (messages st).
Proof.
  intros H. apply dump_run_ok in H. destruct H as (Hev & Hmsg).
  destruct (Hev eq_refl) as (He & Hk).
  split; [exact He|]. split; [exact Hk|].
  assert (Hwarn : forall ms, Forall is_warning ms ->
                    ~ In creating_sparse_output_file ms).
  { intros ms Hw Hin. rewrite Forall_forall in Hw.
    destruct (Hw _ Hin) as (a & Ha). discriminate Ha. }
  destruct Hmsg as [(_ & Hw)|(_ & ms & m & -> & Hw & _ & Hne)].
  - exact (Hwarn _ Hw).
  - intros Hin. apply in_app_or in Hin. destruct Hin as [Hin|[Hin|[]]].
    + exact (Hwarn _ Hw Hin).
    + exact (Hne eq_refl Hin).
Qed.

(** X23 (sqfs_data_reader_dump, append_block): the function returns 0 or
    -1, and -1 only behind an error line: a block or the fragment could
    not be read, or ftruncate or lseek has failed.  Every other line on
    stderr is a warning of append_block; since append_block always returns
    0, a write that fails or writes nothing never makes the function
    fail. *)
Theorem dump_fails_only_on_read_or_seek_error
        (inode : sqfs_inode_generic_t) (block_size : Z) (allow_sparse ft : bool)
        (ws : list write_result) (sk : list bool) (r : Z) (st : dump_state) :
  dump' inode block_size allow_sparse ft ws sk = Some (r, st) ->
  (r = 0 /\ Forall is_warning (messages st)) \/
  (r = -1 /\
   exists ms m, messages st = ms ++ [m] /\ Forall is_warning ms /\ is_error m).
Proof.
  intros H. apply dump_run_ok in H. destruct H as (_ & Hmsg).
  destruct Hmsg as [Hz|(Hr & ms & m & Hm & Hw & He & _)]; [left; exact Hz|].
  right. split; [exact Hr|]. exists ms, m. auto.
Qed.

(** X24 (sqfs_data_reader_dump): without allow_sparse, when every block
    can be read and every write call takes the whole block, the function
    returns 0 after it has appended the blocks of the file in the order of
    their index and, when the file size is not used up by the sizes of the
    blocks, the fragment behind them. *)
Theorem dump_copies_blocks_in_order
        (inode : sqfs_inode_generic_t) (block_size : Z) (ft : bool)
        (blocks : list sqfs_block_t) (frag : sqfs_block_t)
        (rest : list write_result) (sk : list bool) :
  len blocks = num_file_blocks inode ->
  (length blocks <= length (block_sizes inode))%nat ->
  (forall k blk, nth_error blocks k = Some blk ->
     sqfs_data_reader_get_block inode (Z.of_nat k) = (0, blk)) ->
  Forall (fun blk => 0 < blk_size blk < 2 ^ 64) blocks ->
  sqfs_data_reader_get_fragment inode = (0, frag) ->
  0 < blk_size frag < 2 ^ 64 ->
  0 <= sqfs_inode_get_file_size inode < 2 ^ 64 ->
  let left := u64 (sqfs_inode_get_file_size inode - sizes_sum blocks) in
  let tail := if left >? 0 then [frag] else [] in
  exists st,
    dump' inode block_size false ft (map full_write (blocks ++ tail) ++ rest) sk
    = Some (0, st) /\
    events st = map whole_block (blocks ++ tail) /\
    messages st = [] /\ writes st = rest /\ seeks st = sk.
Proof.
  intros Hn Hlen Hget Hsz Hfrag Hfs Hsize left tail.
  unfold sqfs_data_reader_dump. cbv zeta. cbn [andb].
  rewrite <- Hn. unfold len. rewrite Nat2Z.id.
  destruct (dump_blocks_copies inode block_size (map full_write tail ++ rest) blocks 0
              (mk_dump_state (sqfs_inode_get_file_size inode) [] []
                 (map full_write (blocks ++ tail) ++ rest) sk))
    as (f & Hf & Hr & Hrun).
  - lia.
  - cbn. lia.
  - intros k blk Hk. cbn. apply Hget. exact Hk.
  - exact Hsz.
  - cbn [writes]. rewrite map_app, <- app_assoc. reflexivity.
  - rewrite Hrun. cbn [Z.eqb negb filesz events messages seeks app].
    cbn [filesz] in Hf.
    assert (Hfl : f = left).
    { unfold left. rewrite <- Hf. symmetry. apply u64_small.
      destruct Hr as [->|Hr]; [|exact Hr].
      cbn [length dump_blocks] in Hrun. inversion Hrun. exact Hsize. }
    rewrite Hfl. unfold tail.
    destruct (left >? 0).
    + rewrite Hfrag. cbn [Z.eqb negb].
      rewrite (put_block_full frag _ rest Hfs) by reflexivity.
      cbn [Z.eqb negb].
      eexists. split; [reflexivity|]. cbn [events messages writes seeks].
      rewrite map_app. cbn [map]. auto.
    + eexists. split; [reflexivity|]. cbn [events messages writes seeks map app].
      rewrite !app_nil_r. auto.
Qed.

(** X25 (sqfs_data_reader_dump): a file of nothing but sparse blocks, with
    allow_sparse.  The file is set to its size by ftruncate and then only
    seeked in: every block moves the position on by the block size, or by
    what is left of the file size when that is less; the steps add up to
    the file size.  No block is read and nothing is written. *)
Theorem dump_sparse_file_is_only_seeked
        (inode : sqfs_inode_generic_t) (block_size : Z)
        (ws : list write_result) (rest : list bool) :
  len (block_sizes inode) = num_file_blocks inode ->
  Forall (fun bs => SQFS_IS_SPARSE_BLOCK bs = true) (block_sizes inode) ->
  0 < block_size ->
  0 <= sqfs_inode_get_file_size inode < 2 ^ 64 ->
  sqfs_inode_get_file_size inode <= num_file_blocks inode * block_size ->
  let n := length (block_sizes inode) in
  let f := sqfs_inode_get_file_size inode in
  exists st,
    dump' inode block_size true true ws (repeat true n ++ rest) = Some (0, st) /\
    events st = Ftruncate f :: map Lseek (skips f block_size n) /\
    fold_right Z.add 0 (skips f block_size n) = f /\
    messages st = [] /\ writes st = ws /\ seeks st = rest.
Proof.
  intros Hn Hsp Hb Hf Hle n f.
  assert (Hsum : fold_right Z.add 0 (skips f block_size n) = f).
  { rewrite skips_sum by (unfold f; lia). unfold n, f.
    fold (len (block_sizes inode)). rewrite Hn. lia. }
  unfold sqfs_data_reader_dump. cbv zeta. cbn [andb negb].
  rewrite <- Hn. unfold len. rewrite Nat2Z.id. fold n.
  rewrite (dump_blocks_holes inode block_size rest n 0); cbn [add_event filesz seeks];
    try lia; try reflexivity.
  - fold f. rewrite Hsum, Z.sub_diag. cbn [Z.eqb negb filesz Z.gtb Z.compare].
    eexists. split; [reflexivity|]. cbn. auto.
  - intros k Hk. cbn in Hk.
    destruct (nth_error_Some_lt (block_sizes inode) k ltac:(unfold n in Hk; lia))
      as (bs & Hbs).
    exists bs. split; [exact Hbs|].
    rewrite Forall_forall in Hsp. apply Hsp. eapply nth_error_In. exact Hbs.
Qed.

End ReaderProofs2.

Import Examples3.

(** Two blocks and a fragment, written at once. *)
Lemma dump_without_sparse_only_appends_witness :
  exists r st,
    dump0 two_blocks 3 false true
          [mk_write_result 3 0; mk_write_result 3 0; mk_write_result 2 0] [] = Some (r, st) /\
    Forall is_append (events st).
Proof.
  assert (Hs : Examples2.is_some
                 (dump0 two_blocks 3 false true
                    [mk_write_result 3 0; mk_write_result 3 0; mk_write_result 2 0] [])
               = true) by (vm_compute; reflexivity).
  destruct (dump0 two_blocks 3 false true
              [mk_write_result 3 0; mk_write_result 3 0; mk_write_result 2 0] [])
    as [[r st]|] eqn:E; [|discriminate Hs].
  exists r, st. split; [reflexivity|].
  unfold dump0 in E. exact (proj1 (dump_without_sparse_only_appends _ _ _ _ _ _ _ _ _ _ _ E)).
Defined.

(** A first block that cannot be read. *)
Lemma dump_fails_only_on_read_or_seek_error_witness :
  exists r st,
    dump_broken two_blocks 3 false true [] [] = Some (r, st) /\
    ((r = 0 /\ Forall is_warning (messages st)) \/
     (r = -1 /\
      exists ms m, messages st = ms ++ [m] /\ Forall is_warning ms /\ is_error m)).
Proof.
  assert (Hs : Examples2.is_some (dump_broken two_blocks 3 false true [] []) = true)
    by (vm_compute; reflexivity).
  destruct (dump_broken two_blocks 3 false true [] []) as [[r st]|] eqn:E;
    [|discriminate Hs].
  exists r, st. split; [reflexivity|].
  unfold dump_broken in E.
  exact (dump_fails_only_on_read_or_seek_error _ _ _ _ _ _ _ _ _ _ _ _ E).
Defined.

Lemma dump_copies_blocks_in_order_witness :
  exists st,
    dump0 two_blocks 3 false true
          (map full_write ([block_of 0; block_of 1] ++ [tail_block]) ++ []) []
    = Some (0, st) /\
    events st = [Append [1; 2; 3]; Append [11; 12; 13]; Append [91; 92]].
Proof.
  destruct (dump_copies_blocks_in_order is_sparse (fun _ => 8)
              (fun _ i => (0, block_of i)) (fun _ => (0, tail_block))
              two_blocks 3 true [block_of 0; block_of 1] tail_block [] [])
    as (st & Hrun & Hev & _).
  - reflexivity.
  - cbn. lia.
  - intros [|[|k]] blk Hk; cbn in Hk;
      [inversion Hk; reflexivity|inversion Hk; reflexivity|].
    destruct k; discriminate Hk.
  - repeat constructor.
  - reflexivity.
  - cbn. lia.
  - cbn. lia.
  - exists st. split; [exact Hrun|]. rewrite Hev. reflexivity.
Defined.

(** Ten bytes in three holes of four, four and two bytes. *)
Lemma dump_sparse_file_is_only_seeked_witness :
  exists st,
    dump_holes holes 4 true true [] (repeat true 3 ++ []) = Some (0, st) /\
    events st = [Ftruncate 10; Lseek 4; Lseek 4; Lseek 2].
Proof.
  destruct (dump_sparse_file_is_only_seeked is_sparse (fun _ => 10)
              (fun _ i => (5, block_of i)) (fun _ => (5, tail_block))
              holes 4 [] [])
    as (st & Hrun & Hev & _).
  - reflexivity.
  - repeat constructor.
  - lia.
  - cbn. lia.
  - cbn. lia.
  - exists st. split; [exact Hrun|]. rewrite Hev. reflexivity.
Defined.

End ReaderFacts2.

(* ===================================================================== *)
(** ** read_pax_header                                                 *)
(* ===================================================================== *)

Module PaxFacts.
Import Tar Pax TarNames PaxViews.

Lemma drop_while_length (p : Z -> bool) (s : list Z) :
  (length (drop_while p s) <= length s)%nat.
Proof.
  induction s as [|c s IH]; cbn [drop_while length]; [lia|].
  destruct (p c); cbn [length]; lia.
Qed.

Lemma drop_while_all (p : Z -> bool) (l rest : list Z) :
  Forall (fun c => p c = true) l ->
  drop_while p (l ++ rest) = drop_while p rest.
Proof.
  induction 1 as [|c l Hc _ IH]; cbn [app drop_while]; [reflexivity|].
  now rewrite Hc.
Qed.

Lemma drop_while_stop (p : Z -> bool) (c : Z) (s : list Z) :
  p c = false -> drop_while p (c :: s) = c :: s.
Proof. intros H. cbn [drop_while]. now rewrite H. Qed.

Lemma take_while_all (p : Z -> bool) (l : list Z) (c : Z) (rest : list Z) :
  Forall (fun x => p x = true) l -> p c = false ->
  take_while p (l ++ c :: rest) = l.
Proof.
  intros Hl Hc. induction Hl as [|x l Hx _ IH]; cbn [app take_while].
  - now rewrite Hc.
  - now rewrite Hx, IH.
Qed.

Lemma until_nul_id (s : list Z) :
  Forall (fun c => c <> 0) s -> until_nul s = s.
Proof.
  induction 1 as [|c s Hc _ IH]; cbn [until_nul]; [reflexivity|].
  replace (c =? 0) with false by (symmetry; apply Z.eqb_neq; exact Hc).
  now rewrite IH.
Qed.

Lemma isdigit_not_space (c : Z) : isdigit c = true -> isspace c = false.
Proof.
  unfold isdigit, isspace. intros H. apply andb_true_iff in H.
  destruct H as (H1 & H2). apply Z.leb_le in H1. apply Z.leb_le in H2.
  apply orb_false_iff. split.
  - apply Z.eqb_neq. lia.
  - apply andb_false_iff. right. apply Z.leb_gt. lia.
Qed.

Lemma skipn_length_app {A : Type} (l rest : list A) :
  skipn (length l) (l ++ rest) = rest.
Proof. induction l as [|x l IH]; [reflexivity|exact IH]. Qed.

Section PaxProofs.
Variable pax_read_decimal : list Z -> option Z.
Variable read_sparse_map : list Z -> sparse_map_t.
Variable urldecode : list Z -> list Z.
Variable base64_decode : list Z -> list Z.
Variables PAX_SIZE PAX_UID PAX_GID PAX_NAME PAX_SLINK_TARGET PAX_MTIME : Z.
Variable PAX_SPARSE_SIZE : Z.

Local Abbreviation pax_line' :=
  (pax_line pax_read_decimal read_sparse_map urldecode base64_decode
            PAX_SIZE PAX_UID PAX_GID PAX_NAME PAX_SLINK_TARGET PAX_MTIME
            PAX_SPARSE_SIZE).
Local Abbreviation pax_loop' :=
  (pax_loop pax_read_decimal read_sparse_map urldecode base64_decode
            PAX_SIZE PAX_UID PAX_GID PAX_NAME PAX_SLINK_TARGET PAX_MTIME
            PAX_SPARSE_SIZE).
Local Abbreviation read_pax_header' :=
  (read_pax_header pax_read_decimal read_sparse_map urldecode base64_decode
                   PAX_SIZE PAX_UID PAX_GID PAX_NAME PAX_SLINK_TARGET PAX_MTIME
                   PAX_SPARSE_SIZE).

Lemma flags_kept_refl (f : Z) : flags_kept f f.
Proof. intros n H. exact H. Qed.

Lemma flags_kept_lor (f g : Z) : flags_kept f (Z.lor f g).
Proof. intros n H. rewrite Z.lor_spec, H. reflexivity. Qed.

Lemma pax_xattr_flags (key : list Z) (b : bool) (st st' : pax_state) :
  pax_xattr urldecode base64_decode key b st = PaxOk st' ->
  set_by_pax st' = set_by_pax st.
Proof.
  unfold pax_xattr. destruct (strrchr key 61) as [[|k]|]; intros H;
    inversion H; reflexivity.
Qed.

Lemma pax_line_result (line : list Z) (st : pax_state) :
  pax_line' line st <> PaxOutOfFuel /\
  forall st', pax_line' line st = PaxOk st' ->
    flags_kept (set_by_pax st) (set_by_pax st').
Proof.
  unfold pax_line, pax_xattr.
  repeat match goal with
         | |- context [if ?b then _ else _] => destruct b
         | |- context [match pax_read_decimal ?x with _ => _ end] =>
             destruct (pax_read_decimal x)
         | |- context [match read_sparse_map ?x with _ => _ end] =>
             destruct (read_sparse_map x)
         | |- context [match strrchr ?x ?c with _ => _ end] =>
             destruct (strrchr x c) as [[|?]|]
         end;
    (split; [intros Hc; discriminate Hc|]);
    intros st' H; inversion H; subst st'; cbn [set_by_pax set_flag set_out set_sparse
      set_offset set_num_bytes add_xattr];
    first [apply flags_kept_refl | apply flags_kept_lor].
Qed.

Lemma pax_loop_result (fuel : nat) :
  forall rest st,
    (length rest < fuel)%nat ->
    pax_loop' fuel rest st <> PaxOutOfFuel /\
    forall st', pax_loop' fuel rest st = PaxOk st' ->
      flags_kept (set_by_pax st) (set_by_pax st').
Proof.
  induction fuel as [|fuel IH]; intros rest st Hf; [lia|].
  cbn [pax_loop].
  destruct rest as [|c rest]; [split; [discriminate|intros st' H; inversion H; apply flags_kept_refl]|].
  cbv zeta.
  set (r3 := drop_while isspace (drop_while isdigit (drop_while isspace (c :: rest)))).
  assert (Hr3 : (length r3 <= length (c :: rest))%nat).
  { unfold r3. etransitivity; [apply drop_while_length|].
    etransitivity; [apply drop_while_length|]. apply drop_while_length. }
  destruct r3 as [|c3 r3'] eqn:E3;
    [split; [discriminate|intros st' H; inversion H; apply flags_kept_refl]|].
  set (span := take_while (fun x => negb (x =? 10)) (c3 :: r3')).
  destruct (pax_line_result (until_nul span) st) as (Hnf & Hfl).
  destruct (pax_line' (until_nul span) st) as [| |st1] eqn:El.
  - exfalso. exact (Hnf eq_refl).
  - split; [discriminate|intros st' H; discriminate H].
  - destruct (IH (tl (skipn (length span) (c3 :: r3'))) st1) as (Hnf2 & Hfl2).
    + assert (Hsk : (length (skipn (length span) (c3 :: r3')) <= length (c3 :: r3'))%nat)
        by (rewrite length_skipn; lia).
      destruct (skipn (length span) (c3 :: r3')) as [|y ys]; cbn [tl length] in *; lia.
    + split; [exact Hnf2|].
      intros st' H n Hn. apply (Hfl2 st' H). apply (Hfl st1 eq_refl). exact Hn.
Qed.

(** A buffer that holds one record: a length in digits, a blank, the line
    and a newline. *)
Lemma read_pax_header_one_record (digits line : list Z) (c0 : Z) (f : Z)
      (o : tar_header_decoded_t) (sp : sparse_map_t) (xa : list tar_xattr_t) :
  Forall (fun c => isdigit c = true) digits ->
  isspace c0 = false -> isdigit c0 = false ->
  Forall (fun c => c <> 10 /\ c <> 0) (c0 :: line) ->
  read_pax_header' (Some (digits ++ 32 :: (c0 :: line) ++ [10])) f o sp xa
  = pax_line' (c0 :: line) (mk_pax_state o sp xa f false 0 0).
Proof.
  intros Hd Hs0 Hd0 Hl. unfold read_pax_header. cbn [pax_loop].
  assert (Hne : digits ++ 32 :: (c0 :: line) ++ [10] <> []).
  { destruct digits; discriminate. }
  destruct (digits ++ 32 :: (c0 :: line) ++ [10]) as [|x xs] eqn:Eb; [congruence|].
  rewrite <- Eb. cbv zeta.
  assert (Hdrop : drop_while isspace
                    (drop_while isdigit
                       (drop_while isspace (digits ++ 32 :: (c0 :: line) ++ [10])))
                  = (c0 :: line) ++ [10]).
  { assert (Hline : forall p, p c0 = false ->
                      drop_while p ((c0 :: line) ++ [10]) = (c0 :: line) ++ [10]).
    { intros p Hp. cbn [app drop_while]. now rewrite Hp. }
    assert (Hblank : drop_while isspace (32 :: (c0 :: line) ++ [10])
                     = (c0 :: line) ++ [10]).
    { change (32 :: (c0 :: line) ++ [10]) with ([32] ++ (c0 :: line) ++ [10]).
      rewrite (drop_while_all isspace [32]) by (repeat constructor).
      apply Hline. exact Hs0. }
    set (R := (c0 :: line) ++ [10]) in *. clearbody R.
    destruct digits as [|d ds].
    - cbn [app]. rewrite Hblank, (Hline isdigit Hd0), (Hline isspace Hs0).
      reflexivity.
    - inversion Hd as [|? ? Hd1 Hds]; subst.
      assert (E1 : drop_while isspace ((d :: ds) ++ 32 :: R) = (d :: ds) ++ 32 :: R).
      { cbn [app drop_while]. now rewrite (isdigit_not_space _ Hd1). }
      rewrite E1, drop_while_all by exact Hd.
      rewrite (drop_while_stop isdigit 32) by reflexivity.
      exact Hblank. }
  rewrite Hdrop. cbn [app].
  change (c0 :: line ++ [10]) with ((c0 :: line) ++ [10]).
  rewrite (take_while_all (fun c => negb (c =? 10)) (c0 :: line) 10 []).
  - rewrite skipn_length_app. cbn [tl].
    rewrite until_nul_id
      by (eapply Forall_impl; [|exact Hl]; cbv beta; intros a (_ & Ha); exact Ha).
    destruct (pax_line' (c0 :: line) _) as [| |st1]; try reflexivity.
    rewrite Eb. cbn [length pax_loop]. reflexivity.
  - eapply Forall_impl; [|exact Hl]. cbv beta. intros a (Ha & _).
    apply negb_true_iff, Z.eqb_neq. exact Ha.
  - reflexivity.
Qed.

End PaxProofs.
End PaxFacts.
Module PaxFacts2.
Import Tar Pax TarNames PaxViews PaxFacts.

Section PaxTheorems.
Variable pax_read_decimal : list Z -> option Z.
Variable read_sparse_map : list Z -> sparse_map_t.
Variable urldecode : list Z -> list Z.
Variable base64_decode : list Z -> list Z.
Variables PAX_SIZE PAX_UID PAX_GID PAX_NAME PAX_SLINK_TARGET PAX_MTIME : Z.
Variable PAX_SPARSE_SIZE : Z.

Local Abbreviation pax_line' :=
  (pax_line pax_read_decimal read_sparse_map urldecode base64_decode
            PAX_SIZE PAX_UID PAX_GID PAX_NAME PAX_SLINK_TARGET PAX_MTIME
            PAX_SPARSE_SIZE).
Local Abbreviation read_pax_header' :=
  (read_pax_header pax_read_decimal read_sparse_map urldecode base64_decode
                   PAX_SIZE PAX_UID PAX_GID PAX_NAME PAX_SLINK_TARGET PAX_MTIME
                   PAX_SPARSE_SIZE).

(** X27 (read_pax_header): the loop over the record comes to an end
    whatever the buffer holds, every round moving on by at least one byte,
    and the flags in set_by_pax are only ever added to: a flag that was
    set on entry is set when the function returns 0. *)
Theorem read_pax_header_ends_and_keeps_flags
        (buffer : option (list Z)) (f : Z) (o : tar_header_decoded_t)
        (sp : sparse_map_t) (xa : list tar_xattr_t) :
  read_pax_header' buffer f o sp xa <> PaxOutOfFuel /\
  forall st, read_pax_header' buffer f o sp xa = PaxOk st ->
    flags_kept f (set_by_pax st).
Proof.
  unfold read_pax_header. destruct buffer as [buffer|].
  - apply (pax_loop_result pax_read_decimal read_sparse_map urldecode base64_decode
             PAX_SIZE PAX_UID PAX_GID PAX_NAME PAX_SLINK_TARGET PAX_MTIME
             PAX_SPARSE_SIZE (S (length buffer)) buffer
             (mk_pax_state o sp xa f false 0 0)).
    lia.
  - split; [discriminate|intros st H; discriminate H].
Qed.

(** X28 (read_pax_header): a uid record.  For a buffer that holds a
    length in digits, a blank, "uid=", a decimal number and a newline, the
    function sets st_uid to the number cut to 32 bits and the flag
    PAX_UID, and leaves everything else alone.  The length in front is
    skipped: no digit of it is looked at, so a length that does not fit
    the record goes unnoticed. *)
Theorem read_pax_header_uid_record
        (digits v : list Z) (d f : Z) (o : tar_header_decoded_t)
        (sp : sparse_map_t) (xa : list tar_xattr_t) :
  Forall (fun c => isdigit c = true) digits ->
  Forall (fun c => c <> 10 /\ c <> 0) v ->
  pax_read_decimal v = Some d ->
  read_pax_header' (Some (digits ++ 32 :: (kw_uid ++ v) ++ [10])) f o sp xa
  = PaxOk (mk_pax_state (set_st_uid o (u32 d)) sp xa (Z.lor f PAX_UID) false 0 0).
Proof.
  intros Hd Hv Hdec.
  change (kw_uid ++ v) with (117 :: [105; 100; 61] ++ v).
  rewrite read_pax_header_one_record; [|exact Hd|reflexivity|reflexivity|].
  - unfold pax_line. cbn [app].
    change (starts_with kw_uid (117 :: 105 :: 100 :: 61 :: v)) with true.
    cbv iota. cbn [skipn]. rewrite Hdec. reflexivity.
  - cbn [app]. repeat (constructor; [split; intros Hc; discriminate Hc|]).
    exact Hv.
Qed.

(** X29 (read_pax_header): a GNU.sparse.name record.  The name is taken
    from the fifth byte of the line on, as for a path record, and not from
    behind the keyword: for the line "GNU.sparse.name=" followed by a
    value, the name of the entry becomes "parse.name=" followed by the
    value, and PAX_NAME is set. *)
Theorem read_pax_header_sparse_name_record
        (digits v : list Z) (f : Z) (o : tar_header_decoded_t)
        (sp : sparse_map_t) (xa : list tar_xattr_t) :
  Forall (fun c => isdigit c = true) digits ->
  Forall (fun c => c <> 10 /\ c <> 0) v ->
  read_pax_header' (Some (digits ++ 32 :: (kw_gnu_sparse_name ++ v) ++ [10])) f o sp xa
  = PaxOk (mk_pax_state
             (set_name o (Some ([112; 97; 114; 115; 101; 46; 110; 97; 109; 101; 61] ++ v)))
             sp xa (Z.lor f PAX_NAME) false 0 0).
Proof.
  intros Hd Hv.
  change (kw_gnu_sparse_name ++ v)
    with (71 :: [78; 85; 46; 115; 112; 97; 114; 115; 101; 46; 110; 97; 109; 101; 61] ++ v).
  rewrite read_pax_header_one_record; [reflexivity|exact Hd|reflexivity|reflexivity|].
  cbn [app]. repeat (constructor; [split; intros Hc; discriminate Hc|]).
  exact Hv.
Qed.

End PaxTheorems.

Import Examples4.

Lemma read_pax_header_ends_and_keeps_flags_witness :
  exists st,
    read_pax_header0 (Some uid_record) 32 Examples.decoded0 [] [] = PaxOk st /\
    Z.testbit (set_by_pax st) 5 = true.
Proof.
  destruct (read_pax_header0 (Some uid_record) 32 Examples.decoded0 [] [])
    as [| |st] eqn:E; [vm_compute in E; discriminate E|vm_compute in E; discriminate E|].
  exists st. split; [reflexivity|].
  unfold read_pax_header0 in E.
  apply (proj2 (read_pax_header_ends_and_keeps_flags _ _ _ _ _ _ _ _ _ _ _ _ _ _ _ _)
           st E 5).
  reflexivity.
Defined.

Lemma read_pax_header_uid_record_witness :
  exists st,
    read_pax_header0 (Some uid_record) 0 Examples.decoded0 [] [] = PaxOk st /\
    st_uid (sb (out st)) = 1000 /\ set_by_pax st = 2.
Proof.
  eexists. split.
  - apply (read_pax_header_uid_record read_decimal_digits (fun _ => [])
             (fun k => k) (fun v => v) 1 2 4 32 64 128 256
             [49; 50] [49; 48; 48; 48] 1000 0 Examples.decoded0 [] []).
    + repeat constructor.
    + repeat (constructor; [split; intros Hc; discriminate Hc|]). constructor.
    + reflexivity.
  - split; reflexivity.
Defined.

Lemma read_pax_header_sparse_name_record_witness :
  exists st,
    read_pax_header0 (Some sparse_name_record) 0 Examples.decoded0 [] [] = PaxOk st /\
    d_name (out st)
    = Some [112; 97; 114; 115; 101; 46; 110; 97; 109; 101; 61; 98; 105; 103].
Proof.
  eexists. split.
  - apply (read_pax_header_sparse_name_record read_decimal_digits (fun _ => [])
             (fun k => k) (fun v => v) 1 2 4 32 64 128 256
             [50; 53] [98; 105; 103] 0 Examples.decoded0 [] []).
    + repeat constructor.
    + repeat (constructor; [split; intros Hc; discriminate Hc|]). constructor.
  - reflexivity.
Defined.

End PaxFacts2.

(* ===================================================================== *)
(** ** The listings of a serialized tree                                  *)
(* ===================================================================== *)

Module ListingFacts.
Import GroupFacts DirMore2 RecordFacts2.

(** A run of numbers k, k+1, ... falls apart where the list does. *)
Lemma zseq_split {A : Type} (f : A -> Z) (l1 l2 : list A) :
  forall k,
    map f (l1 ++ l2) = zseq k (length (l1 ++ l2)) ->
    map f l1 = zseq k (length l1) /\
    map f l2 = zseq (k + len l1) (length l2).
Proof.
  induction l1 as [|a l1 IH]; intros k H.
  - cbn [app] in H. unfold len. cbn [length map zseq]. rewrite Z.add_0_r. auto.
  - cbn [app map length zseq] in H. apply cons_inj in H. destruct H as (Ha & H).
    destruct (IH _ H) as (H1 & H2). cbn [map length zseq]. rewrite Ha, H1.
    split; [reflexivity|]. rewrite H2. f_equal. rewrite len_cons. lia.
Qed.

Lemma listing_nodes_app (gs1 gs2 : list dir_group) :
  listing_nodes (gs1 ++ gs2) = listing_nodes gs1 ++ listing_nodes gs2.
Proof. unfold listing_nodes. apply flat_map_app. Qed.

(** In a listing of nodes that are numbered in order, the nodes of a group
    are numbered on from where the groups in front of it end, and so are
    the nodes behind the group. *)
Lemma listing_group_numbers (gs1 : list dir_group) (g : dir_group)
      (gs2 : list dir_group) (k : Z) :
  map inode_num (listing_nodes (gs1 ++ g :: gs2))
  = zseq k (length (listing_nodes (gs1 ++ g :: gs2))) ->
  map inode_num (map fst (snd g))
  = zseq (k + len (listing_nodes gs1)) (length (snd g)) /\
  map inode_num (listing_nodes gs2)
  = zseq (k + len (listing_nodes gs1) + len (snd g)) (length (listing_nodes gs2)) /\
  len (listing_nodes (gs1 ++ g :: gs2))
  = len (listing_nodes gs1) + len (snd g) + len (listing_nodes gs2).
Proof.
  rewrite listing_nodes_app.
  change (listing_nodes (g :: gs2)) with (map fst (snd g) ++ listing_nodes gs2).
  intros H. apply zseq_split in H. destruct H as (_ & H).
  apply zseq_split in H. destruct H as (H1 & H2).
  rewrite length_map in H1. unfold len at 2 in H2. rewrite length_map in H2.
  split; [exact H1|]. split; [exact H2|].
  unfold len. rewrite !length_app, length_map. lia.
Qed.

(** The first node of a group carries the first number of the group. *)
Lemma group_base_number (g : dir_group) (base : tree_node_t) (j : Z) :
  group_base g = Some base ->
  map inode_num (map fst (snd g)) = zseq j (length (snd g)) ->
  inode_num base = j.
Proof.
  unfold group_base. destruct (snd g) as [|[n e] es]; [discriminate|].
  intros Hb H. inversion Hb; subst n. cbn [map fst length zseq] in H.
  apply cons_inj in H. exact (proj1 H).
Qed.

(** write_inode writes the listing of a directory from the children it
    finds. *)
Lemma write_inode_listing (parent : option Z) (node node' : tree_node_t) (s s' : ser_t) :
  write_inode parent node s = Some (node', s') ->
  S_ISDIR (mode node') = true ->
  numbered_in_order (children node) ->
  listing_written node'.
Proof.
  intros H Hd Hn.
  pose proof (write_inode_shape _ _ _ _ _ H) as (Hmode & Hch & _).
  apply write_inode_inv in H.
  destruct H as (tbl1 & ui & tbl2 & gi & t & d' & payload & _ & _ & Hnode & _ & _ & _
                 & _ & _ & Hdec).
  rewrite Hmode in Hd.
  destruct Hdec as [(_ & di & di' & Hdi & W & Hd' & _)|(Hnd & _)]; [|congruence].
  exists (s_dm s), (s_dm s'), di, di'.
  split; [exact W|]. split; [rewrite Hnode; cbn [data]; exact Hd'|].
  rewrite Hch. split; [|exact Hn].
  unfold children. rewrite Hdi. reflexivity.
Qed.

(** The first loop of write_child_inodes leaves every directory among the
    children with children that are numbered in order, and has written the
    listings of the directories below them. *)
Lemma write_subdirs_listings (cs : list tree_node_t) :
  Forall (fun it => forall s it' s',
            write_child_inodes it s = Some (it', s') ->
            0 <= inode_counter (s_info s) ->
            inode_counter (s_info s) + len (write_order it) <= 2 ^ 32 ->
            numbered_in_order (children it') /\
            Forall (fun d => S_ISDIR (mode d) = true -> listing_written d)
                   (write_order it')) cs ->
  forall s cs1 s1,
    mapM (fun it => if S_ISDIR (mode it) then write_child_inodes it else ret it)
         cs s = Some (cs1, s1) ->
    0 <= inode_counter (s_info s) ->
    inode_counter (s_info s) + len (subdir_order cs) <= 2 ^ 32 ->
    Forall (fun it1 => S_ISDIR (mode it1) = true -> numbered_in_order (children it1))
           cs1 /\
    Forall (fun d => S_ISDIR (mode d) = true -> listing_written d) (subdir_order cs1).
Proof.
  induction 1 as [|it cs Hit _ IH]; intros s cs1 s1 H Hk0 Hb.
  - apply mapM_nil_inv in H. destruct H as [-> ->]. split; constructor.
  - apply mapM_cons_inv in H. destruct H as (it1 & sa & cs1' & Hw & Hm & ->).
    rewrite subdir_order_cons, len_app in Hb.
    pose proof (len_nonneg (subdir_order cs)).
    rewrite subdir_order_cons.
    destruct (S_ISDIR (mode it)) eqn:Hd.
    + destruct (write_child_inodes_numbered it _ _ _ Hw) as (Hmode & Hlen & Hnum).
      pose proof (len_nonneg (write_order it)).
      destruct Hnum as ((_ & Hc & _) & _); [lia|lia|].
      destruct (Hit _ _ _ Hw) as (Hn1 & Hp1); [lia|lia|].
      assert (Hca : inode_counter (s_info sa)
                    = inode_counter (s_info s) + len (write_order it)).
      { rewrite Hc. unfold len. now rewrite Hlen. }
      destruct (IH _ _ _ Hm) as (Hn2 & Hp2); [lia|lia|].
      rewrite Hmode, Hd.
      split; [constructor; [intros _; exact Hn1|exact Hn2]|].
      apply Forall_app. split; assumption.
    + apply ret_inv in Hw. inversion Hw; subst it1 sa; clear Hw.
      unfold len at 1 in Hb. cbn [length] in Hb.
      destruct (IH _ _ _ Hm) as (Hn2 & Hp2); [lia|lia|].
      rewrite Hd. cbn [app].
      split; [constructor; [intros Hc; congruence|exact Hn2]|exact Hp2].
Qed.

(** As long as the inode numbers stay below 2^32, write_child_inodes
    leaves the children of its directory numbered in order, and every
    directory below has had its listing written from children numbered in
    order. *)
Lemma write_child_inodes_listings (root : tree_node_t) :
  forall s root' s',
    write_child_inodes root s = Some (root', s') ->
    0 <= inode_counter (s_info s) ->
    inode_counter (s_info s) + len (write_order root) <= 2 ^ 32 ->
    numbered_in_order (children root') /\
    Forall (fun d => S_ISDIR (mode d) = true -> listing_written d) (write_order root').
Proof.
  induction root as [root IH] using tree_node_induction.
  intros s root' s' H Hk0 Hb. destruct root as [a d]. cbn [write_child_inodes] in H.
  destruct d as [di| | |]; try discriminate.
  unfold children in IH. cbn [data] in IH.
  apply bind_inv in H. destruct H as (cs1 & s1 & E & H). cbv beta zeta in H.
  apply bind_inv in H. destruct H as (cs2 & s2 & E0 & H). cbv beta zeta in H.
  apply ret_inv in H. inversion H; subst root' s2; clear H.
  assert (E1 : mapM (fun it => if S_ISDIR (mode it) then write_child_inodes it
                               else ret it) (di_children di) s = Some (cs1, s1)).
  { destruct (existsb _ _) eqn:He; [exact E|].
    apply ret_inv in E. inversion E; subst cs1 s1.
    now apply write_subdirs_none. }
  clear E.
  rewrite write_order_children in Hb. unfold children in Hb. cbn [data] in Hb.
  rewrite len_app in Hb.
  pose proof (len_nonneg (subdir_order (di_children di))).
  pose proof (len_nonneg (di_children di)).
  assert (Hall : Forall traversal_numbered (di_children di)).
  { apply Forall_forall. intros it _. apply write_child_inodes_numbered. }
  destruct (write_subdirs_numbered _ Hall _ _ _ E1) as (Hf1 & Hl1 & Hn1).
  destruct Hn1 as ((_ & Hc1 & _) & _); [lia|lia|].
  destruct (write_subdirs_listings _ IH _ _ _ E1) as (Hd1 & Hp1); [lia|lia|].
  destruct (write_children_numbered _ _ _ _ _ E0) as (Hf2 & Hn2).
  pose proof (subdir_order_ext _ _ Hf2) as Hsd.
  pose proof (Forall2_length _ _ _ Hf1) as Hlen1.
  pose proof (Forall2_length _ _ _ Hf2) as Hlen2.
  assert (Hc1' : inode_counter (s_info s1)
                 = inode_counter (s_info s) + len (subdir_order (di_children di))).
  { rewrite Hc1. unfold len. now rewrite Hl1. }
  destruct Hn2 as (Hnum2 & _ & _); [lia|unfold len in *; lia|].
  split.
  - unfold children. cbn [data di_children].
    exists (inode_counter (s_info s1)).
    split; [lia|]. split; [unfold len in *; lia|exact Hnum2].
  - rewrite write_order_children. unfold children. cbn [data di_children].
    rewrite Hsd. apply Forall_app. split; [exact Hp1|].
    apply Forall_forall. intros it2 Hin Hdir.
    destruct (mapM_In _ _ _ _ _ E0 it2 Hin) as (x & sa & sb & Hx & Hw).
    pose proof (write_inode_shape _ _ _ _ _ Hw) as (Hmode & _).
    eapply write_inode_listing; [exact Hw|exact Hdir|].
    rewrite Forall_forall in Hd1. apply (Hd1 x Hx). rewrite <- Hmode. exact Hdir.
Qed.

End ListingFacts.

(** C3: write_dir emits the children of a directory in groups, each behind
    one header.  write_dir is only called by write_inode, on a directory
    whose children write_child_inodes has just numbered one after the
    other; for such children:  a group holds between 1 and
    SQFS_MAX_DIR_ENT = 256 entries; its header counts them (minus one) and
    carries the start block (inode_ref >> 16) and the inode number of the
    first node; every node of the group has the same inode_ref >> 16 as
    the first one, and its inode number lies less than 256 above the
    number in the header, well inside the signed 16-bit range, so that the
    entry's inode field read as a signed 16-bit number is that difference.
    A header is followed by another one only where the next child lies in
    another start block or the group is full: the test on the difference
    of the inode numbers never ends a group.  256 times the number of
    headers is at least the number of children, and 300 children need at
    least two headers.
    Second part: write_inode calls write_dir for every directory, on the
    directory record of the node and with the directory writer of the
    serializer.
    Third part: in a run of sqfs_write_inodes that hands out fewer than
    2^32 inode numbers, every directory of the tree, the root included, had
    its listing written by write_dir from children numbered in this way. *)
Theorem write_dir_groups :
  (forall (dm dm' : meta_writer_t) (dir dir' : dir_info_t tree_node_t),
     write_dir dm dir = Some (dm', dir') ->
     numbered_in_order (di_children dir) ->
     let gs := dir_listing (di_children dir) in
     meta_writer_append dm (bytes_listing gs) = Some dm' /\
     listing_nodes gs = di_children dir /\
     (forall h es, In (h, es) gs ->
        1 <= len es <= SQFS_MAX_DIR_ENT /\
        hdr_count h = len es - 1 /\
        exists base,
          group_base (h, es) = Some base /\
          hdr_start_block h = u32 (Z.shiftr (inode_ref base) 16) /\
          hdr_inode_number h = inode_num base /\
          forall n e, In (n, e) es ->
            Z.shiftr (inode_ref n) 16 = Z.shiftr (inode_ref base) 16 /\
            0 <= inode_num n - hdr_inode_number h < SQFS_MAX_DIR_ENT /\
            - 2 ^ 15 <= inode_num n - hdr_inode_number h < 2 ^ 15 /\
            s16 (ent_inode_number e) = inode_num n - hdr_inode_number h) /\
     (forall gs1 g g' gs2 base next,
        gs = gs1 ++ g :: g' :: gs2 ->
        group_base g = Some base ->
        group_base g' = Some next ->
        inode_num next = inode_num base + len (snd g) /\
        (len (snd g) = SQFS_MAX_DIR_ENT \/
         Z.shiftr (inode_ref next) 16 <> Z.shiftr (inode_ref base) 16)) /\
     len (di_children dir) <= SQFS_MAX_DIR_ENT * len gs /\
     (300 <= len (di_children dir) -> 2 <= len gs)) /\
  (forall (parent : option Z) (node node' : tree_node_t) (s s' : ser_t),
     write_inode parent node s = Some (node', s') ->
     S_ISDIR (mode node) = true ->
     exists di di',
       data node = DataDir di /\
       write_dir (s_dm s) di = Some (s_dm s', di') /\
       data node' = DataDir di' /\
       di_children di' = di_children di) /\
  (forall (tmpfd : Z) (info info' : sqfs_info_t) (image image' : list Z),
     sqfs_write_inodes tmpfd info image = Some (info', image') ->
     2 + len (write_order (root (fs info))) < 2 ^ 32 ->
     forall d,
       In d (root (fs info') :: write_order (root (fs info'))) ->
       S_ISDIR (mode d) = true ->
       exists dm dm' di di',
         write_dir dm di = Some (dm', di') /\
         data d = DataDir di' /\
         di_children di = children d /\
         numbered_in_order (di_children di)).
Proof.
  split.
  - intros dm dm' dir dir' H (k & Hk0 & Hkb & Hnum) gs.
    destruct (write_dir_emits _ _ _ _ H) as (Ha & Hl & Hne & _).
    fold gs in Ha, Hl, Hne.
    assert (Hnumgs : map inode_num (listing_nodes gs)
                     = zseq k (length (listing_nodes gs))) by (rewrite Hl; exact Hnum).
    assert (Hgroups : forall h es, In (h, es) gs ->
              1 <= len es <= SQFS_MAX_DIR_ENT /\
              hdr_count h = len es - 1 /\
              exists base,
                group_base (h, es) = Some base /\
                hdr_start_block h = u32 (Z.shiftr (inode_ref base) 16) /\
                hdr_inode_number h = inode_num base /\
                forall n e, In (n, e) es ->
                  Z.shiftr (inode_ref n) 16 = Z.shiftr (inode_ref base) 16 /\
                  0 <= inode_num n - hdr_inode_number h < SQFS_MAX_DIR_ENT /\
                  - 2 ^ 15 <= inode_num n - hdr_inode_number h < 2 ^ 15 /\
                  s16 (ent_inode_number e) = inode_num n - hdr_inode_number h).
    { intros h es Hin.
      destruct (GroupFacts.dir_listing_loop_groups _ _ _ Hin)
        as (base & members & Hes & Hh & Hmax & Hhd & Hmem).
      cbn [fst snd] in Hes, Hh.
      destruct (in_split _ _ Hin) as (gs1 & gs2 & Hsplit).
      pose proof Hnumgs as Hn'. rewrite Hsplit in Hn'.
      destruct (ListingFacts.listing_group_numbers _ _ _ _ Hn') as (Hg & _ & Hlen3).
      cbn [snd] in Hg, Hlen3.
      assert (Hlen3' : len (di_children dir)
                       = len (listing_nodes gs1) + len es + len (listing_nodes gs2)).
      { rewrite <- Hl, Hsplit. exact Hlen3. }
      clear Hlen3.
      pose proof (len_nonneg (listing_nodes gs1)).
      pose proof (len_nonneg (listing_nodes gs2)).
      assert (Hnil : es <> []).
      { rewrite Forall_forall in Hne. exact (Hne _ Hin). }
      assert (Hlen : len es = len members).
      { rewrite Hes. unfold len. now rewrite length_map. }
      assert (Hpos : 1 <= len es).
      { destruct es; [congruence|]. rewrite len_cons. pose proof (len_nonneg es). lia. }
      assert (Hbase : group_base (h, es) = Some base).
      { unfold group_base. cbn [snd]. rewrite Hes.
        destruct members as [|m members]; [cbn in Hes; congruence|].
        specialize (Hhd ltac:(discriminate)). cbn in Hhd. inversion Hhd; subst.
        reflexivity. }
      pose proof (ListingFacts.group_base_number _ _ _ Hbase Hg) as Hbj.
      assert (Hhn : hdr_inode_number h = inode_num base).
      { rewrite Hh. unfold group_header, htole32. cbn [hdr_inode_number].
        apply u32_small. lia. }
      unfold SQFS_MAX_DIR_ENT in *.
      split; [lia|]. split.
      { rewrite Hh, Hlen. unfold group_header, htole32. cbn [hdr_count].
        rewrite u32_u64. apply u32_small. lia. }
      exists base. split; [exact Hbase|]. split; [rewrite Hh; reflexivity|].
      split; [exact Hhn|].
      intros n e Hne'.
      assert (Hnj : k + len (listing_nodes gs1) <= inode_num n
                    < k + len (listing_nodes gs1) + len es).
      { assert (Hin' : In (inode_num n) (map inode_num (map fst es))).
        { apply in_map. apply (in_map fst) in Hne'. exact Hne'. }
        rewrite Hg in Hin'. apply zseq_In in Hin'. unfold len in *. lia. }
      rewrite Hes in Hne'. apply in_map_iff in Hne'. destruct Hne' as (x & Hx & Hin'').
      inversion Hx; subst x e; clear Hx.
      split; [apply (Hmem n Hin'')|].
      rewrite Hhn, Hbj. split; [lia|]. split; [lia|].
      unfold group_entry, htole16. cbn [ent_inode_number].
      rewrite u16_u32, Hbj. apply s16_u16. lia. }
    split; [exact Ha|]. split; [exact Hl|]. split; [exact Hgroups|].
    assert (Hcount : len (di_children dir) <= SQFS_MAX_DIR_ENT * len gs).
    { rewrite <- Hl. apply GroupFacts.listing_nodes_length.
      apply Forall_forall. intros [h es] Hin. cbn [snd].
      apply (Hgroups h es Hin). }
    split; [|split; [exact Hcount|unfold SQFS_MAX_DIR_ENT in Hcount; lia]].
    intros gs1 g g' gs2 base next Hgs Hb Hn.
    pose proof Hnumgs as Hn'. rewrite Hgs in Hn'.
    destruct (ListingFacts.listing_group_numbers _ _ _ _ Hn') as (Hg & Hrest & _).
    pose proof (ListingFacts.group_base_number _ _ _ Hb Hg) as Hbj.
    assert (Hnext : inode_num next = k + len (listing_nodes gs1) + len (snd g)).
    { unfold group_base in Hn.
      destruct (snd g') as [|[n0 e0] es'] eqn:Eg'; [discriminate Hn|].
      inversion Hn; subst n0.
      change (listing_nodes (g' :: gs2))
        with (map fst (snd g') ++ listing_nodes gs2) in Hrest.
      rewrite Eg' in Hrest. cbn [map fst app length zseq] in Hrest.
      apply DirMore2.cons_inj in Hrest. exact (proj1 Hrest). }
    split; [lia|].
    assert (Hing : In g gs).
    { rewrite Hgs. apply in_or_app. right. left. reflexivity. }
    destruct g as [h es]. destruct (Hgroups h es Hing) as ((_ & Hle) & _).
    cbn [snd] in *.
    pose proof (len_nonneg (di_children dir)).
    assert (Hlenc : len (di_children dir) < 2 ^ 64) by lia.
    destruct (DirMore2.dir_listing_loop_maximal _ _ _ _ _ _ _ _ Hlenc Hgs Hb Hn)
      as [Hfull|[Hsb|Hfar]].
    + left. exact Hfull.
    + right. exact Hsb.
    + exfalso. rewrite Hnext, Hbj in Hfar.
      replace (k + len (listing_nodes gs1) + len es - (k + len (listing_nodes gs1)))
        with (len es) in Hfar by lia.
      pose proof (len_nonneg es).
      unfold SQFS_MAX_DIR_ENT in Hle.
      rewrite u32_small in Hfar by lia. lia.
  - split.
    { intros parent node node' s s' H Hdir.
      apply write_inode_inv in H.
      destruct H as (tbl1 & ui & tbl2 & gi & t & d' & payload & _ & _ & Hnode & _ & _
                     & _ & _ & _ & Hdec).
      destruct Hdec as [(_ & di & di' & Hdi & W & Hd' & _)|(Hnd & _)]; [|congruence].
      exists di, di'. split; [exact Hdi|]. split; [exact W|].
      split; [rewrite Hnode; cbn [data]; exact Hd'|].
      apply (write_dir_emits _ _ _ _ W). }
    intros tmpfd info info' image image' H Hb d Hin Hdir.
    apply sqfs_write_inodes_inv in H.
    destruct H as (root1 & s1 & root2 & s2 & im' & dm' & Hc & Hw & _ & _ & Hfs & _).
    rewrite Hfs in Hin. cbn [root] in Hin.
    pose proof (len_nonneg (write_order (root (fs info)))).
    destruct (ListingFacts.write_child_inodes_listings _ _ _ _ Hc) as (Hn & Hp);
      [cbn [s_info set_inode_counter inode_counter]; lia
      |cbn [s_info set_inode_counter inode_counter]; lia|].
    pose proof (write_inode_shape _ _ _ _ _ Hw) as (_ & Hch & _).
    assert (Hlw : listing_written d).
    { destruct Hin as [<-|Hin].
      - exact (ListingFacts.write_inode_listing _ _ _ _ _ Hw Hdir Hn).
      - rewrite write_order_children, Hch, <- write_order_children in Hin.
        rewrite Forall_forall in Hp. exact (Hp d Hin Hdir). }
    destruct Hlw as (dm & dm2 & di & di' & W & Hd & Hc' & Hno).
    exists dm, dm2, di, di'. rewrite Hc'. auto.
Qed.

(** A directory of 300 files numbered from 2 is written under two headers;
    the root of a tree of five nodes is a directory whose listing was
    written from children numbered in order. *)
Lemma write_dir_groups_witness :
  (exists dm' dir',
     write_dir Examples.dm0 Examples.dir300 = Some (dm', dir') /\
     numbered_in_order (di_children Examples.dir300) /\
     300 <= len (di_children Examples.dir300) /\
     2 <= len (dir_listing (di_children Examples.dir300))) /\
  (exists info' image' dm dm' di di',
     sqfs_write_inodes 4 (Examples.info0 Examples.small_tree) Examples.image0
     = Some (info', image') /\
     2 + len (write_order (root (fs (Examples.info0 Examples.small_tree)))) < 2 ^ 32 /\
     S_ISDIR (mode (root (fs info'))) = true /\
     write_dir dm di = Some (dm', di') /\
     data (root (fs info')) = DataDir di' /\
     di_children di = children (root (fs info')) /\
     numbered_in_order (di_children di)).
Proof.
  split.
  - assert (Hs : Examples2.is_some (write_dir Examples.dm0 Examples.dir300) = true)
      by (vm_compute; reflexivity).
    destruct (write_dir Examples.dm0 Examples.dir300) as [[dm' dir']|] eqn:E;
      [|discriminate Hs].
    exists dm', dir'. split; [reflexivity|].
    assert (Hno : numbered_in_order (di_children Examples.dir300)).
    { exists 2. split; [lia|].
      split; [vm_compute; intro Hc; discriminate Hc|vm_compute; reflexivity]. }
    assert (H300 : 300 <= len (di_children Examples.dir300))
      by (vm_compute; intro Hc; discriminate Hc).
    split; [exact Hno|]. split; [exact H300|].
    destruct (proj1 write_dir_groups _ _ _ _ E Hno) as (_ & _ & _ & _ & _ & Htwo).
    exact (Htwo H300).
  - assert (Hs : match sqfs_write_inodes 4 (Examples.info0 Examples.small_tree)
                                         Examples.image0 with
                 | Some (i, _) => S_ISDIR (mode (root (fs i)))
                 | None => false
                 end = true) by (vm_compute; reflexivity).
    destruct (sqfs_write_inodes 4 (Examples.info0 Examples.small_tree) Examples.image0)
      as [[info' image']|] eqn:E; [|discriminate Hs].
    assert (Hb : 2 + len (write_order (root (fs (Examples.info0 Examples.small_tree))))
                 < 2 ^ 32) by (vm_compute; reflexivity).
    destruct (proj2 (proj2 write_dir_groups) _ _ _ _ _ E Hb (root (fs info'))
                    (or_introl eq_refl) Hs)
      as (dm & dm' & di & di' & W & Hd & Hc & Hno).
    exists info', image', dm, dm', di, di'.
    split; [reflexivity|]. split; [exact Hb|]. split; [exact Hs|]. auto.
Defined.
